(** * SmartDeviceLink core: protocol handler and application manager

    A shallow embedding of
    [components/protocol_handler/src/protocol_handler_impl.cc] and
    [components/application_manager/src/application_manager_impl.cc],
    followed by the properties of the design document that were checked
    against it.

    Conventions.  C++ unsigned integers are [Z] values inside the range of
    their type; every place where the source narrows a value (an implicit
    conversion to a smaller unsigned type, a post-increment of a 32-bit
    counter) is written out with [mod].  [std::map] members are [gmap]s and
    [operator[]] is modelled with its default-inserting behaviour.  Calls to
    collaborators the two files only reach through an interface (session
    observer, security manager, connection handler, policy handler, message
    helper) are oracle functions for their results and entries of an event
    log for their effects. *)

From Stdlib Require Import ZArith List String Bool Lia.
From Stdlib.Strings Require Import Byte.
From stdpp Require Import base gmap strings list fin_maps.
Import ListNotations.
Local Open Scope Z_scope.

(** ** Machine integers and bytes *)

Definition u8 (z : Z) : Z := z mod 256.
Definition u32 (z : Z) : Z := z mod 2 ^ 32.

Definition byte_to_Z (b : byte) : Z := Z.of_N (Byte.to_N b).
Definition byte_of_Z (z : Z) : byte :=
  default Byte.x00 (Byte.of_N (Z.to_N (z mod 256))).

(** The four bytes of a 32-bit value, most significant first. *)
Definition be32 (z : Z) : list byte :=
  [byte_of_Z (Z.shiftr z 24); byte_of_Z (Z.shiftr z 16);
   byte_of_Z (Z.shiftr z 8); byte_of_Z z].

(** The 32-bit value of four bytes, most significant first. *)
Definition be32_decode (b0 b1 b2 b3 : byte) : Z :=
  byte_to_Z b0 * 2 ^ 24 + byte_to_Z b1 * 2 ^ 16 + byte_to_Z b2 * 2 ^ 8 + byte_to_Z b3.

(** [*(reinterpret_cast<uint32_t*>(p))] on the little-endian host the head
    unit runs on. *)
Definition host_load32 (b0 b1 b2 b3 : byte) : Z :=
  byte_to_Z b0 + byte_to_Z b1 * 2 ^ 8 + byte_to_Z b2 * 2 ^ 16 + byte_to_Z b3 * 2 ^ 24.

(** [BE_TO_LE32] and [LE_TO_BE32] of [utils/byte_order.h]: the byte swap of
    a 32-bit word. *)
Definition bswap32 (x : Z) : Z :=
  Z.lor (Z.lor (Z.shiftl (Z.land x 255) 24) (Z.shiftl (Z.land (Z.shiftr x 8) 255) 16))
        (Z.lor (Z.shiftl (Z.land (Z.shiftr x 16) 255) 8) (Z.land (Z.shiftr x 24) 255)).

(** The bytes [set_data(reinterpret_cast<const uint8_t*>(&x), 4)] copies out
    of a 32-bit variable on the little-endian host. *)
Definition host_store32 (x : Z) : list byte :=
  [byte_of_Z x; byte_of_Z (Z.shiftr x 8); byte_of_Z (Z.shiftr x 16);
   byte_of_Z (Z.shiftr x 24)].

(** ** Protocol constants *)

(** Modelled from the spec: [protocol/common.h] and
    [protocol_handler/session_observer.h] are not among the sources; the
    values are those of the wire format in the design document (section 6).
    [HASH_ID_WRONG] has no value there and is a field of [Build] below. *)

Definition PROTOCOL_VERSION_1 : Z := 1.
Definition PROTOCOL_VERSION_2 : Z := 2.
Definition PROTOCOL_VERSION_3 : Z := 3.
Definition PROTOCOL_VERSION_4 : Z := 4.

Definition PROTOCOL_HEADER_V1_SIZE : Z := 8.
Definition PROTOCOL_HEADER_V2_SIZE : Z := 12.

Definition PROTECTION_ON : bool := true.
Definition PROTECTION_OFF : bool := false.

Definition FRAME_TYPE_CONTROL : Z := 0.
Definition FRAME_TYPE_SINGLE : Z := 1.
Definition FRAME_TYPE_FIRST : Z := 2.
Definition FRAME_TYPE_CONSECUTIVE : Z := 3.

Definition FRAME_DATA_START_SERVICE : Z := 1.
Definition FRAME_DATA_START_SERVICE_ACK : Z := 2.
Definition FRAME_DATA_START_SERVICE_NACK : Z := 3.
Definition FRAME_DATA_END_SERVICE : Z := 4.
Definition FRAME_DATA_END_SERVICE_ACK : Z := 5.
Definition FRAME_DATA_END_SERVICE_NACK : Z := 6.
Definition FRAME_DATA_SERVICE_DATA_ACK : Z := 253.
Definition FRAME_DATA_HEART_BEAT : Z := 254.
Definition FRAME_DATA_HEART_BEAT_ACK : Z := 255.

Definition FRAME_DATA_SINGLE : Z := 0.
Definition FRAME_DATA_FIRST : Z := 0.
Definition FRAME_DATA_LAST_CONSECUTIVE : Z := 0.
Definition FRAME_DATA_MAX_CONSECUTIVE : Z := 127.
Definition FIRST_FRAME_DATA_SIZE : Z := 8.

Definition SERVICE_TYPE_CONTROL : Z := 0.
Definition SERVICE_TYPE_RPC : Z := 7.
Definition SERVICE_TYPE_AUDIO : Z := 10.
Definition SERVICE_TYPE_NAVI : Z := 11.
Definition SERVICE_TYPE_BULK : Z := 15.

Definition HASH_ID_NOT_SUPPORTED : Z := 0.

(** [enum ServiceType] and [ServiceTypeFromByte]. *)
Inductive ServiceType :=
  kControl | kRpc | kAudio | kMobileNav | kBulk | kInvalidServiceType.

Definition ServiceTypeFromByte (b : Z) : ServiceType :=
  if b =? SERVICE_TYPE_CONTROL then kControl
  else if b =? SERVICE_TYPE_RPC then kRpc
  else if b =? SERVICE_TYPE_AUDIO then kAudio
  else if b =? SERVICE_TYPE_NAVI then kMobileNav
  else if b =? SERVICE_TYPE_BULK then kBulk
  else kInvalidServiceType.

(** The numeric value of a [ServiceType]; [kInvalidServiceType] is 0xFF in
    [protocol/service_type.h]. *)
Definition ServiceTypeToByte (t : ServiceType) : Z :=
  match t with
  | kControl => SERVICE_TYPE_CONTROL
  | kRpc => SERVICE_TYPE_RPC
  | kAudio => SERVICE_TYPE_AUDIO
  | kMobileNav => SERVICE_TYPE_NAVI
  | kBulk => SERVICE_TYPE_BULK
  | kInvalidServiceType => 255
  end.

#[global] Instance ServiceType_eq_dec : EqDecision ServiceType.
Proof. solve_decision. Defined.

(** ** Packets *)

(** [ProtocolPacket]: the header fields and the payload.  [data_size()] is
    the length of the payload buffer. *)
Record ProtocolPacket := {
  connection_id : Z;
  protocol_version : Z;
  protection_flag : bool;
  frame_type : Z;
  service_type : Z;
  frame_data : Z;
  session_id : Z;
  message_id : Z;
  data : list byte
}.

Definition data_size (p : ProtocolPacket) : Z := Z.of_nat (length (data p)).

(** The constructor [ProtocolPacket(connection_id, version, protection,
    frameType, serviceType, frameData, sessionID, dataSize, messageID,
    data)]: it copies [dataSize] bytes from [data]; a null [data] is the
    empty list. *)
Definition ProtocolPacket_new (connection_id version : Z) (protection : bool)
    (frameType serviceType frameData sessionID dataSize messageID : Z)
    (mem : list byte) : ProtocolPacket :=
  {| connection_id := connection_id;
     protocol_version := version;
     protection_flag := protection;
     frame_type := frameType;
     service_type := serviceType;
     frame_data := frameData;
     session_id := sessionID;
     message_id := messageID;
     data := take (Z.to_nat dataSize) mem |}.

Definition set_data (bytes : list byte) (p : ProtocolPacket) : ProtocolPacket :=
  {| connection_id := connection_id p;
     protocol_version := protocol_version p;
     protection_flag := protection_flag p;
     frame_type := frame_type p;
     service_type := service_type p;
     frame_data := frame_data p;
     session_id := session_id p;
     message_id := message_id p;
     data := bytes |}.

(** [RawMessage] handed down by the application manager. *)
Record RawMessage := {
  raw_connection_key : Z;
  raw_protocol_version : Z;
  raw_service_type : Z;
  raw_data : list byte
}.

Definition raw_data_size (m : RawMessage) : Z := Z.of_nat (length (raw_data m)).

(** ** Build and profile settings *)

Record Build := {
  ENABLE_SECURITY : bool;
  MAXIMUM_FRAME_DATA_SIZE : Z;
  HASH_ID_WRONG : Z
}.

Record Profile := {
  heart_beat_timeout : Z;
  enable_protocol_4 : bool
}.

(** ** Hash id of a control packet *)

Definition set_hash_id (b : Build) (hash_id : Z) (packet : ProtocolPacket)
    : ProtocolPacket :=
  if (HASH_ID_NOT_SUPPORTED =? hash_id) || (HASH_ID_WRONG b =? hash_id) then packet
  else if protocol_version packet <? PROTOCOL_VERSION_2 then packet
  else
    let hash_id_be := bswap32 hash_id in
    set_data (host_store32 hash_id_be) packet.

Definition get_hash_id (b : Build) (packet : ProtocolPacket) : Z :=
  if protocol_version packet <? PROTOCOL_VERSION_2 then HASH_ID_NOT_SUPPORTED
  else if data_size packet <? 4 then HASH_ID_WRONG b
  else
    match data packet with
    | b0 :: b1 :: b2 :: b3 :: _ =>
        let hash_be := host_load32 b0 b1 b2 b3 in
        let hash_le := bswap32 hash_be in
        if hash_le =? HASH_ID_NOT_SUPPORTED then HASH_ID_WRONG b else hash_le
    | _ => HASH_ID_WRONG b
    end.

Definition SupportedSDLProtocolVersion (pr : Profile) : Z :=
  let heart_beat_support := negb (0 =? heart_beat_timeout pr) in
  let sdl4_support := enable_protocol_4 pr in
  if sdl4_support then PROTOCOL_VERSION_4
  else if heart_beat_support then PROTOCOL_VERSION_3
  else PROTOCOL_VERSION_2.

(** ** Collaborators of the protocol handler *)

Inductive RESULT_CODE :=
  RESULT_OK | RESULT_FAIL | RESULT_HEARTBEAT_IS_NOT_SUPPORTED.

Record SSLContext := {
  IsInitCompleted : bool;
  IsHandshakePending : bool;
  get_max_block_size : Z -> Z
}.

(** [SessionObserver]: the session registry, reached through an interface.
    [OnSessionStartedCallback] yields the session id and the hash id it
    writes through its out parameter. *)
Record SessionObserver := {
  OnSessionStartedCallback : Z -> Z -> ServiceType -> bool -> Z * Z;
  OnSessionEndedCallback : Z -> Z -> Z -> ServiceType -> Z;
  KeyFromPair : Z -> Z -> Z;
  PairFromKey : Z -> Z * Z;
  ProtocolVersionUsed : Z -> Z -> option Z;
  IsHeartBeatSupported : Z -> Z -> bool;
  GetSSLContext : Z -> ServiceType -> option SSLContext
}.

Record SecurityManager := {
  CreateSSLContext : Z -> option SSLContext
}.

(** The members of the [StartSessionHandler] listener. *)
Record StartSessionHandler := {
  connection_key_ : Z;
  connection_id_ : Z;
  session_id_ : Z;
  protocol_version_ : Z;
  hash_id_ : Z;
  service_type_ : ServiceType
}.

(** Calls that leave the protocol handler. *)
Inductive Call :=
  | CallOnApplicationFloodCallBack (connection_key : Z)
  | CallSetProtectionFlag (connection_key : Z) (service : ServiceType)
  | CallSendInternalError (connection_key : Z)
  | CallAddListener (handler : StartSessionHandler)
  | CallStartHandshake (connection_key : Z)
  | CallKeepConnectionAlive (connection_id session : Z)
  | CallNotifySubscribers (connection_key version service : Z) (payload : list byte).

(** ** Message meter *)

(** Modelled from the spec: [protocol_handler/message_meter.h] is not among
    the sources.  A time-window counter per identifier: [TrackMessage]
    records the arrival time, forgets the arrivals that left the window
    and returns how many remain; [RemoveIdentifier] resets the counter. *)
Module MessageMeter.

Record t := {
  time_range_ : Z;
  timing_map_ : gmap Z (list Z)
}.

Definition in_window (m : t) (now stamp : Z) : bool := now - time_range_ m <? stamp.

Definition Frequency (now id : Z) (m : t) : Z :=
  Z.of_nat (length (filter (fun stamp => in_window m now stamp = true)
                           (default [] (timing_map_ m !! id)))).

Definition TrackMessage (now id : Z) (m : t) : Z * t :=
  let timings := default [] (timing_map_ m !! id) ++ [now] in
  let kept := filter (fun stamp => in_window m now stamp = true) timings in
  (Z.of_nat (length kept),
   {| time_range_ := time_range_ m; timing_map_ := <[id := kept]> (timing_map_ m) |}).

Definition RemoveIdentifier (id : Z) (m : t) : t :=
  {| time_range_ := time_range_ m; timing_map_ := delete id (timing_map_ m) |}.

End MessageMeter.

(** ** State of the protocol handler *)

Record RawFordMessageToMobile := {
  frame : ProtocolPacket;
  is_final : bool
}.

(** Modelled from the spec: the buffer a First frame allocates and
    [ProtocolPacket::appendData] are in [protocol_packet.cc], which is not
    among the sources.  The first four bytes of the payload of a First
    frame announce the size of the message, most significant byte first;
    the packet kept for the message collects the payloads of the
    Consecutive frames in its [data], and to append more than the size
    announced is an error that leaves the packet as it is. *)
Record MultiFramePacket := {
  first_frame : ProtocolPacket;
  total_data_bytes : Z
}.

(** Modelled from the spec: the packet kept for a First frame, nothing
    collected yet. *)
Definition MultiFramePacket_new (p : ProtocolPacket) : MultiFramePacket :=
  {| first_frame := set_data [] p;
     total_data_bytes :=
       match data p with
       | b0 :: b1 :: b2 :: b3 :: _ => be32_decode b0 b1 b2 b3
       | _ => 0
       end |}.

(** Modelled from the spec: [ProtocolPacket::appendData], [None] standing
    for a result other than [RESULT_OK]. *)
Definition appendData (chunkData : list byte) (m : MultiFramePacket)
    : option MultiFramePacket :=
  if data_size (first_frame m) + Z.of_nat (length chunkData) <=? total_data_bytes m
  then Some {| first_frame := set_data (data (first_frame m) ++ chunkData) (first_frame m);
               total_data_bytes := total_data_bytes m |}
  else None.

(** [protocol_observers_] is the set of the observers, each named by a
    number; [incomplete_multi_frame_messages_] is keyed by the connection
    key. *)
Record ProtocolHandlerImpl := {
  build : Build;
  profile : Profile;
  protocol_observers_ : gset Z;
  session_observer_ : option SessionObserver;
  security_manager_ : option SecurityManager;
  message_max_frequency_ : Z;
  message_frequency_time_ : Z;
  message_counters_ : gmap Z Z;
  message_meter_ : MessageMeter.t;
  incomplete_multi_frame_messages_ : gmap Z MultiFramePacket;
  raw_ford_messages_to_mobile_ : list RawFordMessageToMobile;
  calls : list Call
}.

Definition with_counters (c : gmap Z Z) (ph : ProtocolHandlerImpl) : ProtocolHandlerImpl :=
  {| build := build ph; profile := profile ph;
     protocol_observers_ := protocol_observers_ ph;
     session_observer_ := session_observer_ ph;
     security_manager_ := security_manager_ ph;
     message_max_frequency_ := message_max_frequency_ ph;
     message_frequency_time_ := message_frequency_time_ ph;
     message_counters_ := c;
     message_meter_ := message_meter_ ph;
     incomplete_multi_frame_messages_ := incomplete_multi_frame_messages_ ph;
     raw_ford_messages_to_mobile_ := raw_ford_messages_to_mobile_ ph;
     calls := calls ph |}.

Definition with_meter (m : MessageMeter.t) (ph : ProtocolHandlerImpl) : ProtocolHandlerImpl :=
  {| build := build ph; profile := profile ph;
     protocol_observers_ := protocol_observers_ ph;
     session_observer_ := session_observer_ ph;
     security_manager_ := security_manager_ ph;
     message_max_frequency_ := message_max_frequency_ ph;
     message_frequency_time_ := message_frequency_time_ ph;
     message_counters_ := message_counters_ ph;
     message_meter_ := m;
     incomplete_multi_frame_messages_ := incomplete_multi_frame_messages_ ph;
     raw_ford_messages_to_mobile_ := raw_ford_messages_to_mobile_ ph;
     calls := calls ph |}.

(** [raw_ford_messages_to_mobile_.PostMessage(RawFordMessageToMobile(ptr, f))]:
    the queue keeps the order of posting. *)
Definition PostMessage (ptr : ProtocolPacket) (f : bool) (ph : ProtocolHandlerImpl)
    : ProtocolHandlerImpl :=
  {| build := build ph; profile := profile ph;
     protocol_observers_ := protocol_observers_ ph;
     session_observer_ := session_observer_ ph;
     security_manager_ := security_manager_ ph;
     message_max_frequency_ := message_max_frequency_ ph;
     message_frequency_time_ := message_frequency_time_ ph;
     message_counters_ := message_counters_ ph;
     message_meter_ := message_meter_ ph;
     incomplete_multi_frame_messages_ := incomplete_multi_frame_messages_ ph;
     raw_ford_messages_to_mobile_ :=
       raw_ford_messages_to_mobile_ ph ++ [{| frame := ptr; is_final := f |}];
     calls := calls ph |}.

Definition call (c : Call) (ph : ProtocolHandlerImpl) : ProtocolHandlerImpl :=
  {| build := build ph; profile := profile ph;
     protocol_observers_ := protocol_observers_ ph;
     session_observer_ := session_observer_ ph;
     security_manager_ := security_manager_ ph;
     message_max_frequency_ := message_max_frequency_ ph;
     message_frequency_time_ := message_frequency_time_ ph;
     message_counters_ := message_counters_ ph;
     message_meter_ := message_meter_ ph;
     incomplete_multi_frame_messages_ := incomplete_multi_frame_messages_ ph;
     raw_ford_messages_to_mobile_ := raw_ford_messages_to_mobile_ ph;
     calls := calls ph ++ [c] |}.

Definition with_incomplete_multi_frame_messages (v : gmap Z MultiFramePacket)
    (ph : ProtocolHandlerImpl) : ProtocolHandlerImpl :=
  {| build := build ph; profile := profile ph;
     protocol_observers_ := protocol_observers_ ph;
     session_observer_ := session_observer_ ph;
     security_manager_ := security_manager_ ph;
     message_max_frequency_ := message_max_frequency_ ph;
     message_frequency_time_ := message_frequency_time_ ph;
     message_counters_ := message_counters_ ph;
     message_meter_ := message_meter_ ph;
     incomplete_multi_frame_messages_ := v;
     raw_ford_messages_to_mobile_ := raw_ford_messages_to_mobile_ ph;
     calls := calls ph |}.

Definition with_protocol_observers (v : gset Z) (ph : ProtocolHandlerImpl)
    : ProtocolHandlerImpl :=
  {| build := build ph; profile := profile ph;
     protocol_observers_ := v;
     session_observer_ := session_observer_ ph;
     security_manager_ := security_manager_ ph;
     message_max_frequency_ := message_max_frequency_ ph;
     message_frequency_time_ := message_frequency_time_ ph;
     message_counters_ := message_counters_ ph;
     message_meter_ := message_meter_ ph;
     incomplete_multi_frame_messages_ := incomplete_multi_frame_messages_ ph;
     raw_ford_messages_to_mobile_ := raw_ford_messages_to_mobile_ ph;
     calls := calls ph |}.

(** [observer] is [None] for the null pointer. *)
Definition AddProtocolObserver (observer : option Z) (ph : ProtocolHandlerImpl)
    : ProtocolHandlerImpl :=
  match observer with
  | None => ph
  | Some o => with_protocol_observers ({[ o ]} ∪ protocol_observers_ ph) ph
  end.

Definition RemoveProtocolObserver (observer : option Z) (ph : ProtocolHandlerImpl)
    : ProtocolHandlerImpl :=
  match observer with
  | None => ph
  | Some o => with_protocol_observers (protocol_observers_ ph ∖ {[ o ]}) ph
  end.

(** [message_counters_[session_id]++] on [std::map<uint8_t, uint32_t>]: a
    missing entry is created at 0, the old value is the result, the stored
    value wraps at 2^32. *)
Definition counter_next (session_id : Z) (ph : ProtocolHandlerImpl)
    : Z * ProtocolHandlerImpl :=
  let old := default 0 (message_counters_ ph !! session_id) in
  (old, with_counters (<[session_id := u32 (old + 1)]> (message_counters_ ph)) ph).

(** A control frame without payload whose message id is drawn from the
    counter of [session_id]. *)
Definition post_control (connection_id version : Z) (protection : bool)
    (service_type frame_data session_id : Z) (ph : ProtocolHandlerImpl)
    : ProtocolPacket * ProtocolHandlerImpl :=
  let '(id, ph) := counter_next session_id ph in
  (ProtocolPacket_new connection_id version protection FRAME_TYPE_CONTROL
     service_type frame_data session_id 0 id [], ph).

(** ** Sending control frames *)

Definition SendStartSessionAck (connection_id session_id : Z) (_ : Z)
    (hash_id service_type : Z) (protection : bool) (ph : ProtocolHandlerImpl)
    : ProtocolHandlerImpl :=
  let protocolVersion := SupportedSDLProtocolVersion (profile ph) in
  let '(ptr, ph) := post_control connection_id protocolVersion protection
                      service_type FRAME_DATA_START_SERVICE_ACK session_id ph in
  let ptr := set_hash_id (build ph) hash_id ptr in
  PostMessage ptr false ph.

Definition SendStartSessionNAck (connection_id session_id protocol_version
    service_type : Z) (ph : ProtocolHandlerImpl) : ProtocolHandlerImpl :=
  let '(ptr, ph) := post_control connection_id protocol_version PROTECTION_OFF
                      service_type FRAME_DATA_START_SERVICE_NACK session_id ph in
  PostMessage ptr false ph.

(** [session_id] is a [uint32_t] parameter here; the packet constructor
    and the counter map take a [uint8_t]. *)
Definition SendEndSessionNAck (connection_id session_id protocol_version
    service_type : Z) (ph : ProtocolHandlerImpl) : ProtocolHandlerImpl :=
  let '(ptr, ph) := post_control connection_id protocol_version PROTECTION_OFF
                      service_type FRAME_DATA_END_SERVICE_NACK (u8 session_id) ph in
  PostMessage ptr false ph.

Definition SendEndSessionAck (connection_id session_id protocol_version
    service_type : Z) (ph : ProtocolHandlerImpl) : ProtocolHandlerImpl :=
  let '(ptr, ph) := post_control connection_id protocol_version PROTECTION_OFF
                      service_type FRAME_DATA_END_SERVICE_ACK session_id ph in
  PostMessage ptr false ph.

Definition SendEndServicePrivate (connection_id session_id service_type : Z)
    (ph : ProtocolHandlerImpl) : ProtocolHandlerImpl :=
  match session_observer_ ph with
  | None => ph
  | Some so =>
      match ProtocolVersionUsed so connection_id session_id with
      | Some protocol_version =>
          let '(ptr, ph) := post_control connection_id protocol_version PROTECTION_OFF
                              service_type FRAME_DATA_END_SERVICE session_id ph in
          PostMessage ptr false ph
      | None => ph
      end
  end.

Definition SendEndSession (connection_id session_id : Z) :=
  SendEndServicePrivate connection_id session_id SERVICE_TYPE_RPC.

Definition SendEndService (connection_id session_id service_type : Z) :=
  SendEndServicePrivate connection_id session_id service_type.

(** The acknowledgement mirrors the message id of the request; it does not
    touch the counter. *)
Definition SendHeartBeatAck (connection_id session_id message_id : Z)
    (ph : ProtocolHandlerImpl) : RESULT_CODE * ProtocolHandlerImpl :=
  match session_observer_ ph with
  | None => (RESULT_FAIL, ph)
  | Some so =>
      match ProtocolVersionUsed so connection_id session_id with
      | Some protocol_version =>
          let ptr := ProtocolPacket_new connection_id protocol_version PROTECTION_OFF
                       FRAME_TYPE_CONTROL SERVICE_TYPE_CONTROL FRAME_DATA_HEART_BEAT_ACK
                       session_id 0 message_id [] in
          (RESULT_OK, PostMessage ptr false ph)
      | None => (RESULT_FAIL, ph)
      end
  end.

Definition SendHeartBeat (connection_id session_id : Z) (ph : ProtocolHandlerImpl)
    : ProtocolHandlerImpl :=
  match session_observer_ ph with
  | None => ph
  | Some so =>
      match ProtocolVersionUsed so connection_id session_id with
      | Some protocol_version =>
          let '(ptr, ph) := post_control connection_id protocol_version PROTECTION_OFF
                              SERVICE_TYPE_CONTROL FRAME_DATA_HEART_BEAT session_id ph in
          PostMessage ptr false ph
      | None => ph
      end
  end.

(** ** Flow control of the video service *)

(** [SendFramesNumber]: [session_observer_] is dereferenced without a
    check, [so] is the observer it points to.  [number_of_frames] is an
    [int32_t]; [LE_TO_BE32] swaps the four bytes of its bit pattern. *)
Definition SendFramesNumber (so : SessionObserver) (connection_key number_of_frames : Z)
    (ph : ProtocolHandlerImpl) : ProtocolHandlerImpl :=
  let '(connection_id, session_id) := PairFromKey so connection_key in
  match ProtocolVersionUsed so connection_id session_id with
  | Some protocol_version =>
      let '(id, ph) := counter_next session_id ph in
      let ptr := ProtocolPacket_new connection_id protocol_version PROTECTION_OFF
                   FRAME_TYPE_CONTROL SERVICE_TYPE_NAVI FRAME_DATA_SERVICE_DATA_ACK
                   session_id 0 id [] in
      let number_of_frames := bswap32 (u32 number_of_frames) in
      let ptr := set_data (host_store32 number_of_frames) ptr in
      PostMessage ptr false ph
  | None => ph
  end.

(** ** Sending data frames *)

(** [protocol_version] is a [uint32_t] parameter; the packet constructor
    takes a [uint8_t]. *)
Definition SendSingleFrameMessage (connection_id session_id protocol_version
    service_type data_size : Z) (data : list byte) (is_final_message : bool)
    (ph : ProtocolHandlerImpl) : RESULT_CODE * ProtocolHandlerImpl :=
  let '(id, ph) := counter_next session_id ph in
  let ptr := ProtocolPacket_new connection_id (u8 protocol_version) PROTECTION_OFF
               FRAME_TYPE_SINGLE service_type FRAME_DATA_SINGLE session_id
               data_size id data in
  (RESULT_OK, PostMessage ptr is_final_message ph).

Definition lastframe_remainder (data_size max_frame_size : Z) : Z :=
  data_size mod max_frame_size.

Definition lastframe_size (data_size max_frame_size : Z) : Z :=
  if 0 <? lastframe_remainder data_size max_frame_size
  then lastframe_remainder data_size max_frame_size
  else max_frame_size.

Definition frames_count (data_size max_frame_size : Z) : Z :=
  data_size / max_frame_size +
  (if 0 <? lastframe_remainder data_size max_frame_size then 1 else 0).

(** The payload of the First frame: [out_data[0..7]], each assignment
    narrowing to [uint8_t]. *)
Definition first_frame_out_data (data_size frames_count : Z) : list byte :=
  [byte_of_Z (Z.shiftr data_size 24); byte_of_Z (Z.shiftr data_size 16);
   byte_of_Z (Z.shiftr data_size 8); byte_of_Z data_size;
   byte_of_Z (Z.shiftr frames_count 24); byte_of_Z (Z.shiftr frames_count 16);
   byte_of_Z (Z.shiftr frames_count 8); byte_of_Z frames_count].

(** One iteration of the loop over the Consecutive frames. *)
Definition consecutive_frame (connection_id session_id protocol_version
    service_type data_size : Z) (data : list byte) (max_frame_size : Z)
    (is_final_message : bool) (message_id : Z) (i : Z) : RawFordMessageToMobile :=
  let is_last_frame := i =? frames_count data_size max_frame_size - 1 in
  let frame_size :=
    if is_last_frame then lastframe_size data_size max_frame_size else max_frame_size in
  let data_type :=
    if is_last_frame then FRAME_DATA_LAST_CONSECUTIVE
    else u8 (i mod FRAME_DATA_MAX_CONSECUTIVE + 1) in
  let is_final_packet := if is_last_frame then is_final_message else false in
  {| frame := ProtocolPacket_new connection_id protocol_version PROTECTION_OFF
                FRAME_TYPE_CONSECUTIVE service_type data_type session_id frame_size
                message_id (drop (Z.to_nat (max_frame_size * i)) data);
     is_final := is_final_packet |}.

(** [for (uint32_t i = 0; i < frames_count; ++i)]: [n] iterations are left
    and the index stands at [i]. *)
Fixpoint consecutive_frames (n : nat) (i : Z) (mk : Z -> RawFordMessageToMobile)
    : list RawFordMessageToMobile :=
  match n with
  | O => []
  | S n' => mk i :: consecutive_frames n' (u32 (i + 1)) mk
  end.

Definition post_all (l : list RawFordMessageToMobile) (ph : ProtocolHandlerImpl)
    : ProtocolHandlerImpl :=
  fold_left (fun ph m => PostMessage (frame m) (is_final m) ph) l ph.

(** [max_frame_size] is positive ([DCHECK(max_frame_size >=
    FIRST_FRAME_DATA_SIZE)]); the message id is held in a [uint8_t] local. *)
Definition SendMultiFrameMessage (connection_id session_id protocol_version
    service_type data_size : Z) (data : list byte) (max_frame_size : Z)
    (is_final_message : bool) (ph : ProtocolHandlerImpl)
    : RESULT_CODE * ProtocolHandlerImpl :=
  let frames_count := frames_count data_size max_frame_size in
  let out_data := first_frame_out_data data_size frames_count in
  let '(counter, ph) := counter_next session_id ph in
  let message_id := u8 counter in
  let firstPacket :=
    ProtocolPacket_new connection_id protocol_version PROTECTION_OFF FRAME_TYPE_FIRST
      service_type FRAME_DATA_FIRST session_id FIRST_FRAME_DATA_SIZE message_id
      out_data in
  let ph := PostMessage firstPacket false ph in
  let ph := post_all (consecutive_frames (Z.to_nat frames_count) 0
                        (consecutive_frame connection_id session_id protocol_version
                           service_type data_size data max_frame_size
                           is_final_message message_id)) ph in
  (RESULT_OK, ph).

Definition SendMessageToMobileApp (message : RawMessage) (final_message : bool)
    (ph : ProtocolHandlerImpl) : ProtocolHandlerImpl :=
  match session_observer_ ph with
  | None => ph
  | Some so =>
      let '(connection_handle, sessionID) := PairFromKey so (raw_connection_key message) in
      let header_size :=
        if PROTOCOL_VERSION_1 =? raw_protocol_version message
        then PROTOCOL_HEADER_V1_SIZE else PROTOCOL_HEADER_V2_SIZE in
      let max_frame_size := u32 (MAXIMUM_FRAME_DATA_SIZE (build ph) - header_size) in
      let max_frame_size :=
        if ENABLE_SECURITY (build ph) then
          match GetSSLContext so (raw_connection_key message)
                  (ServiceTypeFromByte (raw_service_type message)) with
          | Some ssl_context =>
              if IsInitCompleted ssl_context then
                let max_block_size := get_max_block_size ssl_context max_frame_size in
                if 0 <? max_block_size then max_block_size else max_frame_size
              else max_frame_size
          | None => max_frame_size
          end
        else max_frame_size in
      if raw_data_size message <=? max_frame_size then
        snd (SendSingleFrameMessage connection_handle sessionID
               (raw_protocol_version message) (raw_service_type message)
               (raw_data_size message) (raw_data message) final_message ph)
      else
        snd (SendMultiFrameMessage connection_handle sessionID
               (u8 (raw_protocol_version message)) (raw_service_type message)
               (raw_data_size message) (raw_data message) max_frame_size
               final_message ph)
  end.

(** ** Control frames from mobile *)

Definition HandleControlMessageEndSession (so : SessionObserver) (connection_id : Z)
    (packet : ProtocolPacket) (ph : ProtocolHandlerImpl)
    : RESULT_CODE * ProtocolHandlerImpl :=
  let current_session_id := session_id packet in
  let hash_id := get_hash_id (build ph) packet in
  let service_type := ServiceTypeFromByte (service_type packet) in
  let session_key :=
    OnSessionEndedCallback so connection_id current_session_id hash_id service_type in
  if negb (session_key =? 0) then
    let ph := SendEndSessionAck connection_id current_session_id
                (protocol_version packet) (ServiceTypeToByte service_type) ph in
    (RESULT_OK, with_counters (delete current_session_id (message_counters_ ph)) ph)
  else
    (RESULT_OK, SendEndSessionNAck connection_id current_session_id
                  (protocol_version packet) (ServiceTypeToByte service_type) ph).

(** [StartSessionHandler::OnHandshakeDone]. *)
Definition OnHandshakeDone (so : SessionObserver) (h : StartSessionHandler)
    (connection_key : Z) (success : bool) (ph : ProtocolHandlerImpl)
    : bool * ProtocolHandlerImpl :=
  if negb (connection_key =? connection_key_ h) then (false, ph)
  else
    let was_service_protection_enabled :=
      match GetSSLContext so (connection_key_ h) (service_type_ h) with
      | Some _ => true
      | None => false
      end in
    if was_service_protection_enabled then
      if success then
        (true, SendStartSessionNAck (connection_id_ h) (u8 (session_id_ h))
                 (protocol_version_ h) (ServiceTypeToByte (service_type_ h)) ph)
      else (true, ph)
    else
      let ph := if success
                then call (CallSetProtectionFlag (connection_key_ h) (service_type_ h)) ph
                else ph in
      (true, SendStartSessionAck (connection_id_ h) (u8 (session_id_ h))
               (protocol_version_ h) (hash_id_ h)
               (ServiceTypeToByte (service_type_ h)) success ph).

(** The registry answers with a [uint32_t] session id; the callees take a
    [uint8_t]. *)
Definition HandleControlMessageStartSession (so : SessionObserver) (connection_id : Z)
    (packet : ProtocolPacket) (ph : ProtocolHandlerImpl)
    : RESULT_CODE * ProtocolHandlerImpl :=
  let service_type_e := ServiceTypeFromByte (service_type packet) in
  let protocol_version := protocol_version packet in
  let protection :=
    if ENABLE_SECURITY (build ph) then
      if PROTOCOL_VERSION_1 <? protocol_version then protection_flag packet else false
    else false in
  let '(session_id_new, hash_id) :=
    OnSessionStartedCallback so connection_id (session_id packet) service_type_e
      protection in
  if 0 =? session_id_new then
    (RESULT_OK, SendStartSessionNAck connection_id (session_id packet)
                  protocol_version (service_type packet) ph)
  else
    let unprotected :=
      (RESULT_OK, SendStartSessionAck connection_id (u8 session_id_new)
                    (protocol_version) hash_id (service_type packet)
                    PROTECTION_OFF ph) in
    if ENABLE_SECURITY (build ph) then
      match security_manager_ ph with
      | Some security_manager =>
          if protection then
            let connection_key := KeyFromPair so connection_id (u8 session_id_new) in
            match CreateSSLContext security_manager connection_key with
            | None =>
                let ph := call (CallSendInternalError connection_key) ph in
                (RESULT_OK, SendStartSessionAck connection_id (u8 session_id_new)
                              protocol_version hash_id (service_type packet)
                              PROTECTION_OFF ph)
            | Some ssl_context =>
                if IsInitCompleted ssl_context then
                  let ph := call (CallSetProtectionFlag connection_key service_type_e) ph in
                  (RESULT_OK, SendStartSessionAck connection_id (u8 session_id_new)
                                protocol_version hash_id (service_type packet)
                                PROTECTION_ON ph)
                else
                  let ph := call (CallAddListener
                                    {| connection_key_ := connection_key;
                                       connection_id_ := connection_id;
                                       session_id_ := session_id_new;
                                       protocol_version_ := protocol_version;
                                       hash_id_ := hash_id;
                                       service_type_ := service_type_e |}) ph in
                  let ph := if negb (IsHandshakePending ssl_context)
                            then call (CallStartHandshake connection_key) ph
                            else ph in
                  (RESULT_OK, ph)
            end
          else unprotected
      | None => unprotected
      end
    else unprotected.

Definition HandleControlMessageHeartBeat (so : SessionObserver) (connection_id : Z)
    (packet : ProtocolPacket) (ph : ProtocolHandlerImpl)
    : RESULT_CODE * ProtocolHandlerImpl :=
  match ProtocolVersionUsed so connection_id (session_id packet) with
  | Some protocol_version =>
      if (PROTOCOL_VERSION_3 =? protocol_version) || (PROTOCOL_VERSION_4 =? protocol_version)
      then SendHeartBeatAck connection_id (session_id packet) (message_id packet) ph
      else (RESULT_HEARTBEAT_IS_NOT_SUPPORTED, ph)
  | None => (RESULT_FAIL, ph)
  end.

Definition HandleControlMessage (connection_id : Z) (packet : ProtocolPacket)
    (ph : ProtocolHandlerImpl) : RESULT_CODE * ProtocolHandlerImpl :=
  match session_observer_ ph with
  | None => (RESULT_FAIL, ph)
  | Some so =>
      if frame_data packet =? FRAME_DATA_START_SERVICE
      then HandleControlMessageStartSession so connection_id packet ph
      else if frame_data packet =? FRAME_DATA_END_SERVICE
      then HandleControlMessageEndSession so connection_id packet ph
      else if frame_data packet =? FRAME_DATA_HEART_BEAT
      then HandleControlMessageHeartBeat so connection_id packet ph
      else (RESULT_OK, ph)
  end.

Definition HandleSingleFrameMessage (connection_id : Z) (packet : ProtocolPacket)
    (ph : ProtocolHandlerImpl) : RESULT_CODE * ProtocolHandlerImpl :=
  match session_observer_ ph with
  | None => (RESULT_FAIL, ph)
  | Some so =>
      let connection_key := KeyFromPair so connection_id (session_id packet) in
      (RESULT_OK, call (CallNotifySubscribers connection_key (protocol_version packet)
                          (service_type packet) (data packet)) ph)
  end.

(** [incomplete_multi_frame_messages_] holds pointers: [appendData]
    writes to the packet the entry points to.  The key is kept in an
    [int32_t]; the conversion is one to one. *)
Definition HandleMultiFrameMessage (connection_id : Z) (packet : ProtocolPacket)
    (ph : ProtocolHandlerImpl) : RESULT_CODE * ProtocolHandlerImpl :=
  match session_observer_ ph with
  | None => (RESULT_FAIL, ph)
  | Some so =>
      let key := KeyFromPair so connection_id (session_id packet) in
      if frame_type packet =? FRAME_TYPE_FIRST then
        (RESULT_OK,
         with_incomplete_multi_frame_messages
           (<[key := MultiFramePacket_new packet]> (incomplete_multi_frame_messages_ ph))
           ph)
      else
        match incomplete_multi_frame_messages_ ph !! key with
        | None => (RESULT_FAIL, ph)
        | Some it =>
            match appendData (data packet) it with
            | None => (RESULT_FAIL, ph)
            | Some completePacket =>
                let ph := with_incomplete_multi_frame_messages
                            (<[key := completePacket]>
                               (incomplete_multi_frame_messages_ ph)) ph in
                if frame_data packet =? FRAME_DATA_LAST_CONSECUTIVE then
                  if bool_decide (protocol_observers_ ph = ∅) then (RESULT_FAIL, ph)
                  else
                    let connection_key :=
                      KeyFromPair so connection_id
                        (session_id (first_frame completePacket)) in
                    let ph := call (CallNotifySubscribers connection_key
                                      (protocol_version (first_frame completePacket))
                                      (service_type (first_frame completePacket))
                                      (data (first_frame completePacket))) ph in
                    (RESULT_OK,
                     with_incomplete_multi_frame_messages
                       (delete key (incomplete_multi_frame_messages_ ph)) ph)
                else (RESULT_OK, ph)
            end
        end
  end.

Definition HandleMessage (connection_id : Z) (packet : ProtocolPacket)
    (ph : ProtocolHandlerImpl) : RESULT_CODE * ProtocolHandlerImpl :=
  if frame_type packet =? FRAME_TYPE_CONTROL then HandleControlMessage connection_id packet ph
  else if frame_type packet =? FRAME_TYPE_SINGLE
  then HandleSingleFrameMessage connection_id packet ph
  else if (frame_type packet =? FRAME_TYPE_FIRST)
          || (frame_type packet =? FRAME_TYPE_CONSECUTIVE)
  then HandleMultiFrameMessage connection_id packet ph
  else (RESULT_FAIL, ph).

(** ** Flood metering *)

(** [now] is the clock the meter reads. *)
Definition TrackMessage (now connection_key : Z) (ph : ProtocolHandlerImpl)
    : bool * ProtocolHandlerImpl :=
  if (0 <? message_frequency_time_ ph) && (0 <? message_max_frequency_ ph) then
    let '(message_frequency, meter) :=
      MessageMeter.TrackMessage now connection_key (message_meter_ ph) in
    let ph := with_meter meter ph in
    if message_max_frequency_ ph <? message_frequency then
      let ph := match session_observer_ ph with
                | Some _ => call (CallOnApplicationFloodCallBack connection_key) ph
                | None => ph
                end in
      (true, with_meter (MessageMeter.RemoveIdentifier connection_key (message_meter_ ph)) ph)
    else (false, ph)
  else (false, ph).

(** [Handle(const impl::RawFordMessageFromMobile message)]. *)
Definition Handle_FromMobile (now : Z) (message : ProtocolPacket)
    (ph : ProtocolHandlerImpl) : ProtocolHandlerImpl :=
  match session_observer_ ph with
  | None => ph
  | Some so =>
      let '(flood, ph) :=
        if (service_type message =? SERVICE_TYPE_NAVI)
           || (service_type message =? SERVICE_TYPE_AUDIO)
        then (false, ph)
        else TrackMessage now
               (KeyFromPair so (connection_id message) (session_id message)) ph in
      if flood then ph
      else
        let c_id := u8 (connection_id message) in
        let m_id := session_id message in
        let ph := if IsHeartBeatSupported so c_id m_id
                  then call (CallKeepConnectionAlive c_id m_id) ph else ph in
        if (negb (data_size message =? 0))
           || (FRAME_TYPE_CONTROL =? frame_type message)
           || (FRAME_TYPE_FIRST =? frame_type message)
        then snd (HandleMessage (connection_id message) message ph)
        else ph
  end.

(** * Application manager *)

(** ** Enumerations of the mobile API *)

Module HMILevel.
Inductive eType := INVALID_ENUM | HMI_FULL | HMI_LIMITED | HMI_BACKGROUND | HMI_NONE.
#[global] Instance eq_dec : EqDecision eType.
Proof. solve_decision. Defined.
End HMILevel.

Module AudioStreamingState.
Inductive eType := INVALID_ENUM | AUDIBLE | ATTENUATED | NOT_AUDIBLE.
#[global] Instance eq_dec : EqDecision eType.
Proof. solve_decision. Defined.
End AudioStreamingState.

Module SystemContext.
Inductive eType :=
  INVALID_ENUM | SYSCTXT_MAIN | SYSCTXT_VRSESSION | SYSCTXT_MENU
| SYSCTXT_HMI_OBSCURED | SYSCTXT_ALERT.
End SystemContext.

Module AppInterfaceUnregisteredReason.
Inductive eType :=
  INVALID_ENUM | IGNITION_OFF | BLUETOOTH_OFF | USB_DISCONNECTED
| REQUEST_WHILE_IN_NONE_HMI_LEVEL | TOO_MANY_REQUESTS | DRIVER_DISTRACTION_VIOLATION
| LANGUAGE_CHANGE | MASTER_RESET | FACTORY_DEFAULTS | APP_UNAUTHORIZED
| PROTOCOL_VIOLATION.
#[global] Instance eq_dec : EqDecision eType.
Proof. solve_decision. Defined.
End AppInterfaceUnregisteredReason.

Module Result.
Inductive eType :=
  INVALID_ENUM | SUCCESS | DISALLOWED | USER_DISALLOWED | INVALID_CERT | EXPIRED_CERT
| TOO_MANY_PENDING_REQUESTS | ABORTED | GENERIC_ERROR | APPLICATION_NOT_REGISTERED
| OUT_OF_MEMORY.
#[global] Instance eq_dec : EqDecision eType.
Proof. solve_decision. Defined.
End Result.

Module FunctionID.
Inductive eType :=
  RegisterAppInterfaceID | UnregisterAppInterfaceID | OtherFunctionID (n : Z).
#[global] Instance eq_dec : EqDecision eType.
Proof. solve_decision. Defined.
End FunctionID.

Module messageType.
Inductive eType := INVALID_ENUM | request | response | notification.
End messageType.

(** [request_controller::RequestController::TResult]. *)
Module RequestController.
Inductive TResult :=
  SUCCESS | TOO_MANY_REQUESTS | TOO_MANY_PENDING_REQUESTS
| NONE_HMI_LEVEL_MANY_REQUESTS | INVALID_DATA.
End RequestController.

#[global] Instance ServiceType_countable : Countable ServiceType.
Proof.
  refine (inj_countable'
    (fun t => match t with
              | kControl => 0%nat | kRpc => 1%nat | kAudio => 2%nat
              | kMobileNav => 3%nat | kBulk => 4%nat | kInvalidServiceType => 5%nat
              end)
    (fun n => match n with
              | 0%nat => kControl | 1%nat => kRpc | 2%nat => kAudio
              | 3%nat => kMobileNav | 4%nat => kBulk | _ => kInvalidServiceType
              end) _).
  intros []; reflexivity.
Defined.

(** ** Applications *)

(** The attributes of [ApplicationImpl] the manager reads and writes. *)
Record Application := {
  app_id : Z;
  mobile_app_id : string;
  name : string;
  device : Z;
  hmi_app_id : Z;
  app_protocol_version : Z;
  language : Z;
  ui_language : Z;
  hmi_level : HMILevel.eType;
  audio_streaming_state : AudioStreamingState.eType;
  system_context : SystemContext.eType;
  is_media_application : bool;
  is_voice_communication_supported : bool;
  is_navi : bool;
  hmi_supports_navi_video_streaming : bool;
  hmi_supports_navi_audio_streaming : bool;
  has_been_activated : bool;
  is_streaming_allowed : bool;
  streaming : bool
}.

Definition set_hmi_level (l : HMILevel.eType) (a : Application) : Application :=
  {| app_id := app_id a; mobile_app_id := mobile_app_id a; name := name a;
     device := device a; hmi_app_id := hmi_app_id a;
     app_protocol_version := app_protocol_version a;
     language := language a; ui_language := ui_language a;
     hmi_level := l;
     audio_streaming_state := audio_streaming_state a;
     system_context := system_context a;
     is_media_application := is_media_application a;
     is_voice_communication_supported := is_voice_communication_supported a;
     is_navi := is_navi a;
     hmi_supports_navi_video_streaming := hmi_supports_navi_video_streaming a;
     hmi_supports_navi_audio_streaming := hmi_supports_navi_audio_streaming a;
     has_been_activated := has_been_activated a;
     is_streaming_allowed := is_streaming_allowed a;
     streaming := streaming a |}.

Definition set_audio_streaming_state (s : AudioStreamingState.eType) (a : Application)
    : Application :=
  {| app_id := app_id a; mobile_app_id := mobile_app_id a; name := name a;
     device := device a; hmi_app_id := hmi_app_id a;
     app_protocol_version := app_protocol_version a;
     language := language a; ui_language := ui_language a;
     hmi_level := hmi_level a;
     audio_streaming_state := s;
     system_context := system_context a;
     is_media_application := is_media_application a;
     is_voice_communication_supported := is_voice_communication_supported a;
     is_navi := is_navi a;
     hmi_supports_navi_video_streaming := hmi_supports_navi_video_streaming a;
     hmi_supports_navi_audio_streaming := hmi_supports_navi_audio_streaming a;
     has_been_activated := has_been_activated a;
     is_streaming_allowed := is_streaming_allowed a;
     streaming := streaming a |}.

Definition set_system_context (c : SystemContext.eType) (a : Application) : Application :=
  {| app_id := app_id a; mobile_app_id := mobile_app_id a; name := name a;
     device := device a; hmi_app_id := hmi_app_id a;
     app_protocol_version := app_protocol_version a;
     language := language a; ui_language := ui_language a;
     hmi_level := hmi_level a;
     audio_streaming_state := audio_streaming_state a;
     system_context := c;
     is_media_application := is_media_application a;
     is_voice_communication_supported := is_voice_communication_supported a;
     is_navi := is_navi a;
     hmi_supports_navi_video_streaming := hmi_supports_navi_video_streaming a;
     hmi_supports_navi_audio_streaming := hmi_supports_navi_audio_streaming a;
     has_been_activated := has_been_activated a;
     is_streaming_allowed := is_streaming_allowed a;
     streaming := streaming a |}.

Definition set_activated (v : bool) (a : Application) : Application :=
  {| app_id := app_id a; mobile_app_id := mobile_app_id a; name := name a;
     device := device a; hmi_app_id := hmi_app_id a;
     app_protocol_version := app_protocol_version a;
     language := language a; ui_language := ui_language a;
     hmi_level := hmi_level a;
     audio_streaming_state := audio_streaming_state a;
     system_context := system_context a;
     is_media_application := is_media_application a;
     is_voice_communication_supported := is_voice_communication_supported a;
     is_navi := is_navi a;
     hmi_supports_navi_video_streaming := hmi_supports_navi_video_streaming a;
     hmi_supports_navi_audio_streaming := hmi_supports_navi_audio_streaming a;
     has_been_activated := v;
     is_streaming_allowed := is_streaming_allowed a;
     streaming := streaming a |}.

Definition set_streaming_allowed (v : bool) (a : Application) : Application :=
  {| app_id := app_id a; mobile_app_id := mobile_app_id a; name := name a;
     device := device a; hmi_app_id := hmi_app_id a;
     app_protocol_version := app_protocol_version a;
     language := language a; ui_language := ui_language a;
     hmi_level := hmi_level a;
     audio_streaming_state := audio_streaming_state a;
     system_context := system_context a;
     is_media_application := is_media_application a;
     is_voice_communication_supported := is_voice_communication_supported a;
     is_navi := is_navi a;
     hmi_supports_navi_video_streaming := hmi_supports_navi_video_streaming a;
     hmi_supports_navi_audio_streaming := hmi_supports_navi_audio_streaming a;
     has_been_activated := has_been_activated a;
     is_streaming_allowed := v;
     streaming := streaming a |}.

Definition set_streaming (v : bool) (a : Application) : Application :=
  {| app_id := app_id a; mobile_app_id := mobile_app_id a; name := name a;
     device := device a; hmi_app_id := hmi_app_id a;
     app_protocol_version := app_protocol_version a;
     language := language a; ui_language := ui_language a;
     hmi_level := hmi_level a;
     audio_streaming_state := audio_streaming_state a;
     system_context := system_context a;
     is_media_application := is_media_application a;
     is_voice_communication_supported := is_voice_communication_supported a;
     is_navi := is_navi a;
     hmi_supports_navi_video_streaming := hmi_supports_navi_video_streaming a;
     hmi_supports_navi_audio_streaming := hmi_supports_navi_audio_streaming a;
     has_been_activated := has_been_activated a;
     is_streaming_allowed := is_streaming_allowed a;
     streaming := v |}.

Definition is_level (l : HMILevel.eType) (a : Application) : bool :=
  bool_decide (hmi_level a = l).

Definition IsFullscreen (a : Application) : bool := is_level HMILevel.HMI_FULL a.

(** Modelled from the spec: [ApplicationImpl::IsAudioApplication] is not
    among the sources; an application is audio-capable when it belongs to
    one of the exclusivity classes media, voice, navi. *)
Definition IsAudioApplication (a : Application) : bool :=
  is_media_application a || is_voice_communication_supported a || is_navi a.

(** ** The application set

    [ApplictionSet] is a [std::set] of shared pointers ordered by
    [app_id]: a list kept in increasing order of [app_id], without
    repetition.  A shared pointer held by a caller designates the element
    with its [app_id]. *)

Fixpoint Insert (a : Application) (l : list Application) : list Application :=
  match l with
  | [] => [a]
  | b :: l' =>
      if app_id a <? app_id b then a :: b :: l'
      else if app_id b <? app_id a then b :: Insert a l'
      else b :: l'
  end.

Fixpoint Erase (id : Z) (l : list Application) : list Application :=
  match l with
  | [] => []
  | b :: l' => if app_id b =? id then l' else b :: Erase id l'
  end.

(** [accessor.Find(pred)]: the first element that satisfies [pred]. *)
Fixpoint Find (pred : Application -> bool) (l : list Application) : option Application :=
  match l with
  | [] => None
  | b :: l' => if pred b then Some b else Find pred l'
  end.

(** A write through the pointer [application(id)] returned. *)
Fixpoint update_app (id : Z) (f : Application -> Application) (l : list Application)
    : list Application :=
  match l with
  | [] => []
  | b :: l' => if app_id b =? id then f b :: l' else b :: update_app id f l'
  end.

Definition ActiveAppPredicate (a : Application) : bool := IsFullscreen a.
Definition LimitedAppPredicate (a : Application) : bool := is_level HMILevel.HMI_LIMITED a.
Definition LimitedNaviAppPredicate (a : Application) : bool :=
  is_navi a && is_level HMILevel.HMI_LIMITED a.
Definition LimitedVoiceAppPredicate (a : Application) : bool :=
  is_voice_communication_supported a && is_level HMILevel.HMI_LIMITED a.

(** ** Messages, events and collaborators of the application manager *)

(** The parameters of a mobile message the manager looks at. *)
Record MobileMessage := {
  function_id : FunctionID.eType;
  correlation_id : option Z;
  connection_key : Z;
  protocol_type : Z;
  message_type : messageType.eType;
  result_code : option Result.eType
}.

(** [commands::CommandImpl::mobile_protocol_type_]. *)
Definition mobile_protocol_type_ : Z := 0.

(** The parameters of a RegisterAppInterface request that
    [RegisterApplication] reads. *)
Record RegisterRequest := {
  rq_connection_key : Z;
  rq_correlation_id : Z;
  rq_app_id : string;
  rq_app_name : string;
  rq_language_desired : Z;
  rq_hmi_display_language_desired : Z;
  rq_protocol_version : Z
}.

(** What the manager sends or asks of its collaborators, in order. *)
Inductive Event :=
  | SendOnAppInterfaceUnregisteredNotificationToMobile
      (connection_key : Z) (reason : AppInterfaceUnregisteredReason.eType)
  | SendHMIStatusNotification
      (app : Z) (level : HMILevel.eType) (audio : AudioStreamingState.eType)
  | SendAppDataToHMI (app : Z)
  | SendNegativeResponse
      (connection_key : Z) (function : FunctionID.eType) (correlation_id : Z)
      (code : Result.eType)
  | SendEndServiceToMobile (connection_key : Z) (service : ServiceType)
  | SendOnAppUnregNotificationToHMI (app : Z) (is_unexpected_disconnect : bool)
  | SendUpdateAppList
  | StartVideoStreaming (connection_key : Z)
  | StartAudioStreaming (connection_key : Z)
  | StopVideoStreaming (connection_key : Z)
  | StopAudioStreaming (connection_key : Z)
  | ResumeSaveApplication (app : Z)
  | ResumeRemoveApplicationFromSaved (policy_app_id : string)
  | TerminateAppRequests (app : Z)
  | StopAudioPassThru (app : Z)
  | RunCommand (message : MobileMessage)
  | PerformRequest (message : MobileMessage)
  | PolicyAddApplication (policy_app_id : string)
  | BindProtocolVersionWithSession (connection_key version : Z)
  | StartSessionHeartBeat (connection_key : Z).

(** Answers of the collaborators: connection handler, policy handler,
    resume controller, command factory and request controller.
    [GetDataOnSessionKey] yields the internal application id and the device
    handle, [None] standing for the result -1. *)
Record Collaborators := {
  GetDataOnSessionKey : Z -> option (Z * Z);
  GetDataOnDeviceID : Z -> option string;
  PolicyEnabled : bool;
  GetDefaultHmi : string -> option string;
  heart_beat_timeout_ : Z;
  IsApplicationSaved : string -> bool;
  GetHMIApplicationID : string -> Z;
  GenerateNewHMIAppID : Z;
  CreateCommand : MobileMessage -> bool;
  addMobileRequest : MobileMessage -> HMILevel.eType -> RequestController.TResult
}.

(** The callback [end_services_timer] was last started with. *)
Inductive TimerCallback := cbEndNaviServices | cbCloseNaviApp.

(** ** State of the application manager

    [connection_handler_] and [media_manager_] tell whether the pointer of
    that name is set.  [removals_for_bad_behavior] is the usage counter
    [RecordRemovalsForBadBehavior] increments, per policy application id. *)
Record ApplicationManagerImpl := {
  applications_ : list Application;
  apps_to_register_ : list Application;
  forbidden_applications : gset string;
  service_status_ : gmap ServiceType (bool * bool);
  navi_app_to_stop_ : Z;
  unregister_reason_ : AppInterfaceUnregisteredReason.eType;
  end_services_timer : option TimerCallback;
  is_all_apps_allowed_ : bool;
  is_low_voltage_ : bool;
  audio_pass_thru_active_ : bool;
  connection_handler_ : bool;
  media_manager_ : bool;
  removals_for_bad_behavior : gmap string Z;
  events : list Event
}.

Definition with_applications (v : list Application) (am : ApplicationManagerImpl)
    : ApplicationManagerImpl :=
  {| applications_ := v;
     apps_to_register_ := apps_to_register_ am;
     forbidden_applications := forbidden_applications am;
     service_status_ := service_status_ am;
     navi_app_to_stop_ := navi_app_to_stop_ am;
     unregister_reason_ := unregister_reason_ am;
     end_services_timer := end_services_timer am;
     is_all_apps_allowed_ := is_all_apps_allowed_ am;
     is_low_voltage_ := is_low_voltage_ am;
     audio_pass_thru_active_ := audio_pass_thru_active_ am;
     connection_handler_ := connection_handler_ am;
     media_manager_ := media_manager_ am;
     removals_for_bad_behavior := removals_for_bad_behavior am;
     events := events am |}.

Definition with_apps_to_register (v : list Application) (am : ApplicationManagerImpl)
    : ApplicationManagerImpl :=
  {| applications_ := applications_ am;
     apps_to_register_ := v;
     forbidden_applications := forbidden_applications am;
     service_status_ := service_status_ am;
     navi_app_to_stop_ := navi_app_to_stop_ am;
     unregister_reason_ := unregister_reason_ am;
     end_services_timer := end_services_timer am;
     is_all_apps_allowed_ := is_all_apps_allowed_ am;
     is_low_voltage_ := is_low_voltage_ am;
     audio_pass_thru_active_ := audio_pass_thru_active_ am;
     connection_handler_ := connection_handler_ am;
     media_manager_ := media_manager_ am;
     removals_for_bad_behavior := removals_for_bad_behavior am;
     events := events am |}.

Definition with_forbidden_applications (v : gset string) (am : ApplicationManagerImpl)
    : ApplicationManagerImpl :=
  {| applications_ := applications_ am;
     apps_to_register_ := apps_to_register_ am;
     forbidden_applications := v;
     service_status_ := service_status_ am;
     navi_app_to_stop_ := navi_app_to_stop_ am;
     unregister_reason_ := unregister_reason_ am;
     end_services_timer := end_services_timer am;
     is_all_apps_allowed_ := is_all_apps_allowed_ am;
     is_low_voltage_ := is_low_voltage_ am;
     audio_pass_thru_active_ := audio_pass_thru_active_ am;
     connection_handler_ := connection_handler_ am;
     media_manager_ := media_manager_ am;
     removals_for_bad_behavior := removals_for_bad_behavior am;
     events := events am |}.

Definition with_service_status (v : gmap ServiceType (bool * bool)) (am : ApplicationManagerImpl)
    : ApplicationManagerImpl :=
  {| applications_ := applications_ am;
     apps_to_register_ := apps_to_register_ am;
     forbidden_applications := forbidden_applications am;
     service_status_ := v;
     navi_app_to_stop_ := navi_app_to_stop_ am;
     unregister_reason_ := unregister_reason_ am;
     end_services_timer := end_services_timer am;
     is_all_apps_allowed_ := is_all_apps_allowed_ am;
     is_low_voltage_ := is_low_voltage_ am;
     audio_pass_thru_active_ := audio_pass_thru_active_ am;
     connection_handler_ := connection_handler_ am;
     media_manager_ := media_manager_ am;
     removals_for_bad_behavior := removals_for_bad_behavior am;
     events := events am |}.

Definition with_navi_app_to_stop (v : Z) (am : ApplicationManagerImpl)
    : ApplicationManagerImpl :=
  {| applications_ := applications_ am;
     apps_to_register_ := apps_to_register_ am;
     forbidden_applications := forbidden_applications am;
     service_status_ := service_status_ am;
     navi_app_to_stop_ := v;
     unregister_reason_ := unregister_reason_ am;
     end_services_timer := end_services_timer am;
     is_all_apps_allowed_ := is_all_apps_allowed_ am;
     is_low_voltage_ := is_low_voltage_ am;
     audio_pass_thru_active_ := audio_pass_thru_active_ am;
     connection_handler_ := connection_handler_ am;
     media_manager_ := media_manager_ am;
     removals_for_bad_behavior := removals_for_bad_behavior am;
     events := events am |}.

Definition with_unregister_reason (v : AppInterfaceUnregisteredReason.eType) (am : ApplicationManagerImpl)
    : ApplicationManagerImpl :=
  {| applications_ := applications_ am;
     apps_to_register_ := apps_to_register_ am;
     forbidden_applications := forbidden_applications am;
     service_status_ := service_status_ am;
     navi_app_to_stop_ := navi_app_to_stop_ am;
     unregister_reason_ := v;
     end_services_timer := end_services_timer am;
     is_all_apps_allowed_ := is_all_apps_allowed_ am;
     is_low_voltage_ := is_low_voltage_ am;
     audio_pass_thru_active_ := audio_pass_thru_active_ am;
     connection_handler_ := connection_handler_ am;
     media_manager_ := media_manager_ am;
     removals_for_bad_behavior := removals_for_bad_behavior am;
     events := events am |}.

Definition with_end_services_timer (v : option TimerCallback) (am : ApplicationManagerImpl)
    : ApplicationManagerImpl :=
  {| applications_ := applications_ am;
     apps_to_register_ := apps_to_register_ am;
     forbidden_applications := forbidden_applications am;
     service_status_ := service_status_ am;
     navi_app_to_stop_ := navi_app_to_stop_ am;
     unregister_reason_ := unregister_reason_ am;
     end_services_timer := v;
     is_all_apps_allowed_ := is_all_apps_allowed_ am;
     is_low_voltage_ := is_low_voltage_ am;
     audio_pass_thru_active_ := audio_pass_thru_active_ am;
     connection_handler_ := connection_handler_ am;
     media_manager_ := media_manager_ am;
     removals_for_bad_behavior := removals_for_bad_behavior am;
     events := events am |}.

Definition with_audio_pass_thru_active (v : bool) (am : ApplicationManagerImpl)
    : ApplicationManagerImpl :=
  {| applications_ := applications_ am;
     apps_to_register_ := apps_to_register_ am;
     forbidden_applications := forbidden_applications am;
     service_status_ := service_status_ am;
     navi_app_to_stop_ := navi_app_to_stop_ am;
     unregister_reason_ := unregister_reason_ am;
     end_services_timer := end_services_timer am;
     is_all_apps_allowed_ := is_all_apps_allowed_ am;
     is_low_voltage_ := is_low_voltage_ am;
     audio_pass_thru_active_ := v;
     connection_handler_ := connection_handler_ am;
     media_manager_ := media_manager_ am;
     removals_for_bad_behavior := removals_for_bad_behavior am;
     events := events am |}.

Definition with_removals_for_bad_behavior (v : gmap string Z) (am : ApplicationManagerImpl)
    : ApplicationManagerImpl :=
  {| applications_ := applications_ am;
     apps_to_register_ := apps_to_register_ am;
     forbidden_applications := forbidden_applications am;
     service_status_ := service_status_ am;
     navi_app_to_stop_ := navi_app_to_stop_ am;
     unregister_reason_ := unregister_reason_ am;
     end_services_timer := end_services_timer am;
     is_all_apps_allowed_ := is_all_apps_allowed_ am;
     is_low_voltage_ := is_low_voltage_ am;
     audio_pass_thru_active_ := audio_pass_thru_active_ am;
     connection_handler_ := connection_handler_ am;
     media_manager_ := media_manager_ am;
     removals_for_bad_behavior := v;
     events := events am |}.

Definition with_events (v : list Event) (am : ApplicationManagerImpl)
    : ApplicationManagerImpl :=
  {| applications_ := applications_ am;
     apps_to_register_ := apps_to_register_ am;
     forbidden_applications := forbidden_applications am;
     service_status_ := service_status_ am;
     navi_app_to_stop_ := navi_app_to_stop_ am;
     unregister_reason_ := unregister_reason_ am;
     end_services_timer := end_services_timer am;
     is_all_apps_allowed_ := is_all_apps_allowed_ am;
     is_low_voltage_ := is_low_voltage_ am;
     audio_pass_thru_active_ := audio_pass_thru_active_ am;
     connection_handler_ := connection_handler_ am;
     media_manager_ := media_manager_ am;
     removals_for_bad_behavior := removals_for_bad_behavior am;
     events := v |}.

Definition emit (e : Event) (am : ApplicationManagerImpl) : ApplicationManagerImpl :=
  with_events (events am ++ [e]) am.

(** ** Look-ups *)

Definition application (id : Z) (am : ApplicationManagerImpl) : option Application :=
  Find (fun a => app_id a =? id) (applications_ am).

Definition active_application (am : ApplicationManagerImpl) : option Application :=
  Find ActiveAppPredicate (applications_ am).

Definition get_limited_media_application (am : ApplicationManagerImpl) :=
  Find LimitedAppPredicate (applications_ am).

Definition get_limited_navi_application (am : ApplicationManagerImpl) :=
  Find LimitedNaviAppPredicate (applications_ am).

Definition get_limited_voice_application (am : ApplicationManagerImpl) :=
  Find LimitedVoiceAppPredicate (applications_ am).

(** A write through the shared pointer of the application [id]. *)
Definition modify (id : Z) (f : Application -> Application) (am : ApplicationManagerImpl)
    : ApplicationManagerImpl :=
  with_applications (update_app id f (applications_ am)) am.

(** [MessageHelper::SendHMIStatusNotification] reads the state the
    application object has at the time of the call. *)
Definition notify_hmi_status (id : Z) (am : ApplicationManagerImpl)
    : ApplicationManagerImpl :=
  match application id am with
  | Some a => emit (SendHMIStatusNotification id (hmi_level a) (audio_streaming_state a)) am
  | None => am
  end.

Definition other_limited (found : option Application) (app : Application) : bool :=
  match found with
  | Some l => negb (app_id l =? app_id app)
  | None => false
  end.

Definition IsAppTypeExistsInFullOrLimited (app : Application) (am : ApplicationManagerImpl)
    : bool :=
  let voice_state := is_voice_communication_supported app in
  let media_state := is_media_application app in
  let navi_state := hmi_supports_navi_video_streaming app in
  let in_full :=
    match active_application am with
    | Some active_app =>
        if app_id active_app =? app_id app then Some false
        else if voice_state && is_voice_communication_supported active_app then Some true
        else if media_state && is_media_application active_app then Some true
        else if navi_state && hmi_supports_navi_video_streaming active_app then Some true
        else None
    | None => None
    end in
  match in_full with
  | Some r => r
  | None =>
      if voice_state && other_limited (get_limited_voice_application am) app then true
      else if media_state && other_limited (get_limited_media_application am) app then true
      else if navi_state && other_limited (get_limited_navi_application am) app then true
      else false
  end.

Definition GetDefaultHmiLevel (env : Collaborators) (app : Application)
    : HMILevel.eType :=
  if PolicyEnabled env then
    match GetDefaultHmi env (mobile_app_id app) with
    | Some default_hmi_string =>
        if String.eqb "BACKGROUND" default_hmi_string then HMILevel.HMI_BACKGROUND
        else if String.eqb "FULL" default_hmi_string then HMILevel.HMI_FULL
        else if String.eqb "LIMITED" default_hmi_string then HMILevel.HMI_LIMITED
        else if String.eqb "NONE" default_hmi_string then HMILevel.HMI_NONE
        else HMILevel.HMI_NONE
    | None => HMILevel.HMI_NONE
    end
  else HMILevel.HMI_NONE.

(** ** Streaming of navigation applications *)

Definition EndNaviServices (am : ApplicationManagerImpl) : ApplicationManagerImpl :=
  match application (navi_app_to_stop_ am) am with
  | Some _ => modify (navi_app_to_stop_ am) (set_streaming_allowed false) am
  | None => am
  end.

Definition NaviAppChangeLevel (new_level : HMILevel.eType) (am : ApplicationManagerImpl)
    : ApplicationManagerImpl :=
  match new_level with
  | HMILevel.HMI_BACKGROUND => with_end_services_timer (Some cbEndNaviServices) am
  | HMILevel.HMI_NONE =>
      with_end_services_timer (Some cbCloseNaviApp) (EndNaviServices am)
  | _ => am
  end.

Definition full_or_limited (l : HMILevel.eType) : bool :=
  bool_decide (l = HMILevel.HMI_FULL) || bool_decide (l = HMILevel.HMI_LIMITED).

Definition OnHMILevelChanged (id : Z) (from to : HMILevel.eType)
    (am : ApplicationManagerImpl) : ApplicationManagerImpl :=
  match application id am with
  | Some app =>
      if is_navi app then
        if full_or_limited from then NaviAppChangeLevel to (with_navi_app_to_stop id am)
        else if full_or_limited to then modify id (set_streaming_allowed true) am
        else am
      else am
  | None => am
  end.

Definition ChangeAppsHMILevel (id : Z) (level : HMILevel.eType)
    (am : ApplicationManagerImpl) : ApplicationManagerImpl :=
  match application id am with
  | None => am
  | Some app =>
      let old_level := hmi_level app in
      if bool_decide (old_level = level) then am
      else OnHMILevelChanged id old_level level (modify id (set_hmi_level level) am)
  end.

Definition MakeAppNotAudible (id : Z) (am : ApplicationManagerImpl)
    : ApplicationManagerImpl :=
  match application id am with
  | None => am
  | Some _ =>
      modify id (set_audio_streaming_state AudioStreamingState.NOT_AUDIBLE)
        (ChangeAppsHMILevel id HMILevel.HMI_BACKGROUND am)
  end.

Definition MakeAppFullScreen (id : Z) (am : ApplicationManagerImpl)
    : bool * ApplicationManagerImpl :=
  match application id am with
  | None => (false, am)
  | Some app =>
      let am := ChangeAppsHMILevel id HMILevel.HMI_FULL am in
      let am := if is_media_application app || is_navi app
                then modify id (set_audio_streaming_state AudioStreamingState.AUDIBLE) am
                else am in
      let am := modify id (set_system_context SystemContext.SYSCTXT_MAIN) am in
      let am := if negb (has_been_activated app)
                then modify id (set_activated true) am else am in
      (true, am)
  end.

Definition DeactivateApplication (app : Application) (am : ApplicationManagerImpl)
    : ApplicationManagerImpl :=
  let am :=
    if IsAudioApplication app && negb (IsAppTypeExistsInFullOrLimited app am)
    then ChangeAppsHMILevel (app_id app) HMILevel.HMI_LIMITED am
    else ChangeAppsHMILevel (app_id app) HMILevel.HMI_BACKGROUND am in
  notify_hmi_status (app_id app) am.

(** The argument is the shared pointer of a registered application, given
    by its [app_id]; an id that is not registered stands for the null
    pointer. *)
Definition ActivateApplication (id : Z) (am : ApplicationManagerImpl)
    : bool * ApplicationManagerImpl :=
  match application id am with
  | None => (false, am)
  | Some app =>
      if IsFullscreen app then (false, am)
      else
        let am := if negb (is_level HMILevel.HMI_LIMITED app) && has_been_activated app
                  then emit (SendAppDataToHMI id) am else am in
        let is_new_app_media := is_media_application app in
        let is_new_app_voice := is_voice_communication_supported app in
        let is_new_app_navi := is_navi app in
        let limited_media_app := get_limited_media_application am in
        let limited_voice_app := get_limited_voice_application am in
        let limited_navi_app := get_limited_navi_application am in
        let current_active_app := active_application am in
        let am :=
          match current_active_app with
          | Some current =>
              if is_new_app_media && is_media_application current
              then notify_hmi_status (app_id current) (MakeAppNotAudible (app_id current) am)
              else DeactivateApplication current am
          | None => am
          end in
        let am := snd (MakeAppFullScreen id am) in
        let am :=
          if is_new_app_media then
            match limited_media_app with
            | Some limited =>
                if negb (is_navi limited)
                then notify_hmi_status (app_id limited)
                       (MakeAppNotAudible (app_id limited) am)
                else notify_hmi_status id
                       (modify id (set_audio_streaming_state
                                     AudioStreamingState.ATTENUATED) am)
            | None => am
            end
          else am in
        let am :=
          match limited_voice_app with
          | Some limited =>
              if is_new_app_voice then
                let am := if is_media_application limited
                          then MakeAppNotAudible (app_id limited) am else am in
                notify_hmi_status (app_id limited)
                  (ChangeAppsHMILevel (app_id limited) HMILevel.HMI_BACKGROUND am)
              else am
          | None => am
          end in
        let am :=
          match limited_navi_app with
          | Some limited =>
              if is_new_app_navi then
                let am := if is_media_application limited
                          then MakeAppNotAudible (app_id limited) am else am in
                notify_hmi_status (app_id limited)
                  (ChangeAppsHMILevel (app_id limited) HMILevel.HMI_BACKGROUND am)
              else am
          | None => am
          end in
        (true, am)
  end.

Definition NaviAppStreamStatus (stream_active : bool) (am : ApplicationManagerImpl)
    : ApplicationManagerImpl :=
  match active_application am with
  | Some active_app =>
      if is_media_application active_app then
        notify_hmi_status (app_id active_app)
          (modify (app_id active_app)
             (set_audio_streaming_state
                (if stream_active then AudioStreamingState.ATTENUATED
                 else AudioStreamingState.AUDIBLE)) am)
      else am
  | None => am
  end.

Definition ChangeStreamStatus (id : Z) (can_stream : bool) (am : ApplicationManagerImpl)
    : ApplicationManagerImpl :=
  match application id am with
  | None => am
  | Some app =>
      if negb (Bool.eqb can_stream (streaming app))
      then modify id (set_streaming can_stream) (NaviAppStreamStatus can_stream am)
      else am
  end.

Definition ForbidStreaming (id : Z) (am : ApplicationManagerImpl)
    : ApplicationManagerImpl :=
  match application id am with
  | Some app =>
      if is_navi app then
        let am :=
          if connection_handler_ am then
            let send_end_service := true in
            let ack_received := false in
            let am :=
              if hmi_supports_navi_video_streaming app then
                with_service_status
                  (<[kMobileNav := (send_end_service, ack_received)]> (service_status_ am))
                  (emit (SendEndServiceToMobile (navi_app_to_stop_ am) kMobileNav) am)
              else am in
            if hmi_supports_navi_audio_streaming app then
              with_service_status
                (<[kAudio := (send_end_service, ack_received)]> (service_status_ am))
                (emit (SendEndServiceToMobile (navi_app_to_stop_ am) kAudio) am)
            else am
          else am in
        let am := with_end_services_timer (Some cbCloseNaviApp) am in
        ChangeStreamStatus id false am
      else am
  | None => am
  end.

Definition IsAudioStreamingAllowed (application_key : Z) (am : ApplicationManagerImpl)
    : bool :=
  match application application_key am with
  | None => false
  | Some app => full_or_limited (hmi_level app)
  end.

Definition IsVideoStreamingAllowed (application_key : Z) (am : ApplicationManagerImpl)
    : bool :=
  match application application_key am with
  | None => false
  | Some app => full_or_limited (hmi_level app)
  end.

Definition ProcessNaviService (type : ServiceType) (key : Z)
    (am : ApplicationManagerImpl) : bool * ApplicationManagerImpl :=
  if negb (media_manager_ am) then (false, am)
  else
    let '(result, am) :=
      match type with
      | kMobileNav =>
          if IsVideoStreamingAllowed key am
          then (true, emit (StartVideoStreaming key) am) else (false, am)
      | kAudio =>
          if IsAudioStreamingAllowed key am
          then (true, emit (StartAudioStreaming key) am) else (false, am)
      | _ => (false, am)
      end in
    (result, with_service_status (<[type := (result, false)]> (service_status_ am)) am).

Definition OnServiceStartedCallback (session_key : Z) (type : ServiceType)
    (am : ApplicationManagerImpl) : bool * ApplicationManagerImpl :=
  match type with
  | kRpc => (true, am)
  | _ =>
      match application session_key am with
      | None => (false, am)
      | Some app =>
          if (bool_decide (type = kMobileNav) || bool_decide (type = kAudio)) && is_navi app
          then
            let '(result, am) := ProcessNaviService type session_key am in
            (result, modify session_key (set_streaming_allowed result) am)
          else (false, am)
      end
  end.

Definition OnServiceEndedCallback_media (session_key : Z) (type : ServiceType)
    (am : ApplicationManagerImpl) : ApplicationManagerImpl :=
  if media_manager_ am then
    let am :=
      match type with
      | kMobileNav => emit (StopVideoStreaming session_key) am
      | kAudio => emit (StopAudioStreaming session_key) am
      | _ => am
      end in
    let old := default (false, false) (service_status_ am !! type) in
    with_service_status (<[type := (fst old, true)]> (service_status_ am)) am
  else am.

(** ** Forbidden applications *)

Definition GetHashedAppID (env : Collaborators) (connection_key : Z)
    (mobile_app_id : string) : string :=
  let device_id :=
    match GetDataOnSessionKey env connection_key with
    | Some (_, d) => d
    | None => 0
    end in
  let device_name := default EmptyString (GetDataOnDeviceID env device_id) in
  (mobile_app_id ++ device_name)%string.

Definition IsApplicationForbidden (env : Collaborators) (connection_key : Z)
    (mobile_app_id : string) (am : ApplicationManagerImpl) : bool :=
  let name := GetHashedAppID env connection_key mobile_app_id in
  bool_decide (name ∈ forbidden_applications am).

(** ** Unregistration *)

(** [app_ptr->usage_report().RecordRemovalsForBadBehavior()]. *)
Definition RecordRemovalsForBadBehavior (app : Application) (am : ApplicationManagerImpl)
    : ApplicationManagerImpl :=
  with_removals_for_bad_behavior
    (<[mobile_app_id app :=
         default 0 (removals_for_bad_behavior am !! mobile_app_id app) + 1]>
       (removals_for_bad_behavior am)) am.

(** [ProtocolVersion]: [kUnknownProtocol], [kV3], [kV4]. *)
Definition kUnknownProtocol : Z := -1.
Definition kV3 : Z := 3.
Definition kV4 : Z := 4.

Definition AppV4DevicePredicate (handle : Z) (a : Application) : bool :=
  (handle =? device a) && (kV4 =? app_protocol_version a).

Definition RemoveAppsWaitingForRegistration (handle : Z) (am : ApplicationManagerImpl)
    : ApplicationManagerImpl :=
  with_apps_to_register
    (List.filter (fun a => negb (device a =? handle)) (apps_to_register_ am)) am.

(** The header declares [is_resuming] and [is_unexpected_disconnect] with
    the default [false]. *)
Definition UnregisterApplication (env : Collaborators) (id : Z) (reason : Result.eType)
    (is_resuming is_unexpected_disconnect : bool) (am : ApplicationManagerImpl)
    : ApplicationManagerImpl :=
  let am := emit (SendOnAppInterfaceUnregisteredNotificationToMobile id
                    (unregister_reason_ am)) am in
  let am :=
    match reason with
    | Result.TOO_MANY_PENDING_REQUESTS =>
        match application id am with
        | Some app_ptr =>
            let am := RecordRemovalsForBadBehavior app_ptr am in
            with_forbidden_applications
              ({[ GetHashedAppID env id (mobile_app_id app_ptr) ]}
                 ∪ forbidden_applications am) am
        | None => am
        end
    | _ => am
    end in
  match application id am with
  | None => am
  | Some app_to_remove =>
      let handle := device app_to_remove in
      let am := with_applications (Erase id (applications_ am)) am in
      let am :=
        match Find (AppV4DevicePredicate handle) (applications_ am) with
        | None => emit SendUpdateAppList (RemoveAppsWaitingForRegistration handle am)
        | Some _ => am
        end in
      let am :=
        if is_resuming then emit (ResumeSaveApplication id) am
        else emit (ResumeRemoveApplicationFromSaved (mobile_app_id app_to_remove)) am in
      let am :=
        if audio_pass_thru_active_ am
        then emit (StopAudioPassThru id) (with_audio_pass_thru_active false am)
        else am in
      let am := emit (SendOnAppUnregNotificationToHMI id is_unexpected_disconnect) am in
      emit (TerminateAppRequests id) am
  end.

Definition OnServiceEndedCallback (env : Collaborators) (session_key : Z)
    (type : ServiceType) (am : ApplicationManagerImpl) : ApplicationManagerImpl :=
  match type with
  | kRpc => UnregisterApplication env session_key Result.INVALID_ENUM true true am
  | _ => OnServiceEndedCallback_media session_key type am
  end.

Definition OnApplicationFloodCallBack (env : Collaborators) (connection_key : Z)
    (am : ApplicationManagerImpl) : ApplicationManagerImpl :=
  let am := emit (SendOnAppInterfaceUnregisteredNotificationToMobile connection_key
                    AppInterfaceUnregisteredReason.TOO_MANY_REQUESTS) am in
  let resuming := true in
  let unexpected_disconnect := false in
  UnregisterApplication env connection_key Result.TOO_MANY_PENDING_REQUESTS
    resuming unexpected_disconnect am.

(** ** The streaming watchdog *)

(** [service_status_[type]] creates a missing entry at [(false, false)]. *)
Definition AckReceived (type : ServiceType) (am : ApplicationManagerImpl)
    : bool * ApplicationManagerImpl :=
  let status := default (false, false) (service_status_ am !! type) in
  let am := with_service_status (<[type := status]> (service_status_ am)) am in
  let sent := fst status in
  let received := snd status in
  (Bool.eqb sent received, am).

Definition CloseNaviApp (env : Collaborators) (am : ApplicationManagerImpl)
    : ApplicationManagerImpl :=
  let '(audio_ack, am) := AckReceived kAudio am in
  let '(is_ack_received, am) :=
    if audio_ack then AckReceived kMobileNav am else (false, am) in
  if negb is_ack_received then
    let am := with_unregister_reason AppInterfaceUnregisteredReason.PROTOCOL_VIOLATION am in
    UnregisterApplication env (navi_app_to_stop_ am) Result.ABORTED false false am
  else am.

(** Expiry of [end_services_timer]: the callback it was started with runs
    once. *)
Definition OnEndServicesTimer (env : Collaborators) (am : ApplicationManagerImpl)
    : ApplicationManagerImpl :=
  match end_services_timer am with
  | Some cbEndNaviServices => EndNaviServices (with_end_services_timer None am)
  | Some cbCloseNaviApp => CloseNaviApp env (with_end_services_timer None am)
  | None => am
  end.

(** ** Admission of mobile commands *)

(** [message] is [None] for the null pointer.  The negative responses are
    handed to [SendMessageToMobile]; running a command is up to the
    command. *)
Definition ManageMobileCommand (env : Collaborators) (message : option MobileMessage)
    (am : ApplicationManagerImpl) : bool * ApplicationManagerImpl :=
  match message with
  | None => (false, am)
  | Some message =>
      if is_low_voltage_ am then (false, am)
      else if negb (CreateCommand env message) then (false, am)
      else
        let function_id := function_id message in
        let correlation_id := default 0 (correlation_id message) in
        let connection_key := connection_key message in
        let needs_app :=
          negb (bool_decide (function_id = FunctionID.RegisterAppInterfaceID))
          && (protocol_type message =? mobile_protocol_type_)
          && negb (bool_decide (function_id = FunctionID.UnregisterAppInterfaceID)) in
        let app := if needs_app then application connection_key am else None in
        if needs_app && negb (bool_decide (is_Some app)) then
          (false, emit (SendNegativeResponse connection_key function_id correlation_id
                          Result.APPLICATION_NOT_REGISTERED) am)
        else
          match message_type message with
          | messageType.response => (true, emit (RunCommand message) am)
          | messageType.notification => (true, emit (RunCommand message) am)
          | messageType.request =>
              let app_hmi_level :=
                match app with
                | Some a => hmi_level a
                | None => HMILevel.INVALID_ENUM
                end in
              match addMobileRequest env message app_hmi_level with
              | RequestController.SUCCESS => (true, emit (PerformRequest message) am)
              | RequestController.TOO_MANY_PENDING_REQUESTS =>
                  (false, emit (SendNegativeResponse connection_key function_id
                                  correlation_id Result.TOO_MANY_PENDING_REQUESTS) am)
              | RequestController.TOO_MANY_REQUESTS =>
                  let am := emit (SendOnAppInterfaceUnregisteredNotificationToMobile
                                    connection_key
                                    AppInterfaceUnregisteredReason.TOO_MANY_REQUESTS) am in
                  (false, UnregisterApplication env connection_key
                            Result.TOO_MANY_PENDING_REQUESTS false false am)
              | RequestController.NONE_HMI_LEVEL_MANY_REQUESTS =>
                  let am := emit (SendOnAppInterfaceUnregisteredNotificationToMobile
                                    connection_key
                                    AppInterfaceUnregisteredReason.REQUEST_WHILE_IN_NONE_HMI_LEVEL)
                              am in
                  let am := match application connection_key am with
                            | Some app_ptr => RecordRemovalsForBadBehavior app_ptr am
                            | None => am
                            end in
                  (false, UnregisterApplication env connection_key
                            Result.INVALID_ENUM false false am)
              | _ => (false, am)
              end
          | _ => (false, am)
          end
  end.

(** ** Registration *)

(** The object [new ApplicationImpl(app_id, mobile_app_id, app_name, ...)]
    yields; the class is not among the sources, the attributes the
    constructor does not receive start at their neutral values. *)
Definition ApplicationImpl_new (id : Z) (mobile_app_id name : string) : Application :=
  {| app_id := id; mobile_app_id := mobile_app_id; name := name;
     device := 0; hmi_app_id := 0; app_protocol_version := kV3;
     language := 0; ui_language := 0;
     hmi_level := HMILevel.HMI_NONE;
     audio_streaming_state := AudioStreamingState.NOT_AUDIBLE;
     system_context := SystemContext.SYSCTXT_MAIN;
     is_media_application := false;
     is_voice_communication_supported := false;
     is_navi := false;
     hmi_supports_navi_video_streaming := false;
     hmi_supports_navi_audio_streaming := false;
     has_been_activated := false;
     is_streaming_allowed := false;
     streaming := false |}.

Definition configure (device hmi_app_id version language ui_language : Z)
    (level : HMILevel.eType) (a : Application) : Application :=
  {| app_id := app_id a; mobile_app_id := mobile_app_id a; name := name a;
     device := device; hmi_app_id := hmi_app_id;
     app_protocol_version := version;
     language := language; ui_language := ui_language;
     hmi_level := level;
     audio_streaming_state := audio_streaming_state a;
     system_context := system_context a;
     is_media_application := is_media_application a;
     is_voice_communication_supported := is_voice_communication_supported a;
     is_navi := is_navi a;
     hmi_supports_navi_video_streaming := hmi_supports_navi_video_streaming a;
     hmi_supports_navi_audio_streaming := hmi_supports_navi_audio_streaming a;
     has_been_activated := has_been_activated a;
     is_streaming_allowed := is_streaming_allowed a;
     streaming := streaming a |}.

(** The negative response [RegisterApplication] builds with
    [CreateNegativeResponse] and passes to [ManageMobileCommand]. *)
Definition negative_registration_response (request : RegisterRequest)
    (code : Result.eType) : MobileMessage :=
  {| function_id := FunctionID.RegisterAppInterfaceID;
     correlation_id := Some (rq_correlation_id request);
     connection_key := rq_connection_key request;
     protocol_type := mobile_protocol_type_;
     message_type := messageType.response;
     result_code := Some code |}.

(** The "waiting for registration" set is searched by policy application
    id. *)
Definition RegisterApplication (env : Collaborators) (request : RegisterRequest)
    (am : ApplicationManagerImpl) : option Application * ApplicationManagerImpl :=
  let connection_key := rq_connection_key request in
  if negb (is_all_apps_allowed_ am) then
    (None, snd (ManageMobileCommand env
                  (Some (negative_registration_response request Result.DISALLOWED)) am))
  else
    let session :=
      if connection_handler_ am then GetDataOnSessionKey env connection_key
      else Some (0, 0) in
    match session with
    | None =>
        (None, snd (ManageMobileCommand env
                      (Some (negative_registration_response request
                               Result.GENERIC_ERROR)) am))
    | Some (id, device_id) =>
        let mobile_id := rq_app_id request in
        let application := ApplicationImpl_new id mobile_id (rq_app_name request) in
        let protocol_version := rq_protocol_version request in
        let am :=
          if connection_handler_ am then
            let am := if negb (kUnknownProtocol =? protocol_version)
                      then emit (BindProtocolVersionWithSession connection_key
                                   (u8 protocol_version)) am
                      else am in
            if (kV3 <=? protocol_version) && (0 <? heart_beat_timeout_ env)
            then emit (StartSessionHeartBeat connection_key) am else am
          else am in
        let waiting :=
          Find (fun a => String.eqb (mobile_app_id a) mobile_id)
            (apps_to_register_ am) in
        let '(hmi_id, am) :=
          match waiting with
          | Some w =>
              (hmi_app_id w,
               with_apps_to_register
                 (List.filter
                    (fun a => negb (String.eqb (mobile_app_id a) mobile_id))
                    (apps_to_register_ am)) am)
          | None => (0, am)
          end in
        let hmi_id :=
          if hmi_id =? 0 then
            if IsApplicationSaved env mobile_id
            then GetHMIApplicationID env mobile_id
            else GenerateNewHMIAppID env
          else hmi_id in
        let am := emit (PolicyAddApplication mobile_id) am in
        let application :=
          configure device_id hmi_id protocol_version
            (rq_language_desired request) (rq_hmi_display_language_desired request)
            (GetDefaultHmiLevel env application) application in
        (Some application, with_applications (Insert application (applications_ am)) am)
    end.

(** What a registration attempt comes to. *)
Inductive RegistrationOutcome :=
  | RegistrationRefused (error : Result.eType)
  | RegistrationFailed
  | Registered (app : Application).

(** Modelled from the spec: the handler of the RegisterAppInterface request
    ([commands/mobile/register_app_interface_request.cc]), which consults
    [IsApplicationForbidden] before it registers, is not among the sources.
    "Subsequent registration attempts matching the hash are refused": an
    attempt whose connection key and policy application id hash into the
    deny set is answered with the refusal [error] and nothing else happens;
    any other attempt goes on to [RegisterApplication]. *)
Definition RegisterAppInterface (error : Result.eType) (env : Collaborators)
    (request : RegisterRequest) (am : ApplicationManagerImpl)
    : RegistrationOutcome * ApplicationManagerImpl :=
  if IsApplicationForbidden env (rq_connection_key request) (rq_app_id request) am
  then (RegistrationRefused error, am)
  else
    match RegisterApplication env request am with
    | (Some app, am) => (Registered app, am)
    | (None, am) => (RegistrationFailed, am)
    end.

(** * Properties: vocabulary *)

(** ** Frames posted to mobile *)

Definition posted (ph : ProtocolHandlerImpl) : list ProtocolPacket :=
  map frame (raw_ford_messages_to_mobile_ ph).

(** The frames [ph'] posted beyond those of [ph]. *)
Definition posted_since (ph ph' : ProtocolHandlerImpl) : list ProtocolPacket :=
  drop (length (posted ph)) (posted ph').

Definition counter_value (session : Z) (ph : ProtocolHandlerImpl) : Z :=
  default 0 (message_counters_ ph !! session).

(** [b] follows [a] in the order of 32-bit serial numbers: the distance
    from [a] up to [b], modulo 2^32, is positive and less than 2^31. *)
Definition lt_mod32 (a b : Z) : Prop :=
  0 < (b - a) mod 2 ^ 32 < 2 ^ 31.

Fixpoint strictly_increasing_mod32 (ids : list Z) : Prop :=
  match ids with
  | a :: (b :: _) as rest => lt_mod32 a b /\ strictly_increasing_mod32 rest
  | _ => True
  end.

(** Each id is the one before it plus one, modulo 2^32, starting at [c]. *)
Fixpoint consecutive_from (c : Z) (ids : list Z) : Prop :=
  match ids with
  | [] => True
  | a :: rest => a = c /\ consecutive_from (u32 (c + 1)) rest
  end.

(** The frame-data byte of the [i]-th of [n] Consecutive frames as the
    design document has it: 1, 2, ..., 0x7F, 1, ... and 0 on the last. *)
Definition spec_frame_data (n i : Z) : Z :=
  if i =? n - 1 then 0 else i mod 127 + 1.

(** The hash id of an EndService packet in the words of the design
    document. *)
Definition spec_hash_id (b : Build) (version : Z) (payload : list byte) : Z :=
  if version <? 2 then HASH_ID_NOT_SUPPORTED
  else
    match payload with
    | b0 :: b1 :: b2 :: b3 :: _ =>
        if be32_decode b0 b1 b2 b3 =? 0 then HASH_ID_WRONG b
        else be32_decode b0 b1 b2 b3
    | _ => HASH_ID_WRONG b
    end.

(** ** Operations on one session of the protocol handler

    The senders of the engine, each of which may send on any connection:
    the nine that take the message id from the counter of the session,
    and [SendHeartBeatAck], which mirrors the id of the request. *)
Inductive Draw :=
  | DrawSingle (connection version service : Z) (payload : list byte) (final : bool)
  | DrawStartSessionAck (connection hash service : Z) (protection : bool)
  | DrawStartSessionNAck (connection version service : Z)
  | DrawEndSessionAck (connection version service : Z)
  | DrawEndSessionNAck (connection version service : Z)
  | DrawMulti (connection version service : Z) (payload : list byte)
      (max_frame_size : Z) (final : bool)
  | DrawEndService (connection service : Z)
  | DrawHeartBeat (connection : Z)
  | DrawFramesNumber (so : SessionObserver) (connection_key number_of_frames : Z)
  | MirrorHeartBeatAck (connection message_id : Z).

Definition draw (session : Z) (d : Draw) (ph : ProtocolHandlerImpl)
    : ProtocolHandlerImpl :=
  match d with
  | DrawSingle c v s payload f =>
      snd (SendSingleFrameMessage c session v s (Z.of_nat (length payload)) payload f ph)
  | DrawStartSessionAck c h s p => SendStartSessionAck c session 0 h s p ph
  | DrawStartSessionNAck c v s => SendStartSessionNAck c session v s ph
  | DrawEndSessionAck c v s => SendEndSessionAck c session v s ph
  | DrawEndSessionNAck c v s => SendEndSessionNAck c session v s ph
  | DrawMulti c v s payload m f =>
      snd (SendMultiFrameMessage c session v s (Z.of_nat (length payload)) payload m f ph)
  | DrawEndService c s => SendEndService c session s ph
  | DrawHeartBeat c => SendHeartBeat c session ph
  | DrawFramesNumber so key n => SendFramesNumber so key n ph
  | MirrorHeartBeatAck c m => snd (SendHeartBeatAck c session m ph)
  end.

Definition draws (session : Z) (ds : list Draw) (ph : ProtocolHandlerImpl)
    : ProtocolHandlerImpl :=
  fold_left (fun ph d => draw session d ph) ds ph.

Definition draw_connection (d : Draw) : Z :=
  match d with
  | DrawSingle c _ _ _ _ => c
  | DrawStartSessionAck c _ _ _ => c
  | DrawStartSessionNAck c _ _ => c
  | DrawEndSessionAck c _ _ => c
  | DrawEndSessionNAck c _ _ => c
  | DrawMulti c _ _ _ _ _ => c
  | DrawEndService c _ => c
  | DrawHeartBeat c => c
  | DrawFramesNumber so key _ => fst (PairFromKey so key)
  | MirrorHeartBeatAck c _ => c
  end.

(** [SendFramesNumber] finds the session in its connection key; the other
    senders are told the session. *)
Definition on_session (session : Z) (d : Draw) : Prop :=
  match d with
  | DrawFramesNumber so key _ => snd (PairFromKey so key) = session
  | _ => True
  end.

(** The sender takes the id of its frames from the counter. *)
Definition takes_id (d : Draw) : bool :=
  match d with
  | MirrorHeartBeatAck _ _ => false
  | _ => true
  end.

(** The sender posts one frame at most and gives it the value of the
    counter as it is. *)
Definition one_frame_sender (d : Draw) : bool :=
  match d with
  | DrawMulti _ _ _ _ _ _ => false
  | MirrorHeartBeatAck _ _ => false
  | _ => true
  end.

(** The message id of the frames of a send while the counter of the
    session stands at [c]: the multi-frame sender keeps the value in a
    [uint8_t]. *)
Definition frame_id (d : Draw) (c : Z) : Z :=
  match d with
  | DrawMulti _ _ _ _ _ _ => u8 c
  | MirrorHeartBeatAck _ m => m
  | _ => c
  end.

(** The frames each send of a trace posts, send by send. *)
Fixpoint sent_in_turn (session : Z) (ds : list Draw) (ph : ProtocolHandlerImpl)
    : list (list ProtocolPacket) :=
  match ds with
  | [] => []
  | d :: ds' =>
      posted_since ph (draw session d ph) :: sent_in_turn session ds' (draw session d ph)
  end.

(** The value of the counter after a send that posted the frames [g]
    while the counter stood at [c]. *)
Definition counter_after (d : Draw) (g : list ProtocolPacket) (c : Z) : Z :=
  match g with
  | [] => c
  | _ :: _ => if takes_id d then u32 (c + 1) else c
  end.

(** [groups] are the frames of the sends [ds] in turn, the counter of the
    session standing at [c] before the first: the frames of a send are
    for the session, go to the connection of the send and carry its
    message id, and a send that posts frames with an id from the counter
    moves the counter on by one. *)
Fixpoint drawn_in_turn (session c : Z) (ds : list Draw)
    (groups : list (list ProtocolPacket)) : Prop :=
  match ds, groups with
  | [], [] => True
  | d :: ds', g :: groups' =>
      Forall (fun p => message_id p = frame_id d c
                       /\ session_id p = session
                       /\ connection_id p = draw_connection d) g
      /\ drawn_in_turn session (counter_after d g c) ds' groups'
  | _, _ => False
  end.

(** ** Start of a service *)

(** The protection the engine asks the registry for. *)
Definition protection_requested (b : Build) (packet : ProtocolPacket) : bool :=
  ENABLE_SECURITY b && (PROTOCOL_VERSION_1 <? protocol_version packet)
  && protection_flag packet.

(** The answer of the registry to a StartService packet. *)
Definition registry_answer (so : SessionObserver) (connection : Z)
    (packet : ProtocolPacket) (ph : ProtocolHandlerImpl) : Z * Z :=
  OnSessionStartedCallback so connection (session_id packet)
    (ServiceTypeFromByte (service_type packet))
    (protection_requested (build ph) packet).

(** The context the security manager creates for the session, when
    protection was requested and a security manager is set. *)
Definition ssl_context_for (so : SessionObserver) (connection : Z)
    (packet : ProtocolPacket) (ph : ProtocolHandlerImpl) : option (option SSLContext) :=
  if protection_requested (build ph) packet then
    match security_manager_ ph with
    | Some sm =>
        Some (CreateSSLContext sm
                (KeyFromPair so connection (u8 (fst (registry_answer so connection packet ph)))))
    | None => None
    end
  else None.

(** The listener for the end of the handshake of the session: it keeps
    the connection key, the connection, the session id and the hash id of
    the registry, the protocol version and the service of the packet. *)
Definition handshake_listener (so : SessionObserver) (connection : Z)
    (packet : ProtocolPacket) (ph : ProtocolHandlerImpl) : StartSessionHandler :=
  let '(session, hash) := registry_answer so connection packet ph in
  {| connection_key_ := KeyFromPair so connection (u8 session);
     connection_id_ := connection;
     session_id_ := session;
     protocol_version_ := protocol_version packet;
     hash_id_ := hash;
     service_type_ := ServiceTypeFromByte (service_type packet) |}.

(** The acknowledgement waits for the handshake: protection was requested,
    a security manager is set, it created a context, and the context has
    not completed its initialisation. *)
Definition handshake_deferred (so : SessionObserver) (connection : Z)
    (packet : ProtocolPacket) (ph : ProtocolHandlerImpl) : bool :=
  match ssl_context_for so connection packet ph with
  | Some (Some ctx) => negb (IsInitCompleted ctx)
  | _ => false
  end.

(** The acknowledgement is protected: the context was there with its
    initialisation complete. *)
Definition ack_protected (so : SessionObserver) (connection : Z)
    (packet : ProtocolPacket) (ph : ProtocolHandlerImpl) : bool :=
  match ssl_context_for so connection packet ph with
  | Some (Some ctx) => IsInitCompleted ctx
  | _ => false
  end.

(** The StartServiceAck of the design document: the version the head unit
    supports, the session id of the registry, the hash id as four
    big-endian bytes unless it is one of the two sentinels. *)
Definition spec_start_service_ack (so : SessionObserver) (connection : Z)
    (packet : ProtocolPacket) (ph : ProtocolHandlerImpl) : ProtocolPacket :=
  let '(session, hash) := registry_answer so connection packet ph in
  {| connection_id := connection;
     protocol_version :=
       if enable_protocol_4 (profile ph) then 4
       else if heart_beat_timeout (profile ph) =? 0 then 2 else 3;
     protection_flag := ack_protected so connection packet ph;
     frame_type := FRAME_TYPE_CONTROL;
     service_type := service_type packet;
     frame_data := FRAME_DATA_START_SERVICE_ACK;
     session_id := u8 session;
     message_id := counter_value (u8 session) ph;
     data := if (hash =? HASH_ID_NOT_SUPPORTED) || (hash =? HASH_ID_WRONG (build ph))
             then [] else be32 hash |}.

(** The StartServiceNAck: the version and the session id of the packet it
    answers. *)
Definition spec_start_service_nack (connection : Z) (packet : ProtocolPacket)
    (ph : ProtocolHandlerImpl) : ProtocolPacket :=
  {| connection_id := connection;
     protocol_version := protocol_version packet;
     protection_flag := false;
     frame_type := FRAME_TYPE_CONTROL;
     service_type := service_type packet;
     frame_data := FRAME_DATA_START_SERVICE_NACK;
     session_id := session_id packet;
     message_id := counter_value (session_id packet) ph;
     data := [] |}.

(** ** Flood metering *)

Definition is_flood_call (c : Call) : bool :=
  match c with
  | CallOnApplicationFloodCallBack _ => true
  | _ => false
  end.

(** The flood callbacks made so far, oldest first. *)
Definition flood_calls (ph : ProtocolHandlerImpl) : list Call :=
  List.filter is_flood_call (calls ph).

(** The frames of a connection key that arrived inside the window that
    ends at [now], as the meter has them. *)
Definition window_count (now key : Z) (ph : ProtocolHandlerImpl) : Z :=
  MessageMeter.Frequency now key (message_meter_ ph).

(** [message] arriving at each of the times [stamps], in order. *)
Definition receive_at (stamps : list Z) (message : ProtocolPacket)
    (ph : ProtocolHandlerImpl) : ProtocolHandlerImpl :=
  fold_left (fun ph now => Handle_FromMobile now message ph) stamps ph.

(** ** Application states *)

Fixpoint count_full (l : list Application) : nat :=
  match l with
  | [] => O
  | a :: l' => ((if IsFullscreen a then 1 else 0) + count_full l')%nat
  end.

(** At most one registered application has HMI level Full. *)
Definition at_most_one_full (am : ApplicationManagerImpl) : Prop :=
  (count_full (applications_ am) <= 1)%nat.

(** The application set is in increasing order of [app_id], as the
    [std::set] keeps it. *)
Fixpoint increasing_from (lo : Z) (ids : list Z) : Prop :=
  match ids with
  | [] => True
  | i :: rest => lo < i /\ increasing_from i rest
  end.

Definition increasing (ids : list Z) : Prop :=
  match ids with
  | [] => True
  | i :: rest => increasing_from i rest
  end.

Definition ordered (am : ApplicationManagerImpl) : Prop :=
  increasing (map app_id (applications_ am)).

(** The application ids with their HMI levels, in the order of the set. *)
Definition levels (am : ApplicationManagerImpl) : list (Z * HMILevel.eType) :=
  map (fun a => (app_id a, hmi_level a)) (applications_ am).

(** The first entry of [id] gets the level [level]. *)
Fixpoint relevel (id : Z) (level : HMILevel.eType) (L : list (Z * HMILevel.eType))
    : list (Z * HMILevel.eType) :=
  match L with
  | [] => []
  | (i, x) :: rest =>
      if i =? id then (i, level) :: rest else (i, x) :: relevel id level rest
  end.

Fixpoint nfull (L : list (Z * HMILevel.eType)) : nat :=
  match L with
  | [] => O
  | (_, x) :: rest =>
      ((if bool_decide (x = HMILevel.HMI_FULL) then 1 else 0) + nfull rest)%nat
  end.

(** The id of the first entry in Full. *)
Fixpoint first_full (L : list (Z * HMILevel.eType)) : option Z :=
  match L with
  | [] => None
  | (i, x) :: rest =>
      if bool_decide (x = HMILevel.HMI_FULL) then Some i else first_full rest
  end.

(** No application left Full and none was added or removed. *)
Definition demotes (am am' : ApplicationManagerImpl) : Prop :=
  map fst (levels am') = map fst (levels am)
  /\ (nfull (levels am') <= nfull (levels am))%nat.

Definition registered (id : Z) (am : ApplicationManagerImpl) : Prop :=
  is_Some (application id am).

Definition no_other_full (id : Z) (am : ApplicationManagerImpl) : Prop :=
  forall a, In a (applications_ am) -> IsFullscreen a = true -> app_id a = id.

(** The steps that change HMI levels, each under the condition that keeps
    the Full slot single: a registration whose default level is Full only
    while no application is Full, a direct [MakeAppFullScreen] only while no
    other application is Full. *)
Inductive hmi_step (env : Collaborators) : ApplicationManagerImpl ->
    ApplicationManagerImpl -> Prop :=
  | step_register request am :
      (forall app, fst (RegisterApplication env request am) = Some app ->
                   hmi_level app = HMILevel.HMI_FULL ->
                   count_full (applications_ am) = O) ->
      hmi_step env am (snd (RegisterApplication env request am))
  | step_activate id am :
      hmi_step env am (snd (ActivateApplication id am))
  | step_deactivate app am :
      hmi_step env am (DeactivateApplication app am)
  | step_make_full id am :
      no_other_full id am ->
      hmi_step env am (snd (MakeAppFullScreen id am))
  | step_unregister id reason resuming unexpected am :
      hmi_step env am (UnregisterApplication env id reason resuming unexpected am).

Inductive hmi_reachable (env : Collaborators) (init : ApplicationManagerImpl)
    : ApplicationManagerImpl -> Prop :=
  | reach_init : hmi_reachable env init init
  | reach_step am am' :
      hmi_reachable env init am -> hmi_step env am am' -> hmi_reachable env init am'.

(** ** Admission of requests *)

(** The HMI level [ManageMobileCommand] hands to the request controller. *)
Definition request_hmi_level (message : MobileMessage) (am : ApplicationManagerImpl)
    : HMILevel.eType :=
  if negb (bool_decide (function_id message = FunctionID.RegisterAppInterfaceID))
     && (protocol_type message =? mobile_protocol_type_)
     && negb (bool_decide (function_id message = FunctionID.UnregisterAppInterfaceID))
  then match application (connection_key message) am with
       | Some a => hmi_level a
       | None => HMILevel.INVALID_ENUM
       end
  else HMILevel.INVALID_ENUM.

Definition removals (policy_app_id : string) (am : ApplicationManagerImpl) : Z :=
  default 0 (removals_for_bad_behavior am !! policy_app_id).

(** ** Steps of the manager

    Every operation of the manager modelled above, with any arguments and
    any answers of the collaborators. *)
Inductive manager_step : ApplicationManagerImpl -> ApplicationManagerImpl -> Prop :=
  | ms_register env request am :
      manager_step am (snd (RegisterApplication env request am))
  | ms_register_interface error env request am :
      manager_step am (snd (RegisterAppInterface error env request am))
  | ms_activate id am :
      manager_step am (snd (ActivateApplication id am))
  | ms_deactivate app am :
      manager_step am (DeactivateApplication app am)
  | ms_make_full id am :
      manager_step am (snd (MakeAppFullScreen id am))
  | ms_change_level id level am :
      manager_step am (ChangeAppsHMILevel id level am)
  | ms_unregister env id reason resuming unexpected am :
      manager_step am (UnregisterApplication env id reason resuming unexpected am)
  | ms_command env message am :
      manager_step am (snd (ManageMobileCommand env message am))
  | ms_flood env key am :
      manager_step am (OnApplicationFloodCallBack env key am)
  | ms_forbid_streaming id am :
      manager_step am (ForbidStreaming id am)
  | ms_service_started key type am :
      manager_step am (snd (OnServiceStartedCallback key type am))
  | ms_service_ended env key type am :
      manager_step am (OnServiceEndedCallback env key type am)
  | ms_timer env am :
      manager_step am (OnEndServicesTimer env am).

Inductive manager_steps : ApplicationManagerImpl -> ApplicationManagerImpl -> Prop :=
  | steps_refl am : manager_steps am am
  | steps_cons am am' am'' :
      manager_steps am am' -> manager_step am' am'' -> manager_steps am am''.

(** ** The streaming watchdog *)

(** The two flags of a service in the status map differ. *)
Definition flags_differ (type : ServiceType) (am : ApplicationManagerImpl) : bool :=
  let status := default (false, false) (service_status_ am !! type) in
  negb (Bool.eqb (fst status) (snd status)).

Definition is_end_service_event (e : Event) : bool :=
  match e with
  | SendEndServiceToMobile _ _ => true
  | _ => false
  end.

(** A manager without applications. *)
Definition initial_manager : ApplicationManagerImpl :=
  {| applications_ := [];
     apps_to_register_ := [];
     forbidden_applications := ∅;
     service_status_ := ∅;
     navi_app_to_stop_ := 0;
     unregister_reason_ := AppInterfaceUnregisteredReason.INVALID_ENUM;
     end_services_timer := None;
     is_all_apps_allowed_ := true;
     is_low_voltage_ := false;
     audio_pass_thru_active_ := false;
     connection_handler_ := true;
     media_manager_ := true;
     removals_for_bad_behavior := ∅;
     events := [] |}.


(** * Further vocabulary of the protocol handler *)

(** The frame size [SendMessageToMobileApp] settles on for a message: the
    maximum frame size less the header of the message's protocol version,
    or the block size of an initialised SSL context of the service when
    that is positive. *)
Definition optimal_frame_size (so : SessionObserver) (message : RawMessage)
    (ph : ProtocolHandlerImpl) : Z :=
  let header_size :=
    if PROTOCOL_VERSION_1 =? raw_protocol_version message
    then PROTOCOL_HEADER_V1_SIZE else PROTOCOL_HEADER_V2_SIZE in
  let max_frame_size := u32 (MAXIMUM_FRAME_DATA_SIZE (build ph) - header_size) in
  if ENABLE_SECURITY (build ph) then
    match GetSSLContext so (raw_connection_key message)
            (ServiceTypeFromByte (raw_service_type message)) with
    | Some ssl_context =>
        if IsInitCompleted ssl_context then
          let max_block_size := get_max_block_size ssl_context max_frame_size in
          if 0 <? max_block_size then max_block_size else max_frame_size
        else max_frame_size
    | None => max_frame_size
    end
  else max_frame_size.

(** The entries [ph'] put on the queue to mobile beyond those of [ph]. *)
Definition queued_since (ph ph' : ProtocolHandlerImpl) : list RawFordMessageToMobile :=
  drop (length (raw_ford_messages_to_mobile_ ph)) (raw_ford_messages_to_mobile_ ph').

(** The calls [ph'] made beyond those of [ph]. *)
Definition calls_since (ph ph' : ProtocolHandlerImpl) : list Call :=
  drop (length (calls ph)) (calls ph').

Definition is_subscriber_call (c : Call) : bool :=
  match c with
  | CallNotifySubscribers _ _ _ _ => true
  | _ => false
  end.

(** ** Inbound frames in a row *)

(** The frames [frames] of one connection handled one after the other. *)
Definition receive_frames (connection_id : Z) (frames : list ProtocolPacket)
    (ph : ProtocolHandlerImpl) : ProtocolHandlerImpl :=
  fold_left (fun ph p => snd (HandleMessage connection_id p ph)) frames ph.

(** A Consecutive frame of the session [session] that is not the last of
    its message. *)
Definition inner_frame (session : Z) (p : ProtocolPacket) : Prop :=
  frame_type p = FRAME_TYPE_CONSECUTIVE
  /\ frame_data p <> FRAME_DATA_LAST_CONSECUTIVE
  /\ session_id p = session.

(** * Protocol handler: further functions *)

(** ** Encryption of frames *)

Definition set_protection_flag (protection : bool) (p : ProtocolPacket) : ProtocolPacket :=
  {| connection_id := connection_id p;
     protocol_version := protocol_version p;
     protection_flag := protection;
     frame_type := frame_type p;
     service_type := service_type p;
     frame_data := frame_data p;
     session_id := session_id p;
     message_id := message_id p;
     data := data p |}.

(** [EncryptFrame] and [DecryptFrame] (built with [ENABLE_SECURITY]).
    They change the packet they are given and call the security manager
    and the session observer; the state of the handler they only read.
    The result is the result code, the packet as it is afterwards and the
    calls made. *)
Module Security.

(** The result codes the two functions return. *)
Inductive RESULT_CODE := RESULT_OK | RESULT_FAIL | RESULT_ENCRYPTION_FAILED.

Inductive InternalError :=
  ERROR_ENCRYPTION_FAILED | ERROR_DECRYPTION_FAILED | ERROR_SERVICE_NOT_PROTECTED.

Inductive Call :=
| SendInternalError (connection_key : Z) (error : InternalError)
| OnSessionEndedCallback (connection_id session_id hash_id : Z) (service : ServiceType).

(** [SSLContext::Encrypt] and [SSLContext::Decrypt]: the output buffer, or
    [None] for the result [false]. *)
Record Cipher := {
  Encrypt : SSLContext -> list byte -> option (list byte);
  Decrypt : SSLContext -> list byte -> option (list byte)
}.

Definition EncryptFrame (cipher : Cipher) (packet : ProtocolPacket)
    (ph : ProtocolHandlerImpl) : RESULT_CODE * ProtocolPacket * list Call :=
  if (service_type packet =? ServiceTypeToByte kControl)
     || (frame_type packet =? FRAME_TYPE_CONTROL)
  then (RESULT_OK, packet, [])
  else
    match session_observer_ ph with
    | None => (RESULT_FAIL, packet, [])
    | Some so =>
        match security_manager_ ph with
        | None => (RESULT_FAIL, packet, [])
        | Some _ =>
            let connection_key :=
              KeyFromPair so (connection_id packet) (session_id packet) in
            match GetSSLContext so connection_key
                    (ServiceTypeFromByte (service_type packet)) with
            | None => (RESULT_OK, packet, [])
            | Some context =>
                if negb (IsInitCompleted context) then (RESULT_OK, packet, [])
                else
                  match Encrypt cipher context (data packet) with
                  | None =>
                      (RESULT_OK, packet,
                       [SendInternalError connection_key ERROR_ENCRYPTION_FAILED;
                        OnSessionEndedCallback (connection_id packet) (session_id packet)
                          (message_id packet) kRpc])
                  | Some out_data =>
                      (RESULT_OK, set_data out_data (set_protection_flag true packet), [])
                  end
            end
        end
    end.

Definition DecryptFrame (cipher : Cipher) (packet : ProtocolPacket)
    (ph : ProtocolHandlerImpl) : RESULT_CODE * ProtocolPacket * list Call :=
  if negb (protection_flag packet)
     || (service_type packet =? ServiceTypeToByte kControl)
     || (frame_type packet =? FRAME_TYPE_CONTROL)
  then (RESULT_OK, packet, [])
  else
    match session_observer_ ph with
    | None => (RESULT_FAIL, packet, [])
    | Some so =>
        match security_manager_ ph with
        | None => (RESULT_FAIL, packet, [])
        | Some _ =>
            let connection_key :=
              KeyFromPair so (connection_id packet) (session_id packet) in
            let failed :=
              (RESULT_ENCRYPTION_FAILED, packet,
               [SendInternalError connection_key ERROR_SERVICE_NOT_PROTECTED]) in
            match GetSSLContext so connection_key
                    (ServiceTypeFromByte (service_type packet)) with
            | None => failed
            | Some context =>
                if negb (IsInitCompleted context) then failed
                else
                  match Decrypt cipher context (data packet) with
                  | None =>
                      (RESULT_ENCRYPTION_FAILED, packet,
                       [SendInternalError connection_key ERROR_DECRYPTION_FAILED;
                        OnSessionEndedCallback (connection_id packet) (session_id packet)
                          (message_id packet) kRpc])
                  | Some out_data => (RESULT_OK, set_data out_data packet, [])
                  end
            end
        end
    end.

End Security.

(** ** Final messages and the closing of connections *)

(** The calls that leave the handler on the way to the transport manager
    and back. *)
Inductive TransportCall :=
  | SendMessageToDevice (packet : ProtocolPacket)
  | Disconnect (connection : Z)
  | OnMobileMessageSent (connection_key : Z).

(** The handler with the members the sending path uses besides those
    above.  [transport_manager_] tells, when the pointer is set, whether
    the transport manager accepts a packet ([E_SUCCESS]). *)
Record Sender := {
  handler : ProtocolHandlerImpl;
  sessions_last_message_id_ : gmap Z Z;
  ready_to_close_connections_ : list Z;
  transport_manager_ : option (ProtocolPacket -> bool);
  cipher_ : Security.Cipher;
  security_calls : list Security.Call;
  transport_calls : list TransportCall
}.

Definition with_handler (v : ProtocolHandlerImpl) (st : Sender) : Sender :=
  {| handler := v;
     sessions_last_message_id_ := sessions_last_message_id_ st;
     ready_to_close_connections_ := ready_to_close_connections_ st;
     transport_manager_ := transport_manager_ st;
     cipher_ := cipher_ st;
     security_calls := security_calls st;
     transport_calls := transport_calls st |}.

Definition with_sessions_last_message_id (v : gmap Z Z) (st : Sender) : Sender :=
  {| handler := handler st;
     sessions_last_message_id_ := v;
     ready_to_close_connections_ := ready_to_close_connections_ st;
     transport_manager_ := transport_manager_ st;
     cipher_ := cipher_ st;
     security_calls := security_calls st;
     transport_calls := transport_calls st |}.

Definition with_ready_to_close_connections (v : list Z) (st : Sender) : Sender :=
  {| handler := handler st;
     sessions_last_message_id_ := sessions_last_message_id_ st;
     ready_to_close_connections_ := v;
     transport_manager_ := transport_manager_ st;
     cipher_ := cipher_ st;
     security_calls := security_calls st;
     transport_calls := transport_calls st |}.

Definition with_security_calls (v : list Security.Call) (st : Sender) : Sender :=
  {| handler := handler st;
     sessions_last_message_id_ := sessions_last_message_id_ st;
     ready_to_close_connections_ := ready_to_close_connections_ st;
     transport_manager_ := transport_manager_ st;
     cipher_ := cipher_ st;
     security_calls := v;
     transport_calls := transport_calls st |}.

Definition transport_call (c : TransportCall) (st : Sender) : Sender :=
  {| handler := handler st;
     sessions_last_message_id_ := sessions_last_message_id_ st;
     ready_to_close_connections_ := ready_to_close_connections_ st;
     transport_manager_ := transport_manager_ st;
     cipher_ := cipher_ st;
     security_calls := security_calls st;
     transport_calls := transport_calls st ++ [c] |}.

(** [SendFrame]: the packet is there; [serializePacket] of
    [ProtocolPacket] is taken to yield a message. *)
Definition SendFrame (packet : ProtocolPacket) (st : Sender) : RESULT_CODE * Sender :=
  let '(encrypted, packet, st) :=
    if ENABLE_SECURITY (build (handler st)) then
      let '(result, packet, made) :=
        Security.EncryptFrame (cipher_ st) packet (handler st) in
      (match result with Security.RESULT_OK => true | _ => false end,
       packet, with_security_calls (security_calls st ++ made) st)
    else (true, packet, st) in
  if negb encrypted then (RESULT_FAIL, st)
  else
    match transport_manager_ st with
    | None => (RESULT_FAIL, st)
    | Some accepts =>
        let st := transport_call (SendMessageToDevice packet) st in
        if accepts packet then (RESULT_OK, st) else (RESULT_FAIL, st)
    end.

(** [Handle(const impl::RawFordMessageToMobile message)]:
    [std::map::insert] leaves an entry that is there as it is. *)
Definition Handle_ToMobile (message : RawFordMessageToMobile) (st : Sender) : Sender :=
  let st :=
    if is_final message then
      match sessions_last_message_id_ st !! session_id (frame message) with
      | Some _ => st
      | None =>
          with_sessions_last_message_id
            (<[session_id (frame message) := message_id (frame message)]>
               (sessions_last_message_id_ st)) st
      end
    else st in
  snd (SendFrame (frame message) st).

(** [std::list::erase] of the iterator [std::find] returned. *)
Fixpoint erase_first (x : Z) (l : list Z) : list Z :=
  match l with
  | [] => []
  | y :: l' => if y =? x then l' else y :: erase_first x l'
  end.

(** [OnTMMessageSend]: [session_observer_] is dereferenced without a
    check, [so] is the observer it points to.  [sent_message] is what
    [deserializePacket] makes of the data of the message, [None] when it
    fails. *)
Definition OnTMMessageSend (so : SessionObserver) (connection_key : Z)
    (sent_message : option ProtocolPacket) (st : Sender) : Sender :=
  let '(connection_handle, _) := PairFromKey so connection_key in
  if bool_decide (connection_handle ∈ ready_to_close_connections_ st) then
    transport_call (Disconnect connection_handle)
      (with_ready_to_close_connections
         (erase_first connection_handle (ready_to_close_connections_ st)) st)
  else
    match sent_message with
    | None => st
    | Some sent_message =>
        let st :=
          match sessions_last_message_id_ st !! session_id sent_message with
          | Some last_message_id =>
              let st := with_sessions_last_message_id
                          (delete (session_id sent_message)
                             (sessions_last_message_id_ st)) st in
              if (message_id sent_message =? last_message_id)
                 && ((FRAME_TYPE_SINGLE =? frame_type sent_message)
                     || ((FRAME_TYPE_CONSECUTIVE =? frame_type sent_message)
                         && (0 =? frame_data sent_message)))
              then
                let st := with_ready_to_close_connections
                            (ready_to_close_connections_ st ++ [connection_handle]) st in
                with_handler (SendEndSession connection_handle
                                (session_id sent_message) (handler st)) st
              else st
          | None => st
          end in
        transport_call (OnMobileMessageSent connection_key) st
    end.

(** The output thread: every entry of the queue to mobile is handled in
    the order of posting. *)
Definition drain_to_mobile (l : list RawFordMessageToMobile) (st : Sender) : Sender :=
  fold_left (fun st m => Handle_ToMobile m st) l st.

(** * Application manager: further functions *)

(** ** Look-ups *)

Definition application_by_hmi_app (hmi_id : Z) (am : ApplicationManagerImpl)
    : option Application :=
  Find (fun a => hmi_app_id a =? hmi_id) (applications_ am).

Definition application_by_policy_id (policy_app_id : string) (am : ApplicationManagerImpl)
    : option Application :=
  Find (fun a => String.eqb (mobile_app_id a) policy_app_id) (applications_ am).

(** [accessor.FindAll(NaviAppPredicate)]. *)
Definition applications_with_navi (am : ApplicationManagerImpl) : list Application :=
  List.filter is_navi (applications_ am).

Definition waiting_app (hmi_id : Z) (am : ApplicationManagerImpl) : option Application :=
  Find (fun a => hmi_app_id a =? hmi_id) (apps_to_register_ am).

Fixpoint IsAppsQueriedFrom_loop (handle : Z) (l : list Application) : bool :=
  match l with
  | [] => false
  | a :: l' => if handle =? device a then true else IsAppsQueriedFrom_loop handle l'
  end.

Definition IsAppsQueriedFrom (handle : Z) (am : ApplicationManagerImpl) : bool :=
  IsAppsQueriedFrom_loop handle (apps_to_register_ am).

(** ** HMI level an application may take *)

(** [app] is a valid pointer. *)
Definition IsHmiLevelFullAllowed (env : Collaborators) (app : Application)
    (am : ApplicationManagerImpl) : HMILevel.eType :=
  let is_audio_app := IsAudioApplication app in
  let does_audio_app_with_same_type_exist := IsAppTypeExistsInFullOrLimited app am in
  let is_active_app_exist := bool_decide (is_Some (active_application am)) in
  if is_audio_app && does_audio_app_with_same_type_exist then GetDefaultHmiLevel env app
  else if is_active_app_exist && is_audio_app then HMILevel.HMI_LIMITED
  else if is_active_app_exist && negb is_audio_app then GetDefaultHmiLevel env app
  else HMILevel.HMI_FULL.

(** ** Audio pass-through *)

Definition begin_audio_pass_thru (am : ApplicationManagerImpl)
    : bool * ApplicationManagerImpl :=
  if audio_pass_thru_active_ am then (false, am)
  else (true, with_audio_pass_thru_active true am).

Definition end_audio_pass_thru (am : ApplicationManagerImpl)
    : bool * ApplicationManagerImpl :=
  if audio_pass_thru_active_ am then (true, with_audio_pass_thru_active false am)
  else (false, am).

(** ** Streaming *)

Definition CanAppStream (id : Z) (am : ApplicationManagerImpl) : bool :=
  match application id am with
  | Some app => if is_navi app then is_streaming_allowed app else false
  | None => false
  end.

Definition StreamingEnded (id : Z) (am : ApplicationManagerImpl) : ApplicationManagerImpl :=
  ChangeStreamStatus id false am.

(** ** Protocol version *)

(** [ProtocolVersion]: [kV1], [kV2]. *)
Definition kV1 : Z := 1.
Definition kV2 : Z := 2.

(** [bool heart_beat_support = heart_beat_timeout()]: the conversion of
    the unsigned value to [bool]. *)
Definition SupportedSDLVersion (pr : Profile) : Z :=
  let heart_beat_support := negb (heart_beat_timeout pr =? 0) in
  let sdl4_support := enable_protocol_4 pr in
  if sdl4_support then kV4
  else if heart_beat_support then kV3
  else kV2.

(** ** Application types *)

(** The inner loop of [CompareAppHMIType]: [from_application[i]] is looked
    for among the elements of [from_policy]. *)
Fixpoint CompareAppHMIType_inner (x : Z) (from_policy : list Z) : bool :=
  match from_policy with
  | [] => false
  | y :: rest => if x =? y then true else CompareAppHMIType_inner x rest
  end.

(** The outer loop, over the elements of [from_application]. *)
Fixpoint CompareAppHMIType (from_policy from_application : list Z) : bool :=
  match from_application with
  | [] => true
  | x :: rest =>
      if CompareAppHMIType_inner x from_policy
      then CompareAppHMIType from_policy rest
      else false
  end.

(** ** Application ids kept by correlation id *)

(** [set_application_id] and [application_id] work on the member
    [appID_list_] alone, a [std::map] from correlation id to application
    id; [std::map::insert] leaves an entry that is there as it is. *)
Definition set_application_id (correlation_id app_id : Z) (appID_list_ : gmap Z Z)
    : gmap Z Z :=
  match appID_list_ !! correlation_id with
  | Some _ => appID_list_
  | None => <[correlation_id := app_id]> appID_list_
  end.

Definition application_id (correlation_id : Z) (appID_list_ : gmap Z Z) : Z * gmap Z Z :=
  match appID_list_ !! correlation_id with
  | Some app_id => (app_id, delete correlation_id appID_list_)
  | None => (0, appID_list_)
  end.

(** ** Disk space of an application *)

(** [directory] is [None] when the folder of the application does not
    exist, else the size of the folder and the free space of the disk as
    the file system reports them; [current_app_quota] and
    [available_disk_space] are [uint32_t]. *)
Definition GetAvailableSpaceForApp (app_quota : Z) (directory : option (Z * Z)) : Z :=
  match directory with
  | Some (size_of_directory, available) =>
      if app_quota <? size_of_directory then 0
      else
        let current_app_quota := u32 (app_quota - size_of_directory) in
        let available_disk_space := u32 available in
        if available_disk_space <? current_app_quota then available_disk_space
        else current_app_quota
  | None => app_quota
  end.

(** ** Unregistration of all applications *)

Definition SetUnregisterAllApplicationsReason
    (reason : AppInterfaceUnregisteredReason.eType) (am : ApplicationManagerImpl)
    : ApplicationManagerImpl :=
  with_unregister_reason reason am.

(** The calls [UnregisterAllApplications] makes besides those of
    [UnregisterApplication]. *)
Inductive ShutdownCall :=
  | CloseSession (app : Z)
  | ResumeSuspend
  | TerminateAllHMIRequests.

(** The manager, the flag [hmi_cooperating_] and the calls made. *)
Record Shutdown := {
  manager : ApplicationManagerImpl;
  hmi_cooperating_ : bool;
  shutdown_calls : list ShutdownCall
}.

(** [while (it != accessor.end())]: each turn unregisters the application
    at [accessor.begin()]; [fuel] bounds the number of turns. *)
Fixpoint UnregisterAllApplications_loop (fuel : nat) (env : Collaborators)
    (is_ignition_off is_unexpected_disconnect : bool) (st : Shutdown) : Shutdown :=
  match fuel with
  | O => st
  | S fuel' =>
      match applications_ (manager st) with
      | [] => st
      | app_to_remove :: _ =>
          let am := UnregisterApplication env (app_id app_to_remove) Result.INVALID_ENUM
                      is_ignition_off is_unexpected_disconnect (manager st) in
          UnregisterAllApplications_loop fuel' env is_ignition_off
            is_unexpected_disconnect
            {| manager := am;
               hmi_cooperating_ := hmi_cooperating_ st;
               shutdown_calls :=
                 shutdown_calls st ++ [CloseSession (app_id app_to_remove)] |}
      end
  end.

Definition UnregisterAllApplications (fuel : nat) (env : Collaborators) (st : Shutdown)
    : Shutdown :=
  let st := {| manager := manager st; hmi_cooperating_ := false;
               shutdown_calls := shutdown_calls st |} in
  let reason := unregister_reason_ (manager st) in
  let is_ignition_off :=
    bool_decide (reason = AppInterfaceUnregisteredReason.IGNITION_OFF)
    || bool_decide (reason = AppInterfaceUnregisteredReason.INVALID_ENUM) in
  let is_unexpected_disconnect :=
    negb (bool_decide (reason = AppInterfaceUnregisteredReason.IGNITION_OFF))
    && negb (bool_decide (reason = AppInterfaceUnregisteredReason.MASTER_RESET))
    && negb (bool_decide (reason = AppInterfaceUnregisteredReason.FACTORY_DEFAULTS)) in
  let st := UnregisterAllApplications_loop fuel env is_ignition_off
              is_unexpected_disconnect st in
  let st := if is_ignition_off
            then {| manager := manager st; hmi_cooperating_ := hmi_cooperating_ st;
                    shutdown_calls := shutdown_calls st ++ [ResumeSuspend] |}
            else st in
  {| manager := manager st; hmi_cooperating_ := hmi_cooperating_ st;
     shutdown_calls := shutdown_calls st ++ [TerminateAllHMIRequests] |}.

(** * Further vocabulary of the application manager *)

(** The level of the application [id] in a list of levels. *)
Fixpoint level_of (id : Z) (L : list (Z * HMILevel.eType)) : option HMILevel.eType :=
  match L with
  | [] => None
  | (i, x) :: rest => if i =? id then Some x else level_of id rest
  end.

(** The level of [id] is the same in [am'] as in [am], and the same
    applications are there. *)
Definition same_level (id : Z) (am am' : ApplicationManagerImpl) : Prop :=
  map fst (levels am') = map fst (levels am)
  /\ level_of id (levels am') = level_of id (levels am).


(** ** Phone calls *)

(** [AppState], as its constructor and its members are used. *)
Record AppState := {
  state_hmi_level : HMILevel.eType;
  state_audio_streaming_state : AudioStreamingState.eType;
  state_system_context : SystemContext.eType
}.

(** [std::map<uint32_t, AppState>::insert]: the entries are kept in
    increasing order of the key, and an entry that is there stays as it
    is. *)
Fixpoint AppStateMap_insert (key : Z) (value : AppState) (m : list (Z * AppState))
    : list (Z * AppState) :=
  match m with
  | [] => [(key, value)]
  | (k, v) :: rest =>
      if key <? k then (key, value) :: (k, v) :: rest
      else if k <? key then (k, v) :: AppStateMap_insert key value rest
      else (k, v) :: rest
  end.

(** The manager and the member [on_phone_call_app_list_]. *)
Record PhoneCall := {
  call_manager : ApplicationManagerImpl;
  on_phone_call_app_list_ : list (Z * AppState)
}.

(** The body of the loop of [CreatePhoneCallAppList] at the element of
    the set with the id [id]. *)
Definition CreatePhoneCallAppList_step (id : Z) (st : PhoneCall) : PhoneCall :=
  match application id (call_manager st) with
  | Some app =>
      if full_or_limited (hmi_level app) then
        let backup :=
          AppStateMap_insert (app_id app)
            {| state_hmi_level := hmi_level app;
               state_audio_streaming_state := audio_streaming_state app;
               state_system_context := system_context app |}
            (on_phone_call_app_list_ st) in
        let am := ChangeAppsHMILevel (app_id app)
                    (if is_navi app then HMILevel.HMI_LIMITED
                     else HMILevel.HMI_BACKGROUND) (call_manager st) in
        let am := modify (app_id app)
                    (set_audio_streaming_state AudioStreamingState.NOT_AUDIBLE) am in
        let am := modify (app_id app)
                    (set_system_context SystemContext.SYSCTXT_MAIN) am in
        let am := notify_hmi_status (app_id app) am in
        {| call_manager := am; on_phone_call_app_list_ := backup |}
      else st
  | None => st
  end.

(** The iterator visits the elements of the set in their order; the
    loop changes elements and neither adds nor removes one. *)
Definition CreatePhoneCallAppList (st : PhoneCall) : PhoneCall :=
  fold_left (fun st id => CreatePhoneCallAppList_step id st)
    (map app_id (applications_ (call_manager st))) st.

Definition ResetPhoneCallAppList_step (entry : Z * AppState)
    (am : ApplicationManagerImpl) : ApplicationManagerImpl :=
  match application (fst entry) am with
  | Some app =>
      let am := ChangeAppsHMILevel (app_id app) (state_hmi_level (snd entry)) am in
      let am := modify (app_id app)
                  (set_audio_streaming_state (state_audio_streaming_state (snd entry)))
                  am in
      let am := modify (app_id app)
                  (set_system_context (state_system_context (snd entry))) am in
      notify_hmi_status (app_id app) am
  | None => am
  end.

Definition ResetPhoneCallAppList (st : PhoneCall) : PhoneCall :=
  {| call_manager :=
       fold_left (fun am entry => ResetPhoneCallAppList_step entry am)
         (on_phone_call_app_list_ st) (call_manager st);
     on_phone_call_app_list_ := [] |}.

(** The state [CreatePhoneCallAppList] gives an application. *)
Definition on_phone_call (a : Application) : Application :=
  if full_or_limited (hmi_level a) then
    set_system_context SystemContext.SYSCTXT_MAIN
      (set_audio_streaming_state AudioStreamingState.NOT_AUDIBLE
         (set_hmi_level (if is_navi a then HMILevel.HMI_LIMITED
                         else HMILevel.HMI_BACKGROUND) a))
  else a.

(** * Concrete configurations *)

Definition example_build : Build :=
  {| ENABLE_SECURITY := false;
     MAXIMUM_FRAME_DATA_SIZE := 1500;
     HASH_ID_WRONG := 4294901760 |}.

Definition secure_build : Build :=
  {| ENABLE_SECURITY := true;
     MAXIMUM_FRAME_DATA_SIZE := 1500;
     HASH_ID_WRONG := 4294901760 |}.

Definition example_profile : Profile :=
  {| heart_beat_timeout := 0; enable_protocol_4 := false |}.

(** A registry that accepts every start and every end of a service, with
    session id 1 and hash id 0x12345678; connection keys pack the
    connection and the session. *)
Definition example_observer : SessionObserver :=
  {| OnSessionStartedCallback := fun _ _ _ _ => (1, 305419896);
     OnSessionEndedCallback := fun _ _ _ _ => 1;
     KeyFromPair := fun c s => c * 256 + s;
     PairFromKey := fun k => (k / 256, k mod 256);
     ProtocolVersionUsed := fun _ _ => Some 3;
     IsHeartBeatSupported := fun _ _ => false;
     GetSSLContext := fun _ _ => None |}.

(** The same registry once the RPC service of every session is protected. *)
Definition protected_observer : SessionObserver :=
  {| OnSessionStartedCallback := fun _ _ _ _ => (1, 305419896);
     OnSessionEndedCallback := fun _ _ _ _ => 1;
     KeyFromPair := fun c s => c * 256 + s;
     PairFromKey := fun k => (k / 256, k mod 256);
     ProtocolVersionUsed := fun _ _ => Some 3;
     IsHeartBeatSupported := fun _ _ => false;
     GetSSLContext := fun _ _ =>
       Some {| IsInitCompleted := true; IsHandshakePending := false;
               get_max_block_size := fun n => n |} |}.

(** A security manager whose contexts still have to shake hands. *)
Definition example_security_manager : SecurityManager :=
  {| CreateSSLContext := fun _ =>
       Some {| IsInitCompleted := false; IsHandshakePending := false;
               get_max_block_size := fun n => n |} |}.

Definition make_handler (b : Build) (so : option SessionObserver)
    (sm : option SecurityManager) (max_frequency frequency_time : Z)
    : ProtocolHandlerImpl :=
  {| build := b;
     profile := example_profile;
     protocol_observers_ := {[ 1 ]};
     session_observer_ := so;
     security_manager_ := sm;
     message_max_frequency_ := max_frequency;
     message_frequency_time_ := frequency_time;
     message_counters_ := ∅;
     message_meter_ := {| MessageMeter.time_range_ := frequency_time;
                          MessageMeter.timing_map_ := ∅ |};
     incomplete_multi_frame_messages_ := ∅;
     raw_ford_messages_to_mobile_ := [];
     calls := [] |}.

(** Ten messages per second. *)
Definition example_handler : ProtocolHandlerImpl :=
  make_handler example_build (Some example_observer) None 10 1000.

(** The frequency meter switched off by a zero limit. *)
Definition unmetered_handler : ProtocolHandlerImpl :=
  make_handler example_build (Some example_observer) None 0 1000.

Definition secure_handler : ProtocolHandlerImpl :=
  make_handler secure_build (Some example_observer) (Some example_security_manager) 10 1000.

(** A control packet of protocol version 3 on session 1 of connection 7. *)
Definition control_packet (service frame_data : Z) (protection : bool)
    (payload : list byte) : ProtocolPacket :=
  {| connection_id := 7; protocol_version := 3; protection_flag := protection;
     frame_type := FRAME_TYPE_CONTROL; service_type := service;
     frame_data := frame_data; session_id := 1; message_id := 0;
     data := payload |}.

(** An RPC Single frame of five bytes on session 1 of connection 0; its
    connection key is 1. *)
Definition rpc_frame : ProtocolPacket :=
  {| connection_id := 0; protocol_version := 3; protection_flag := false;
     frame_type := FRAME_TYPE_SINGLE; service_type := SERVICE_TYPE_RPC;
     frame_data := FRAME_DATA_SINGLE; session_id := 1; message_id := 42;
     data := [x01; x02; x03; x04; x05] |}.

(** Session 1 after 256 Single frames went out on it. *)
Definition busy_handler : ProtocolHandlerImpl :=
  draws 1 (replicate 256 (DrawSingle 7 3 SERVICE_TYPE_RPC [x01] false)) example_handler.

(** A message of 3000 bytes for session 1 of connection 7: more than the
    1488 bytes one frame of protocol version 3 takes. *)
Definition long_message : RawMessage :=
  {| raw_connection_key := 7 * 256 + 1;
     raw_protocol_version := 3;
     raw_service_type := SERVICE_TYPE_RPC;
     raw_data := replicate 3000 x01 |}.

Definition short_message : RawMessage :=
  {| raw_connection_key := 7 * 256 + 1;
     raw_protocol_version := 3;
     raw_service_type := SERVICE_TYPE_RPC;
     raw_data := [x01; x02; x03; x04; x05] |}.

(** A message of one byte for session 1 of connection 8. *)
Definition message_on_connection_8 : RawMessage :=
  {| raw_connection_key := 8 * 256 + 1;
     raw_protocol_version := 3;
     raw_service_type := SERVICE_TYPE_RPC;
     raw_data := [x01] |}.

(** A Single frame, the accepted end of the audio service of the session,
    and another Single frame. *)
Definition trace_over_end_service : ProtocolHandlerImpl :=
  let ph := SendMessageToMobileApp short_message false example_handler in
  let ph := snd (HandleControlMessage 7
                   (control_packet SERVICE_TYPE_AUDIO FRAME_DATA_END_SERVICE false []) ph) in
  SendMessageToMobileApp short_message false ph.

(** A connection handler with two devices, sessions 1 and 2 on device 10
    and session 3 on device 20; the policy gives every application the
    default level [default_hmi]; the request controller answers
    [admission]. *)
Definition make_env (default_hmi : string) (admission : RequestController.TResult)
    : Collaborators :=
  {| GetDataOnSessionKey := fun key =>
       if (key =? 1) || (key =? 2) then Some (key, 10)
       else if key =? 3 then Some (key, 20) else None;
     GetDataOnDeviceID := fun d =>
       if d =? 10 then Some "phoneA"%string
       else if d =? 20 then Some "phoneB"%string else None;
     PolicyEnabled := true;
     GetDefaultHmi := fun _ => Some default_hmi;
     heart_beat_timeout_ := 0;
     IsApplicationSaved := fun _ => false;
     GetHMIApplicationID := fun _ => 0;
     GenerateNewHMIAppID := 4711;
     CreateCommand := fun _ => true;
     addMobileRequest := fun _ _ => admission |}.

Definition example_env : Collaborators := make_env "NONE" RequestController.SUCCESS.

Definition registration (key : Z) (policy_app_id : string) : RegisterRequest :=
  {| rq_connection_key := key;
     rq_correlation_id := 1;
     rq_app_id := policy_app_id;
     rq_app_name := policy_app_id;
     rq_language_desired := 0;
     rq_hmi_display_language_desired := 0;
     rq_protocol_version := 3 |}.

(** Two applications registered at the default level None. *)
Definition two_apps : ApplicationManagerImpl :=
  snd (RegisterApplication example_env (registration 2 "app2")
         (snd (RegisterApplication example_env (registration 1 "app1") initial_manager))).

(** Two applications whose policy gives the default level Full. *)
Definition two_apps_default_full : ApplicationManagerImpl :=
  let env := make_env "FULL" RequestController.SUCCESS in
  snd (RegisterApplication env (registration 2 "app2")
         (snd (RegisterApplication env (registration 1 "app1") initial_manager))).

(** A request of application 1 that is neither a registration nor an
    unregistration. *)
Definition example_request : MobileMessage :=
  {| function_id := FunctionID.OtherFunctionID 12;
     correlation_id := Some 5;
     connection_key := 1;
     protocol_type := mobile_protocol_type_;
     message_type := messageType.request;
     result_code := None |}.

(** A navigation application that streams audio and video, registered
    under key 5 and in Full. *)
Definition navi_app : Application :=
  {| app_id := 5; mobile_app_id := "navi"; name := "navi";
     device := 10; hmi_app_id := 4711; app_protocol_version := 3;
     language := 0; ui_language := 0;
     hmi_level := HMILevel.HMI_FULL;
     audio_streaming_state := AudioStreamingState.AUDIBLE;
     system_context := SystemContext.SYSCTXT_MAIN;
     is_media_application := false;
     is_voice_communication_supported := false;
     is_navi := true;
     hmi_supports_navi_video_streaming := true;
     hmi_supports_navi_audio_streaming := true;
     has_been_activated := true;
     is_streaming_allowed := true;
     streaming := false |}.

Definition navi_manager : ApplicationManagerImpl :=
  with_applications [navi_app] initial_manager.

(** The navigation application starts its audio service, is moved to None,
    and the timer started by that move expires. *)
Definition navi_to_none : ApplicationManagerImpl :=
  let am := snd (OnServiceStartedCallback 5 kAudio navi_manager) in
  let am := ChangeAppsHMILevel 5 HMILevel.HMI_NONE am in
  OnEndServicesTimer example_env am.


(** * Further concrete configurations *)

(** A handler of a build with security whose registry has every service
    protected. *)
Definition protected_handler : ProtocolHandlerImpl :=
  make_handler secure_build (Some protected_observer) (Some example_security_manager)
    10 1000.

(** A cipher that reverses the bytes. *)
Definition reversing_cipher : Security.Cipher :=
  {| Security.Encrypt := fun _ clear => Some (rev clear);
     Security.Decrypt := fun _ out => Some (rev out) |}.

(** A sender over the example handler whose transport manager accepts
    every packet. *)
Definition example_sender : Sender :=
  {| handler := example_handler;
     sessions_last_message_id_ := ∅;
     ready_to_close_connections_ := [];
     transport_manager_ := Some (fun _ => true);
     cipher_ := reversing_cipher;
     security_calls := [];
     transport_calls := [] |}.

(** An RPC Single frame on session 1 of connection 7. *)
Definition last_frame : ProtocolPacket :=
  {| connection_id := 7; protocol_version := 3; protection_flag := false;
     frame_type := FRAME_TYPE_SINGLE; service_type := SERVICE_TYPE_RPC;
     frame_data := FRAME_DATA_SINGLE; session_id := 1; message_id := 9;
     data := [x01; x02] |}.

(** The navigation application in Limited, alone. *)
Definition limited_navi_manager : ApplicationManagerImpl :=
  with_applications [set_hmi_level HMILevel.HMI_LIMITED navi_app] initial_manager.

(** Applications 1 and 2 in Full by the default of the policy, and
    application 3 registered at None. *)
Definition two_full_and_one : ApplicationManagerImpl :=
  snd (RegisterApplication example_env (registration 3 "app3") two_apps_default_full).

(** An inbound RPC frame of protocol version 3 on session 1. *)
Definition inbound_frame (type frame_data : Z) (payload : list byte) : ProtocolPacket :=
  {| connection_id := 7; protocol_version := 3; protection_flag := false;
     frame_type := type; service_type := SERVICE_TYPE_RPC;
     frame_data := frame_data; session_id := 1; message_id := 5;
     data := payload |}.
(** * Properties: bytes and words *)

Lemma byte_to_Z_range (b : byte) : 0 <= byte_to_Z b < 256.
Proof.
  unfold byte_to_Z. pose proof (Byte.to_N_bounded b) as H.
  split; [apply N2Z.is_nonneg|].
  apply (Z.le_lt_trans _ (Z.of_N 255)); [apply N2Z.inj_le; exact H | reflexivity].
Qed.

Lemma byte_to_of_Z (z : Z) : byte_to_Z (byte_of_Z z) = z mod 256.
Proof.
  unfold byte_to_Z, byte_of_Z.
  assert (Hr : 0 <= z mod 256 < 256) by (apply Z.mod_pos_bound; lia).
  destruct (Byte.of_N (Z.to_N (z mod 256))) as [b|] eqn:E; simpl.
  - apply Byte.to_of_N in E. rewrite E. rewrite Z2N.id; lia.
  - apply Byte.of_N_None_iff in E. exfalso.
    apply N2Z.inj_lt in E. rewrite Z2N.id in E by lia. simpl in E. lia.
Qed.

Lemma byte_of_to_Z (b : byte) : byte_of_Z (byte_to_Z b) = b.
Proof.
  unfold byte_of_Z. rewrite Z.mod_small by apply byte_to_Z_range.
  unfold byte_to_Z. rewrite N2Z.id, Byte.of_to_N. reflexivity.
Qed.

Lemma byte_of_Z_mod (z : Z) : byte_of_Z (z mod 256) = byte_of_Z z.
Proof. unfold byte_of_Z. rewrite Z.mod_mod by lia. reflexivity. Qed.

Lemma land_high_low (hi lo k : Z) :
  0 <= k -> 0 <= lo < 2 ^ k -> Z.land (hi * 2 ^ k) lo = 0.
Proof.
  intros Hk Hlo. apply Z.bits_inj'. intros n Hn.
  rewrite Z.land_spec, Z.bits_0.
  destruct (Z.lt_ge_cases n k) as [Hlt|Hge].
  - rewrite Z.mul_pow2_bits_low by lia. reflexivity.
  - assert (Z.testbit lo n = false) as ->; [|apply andb_false_r].
    destruct (Z.eq_dec lo 0) as [->|Hne]; [apply Z.bits_0|].
    apply Z.bits_above_log2; [lia|].
    apply Z.log2_lt_pow2; [lia|].
    apply (Z.lt_le_trans _ (2 ^ k)); [lia|].
    apply Z.pow_le_mono_r; lia.
Qed.

Lemma lor_high_low (hi lo k : Z) :
  0 <= k -> 0 <= lo < 2 ^ k -> Z.lor (hi * 2 ^ k) lo = hi * 2 ^ k + lo.
Proof.
  intros Hk Hlo. rewrite <- (Z.add_lor_land (hi * 2 ^ k) lo).
  rewrite land_high_low by assumption. lia.
Qed.

(** The byte swap in arithmetic. *)
Lemma bswap32_bytes (x : Z) :
  bswap32 x =
  (x mod 256) * 2 ^ 24 + ((x / 2 ^ 8) mod 256) * 2 ^ 16
  + ((x / 2 ^ 16) mod 256) * 2 ^ 8 + (x / 2 ^ 24) mod 256.
Proof.
  unfold bswap32.
  change 255 with (Z.ones 8).
  rewrite !Z.land_ones by lia.
  rewrite !Z.shiftr_div_pow2 by lia.
  rewrite !Z.shiftl_mul_pow2 by lia.
  assert (P8 : 2 ^ 8 = 256) by reflexivity.
  assert (P16 : 2 ^ 16 = 65536) by reflexivity.
  assert (P24 : 2 ^ 24 = 16777216) by reflexivity.
  replace (x mod 256) with (x mod 2 ^ 8) by (rewrite P8; reflexivity).
  replace ((x / 2 ^ 8) mod 256) with ((x / 2 ^ 8) mod 2 ^ 8) by (rewrite P8; reflexivity).
  replace ((x / 2 ^ 16) mod 256) with ((x / 2 ^ 16) mod 2 ^ 8) by (rewrite P8; reflexivity).
  replace ((x / 2 ^ 24) mod 256) with ((x / 2 ^ 24) mod 2 ^ 8) by (rewrite P8; reflexivity).
  generalize (Z.mod_pos_bound x (2 ^ 8) ltac:(lia)).
  generalize (Z.mod_pos_bound (x / 2 ^ 8) (2 ^ 8) ltac:(lia)).
  generalize (Z.mod_pos_bound (x / 2 ^ 16) (2 ^ 8) ltac:(lia)).
  generalize (Z.mod_pos_bound (x / 2 ^ 24) (2 ^ 8) ltac:(lia)).
  generalize (x mod 2 ^ 8) ((x / 2 ^ 8) mod 2 ^ 8) ((x / 2 ^ 16) mod 2 ^ 8)
    ((x / 2 ^ 24) mod 2 ^ 8).
  intros a0 a1 a2 a3 H3 H2 H1 H0.
  rewrite (lor_high_low a2 a3 8) by lia.
  rewrite (lor_high_low a0 (a1 * 2 ^ 16) 24) by lia.
  replace (a0 * 2 ^ 24 + a1 * 2 ^ 16) with ((a0 * 2 ^ 8 + a1) * 2 ^ 16) by lia.
  rewrite lor_high_low by lia.
  lia.
Qed.

Lemma bswap32_host_load32 (b0 b1 b2 b3 : byte) :
  bswap32 (host_load32 b0 b1 b2 b3) = be32_decode b0 b1 b2 b3.
Proof.
  rewrite bswap32_bytes. unfold host_load32, be32_decode.
  pose proof (byte_to_Z_range b0). pose proof (byte_to_Z_range b1).
  pose proof (byte_to_Z_range b2). pose proof (byte_to_Z_range b3).
  set (a0 := byte_to_Z b0) in *. set (a1 := byte_to_Z b1) in *.
  set (a2 := byte_to_Z b2) in *. set (a3 := byte_to_Z b3) in *.
  change (2 ^ 8) with 256. change (2 ^ 16) with 65536. change (2 ^ 24) with 16777216.
  assert (E0 : (a0 + a1 * 256 + a2 * 65536 + a3 * 16777216) mod 256 = a0).
  { Z.div_mod_to_equations. lia. }
  assert (E1 : ((a0 + a1 * 256 + a2 * 65536 + a3 * 16777216) / 256) mod 256 = a1).
  { Z.div_mod_to_equations. lia. }
  assert (E2 : ((a0 + a1 * 256 + a2 * 65536 + a3 * 16777216) / 65536) mod 256 = a2).
  { Z.div_mod_to_equations. lia. }
  assert (E3 : ((a0 + a1 * 256 + a2 * 65536 + a3 * 16777216) / 16777216) mod 256 = a3).
  { Z.div_mod_to_equations. lia. }
  rewrite E0, E1, E2, E3. reflexivity.
Qed.

(** Storing the swapped word on the host writes the value most significant
    byte first. *)
Lemma host_store32_bswap32 (x : Z) : host_store32 (bswap32 x) = be32 x.
Proof.
  unfold host_store32, be32. rewrite bswap32_bytes.
  rewrite !Z.shiftr_div_pow2 by lia.
  change (2 ^ 8) with 256. change (2 ^ 16) with 65536. change (2 ^ 24) with 16777216.
  set (a0 := x mod 256). set (a1 := (x / 256) mod 256).
  set (a2 := (x / 65536) mod 256). set (a3 := (x / 16777216) mod 256).
  assert (H0 : 0 <= a0 < 256) by (apply Z.mod_pos_bound; lia).
  assert (H1 : 0 <= a1 < 256) by (apply Z.mod_pos_bound; lia).
  assert (H2 : 0 <= a2 < 256) by (apply Z.mod_pos_bound; lia).
  assert (H3 : 0 <= a3 < 256) by (apply Z.mod_pos_bound; lia).
  rewrite <- (byte_of_Z_mod (a0 * 16777216 + a1 * 65536 + a2 * 256 + a3)).
  rewrite <- (byte_of_Z_mod ((a0 * 16777216 + a1 * 65536 + a2 * 256 + a3) / 256)).
  rewrite <- (byte_of_Z_mod ((a0 * 16777216 + a1 * 65536 + a2 * 256 + a3) / 65536)).
  rewrite <- (byte_of_Z_mod ((a0 * 16777216 + a1 * 65536 + a2 * 256 + a3) / 16777216)).
  assert (E3 : (a0 * 16777216 + a1 * 65536 + a2 * 256 + a3) mod 256 = a3).
  { Z.div_mod_to_equations. lia. }
  assert (E2 : ((a0 * 16777216 + a1 * 65536 + a2 * 256 + a3) / 256) mod 256 = a2).
  { Z.div_mod_to_equations. lia. }
  assert (E1 : ((a0 * 16777216 + a1 * 65536 + a2 * 256 + a3) / 65536) mod 256 = a1).
  { Z.div_mod_to_equations. lia. }
  assert (E0 : ((a0 * 16777216 + a1 * 65536 + a2 * 256 + a3) / 16777216) mod 256 = a0).
  { Z.div_mod_to_equations. lia. }
  rewrite E0, E1, E2, E3. unfold a0, a1, a2, a3.
  rewrite !byte_of_Z_mod. reflexivity.
Qed.

Lemma be32_decode_be32 (x : Z) :
  0 <= x < 2 ^ 32 ->
  match be32 x with
  | [b0; b1; b2; b3] => be32_decode b0 b1 b2 b3 = x
  | _ => False
  end.
Proof.
  intros Hx. unfold be32, be32_decode. rewrite !byte_to_of_Z.
  rewrite !Z.shiftr_div_pow2 by lia.
  change (2 ^ 8) with 256. change (2 ^ 16) with 65536. change (2 ^ 24) with 16777216.
  change (2 ^ 32) with 4294967296 in Hx.
  Z.div_mod_to_equations. lia.
Qed.

(** * Hash id of EndService packets *)

(** C6.  For every EndService control packet the extracted hash id is
    NOT_SUPPORTED when the protocol version of the packet is below 2; at
    version 2 or higher it is WRONG when the payload has fewer than 4 bytes
    or its first four bytes, read as a big-endian 32-bit number, are zero;
    otherwise it is that number. *)
Theorem C6_get_hash_id (b : Build) (packet : ProtocolPacket) :
  get_hash_id b packet = spec_hash_id b (protocol_version packet) (data packet).
Proof.
  unfold get_hash_id, spec_hash_id, PROTOCOL_VERSION_2, data_size.
  destruct (protocol_version packet <? 2); [reflexivity|].
  destruct (data packet) as [|b0 [|b1 [|b2 [|b3 rest]]]]; simpl length;
    try (destruct (_ <? 4) eqn:E; reflexivity).
  destruct (Z.of_nat (S (S (S (S (length rest))))) <? 4) eqn:E.
  - apply Z.ltb_lt in E. lia.
  - rewrite bswap32_host_load32. reflexivity.
Qed.

(** * Message counters *)

Lemma posted_PostMessage p f ph : posted (PostMessage p f ph) = posted ph ++ [p].
Proof. unfold posted, PostMessage; simpl. rewrite map_app. reflexivity. Qed.

Lemma posted_since_app ph ph' l : posted ph' = posted ph ++ l -> posted_since ph ph' = l.
Proof. intros H. unfold posted_since. rewrite H. apply drop_app_length. Qed.

Lemma posted_since_refl ph : posted_since ph ph = [].
Proof. apply posted_since_app. rewrite app_nil_r. reflexivity. Qed.

Lemma counter_value_with_counters s c ph :
  counter_value s (with_counters c ph) = default 0 (c !! s).
Proof. reflexivity. Qed.

Lemma counter_next_spec s ph :
  fst (counter_next s ph) = counter_value s ph
  /\ counter_value s (snd (counter_next s ph)) = u32 (counter_value s ph + 1)
  /\ (forall s', s' <> s ->
        counter_value s' (snd (counter_next s ph)) = counter_value s' ph)
  /\ posted (snd (counter_next s ph)) = posted ph.
Proof.
  unfold counter_next, counter_value; simpl. repeat split.
  - rewrite lookup_insert_eq. reflexivity.
  - intros s' Hs. rewrite lookup_insert_ne by congruence. reflexivity.
Qed.

Lemma u32_range z : 0 <= u32 z < 2 ^ 32.
Proof. unfold u32. apply Z.mod_pos_bound. lia. Qed.

Lemma u8_small z : 0 <= z < 256 -> u8 z = z.
Proof. intros H. unfold u8. apply Z.mod_small. exact H. Qed.

(** A control frame takes the current value of the counter of its session
    and moves the counter on by one. *)
Lemma post_control_spec c v prot service fd s ph :
  let r := post_control c v prot service fd s ph in
  message_id (fst r) = counter_value s ph
  /\ connection_id (fst r) = c
  /\ session_id (fst r) = s
  /\ protocol_version (fst r) = v
  /\ frame_data (fst r) = fd
  /\ frame_type (fst r) = FRAME_TYPE_CONTROL
  /\ service_type (fst r) = service
  /\ protection_flag (fst r) = prot
  /\ data (fst r) = []
  /\ counter_value s (snd r) = u32 (counter_value s ph + 1)
  /\ posted (snd r) = posted ph
  /\ build (snd r) = build ph /\ profile (snd r) = profile ph.
Proof.
  unfold post_control, counter_next; simpl. repeat split.
  unfold counter_value; simpl. rewrite lookup_insert_eq. reflexivity.
Qed.

Lemma lt_mod32_succ a : 0 <= a < 2 ^ 32 -> lt_mod32 a (u32 (a + 1)).
Proof.
  intros Ha. unfold lt_mod32, u32.
  replace ((((a + 1) mod 2 ^ 32) - a) mod 2 ^ 32) with 1.
  - split; [lia | reflexivity].
  - change (2 ^ 32) with 4294967296 in *.
    Z.div_mod_to_equations. lia.
Qed.

Lemma consecutive_strictly_increasing c ids :
  0 <= c < 2 ^ 32 -> consecutive_from c ids -> strictly_increasing_mod32 ids.
Proof.
  revert c. induction ids as [|a ids IH]; intros c Hc H; [exact I|].
  destruct H as [-> H]. destruct ids as [|b ids]; [exact I|].
  split.
  - destruct H as [-> _]. apply lt_mod32_succ. exact Hc.
  - apply (IH (u32 (c + 1))); [apply u32_range | exact H].
Qed.

(** * Fragmentation of outbound messages *)

Lemma consecutive_frames_map n i mk :
  0 <= i -> Z.of_nat n + i <= 2 ^ 32 ->
  consecutive_frames n i mk = map (fun k => mk (i + Z.of_nat k)) (seq 0 n).
Proof.
  revert i. induction n as [|n IH]; intros i Hi Hn; [reflexivity|].
  simpl. rewrite Z.add_0_r. f_equal.
  destruct n as [|n]; [reflexivity|].
  assert (E : u32 (i + 1) = i + 1) by (unfold u32; apply Z.mod_small; lia).
  rewrite E, IH by lia.
  rewrite <- seq_shift, map_map.
  apply map_ext. intros k. f_equal. lia.
Qed.

Lemma post_all_spec l ph :
  posted (post_all l ph) = posted ph ++ map frame l
  /\ message_counters_ (post_all l ph) = message_counters_ ph.
Proof.
  revert ph. induction l as [|m l IH]; intros ph; simpl.
  - rewrite app_nil_r. auto.
  - destruct (IH (PostMessage (frame m) (is_final m) ph)) as [H1 H2].
    unfold post_all in *. rewrite H1, H2, posted_PostMessage, <- app_assoc. auto.
Qed.

(** Cutting a buffer into [k] pieces of [m] bytes, piece [i] starting at
    offset [m * i], covers its first [m * k] bytes. *)
Lemma chunks_take {A} (m k : nat) (l : list A) :
  concat (map (fun i => take m (drop (m * i) l)) (seq 0 k)) = take (m * k) l.
Proof.
  induction k as [|k IH].
  - rewrite Nat.mul_0_r. reflexivity.
  - rewrite seq_S, map_app, concat_app, IH. simpl. rewrite app_nil_r.
    rewrite take_take_drop. f_equal. lia.
Qed.

Lemma frames_count_split (N m : Z) :
  0 < m -> 0 < N ->
  1 <= frames_count N m
  /\ m * (frames_count N m - 1) + lastframe_size N m = N
  /\ 0 < lastframe_size N m <= m.
Proof.
  intros Hm HN. unfold frames_count, lastframe_size, lastframe_remainder.
  pose proof (Z.mod_pos_bound N m Hm) as Hr.
  pose proof (Z.div_mod N m ltac:(lia)) as Hd.
  assert (0 <= N / m) by (apply Z.div_pos; lia).
  destruct (0 <? N mod m) eqn:E.
  - apply Z.ltb_lt in E. lia.
  - apply Z.ltb_ge in E. assert (N mod m = 0) by lia.
    assert (N / m <> 0) by (intros Hz; rewrite Hz in Hd; lia).
    nia.
Qed.

Lemma frames_count_le (N m : Z) : 0 < m -> 0 < N -> frames_count N m <= N.
Proof.
  intros Hm HN. destruct (frames_count_split N m Hm HN) as (H1 & H2 & H3). nia.
Qed.

(** What [SendMultiFrameMessage] posts for a payload of less than 2^32
    bytes: one First frame announcing size and frame count, then
    [frames_count] Consecutive frames whose frame data cycles 1..0x7F and
    is 0 on the last, whose payloads together are the payload of the
    message; all carry the low eight bits of the value drawn from the
    counter of the session, which moves on by one. *)
Lemma SendMultiFrameMessage_frames (c s v service : Z) (payload : list byte)
    (max_frame_size : Z) (final : bool) (ph : ProtocolHandlerImpl) :
  0 < max_frame_size ->
  0 < Z.of_nat (length payload) < 2 ^ 32 ->
  let N := Z.of_nat (length payload) in
  let n := frames_count N max_frame_size in
  let ph' := snd (SendMultiFrameMessage c s v service N payload max_frame_size final ph) in
  exists first rest,
    posted_since ph ph' = first :: rest
    /\ frame_type first = FRAME_TYPE_FIRST
    /\ data first = be32 N ++ be32 n
    /\ Z.of_nat (length rest) = n
    /\ (forall i p, rest !! i = Some p ->
          frame_type p = FRAME_TYPE_CONSECUTIVE
          /\ frame_data p = spec_frame_data n (Z.of_nat i))
    /\ concat (map data rest) = payload
    /\ (forall p, In p (first :: rest) ->
          message_id p = u8 (counter_value s ph)
          /\ session_id p = s /\ connection_id p = c)
    /\ counter_value s ph' = u32 (counter_value s ph + 1).
Proof.
  intros Hm HN N n ph'.
  destruct (frames_count_split N max_frame_size Hm (proj1 HN)) as (Hn1 & Hsplit & Hlast).
  fold n in Hn1, Hsplit.
  pose proof (frames_count_le N max_frame_size Hm (proj1 HN)) as Hnle. fold n in Hnle.
  set (mk := consecutive_frame c s v service N payload max_frame_size final
               (u8 (counter_value s ph))).
  assert (Hposted : posted ph' = posted ph ++
            ProtocolPacket_new c v PROTECTION_OFF FRAME_TYPE_FIRST service FRAME_DATA_FIRST
              s FIRST_FRAME_DATA_SIZE (u8 (counter_value s ph))
              (first_frame_out_data N n)
            :: map frame (map (fun k => mk (Z.of_nat k)) (seq 0 (Z.to_nat n)))).
  { unfold ph', SendMultiFrameMessage, counter_next. simpl.
    fold n. fold (counter_value s ph). fold mk.
    rewrite (proj1 (post_all_spec _ _)), posted_PostMessage.
    rewrite consecutive_frames_map by lia.
    rewrite <- app_assoc. reflexivity. }
  eexists _, _. split; [apply posted_since_app; exact Hposted|].
  split; [reflexivity|]. split; [reflexivity|].
  split; [rewrite !length_map, length_seq; lia|].
  split; [|split; [|split]].
  - intros i p Hp. rewrite !list_lookup_fmap in Hp.
    destruct (seq 0 (Z.to_nat n) !! i) as [k|] eqn:Ek; [|discriminate].
    apply lookup_seq in Ek. destruct Ek as [-> Hi]. simpl in Hp.
    injection Hp as <-. unfold mk, consecutive_frame; simpl. split; [reflexivity|].
    unfold spec_frame_data. fold n.
    destruct (Z.of_nat i =? n - 1); [reflexivity|].
    unfold u8, FRAME_DATA_MAX_CONSECUTIVE.
    apply Z.mod_small.
    pose proof (Z.mod_pos_bound (Z.of_nat i) 127 ltac:(lia)). lia.
  - rewrite !map_map.
    assert (Hk : Z.to_nat n = S (Z.to_nat (n - 1))) by lia.
    rewrite Hk, seq_S, map_app, concat_app. simpl. rewrite app_nil_r.
    rewrite (map_ext_in _ (fun k => take (Z.to_nat max_frame_size)
                                      (drop (Z.to_nat max_frame_size * k) payload))).
    + rewrite chunks_take.
      unfold mk, consecutive_frame; simpl. fold n.
      replace (Z.of_nat (Z.to_nat (n - 1)) =? n - 1) with true
        by (symmetry; apply Z.eqb_eq; lia).
      replace (Z.to_nat (max_frame_size * Z.of_nat (Z.to_nat (n - 1))))
        with (Z.to_nat max_frame_size * Z.to_nat (n - 1))%nat by nia.
      rewrite (take_ge (drop _ _)).
      * apply take_drop.
      * rewrite length_drop. unfold N in Hsplit.
        rewrite <- Z2Nat.inj_mul by lia.
        set (L := lastframe_size _ _) in *. lia.
    + intros k Hk'. apply in_seq in Hk'.
      unfold mk, consecutive_frame; simpl. fold n.
      replace (Z.of_nat k =? n - 1) with false by (symmetry; apply Z.eqb_neq; lia).
      f_equal. f_equal. nia.
  - intros p [<-|Hin]; [simpl; auto|].
    rewrite map_map in Hin. apply in_map_iff in Hin. destruct Hin as (k & <- & _).
    unfold mk, consecutive_frame; simpl. auto.
  - unfold ph', SendMultiFrameMessage, counter_next. simpl.
    unfold counter_value.
    rewrite (proj2 (post_all_spec _ _)). simpl.
    rewrite lookup_insert_eq. reflexivity.
Qed.

(** * Message ids of outbound frames *)

Lemma Forall_consecutive_frames (P : ProtocolPacket -> Prop) n i mk :
  (forall j, P (frame (mk j))) -> Forall P (map frame (consecutive_frames n i mk)).
Proof.
  intros H. revert i. induction n as [|n IH]; intros i; cbn; constructor; auto.
Qed.

Lemma build_post_all l ph : build (post_all l ph) = build ph.
Proof.
  revert ph. induction l as [|m l IH]; intros ph; [reflexivity|].
  unfold post_all in *. cbn. rewrite IH. reflexivity.
Qed.

Lemma counter_value_insert s s' v ph ph' :
  message_counters_ ph' = <[s := v]> (message_counters_ ph) ->
  s' <> s -> counter_value s' ph' = counter_value s' ph.
Proof.
  intros H Hne. unfold counter_value. rewrite H, lookup_insert_ne by congruence.
  reflexivity.
Qed.

(** What one send does: it posts frames for its session and connection
    that all carry its message id, and when it posts frames with an id
    from the counter it moves the counter of the session on by one; the
    counters of the other sessions stay. *)
Lemma draw_frames (s : Z) (d : Draw) (ph : ProtocolHandlerImpl) :
  0 <= s < 256 ->
  on_session s d ->
  exists g,
    posted (draw s d ph) = posted ph ++ g
    /\ Forall (fun p => message_id p = frame_id d (counter_value s ph)
                        /\ session_id p = s
                        /\ connection_id p = draw_connection d) g
    /\ counter_value s (draw s d ph) = counter_after d g (counter_value s ph)
    /\ (forall s', s' <> s -> counter_value s' (draw s d ph) = counter_value s' ph)
    /\ (one_frame_sender d = true -> (length g <= 1)%nat)
    /\ build (draw s d ph) = build ph.
Proof.
  intros Hs Hon.
  assert (Hnone : exists g : list ProtocolPacket,
             posted ph = posted ph ++ g
             /\ Forall (fun p => message_id p = frame_id d (counter_value s ph)
                                 /\ session_id p = s
                                 /\ connection_id p = draw_connection d) g
             /\ counter_value s ph = counter_after d g (counter_value s ph)
             /\ (forall s', s' <> s -> counter_value s' ph = counter_value s' ph)
             /\ (one_frame_sender d = true -> (length g <= 1)%nat)
             /\ build ph = build ph).
  { exists []. rewrite app_nil_r. repeat split; auto. }
  assert (Hone : forall (p : ProtocolPacket) (f : bool) (ph1 : ProtocolHandlerImpl),
             takes_id d = true ->
             message_counters_ ph1
             = <[s := u32 (counter_value s ph + 1)]> (message_counters_ ph) ->
             posted ph1 = posted ph -> build ph1 = build ph ->
             message_id p = frame_id d (counter_value s ph) ->
             session_id p = s -> connection_id p = draw_connection d ->
             exists g,
               posted (PostMessage p f ph1) = posted ph ++ g
               /\ Forall (fun p => message_id p = frame_id d (counter_value s ph)
                                   /\ session_id p = s
                                   /\ connection_id p = draw_connection d) g
               /\ counter_value s (PostMessage p f ph1)
                  = counter_after d g (counter_value s ph)
               /\ (forall s', s' <> s ->
                     counter_value s' (PostMessage p f ph1) = counter_value s' ph)
               /\ (one_frame_sender d = true -> (length g <= 1)%nat)
               /\ build (PostMessage p f ph1) = build ph).
  { intros p f ph1 Ht Hc Hp Hb Hid Hsid Hcid. exists [p].
    rewrite posted_PostMessage, Hp.
    split; [reflexivity|]. split; [repeat constructor; assumption|].
    split; [|split; [|split]].
    - unfold counter_after. rewrite Ht. unfold counter_value at 1.
      cbn [message_counters_ PostMessage]. rewrite Hc, lookup_insert_eq. reflexivity.
    - intros s' Hne.
      apply (counter_value_insert s s' (u32 (counter_value s ph + 1)) ph);
        [exact Hc | exact Hne].
    - intros _. cbn. lia.
    - exact Hb. }
  destruct d as [c v sv payload f|c h sv prot|c v sv|c v sv|c v sv
                 |c v sv payload m f|c sv|c|so key n|c mid];
    cbn [draw].
  - unfold SendSingleFrameMessage, counter_next. cbn [snd].
    apply Hone; reflexivity.
  - unfold SendStartSessionAck, post_control, counter_next.
    apply Hone; try reflexivity;
      unfold set_hash_id, set_data;
      repeat match goal with |- context [if ?b then _ else _] => destruct b end;
      reflexivity.
  - unfold SendStartSessionNAck, post_control, counter_next.
    apply Hone; reflexivity.
  - unfold SendEndSessionAck, post_control, counter_next.
    apply Hone; reflexivity.
  - unfold SendEndSessionNAck, post_control, counter_next. rewrite (u8_small s Hs).
    apply Hone; reflexivity.
  - unfold SendMultiFrameMessage, counter_next. cbn [snd].
    set (ph1 := with_counters _ ph).
    set (first := ProtocolPacket_new c v PROTECTION_OFF FRAME_TYPE_FIRST sv
                    FRAME_DATA_FIRST s FIRST_FRAME_DATA_SIZE _ _).
    set (l := consecutive_frames _ 0 _).
    exists (first :: map frame l).
    destruct (post_all_spec l (PostMessage first false ph1)) as [Hp Hc].
    split; [|split; [|split; [|split; [|split]]]].
    + rewrite Hp, posted_PostMessage. unfold ph1. rewrite <- app_assoc. reflexivity.
    + constructor; [repeat split|].
      apply Forall_consecutive_frames. intros j. repeat split.
    + unfold counter_after. cbn [takes_id]. unfold counter_value at 1.
      rewrite Hc. unfold ph1. cbn [message_counters_ PostMessage with_counters].
      rewrite lookup_insert_eq. reflexivity.
    + intros s' Hne. unfold counter_value at 1. rewrite Hc. unfold ph1.
      cbn [message_counters_ PostMessage with_counters].
      rewrite lookup_insert_ne by congruence. reflexivity.
    + discriminate.
    + rewrite build_post_all. reflexivity.
  - unfold SendEndService, SendEndServicePrivate.
    destruct (session_observer_ ph) as [so|]; [|exact Hnone].
    destruct (ProtocolVersionUsed so c s) as [version|]; [|exact Hnone].
    unfold post_control, counter_next. apply Hone; reflexivity.
  - unfold SendHeartBeat.
    destruct (session_observer_ ph) as [so|]; [|exact Hnone].
    destruct (ProtocolVersionUsed so c s) as [version|]; [|exact Hnone].
    unfold post_control, counter_next. apply Hone; reflexivity.
  - unfold SendFramesNumber. cbn [on_session] in Hon.
    destruct (PairFromKey so key) as [connection session] eqn:Ek.
    cbn [snd] in Hon. subst session.
    destruct (ProtocolVersionUsed so connection s) as [version|]; [|exact Hnone].
    unfold counter_next. apply Hone; try reflexivity.
    cbn [draw_connection]. rewrite Ek. reflexivity.
  - unfold SendHeartBeatAck.
    destruct (session_observer_ ph) as [so|]; [|exact Hnone].
    destruct (ProtocolVersionUsed so c s) as [version|]; [|exact Hnone].
    cbn [snd]. eexists [_]. rewrite posted_PostMessage.
    split; [reflexivity|]. split; [repeat constructor|].
    split; [reflexivity|]. split; [reflexivity|]. split; [discriminate | reflexivity].
Qed.

(** A trace of sends for one session. *)
Lemma draws_in_turn (s : Z) (ds : list Draw) :
  0 <= s < 256 ->
  Forall (on_session s) ds ->
  forall ph,
    posted (draws s ds ph) = posted ph ++ concat (sent_in_turn s ds ph)
    /\ drawn_in_turn s (counter_value s ph) ds (sent_in_turn s ds ph)
    /\ (forall s', s' <> s -> counter_value s' (draws s ds ph) = counter_value s' ph)
    /\ build (draws s ds ph) = build ph
    /\ (forallb one_frame_sender ds = true ->
        consecutive_from (counter_value s ph)
          (map message_id (concat (sent_in_turn s ds ph)))).
Proof.
  intros Hs Hon. induction Hon as [|d ds Hd Hon IH]; intros ph.
  - cbn. rewrite app_nil_r. repeat split; auto.
  - change (draws s (d :: ds) ph) with (draws s ds (draw s d ph)).
    cbn [sent_in_turn concat drawn_in_turn forallb].
    destruct (draw_frames s d ph Hs Hd) as (g & Hg & Hall & Hc & Hother & Hlen & Hb).
    rewrite (posted_since_app _ _ _ Hg).
    destruct (IH (draw s d ph)) as (H1 & H2 & H3 & H4 & H5).
    split; [rewrite H1, Hg, <- app_assoc; reflexivity|].
    split; [split; [exact Hall | rewrite <- Hc; exact H2]|].
    split; [intros s' Hne; rewrite H3, Hother by exact Hne; reflexivity|].
    split; [congruence|].
    intros Hone. apply andb_true_iff in Hone. destruct Hone as [Hone Hrest].
    specialize (H5 Hrest). specialize (Hlen Hone). rewrite Hc in H5.
    destruct g as [|p [|q g]]; cbn in Hlen; [| |lia].
    + exact H5.
    + cbn [app map consecutive_from].
      apply Forall_inv in Hall. destruct Hall as (Hid & _).
      split.
      * rewrite Hid. destruct d; try discriminate Hone; reflexivity.
      * unfold counter_after in H5.
        replace (takes_id d) with true in H5
          by (destruct d; try discriminate Hone; reflexivity).
        exact H5.
Qed.







(** C2 at a session whose counter has reached 256.  The fragments of the
    message share one id and the counter moves on once, from 256 to 257,
    but the id the fragments carry is 0: the value drawn from the counter
    passes through a [uint8_t] local.  A Single frame sent from the same
    state carries 256. *)
Theorem C2_multiframe_message_id :
  counter_value 1 busy_handler = 256
  /\ map (fun p => (frame_type p, frame_data p, message_id p))
       (posted_since busy_handler
          (SendMessageToMobileApp long_message false busy_handler))
     = [(FRAME_TYPE_FIRST, 0, 0); (FRAME_TYPE_CONSECUTIVE, 1, 0);
        (FRAME_TYPE_CONSECUTIVE, 2, 0); (FRAME_TYPE_CONSECUTIVE, 0, 0)]
  /\ counter_value 1 (SendMessageToMobileApp long_message false busy_handler) = 257
  /\ map message_id
       (posted_since busy_handler
          (SendMessageToMobileApp short_message false busy_handler)) = [256].
Proof. vm_compute. repeat split; reflexivity. Qed.

(** * Start of a service *)

Lemma SupportedSDLProtocolVersion_spec (pr : Profile) :
  SupportedSDLProtocolVersion pr =
  if enable_protocol_4 pr then 4 else if heart_beat_timeout pr =? 0 then 2 else 3.
Proof.
  unfold SupportedSDLProtocolVersion.
  destruct (enable_protocol_4 pr); [reflexivity|].
  rewrite (Z.eqb_sym 0). destruct (heart_beat_timeout pr =? 0); reflexivity.
Qed.

Lemma SupportedSDLProtocolVersion_ge_2 (pr : Profile) :
  (SupportedSDLProtocolVersion pr <? PROTOCOL_VERSION_2) = false.
Proof.
  rewrite SupportedSDLProtocolVersion_spec.
  destruct (enable_protocol_4 pr); [reflexivity|].
  destruct (heart_beat_timeout pr =? 0); reflexivity.
Qed.

(** The one frame [SendStartSessionAck] posts. *)
Lemma SendStartSessionAck_posted c s v h service prot ph :
  posted (SendStartSessionAck c s v h service prot ph) =
  posted ph ++
  [{| connection_id := c;
      protocol_version :=
        if enable_protocol_4 (profile ph) then 4
        else if heart_beat_timeout (profile ph) =? 0 then 2 else 3;
      protection_flag := prot;
      frame_type := FRAME_TYPE_CONTROL;
      service_type := service;
      frame_data := FRAME_DATA_START_SERVICE_ACK;
      session_id := s;
      message_id := counter_value s ph;
      data := if (h =? HASH_ID_NOT_SUPPORTED) || (h =? HASH_ID_WRONG (build ph))
              then [] else be32 h |}].
Proof.
  unfold SendStartSessionAck, post_control, counter_next. simpl.
  rewrite posted_PostMessage. simpl. f_equal. f_equal.
  unfold set_hash_id.
  match goal with |- context [protocol_version ?p <? PROTOCOL_VERSION_2] =>
    change (protocol_version p) with (SupportedSDLProtocolVersion (profile ph)) end.
  rewrite SupportedSDLProtocolVersion_ge_2.
  rewrite (Z.eqb_sym HASH_ID_NOT_SUPPORTED h).
  match goal with |- context [HASH_ID_WRONG ?b =? h] =>
    change (HASH_ID_WRONG b) with (HASH_ID_WRONG (build ph));
    rewrite (Z.eqb_sym (HASH_ID_WRONG (build ph)) h) end.
  rewrite SupportedSDLProtocolVersion_spec.
  destruct ((h =? HASH_ID_NOT_SUPPORTED) || (h =? HASH_ID_WRONG (build ph)));
    unfold ProtocolPacket_new, set_data; simpl; [reflexivity|].
  rewrite host_store32_bswap32. reflexivity.
Qed.

Lemma SendStartSessionNAck_posted c s v service ph :
  posted (SendStartSessionNAck c s v service ph) =
  posted ph ++
  [{| connection_id := c; protocol_version := v; protection_flag := false;
      frame_type := FRAME_TYPE_CONTROL; service_type := service;
      frame_data := FRAME_DATA_START_SERVICE_NACK; session_id := s;
      message_id := counter_value s ph; data := [] |}].
Proof.
  unfold SendStartSessionNAck, post_control, counter_next. simpl.
  rewrite posted_PostMessage. reflexivity.
Qed.

Lemma posted_call c ph : posted (call c ph) = posted ph.
Proof. reflexivity. Qed.

Lemma calls_SendStartSessionAck c s v h service prot ph :
  calls (SendStartSessionAck c s v h service prot ph) = calls ph.
Proof. reflexivity. Qed.

Lemma calls_since_same ph ph' : calls ph' = calls ph -> calls_since ph ph' = [].
Proof. intros H. unfold calls_since. rewrite H. apply drop_all. Qed.

Lemma calls_since_call c ph ph' :
  calls ph' = calls (call c ph) -> calls_since ph ph' = [c].
Proof.
  intros H. unfold calls_since. rewrite H. unfold call; cbn [calls].
  apply drop_app_length.
Qed.

Lemma calls_SendStartSessionNAck c s v service ph :
  calls (SendStartSessionNAck c s v service ph) = calls ph.
Proof. reflexivity. Qed.

Lemma calls_since_app ph ph' l : calls ph' = calls ph ++ l -> calls_since ph ph' = l.
Proof. intros H. unfold calls_since. rewrite H. apply drop_app_length. Qed.

(** C5, as the code has it.  On a StartService control frame the engine
    answers a refusal of the registry (session id 0) with one
    StartServiceNAck that carries the protocol version of the packet, and
    calls nobody.  When the registry accepts and the acknowledgement has to
    wait for the security handshake, the engine posts nothing: it hands the
    security manager a listener that holds the connection key, the
    connection, the session id and the hash id of the registry, the
    protocol version and the service of the packet, and starts the
    handshake unless one is pending; nothing else is called.  Otherwise it
    posts one StartServiceAck with the protocol version the head unit
    supports (4 when protocol 4 is enabled, else 3 when the heartbeat
    timeout is not zero, else 2) and with the hash id of the registry as
    four big-endian bytes, unless that hash id is one of the sentinels
    NOT_SUPPORTED and WRONG, in which case the acknowledgement has no
    payload; its only call is then to mark the service protected when the
    context was initialised, or to report an internal error when no
    context could be created. *)
Theorem C5_start_service_answer (so : SessionObserver) (connection : Z)
    (packet : ProtocolPacket) (ph : ProtocolHandlerImpl) :
  let ph' := snd (HandleControlMessageStartSession so connection packet ph) in
  let listener := handshake_listener so connection packet ph in
  posted_since ph ph' =
    (if fst (registry_answer so connection packet ph) =? 0
     then [spec_start_service_nack connection packet ph]
     else if handshake_deferred so connection packet ph then []
     else [spec_start_service_ack so connection packet ph])
  /\ calls_since ph ph' =
     (if fst (registry_answer so connection packet ph) =? 0 then []
      else
        match ssl_context_for so connection packet ph with
        | Some (Some ssl_context) =>
            if IsInitCompleted ssl_context
            then [CallSetProtectionFlag (connection_key_ listener)
                    (service_type_ listener)]
            else CallAddListener listener
                 :: (if IsHandshakePending ssl_context then []
                     else [CallStartHandshake (connection_key_ listener)])
        | Some None => [CallSendInternalError (connection_key_ listener)]
        | None => []
        end).
Proof.
  cbv zeta. split.
  - apply posted_since_app.
    unfold HandleControlMessageStartSession, spec_start_service_ack,
      spec_start_service_nack, handshake_deferred, ack_protected, ssl_context_for,
      registry_answer, protection_requested.
    destruct (ENABLE_SECURITY (build ph)) eqn:Esec;
      cbn [andb];
      [destruct (PROTOCOL_VERSION_1 <? protocol_version packet) eqn:Ev; cbn [andb]|];
      match goal with
      | |- context [OnSessionStartedCallback so connection ?a ?b ?c] =>
          destruct (OnSessionStartedCallback so connection a b c) as [session hash] eqn:Er
      end;
      cbn [fst snd]; rewrite (Z.eqb_sym 0 session);
      (destruct (session =? 0); [apply SendStartSessionNAck_posted|]);
      try (destruct (security_manager_ ph) as [sm|]);
      try (destruct (protection_flag packet));
      try apply SendStartSessionAck_posted.
    destruct (CreateSSLContext sm (KeyFromPair so connection (u8 session))) as [ctx|].
    + destruct (IsInitCompleted ctx); cbn [negb snd].
      * exact (SendStartSessionAck_posted _ _ _ _ _ _ (call _ ph)).
      * destruct (IsHandshakePending ctx); cbn [negb]; rewrite ?posted_call, app_nil_r;
          reflexivity.
    + exact (SendStartSessionAck_posted _ _ _ _ _ _ (call _ ph)).
  - unfold HandleControlMessageStartSession, handshake_listener, ssl_context_for,
      registry_answer, protection_requested.
    destruct (ENABLE_SECURITY (build ph)) eqn:Esec;
      cbn [andb];
      [destruct (PROTOCOL_VERSION_1 <? protocol_version packet) eqn:Ev; cbn [andb]|];
      match goal with
      | |- context [OnSessionStartedCallback so connection ?a ?b ?c] =>
          destruct (OnSessionStartedCallback so connection a b c) as [session hash] eqn:Er
      end;
      cbn [fst snd]; rewrite (Z.eqb_sym 0 session);
      (destruct (session =? 0); [apply calls_since_same; reflexivity|]);
      try (destruct (security_manager_ ph) as [sm|]);
      try (destruct (protection_flag packet));
      try (apply calls_since_same; reflexivity).
    cbn [connection_key_ service_type_].
    destruct (CreateSSLContext sm (KeyFromPair so connection (u8 session))) as [ctx|].
    + destruct (IsInitCompleted ctx); cbn [negb snd].
      * apply calls_since_app. reflexivity.
      * destruct (IsHandshakePending ctx); cbn [negb]; apply calls_since_app;
          unfold call; cbn [calls]; rewrite <- ?app_assoc; reflexivity.
    + apply calls_since_app. reflexivity.
Qed.

(** The registry accepts the protected start of the RPC service, yet no
    frame goes out while the handshake is pending; and when the handshake
    then succeeds on a service that is protected already, the answer is a
    StartServiceNAck. *)
Lemma C5_counterexample :
  let packet := control_packet SERVICE_TYPE_RPC FRAME_DATA_START_SERVICE true [] in
  let ph := snd (HandleControlMessage 7 packet secure_handler) in
  fst (registry_answer example_observer 7 packet secure_handler) = 1
  /\ posted_since secure_handler ph = []
  /\ map frame_data
       (posted_since secure_handler
          (snd (OnHandshakeDone protected_observer
                  {| connection_key_ := 1793; connection_id_ := 7; session_id_ := 1;
                     protocol_version_ := 3; hash_id_ := 305419896;
                     service_type_ := kRpc |} 1793 true ph)))
     = [FRAME_DATA_START_SERVICE_NACK].
Proof. vm_compute. repeat split; reflexivity. Qed.

(** * Flood metering *)

Lemma flood_calls_call c ph :
  flood_calls (call c ph) = flood_calls ph ++ (if is_flood_call c then [c] else []).
Proof.
  unfold flood_calls, call; simpl. rewrite List.filter_app. simpl.
  destruct (is_flood_call c); reflexivity.
Qed.

(** The handlers of inbound frames neither touch the meter nor call the
    flood callback. *)
Lemma HandleMessage_meter connection packet ph :
  message_meter_ (snd (HandleMessage connection packet ph)) = message_meter_ ph
  /\ flood_calls (snd (HandleMessage connection packet ph)) = flood_calls ph.
Proof.
  unfold HandleMessage, HandleControlMessage, HandleSingleFrameMessage,
    HandleMultiFrameMessage, HandleControlMessageStartSession,
    HandleControlMessageEndSession, HandleControlMessageHeartBeat,
    SendHeartBeatAck, SendStartSessionAck, SendStartSessionNAck, SendEndSessionAck,
    SendEndSessionNAck, post_control, counter_next.
  repeat match goal with
         | |- context [match ?x with _ => _ end] => destruct x eqn:?
         end;
    cbn [fst snd]; split; try reflexivity;
    unfold flood_calls, PostMessage, with_counters, call,
      with_incomplete_multi_frame_messages; cbn [calls];
    rewrite ?List.filter_app; cbn [List.filter is_flood_call];
    rewrite ?app_nil_r; reflexivity.
Qed.

Lemma MessageMeter_TrackMessage_spec now id m :
  0 < MessageMeter.time_range_ m ->
  let r := MessageMeter.TrackMessage now id m in
  fst r = MessageMeter.Frequency now id m + 1
  /\ MessageMeter.Frequency now id (snd r) = MessageMeter.Frequency now id m + 1
  /\ MessageMeter.time_range_ (snd r) = MessageMeter.time_range_ m.
Proof.
  intros Hr. unfold MessageMeter.TrackMessage, MessageMeter.Frequency; simpl.
  set (old := default [] (MessageMeter.timing_map_ m !! id)).
  assert (Hnow : MessageMeter.in_window m now now = true).
  { unfold MessageMeter.in_window. apply Z.ltb_lt. lia. }
  rewrite lookup_insert_eq. simpl.
  rewrite filter_app, (filter_cons_True _ now []) by exact Hnow.
  rewrite filter_nil, length_app. simpl.
  split; [lia|]. split; [|reflexivity].
  change (MessageMeter.in_window
            {| MessageMeter.time_range_ := MessageMeter.time_range_ m;
               MessageMeter.timing_map_ := ?x |})
    with (MessageMeter.in_window m).
  rewrite filter_app, list_filter_filter_l by auto.
  rewrite (filter_cons_True _ now []) by exact Hnow.
  rewrite filter_nil, length_app. simpl. lia.
Qed.

(** The engine's side of flood metering, for a meter that is switched on. *)
Lemma Handle_FromMobile_metered (so : SessionObserver) (now : Z)
    (message : ProtocolPacket) (ph : ProtocolHandlerImpl) :
  session_observer_ ph = Some so ->
  0 < message_frequency_time_ ph ->
  0 < message_max_frequency_ ph ->
  MessageMeter.time_range_ (message_meter_ ph) = message_frequency_time_ ph ->
  service_type message <> SERVICE_TYPE_AUDIO ->
  service_type message <> SERVICE_TYPE_NAVI ->
  let key := KeyFromPair so (connection_id message) (session_id message) in
  let count := window_count now key ph + 1 in
  let ph' := Handle_FromMobile now message ph in
  if message_max_frequency_ ph <? count
  then flood_calls ph' = flood_calls ph ++ [CallOnApplicationFloodCallBack key]
       /\ MessageMeter.timing_map_ (message_meter_ ph') !! key = None
       /\ window_count now key ph' = 0
       /\ posted ph' = posted ph
       /\ calls ph' = calls ph ++ [CallOnApplicationFloodCallBack key]
       /\ message_counters_ ph' = message_counters_ ph
       /\ incomplete_multi_frame_messages_ ph' = incomplete_multi_frame_messages_ ph
  else flood_calls ph' = flood_calls ph /\ window_count now key ph' = count.
Proof.
  intros Hso Ht Hm Hrange Haudio Hnavi key count ph'.
  assert (Hr : 0 < MessageMeter.time_range_ (message_meter_ ph)) by lia.
  destruct (MessageMeter_TrackMessage_spec now key (message_meter_ ph) Hr)
    as (Hf & Hfreq & _).
  unfold ph', Handle_FromMobile. rewrite Hso.
  replace (service_type message =? SERVICE_TYPE_NAVI) with false
    by (symmetry; apply Z.eqb_neq; exact Hnavi).
  replace (service_type message =? SERVICE_TYPE_AUDIO) with false
    by (symmetry; apply Z.eqb_neq; exact Haudio).
  cbn [orb]. fold key.
  unfold TrackMessage.
  replace (0 <? message_frequency_time_ ph) with true by (symmetry; apply Z.ltb_lt; lia).
  replace (0 <? message_max_frequency_ ph) with true by (symmetry; apply Z.ltb_lt; lia).
  cbn [andb].
  destruct (MessageMeter.TrackMessage now key (message_meter_ ph)) as [freq meter] eqn:Et.
  cbn [fst snd] in Hf, Hfreq.
  change (message_max_frequency_ (with_meter meter ph)) with (message_max_frequency_ ph).
  change (session_observer_ (with_meter meter ph)) with (session_observer_ ph).
  rewrite Hso.
  assert (Hcount : freq = count) by (unfold count, window_count; exact Hf).
  rewrite Hcount.
  destruct (message_max_frequency_ ph <? count).
  - split; [|split; [|split; [|split; [|split; [|split]]]]].
    + unfold flood_calls, with_meter, call; simpl. rewrite List.filter_app. reflexivity.
    + simpl. apply lookup_delete_eq.
    + unfold window_count, MessageMeter.Frequency; simpl.
      rewrite lookup_delete_eq. reflexivity.
    + reflexivity.
    + reflexivity.
    + reflexivity.
    + reflexivity.
  - set (ph1 := if IsHeartBeatSupported so (u8 (connection_id message)) (session_id message)
                then call (CallKeepConnectionAlive (u8 (connection_id message))
                             (session_id message)) (with_meter meter ph)
                else with_meter meter ph).
    assert (H1 : message_meter_ ph1 = meter /\ flood_calls ph1 = flood_calls ph).
    { unfold ph1. destruct (IsHeartBeatSupported so _ _).
      - split; [reflexivity|]. rewrite flood_calls_call. simpl. apply app_nil_r.
      - split; reflexivity. }
    destruct H1 as [Hm1 Hc1].
    destruct (negb (data_size message =? 0) || (FRAME_TYPE_CONTROL =? frame_type message)
              || (FRAME_TYPE_FIRST =? frame_type message)).
    + destruct (HandleMessage_meter (connection_id message) message ph1) as [Hm2 Hc2].
      split; [congruence|]. unfold window_count. rewrite Hm2, Hm1.
      unfold count, window_count. exact Hfreq.
    + split; [exact Hc1|]. unfold window_count. rewrite Hm1.
      unfold count, window_count. exact Hfreq.
Qed.


(** * The application set *)

Lemma increasing_from_lt lo ids i : increasing_from lo ids -> In i ids -> lo < i.
Proof.
  revert lo. induction ids as [|j ids IH]; intros lo H Hin; [destruct Hin|].
  destruct H as [Hlt H]. destruct Hin as [->|Hin]; [exact Hlt|].
  specialize (IH j H Hin). lia.
Qed.

Lemma increasing_from_weaken lo lo' ids :
  lo' <= lo -> increasing_from lo ids -> increasing_from lo' ids.
Proof. destruct ids as [|i ids]; [auto|]. intros Hle [H1 H2]. split; [lia|exact H2]. Qed.

Lemma increasing_tail i ids : increasing (i :: ids) -> increasing ids.
Proof. destruct ids as [|j ids]; [auto|]. intros [_ H]. exact H. Qed.

Lemma Find_id_absent (id : Z) (l : list Application) :
  ~ In id (map app_id l) -> Find (fun a => app_id a =? id) l = None.
Proof.
  induction l as [|a l IH]; intros H; [reflexivity|]. simpl in *.
  destruct (app_id a =? id) eqn:E.
  - apply Z.eqb_eq in E. exfalso. apply H. left. exact E.
  - apply IH. intros Hin. apply H. right. exact Hin.
Qed.

Lemma Find_id_Some (id : Z) (l : list Application) a :
  Find (fun a => app_id a =? id) l = Some a -> app_id a = id /\ In a l.
Proof.
  induction l as [|b l IH]; [discriminate|]. simpl.
  destruct (app_id b =? id) eqn:E.
  - intros [= <-]. apply Z.eqb_eq in E. auto.
  - intros H. destruct (IH H). auto.
Qed.

Lemma map_app_id_Erase_not_in id lo l :
  increasing_from lo (map app_id l) -> id <= lo -> ~ In id (map app_id l).
Proof.
  intros H Hle Hin. pose proof (increasing_from_lt _ _ _ H Hin). lia.
Qed.

Lemma Erase_absent id l : ~ In id (map app_id l) -> Erase id l = l.
Proof.
  induction l as [|a l IH]; intros H; [reflexivity|]. simpl in *.
  destruct (app_id a =? id) eqn:E.
  - apply Z.eqb_eq in E. exfalso. apply H. left. exact E.
  - f_equal. apply IH. intros Hin. apply H. right. exact Hin.
Qed.

Lemma increasing_Erase id l :
  increasing (map app_id l) -> increasing (map app_id (Erase id l)).
Proof.
  destruct l as [|a l]; [auto|]. simpl. revert a.
  induction l as [|b l IH]; intros a H; simpl.
  - destruct (app_id a =? id); exact I.
  - destruct H as [Hab H]. destruct (app_id a =? id); [exact H|].
    simpl. specialize (IH b H). simpl in IH.
    destruct (app_id b =? id).
    + destruct l as [|c l]; [exact I|]. simpl in *. destruct H as [Hbc H].
      split; [lia | exact H].
    + split; [exact Hab | exact IH].
Qed.

Lemma not_in_Erase id l :
  increasing (map app_id l) -> ~ In id (map app_id (Erase id l)).
Proof.
  destruct l as [|a l]; [auto|]. simpl. revert a.
  induction l as [|b l IH]; intros a H; simpl.
  - destruct (app_id a =? id) eqn:E; simpl; [tauto|].
    apply Z.eqb_neq in E. tauto.
  - destruct H as [Hab H]. destruct (app_id a =? id) eqn:E.
    + apply Z.eqb_eq in E. subst id. simpl.
      intros [Hb|Hin]; [lia|].
      pose proof (increasing_from_lt _ _ _ H Hin). lia.
    + apply Z.eqb_neq in E. simpl. intros [Ha|Hin]; [contradiction|].
      exact (IH b H Hin).
Qed.

Lemma Find_Erase id l :
  increasing (map app_id l) -> Find (fun a => app_id a =? id) (Erase id l) = None.
Proof. intros H. apply Find_id_absent, not_in_Erase, H. Qed.

Lemma increasing_Insert a l :
  increasing (map app_id l) -> increasing (map app_id (Insert a l)).
Proof.
  destruct l as [|b l]; [intros _; exact I|]. simpl. revert b.
  induction l as [|c l IH]; intros b H; simpl.
  - destruct (app_id a <? app_id b) eqn:E1; simpl.
    + apply Z.ltb_lt in E1. auto.
    + destruct (app_id b <? app_id a) eqn:E2; simpl; [|exact I].
      apply Z.ltb_lt in E2. auto.
  - destruct H as [Hbc H].
    destruct (app_id a <? app_id b) eqn:E1; simpl.
    + apply Z.ltb_lt in E1. auto.
    + destruct (app_id b <? app_id a) eqn:E2; simpl; [|auto].
      apply Z.ltb_lt in E2. specialize (IH c H). simpl in IH.
      destruct (app_id a <? app_id c) eqn:E3; simpl.
      * apply Z.ltb_lt in E3. auto.
      * destruct (app_id c <? app_id a) eqn:E4; simpl; simpl in IH; auto.
Qed.

Lemma count_full_Erase id l : (count_full (Erase id l) <= count_full l)%nat.
Proof.
  induction l as [|a l IH]; simpl; [lia|].
  destruct (app_id a =? id); simpl; lia.
Qed.

Lemma count_full_Insert a l :
  (count_full (Insert a l) <= (if IsFullscreen a then 1 else 0) + count_full l)%nat.
Proof.
  induction l as [|b l IH]; simpl; [lia|].
  destruct (app_id a <? app_id b); simpl; [lia|].
  destruct (app_id b <? app_id a); simpl; lia.
Qed.

Lemma count_full_levels am : count_full (applications_ am) = nfull (levels am).
Proof.
  unfold levels. induction (applications_ am) as [|a l IH]; simpl; [reflexivity|].
  rewrite IH. reflexivity.
Qed.

Lemma map_app_id_levels am : map app_id (applications_ am) = map fst (levels am).
Proof. unfold levels. rewrite map_map. reflexivity. Qed.

(** ** Writes through application pointers *)

Lemma levels_update_keep id f l :
  (forall a, app_id (f a) = app_id a /\ hmi_level (f a) = hmi_level a) ->
  map (fun a => (app_id a, hmi_level a)) (update_app id f l)
  = map (fun a => (app_id a, hmi_level a)) l.
Proof.
  intros Hf. induction l as [|a l IH]; simpl; [reflexivity|].
  destruct (app_id a =? id); simpl; [|rewrite IH; reflexivity].
  destruct (Hf a) as [-> ->]. reflexivity.
Qed.

Lemma levels_update_level id x l :
  map (fun a => (app_id a, hmi_level a)) (update_app id (set_hmi_level x) l)
  = relevel id x (map (fun a => (app_id a, hmi_level a)) l).
Proof.
  induction l as [|a l IH]; simpl; [reflexivity|].
  destruct (app_id a =? id); simpl; [reflexivity|]. rewrite IH. reflexivity.
Qed.

Lemma relevel_absent id x (l : list Application) :
  Find (fun a => app_id a =? id) l = None ->
  relevel id x (map (fun a => (app_id a, hmi_level a)) l)
  = map (fun a => (app_id a, hmi_level a)) l.
Proof.
  induction l as [|a l IH]; simpl; [reflexivity|].
  destruct (app_id a =? id); [discriminate|]. intros H. rewrite IH by exact H.
  reflexivity.
Qed.

Lemma relevel_same id (l : list Application) a :
  Find (fun a => app_id a =? id) l = Some a ->
  relevel id (hmi_level a) (map (fun a => (app_id a, hmi_level a)) l)
  = map (fun a => (app_id a, hmi_level a)) l.
Proof.
  induction l as [|b l IH]; simpl; [discriminate|].
  destruct (app_id b =? id).
  - intros [= ->]. reflexivity.
  - intros H. rewrite IH by exact H. reflexivity.
Qed.

Lemma map_fst_relevel id x L : map fst (relevel id x L) = map fst L.
Proof.
  induction L as [|[i y] L IH]; simpl; [reflexivity|].
  destruct (i =? id); simpl; [reflexivity|]. rewrite IH. reflexivity.
Qed.

Lemma nfull_relevel_down id x L :
  x <> HMILevel.HMI_FULL -> (nfull (relevel id x L) <= nfull L)%nat.
Proof.
  intros Hx. induction L as [|[i y] L IH]; simpl; [lia|].
  destruct (i =? id); simpl.
  - rewrite (bool_decide_eq_false_2 _ Hx). lia.
  - lia.
Qed.

Lemma nfull_relevel_full id L :
  (nfull (relevel id HMILevel.HMI_FULL L) <= S (nfull L))%nat.
Proof.
  induction L as [|[i y] L IH]; simpl; [lia|].
  destruct (i =? id); simpl; [|lia].
  destruct (bool_decide (y = HMILevel.HMI_FULL)); lia.
Qed.

Lemma first_full_None L : first_full L = None -> nfull L = O.
Proof.
  induction L as [|[i y] L IH]; simpl; [reflexivity|].
  destruct (bool_decide (y = HMILevel.HMI_FULL)); [discriminate|]. exact IH.
Qed.

Lemma first_full_In L c : first_full L = Some c -> In c (map fst L).
Proof.
  induction L as [|[i y] L IH]; simpl; [discriminate|].
  destruct (bool_decide (y = HMILevel.HMI_FULL)).
  - intros [= ->]. left. reflexivity.
  - intros H. right. apply IH. exact H.
Qed.

(** Moving the first Full application of an ordered set to another level
    frees one Full slot. *)
Lemma nfull_relevel_first_full L c x :
  increasing (map fst L) -> first_full L = Some c -> x <> HMILevel.HMI_FULL ->
  S (nfull (relevel c x L)) = nfull L.
Proof.
  intros Hinc Hc Hx. induction L as [|[i y] L IH]; simpl in *; [discriminate|].
  destruct (bool_decide (y = HMILevel.HMI_FULL)) eqn:Ey.
  - injection Hc as ->. rewrite Z.eqb_refl. simpl.
    rewrite (bool_decide_eq_false_2 _ Hx). lia.
  - assert (Hic : i <> c).
    { intros ->. pose proof (first_full_In _ _ Hc) as Hin.
      destruct L as [|[j z] L]; [destruct Hin|].
      pose proof (increasing_from_lt c (map fst ((j, z) :: L)) c Hinc Hin). lia. }
    apply Z.eqb_neq in Hic. rewrite Hic. simpl. rewrite Ey.
    rewrite <- IH; [reflexivity | | exact Hc].
    apply (increasing_tail i). exact Hinc.
Qed.

Lemma first_full_active am :
  first_full (levels am) = app_id <$> active_application am.
Proof.
  unfold levels, active_application, ActiveAppPredicate, IsFullscreen, is_level.
  induction (applications_ am) as [|a l IH]; simpl; [reflexivity|].
  destruct (bool_decide (hmi_level a = HMILevel.HMI_FULL)); [reflexivity | exact IH].
Qed.

(** * HMI levels *)

Lemma levels_modify_keep id f am :
  (forall a, app_id (f a) = app_id a /\ hmi_level (f a) = hmi_level a) ->
  levels (modify id f am) = levels am.
Proof. intros Hf. unfold levels, modify; simpl. apply levels_update_keep, Hf. Qed.

Lemma levels_modify_level id x am :
  levels (modify id (set_hmi_level x) am) = relevel id x (levels am).
Proof. unfold levels, modify; simpl. apply levels_update_level. Qed.

Lemma levels_emit e am : levels (emit e am) = levels am.
Proof. reflexivity. Qed.

Lemma levels_notify_hmi_status id am : levels (notify_hmi_status id am) = levels am.
Proof. unfold notify_hmi_status. destruct (application id am); reflexivity. Qed.

Ltac keep_level :=
  apply levels_modify_keep; intros ?; split; reflexivity.

Lemma levels_EndNaviServices am : levels (EndNaviServices am) = levels am.
Proof.
  unfold EndNaviServices. destruct (application _ am); [|reflexivity].
  keep_level.
Qed.

Lemma levels_NaviAppChangeLevel x am : levels (NaviAppChangeLevel x am) = levels am.
Proof.
  unfold NaviAppChangeLevel. destruct x; try reflexivity.
  change (levels (with_end_services_timer (Some cbCloseNaviApp) (EndNaviServices am)))
    with (levels (EndNaviServices am)).
  apply levels_EndNaviServices.
Qed.

Lemma levels_OnHMILevelChanged id from to am :
  levels (OnHMILevelChanged id from to am) = levels am.
Proof.
  unfold OnHMILevelChanged. destruct (application id am) as [app|]; [|reflexivity].
  destruct (is_navi app); [|reflexivity].
  destruct (full_or_limited from).
  - rewrite levels_NaviAppChangeLevel. reflexivity.
  - destruct (full_or_limited to); [keep_level | reflexivity].
Qed.

(** [ChangeAppsHMILevel] changes the level of the application it was
    given and no other level. *)
Lemma levels_ChangeAppsHMILevel id x am :
  levels (ChangeAppsHMILevel id x am) = relevel id x (levels am).
Proof.
  unfold ChangeAppsHMILevel. destruct (application id am) as [app|] eqn:Ea.
  - destruct (bool_decide (hmi_level app = x)) eqn:Ex.
    + apply bool_decide_eq_true_1 in Ex. subst x. symmetry.
      apply relevel_same. exact Ea.
    + rewrite levels_OnHMILevelChanged. apply levels_modify_level.
  - symmetry. apply relevel_absent. exact Ea.
Qed.

Lemma levels_MakeAppNotAudible id am :
  levels (MakeAppNotAudible id am) = relevel id HMILevel.HMI_BACKGROUND (levels am).
Proof.
  unfold MakeAppNotAudible. destruct (application id am) as [app|] eqn:Ea.
  - rewrite levels_modify_keep by (intros ?; split; reflexivity).
    apply levels_ChangeAppsHMILevel.
  - symmetry. apply relevel_absent. exact Ea.
Qed.

Lemma levels_MakeAppFullScreen id am :
  levels (snd (MakeAppFullScreen id am)) = relevel id HMILevel.HMI_FULL (levels am).
Proof.
  unfold MakeAppFullScreen. destruct (application id am) as [app|] eqn:Ea; simpl.
  - destruct (negb (has_been_activated app));
      destruct (is_media_application app || is_navi app);
      rewrite ?levels_modify_keep by (intros ?; split; reflexivity);
      apply levels_ChangeAppsHMILevel.
  - symmetry. apply relevel_absent. exact Ea.
Qed.

Lemma levels_DeactivateApplication app am :
  exists x, x <> HMILevel.HMI_FULL
            /\ levels (DeactivateApplication app am) = relevel (app_id app) x (levels am).
Proof.
  unfold DeactivateApplication.
  destruct (IsAudioApplication app && negb (IsAppTypeExistsInFullOrLimited app am)).
  - exists HMILevel.HMI_LIMITED. split; [discriminate|].
    rewrite levels_notify_hmi_status. apply levels_ChangeAppsHMILevel.
  - exists HMILevel.HMI_BACKGROUND. split; [discriminate|].
    rewrite levels_notify_hmi_status. apply levels_ChangeAppsHMILevel.
Qed.

(** ** Steps that free the Full slot or leave it alone *)

Lemma demotes_refl am : demotes am am.
Proof. split; [reflexivity | lia]. Qed.

Lemma demotes_trans am1 am2 am3 : demotes am1 am2 -> demotes am2 am3 -> demotes am1 am3.
Proof. intros [H1 H2] [H3 H4]. split; [congruence | lia]. Qed.

Lemma demotes_levels am am' : levels am' = levels am -> demotes am am'.
Proof. intros H. unfold demotes. rewrite H. split; [reflexivity | lia]. Qed.

Lemma demotes_relevel am am' id x :
  x <> HMILevel.HMI_FULL -> levels am' = relevel id x (levels am) -> demotes am am'.
Proof.
  intros Hx H. unfold demotes. rewrite H. split.
  - apply map_fst_relevel.
  - apply nfull_relevel_down, Hx.
Qed.

Lemma demotes_MakeAppNotAudible id am : demotes am (MakeAppNotAudible id am).
Proof.
  apply (demotes_relevel _ _ id HMILevel.HMI_BACKGROUND); [discriminate|].
  apply levels_MakeAppNotAudible.
Qed.

Lemma demotes_to_background id am :
  demotes am (ChangeAppsHMILevel id HMILevel.HMI_BACKGROUND am).
Proof.
  apply (demotes_relevel _ _ id HMILevel.HMI_BACKGROUND); [discriminate|].
  apply levels_ChangeAppsHMILevel.
Qed.

Lemma demotes_notify id am am' : demotes am am' -> demotes am (notify_hmi_status id am').
Proof.
  intros H. apply (demotes_trans _ am'); [exact H|].
  apply demotes_levels, levels_notify_hmi_status.
Qed.

Lemma demotes_DeactivateApplication app am : demotes am (DeactivateApplication app am).
Proof.
  destruct (levels_DeactivateApplication app am) as (x & Hx & H).
  apply (demotes_relevel _ _ (app_id app) x); assumption.
Qed.

(** [ActivateApplication] keeps the applications of the set and does not
    add to the applications in Full, unless there was none: one leaves
    Full before the activated one enters it. *)
Lemma ActivateApplication_count id am :
  ordered am ->
  map fst (levels (snd (ActivateApplication id am))) = map fst (levels am)
  /\ (nfull (levels (snd (ActivateApplication id am)))
      <= Nat.max 1 (nfull (levels am)))%nat.
Proof.
  intros Hord. unfold ordered in Hord.
  rewrite map_app_id_levels in Hord.
  unfold ActivateApplication.
  destruct (application id am) as [app|] eqn:Ea; [|simpl; split; [reflexivity | lia]].
  destruct (IsFullscreen app); [simpl; split; [reflexivity | lia]|].
  set (am0 := if negb (is_level HMILevel.HMI_LIMITED app) && has_been_activated app
              then emit (SendAppDataToHMI id) am else am).
  assert (H0 : levels am0 = levels am) by (unfold am0; destruct (_ && _); reflexivity).
  assert (Hact : active_application am0 = active_application am)
    by (unfold am0; destruct (_ && _); reflexivity).
  cbn zeta.
  set (limited_media := get_limited_media_application am0).
  set (limited_voice := get_limited_voice_application am0).
  set (limited_navi := get_limited_navi_application am0).
  (* the application in Full leaves it *)
  set (am1 := match active_application am0 with
              | Some current =>
                  if is_media_application app && is_media_application current
                  then notify_hmi_status (app_id current)
                         (MakeAppNotAudible (app_id current) am0)
                  else DeactivateApplication current am0
              | None => am0
              end).
  assert (H1 : map fst (levels am1) = map fst (levels am)
               /\ (S (nfull (levels am1)) <= Nat.max 1 (nfull (levels am)))%nat).
  { pose proof (first_full_active am0) as Hff. rewrite H0 in Hff.
    unfold am1. destruct (active_application am0) as [current|] eqn:Ec; simpl in Hff.
    - assert (Hx : exists x, x <> HMILevel.HMI_FULL
                /\ levels (if is_media_application app && is_media_application current
                           then notify_hmi_status (app_id current)
                                  (MakeAppNotAudible (app_id current) am0)
                           else DeactivateApplication current am0)
                   = relevel (app_id current) x (levels am)).
      { destruct (is_media_application app && is_media_application current).
        - exists HMILevel.HMI_BACKGROUND. split; [discriminate|].
          rewrite levels_notify_hmi_status, levels_MakeAppNotAudible, H0. reflexivity.
        - destruct (levels_DeactivateApplication current am0) as (x & Hx & Hl).
          exists x. split; [exact Hx|]. rewrite Hl, H0. reflexivity. }
      destruct Hx as (x & Hx & Hl). rewrite Hl. split; [apply map_fst_relevel|].
      pose proof (nfull_relevel_first_full (levels am) (app_id current) x Hord Hff Hx).
      lia.
    - rewrite H0. split; [reflexivity|]. rewrite (first_full_None _ Hff). lia. }
  destruct H1 as [Hids1 Hn1].
  (* the activated application takes it *)
  set (am2 := snd (MakeAppFullScreen id am1)).
  assert (H2 : map fst (levels am2) = map fst (levels am)
               /\ (nfull (levels am2) <= Nat.max 1 (nfull (levels am)))%nat).
  { unfold am2. rewrite levels_MakeAppFullScreen. split.
    - rewrite map_fst_relevel. exact Hids1.
    - pose proof (nfull_relevel_full id (levels am1)). lia. }
  clearbody am2. clear am1 Hids1 Hn1.
  (* the applications in Limited are muted or moved to Background *)
  set (am3 := if is_media_application app then
                match limited_media with
                | Some limited =>
                    if negb (is_navi limited)
                    then notify_hmi_status (app_id limited)
                           (MakeAppNotAudible (app_id limited) am2)
                    else notify_hmi_status id
                           (modify id (set_audio_streaming_state
                                         AudioStreamingState.ATTENUATED) am2)
                | None => am2
                end
              else am2).
  assert (H3 : demotes am2 am3).
  { unfold am3. destruct (is_media_application app); [|apply demotes_refl].
    destruct limited_media as [limited|]; [|apply demotes_refl].
    destruct (negb (is_navi limited)).
    - apply demotes_notify, demotes_MakeAppNotAudible.
    - apply demotes_notify, demotes_levels. keep_level. }
  clearbody am3.
  set (am4 := match limited_voice with
              | Some limited =>
                  if is_voice_communication_supported app then
                    notify_hmi_status (app_id limited)
                      (ChangeAppsHMILevel (app_id limited) HMILevel.HMI_BACKGROUND
                         (if is_media_application limited
                          then MakeAppNotAudible (app_id limited) am3 else am3))
                  else am3
              | None => am3
              end).
  assert (H4 : demotes am3 am4).
  { unfold am4. destruct limited_voice as [limited|]; [|apply demotes_refl].
    destruct (is_voice_communication_supported app); [|apply demotes_refl].
    apply demotes_notify.
    apply (demotes_trans _ (if is_media_application limited
                            then MakeAppNotAudible (app_id limited) am3 else am3)).
    - destruct (is_media_application limited);
        [apply demotes_MakeAppNotAudible | apply demotes_refl].
    - apply demotes_to_background. }
  clearbody am4.
  set (am5 := match limited_navi with
              | Some limited =>
                  if is_navi app then
                    notify_hmi_status (app_id limited)
                      (ChangeAppsHMILevel (app_id limited) HMILevel.HMI_BACKGROUND
                         (if is_media_application limited
                          then MakeAppNotAudible (app_id limited) am4 else am4))
                  else am4
              | None => am4
              end).
  assert (H5 : demotes am4 am5).
  { unfold am5. destruct limited_navi as [limited|]; [|apply demotes_refl].
    destruct (is_navi app); [|apply demotes_refl].
    apply demotes_notify.
    apply (demotes_trans _ (if is_media_application limited
                            then MakeAppNotAudible (app_id limited) am4 else am4)).
    - destruct (is_media_application limited);
        [apply demotes_MakeAppNotAudible | apply demotes_refl].
    - apply demotes_to_background. }
  clearbody am5. cbn [snd].
  destruct H2 as [Hids2 Hn2]. destruct H3 as [Hi3 Hn3]. destruct H4 as [Hi4 Hn4].
  destruct H5 as [Hi5 Hn5]. split; [congruence | lia].
Qed.

(** [ActivateApplication] keeps the order of the set and leaves at most
    one application in Full. *)
Lemma ActivateApplication_full id am :
  ordered am -> at_most_one_full am ->
  map fst (levels (snd (ActivateApplication id am))) = map fst (levels am)
  /\ (nfull (levels (snd (ActivateApplication id am))) <= 1)%nat.
Proof.
  intros Hord Hone. unfold at_most_one_full in Hone.
  rewrite count_full_levels in Hone.
  destruct (ActivateApplication_count id am Hord) as [H1 H2].
  split; [exact H1 | lia].
Qed.

(** * The single Full slot *)

Lemma nfull_relevel_only id L :
  increasing (map fst L) ->
  (forall i x, In (i, x) L -> x = HMILevel.HMI_FULL -> i = id) ->
  (nfull (relevel id HMILevel.HMI_FULL L) <= 1)%nat.
Proof.
  induction L as [|[i y] L IH]; intros Hinc Hall; simpl; [lia|].
  destruct (i =? id) eqn:E.
  - apply Z.eqb_eq in E. subst i. simpl.
    assert (Hrest : nfull L = O).
    { clear IH. simpl in Hinc.
      assert (Hno : forall j x, In (j, x) L -> x <> HMILevel.HMI_FULL).
      { intros j x Hin ->. pose proof (Hall j _ (or_intror Hin) eq_refl) as ->.
        assert (Hj : In id (map fst L)) by (apply (in_map fst) in Hin; exact Hin).
        destruct L as [|[k z] L]; [destruct Hin|].
        pose proof (increasing_from_lt id _ id Hinc Hj). lia. }
      clear Hinc Hall. induction L as [|[j x] L IHL]; simpl; [reflexivity|].
      rewrite (bool_decide_eq_false_2 _ (Hno j x (or_introl eq_refl))).
      apply IHL. intros k z Hin. apply (Hno k z). right. exact Hin. }
    rewrite Hrest. lia.
  - simpl. assert (Hy : y <> HMILevel.HMI_FULL).
    { intros ->. apply Z.eqb_neq in E. apply E. apply (Hall i _ (or_introl eq_refl) eq_refl). }
    rewrite (bool_decide_eq_false_2 _ Hy). simpl. apply IH.
    + apply (increasing_tail i). exact Hinc.
    + intros j x Hin. apply Hall. right. exact Hin.
Qed.

Lemma Erase_not_found id l :
  Find (fun a => app_id a =? id) l = None -> Erase id l = l.
Proof.
  induction l as [|a l IH]; simpl; [reflexivity|].
  destruct (app_id a =? id); [discriminate|]. intros H. rewrite IH by exact H. reflexivity.
Qed.

(** [UnregisterApplication] takes the application [id] out of the set and
    leaves the others alone. *)
Lemma UnregisterApplication_applications env id reason resuming unexpected am :
  applications_ (UnregisterApplication env id reason resuming unexpected am)
  = Erase id (applications_ am).
Proof.
  unfold UnregisterApplication.
  set (am1 := emit _ am).
  set (am2 := match reason with Result.TOO_MANY_PENDING_REQUESTS => _ | _ => am1 end).
  assert (H2 : applications_ am2 = applications_ am).
  { unfold am2. destruct reason; try reflexivity.
    destruct (application id am1); reflexivity. }
  unfold application. rewrite H2.
  destruct (Find (fun a => app_id a =? id) (applications_ am)) as [app|] eqn:Ea.
  - cbn zeta.
    repeat match goal with
           | |- context [match ?x with _ => _ end] => destruct x
           end; reflexivity.
  - rewrite H2. symmetry. apply Erase_not_found. exact Ea.
Qed.

Lemma ManageMobileCommand_response_applications env message am :
  message_type message = messageType.response ->
  function_id message = FunctionID.RegisterAppInterfaceID ->
  applications_ (snd (ManageMobileCommand env (Some message) am)) = applications_ am.
Proof.
  intros Ht Hf. unfold ManageMobileCommand. rewrite Ht, Hf.
  destruct (is_low_voltage_ am); [reflexivity|].
  destruct (negb (CreateCommand env message)); reflexivity.
Qed.

Lemma RegisterApplication_applications env request am :
  applications_ (snd (RegisterApplication env request am))
  = match fst (RegisterApplication env request am) with
    | Some app => Insert app (applications_ am)
    | None => applications_ am
    end.
Proof.
  unfold RegisterApplication.
  destruct (negb (is_all_apps_allowed_ am)).
  { cbn [fst snd]. apply ManageMobileCommand_response_applications; reflexivity. }
  destruct (if connection_handler_ am then _ else _) as [[id device_id]|].
  2: { cbn [fst snd]. apply ManageMobileCommand_response_applications; reflexivity. }
  cbn zeta.
  repeat match goal with
         | |- context [if ?b then _ else _] => destruct b
         end;
    repeat match goal with
           | |- context [Find ?p ?l] => destruct (Find p l)
           end;
    cbn [fst snd];
    repeat match goal with
           | |- context [if ?b then _ else _] => destruct b
           end; reflexivity.
Qed.

Lemma at_most_one_full_step env am am' :
  hmi_step env am am' ->
  ordered am -> at_most_one_full am -> ordered am' /\ at_most_one_full am'.
Proof.
  intros Hstep Hord Hone. unfold ordered, at_most_one_full in *.
  destruct Hstep as [request am Hfull|id am|app am|id am Hother
                     |id reason resuming unexpected am].
  - rewrite RegisterApplication_applications.
    destruct (fst (RegisterApplication env request am)) as [app|] eqn:Er; [|auto].
    split; [apply increasing_Insert, Hord|].
    pose proof (count_full_Insert app (applications_ am)) as Hc.
    destruct (IsFullscreen app) eqn:Ef; [|lia].
    assert (Hz : count_full (applications_ am) = O).
    { apply (Hfull app eq_refl). unfold IsFullscreen, is_level in Ef.
      apply bool_decide_eq_true_1 in Ef. exact Ef. }
    lia.
  - destruct (ActivateApplication_full id am Hord Hone) as [Hids Hn].
    rewrite map_app_id_levels, count_full_levels, Hids, <- map_app_id_levels. auto.
  - destruct (demotes_DeactivateApplication app am) as [Hids Hn].
    rewrite map_app_id_levels, count_full_levels, Hids, <- map_app_id_levels.
    rewrite count_full_levels in Hone. split; [exact Hord | lia].
  - rewrite map_app_id_levels, count_full_levels, levels_MakeAppFullScreen.
    rewrite map_fst_relevel, <- map_app_id_levels. split; [exact Hord|].
    apply nfull_relevel_only.
    + rewrite <- map_app_id_levels. exact Hord.
    + intros i x Hin ->. unfold levels in Hin. apply in_map_iff in Hin.
      destruct Hin as (a & [= <- Hl] & Hin).
      apply (Hother a Hin). unfold IsFullscreen, is_level.
      apply bool_decide_eq_true_2. exact Hl.
  - rewrite UnregisterApplication_applications.
    split; [apply increasing_Erase, Hord|].
    pose proof (count_full_Erase id (applications_ am)). lia.
Qed.

(** C1, as the code has it.  Starting from a state with at most one
    application in Full, every state reached by registrations,
    [ActivateApplication], [DeactivateApplication], [MakeAppFullScreen] and
    unregistrations has at most one application in Full, provided that a
    registration whose policy-resolved default level is Full happens only
    while no application is Full and [MakeAppFullScreen] is called only
    while no other application is Full.  [ActivateApplication] and
    [DeactivateApplication] need no such proviso. *)
Theorem C1_single_full_slot (env : Collaborators) (init am : ApplicationManagerImpl) :
  ordered init -> at_most_one_full init ->
  hmi_reachable env init am ->
  at_most_one_full am.
Proof.
  intros Hord Hone Hreach.
  assert (H : ordered am /\ at_most_one_full am); [|exact (proj2 H)].
  induction Hreach as [|am am' Hreach IH Hstep]; [auto|].
  destruct IH as [Ho Hf]. exact (at_most_one_full_step env am am' Hstep Ho Hf).
Qed.

(** Two registrations at level None and two activations. *)
Lemma C1_witness :
  at_most_one_full (snd (ActivateApplication 2 (snd (ActivateApplication 1 two_apps)))).
Proof.
  apply (C1_single_full_slot example_env initial_manager).
  - exact I.
  - unfold at_most_one_full. simpl. lia.
  - apply reach_step with (am := snd (ActivateApplication 1 two_apps));
      [|apply step_activate].
    apply reach_step with (am := two_apps); [|apply step_activate].
    unfold two_apps.
    eapply reach_step; [|apply step_register; intros app _ _; vm_compute; reflexivity].
    eapply reach_step; [apply reach_init|].
    apply step_register. intros app _ _. reflexivity.
Defined.

(** One application is in Full; a second one whose policy gives the
    default level Full registers, and two applications are in Full.  The
    same happens when [MakeAppFullScreen] is called for two applications in
    turn. *)
Lemma C1_counterexample :
  at_most_one_full
    (snd (RegisterApplication (make_env "FULL" RequestController.SUCCESS)
            (registration 1 "app1") initial_manager))
  /\ ~ at_most_one_full two_apps_default_full
  /\ at_most_one_full (snd (MakeAppFullScreen 1 two_apps))
  /\ ~ at_most_one_full (snd (MakeAppFullScreen 2 (snd (MakeAppFullScreen 1 two_apps)))).
Proof.
  unfold at_most_one_full.
  assert (E1 : count_full (applications_
                 (snd (RegisterApplication (make_env "FULL" RequestController.SUCCESS)
                         (registration 1 "app1") initial_manager))) = 1%nat)
    by (vm_compute; reflexivity).
  assert (E2 : count_full (applications_ two_apps_default_full) = 2%nat)
    by (vm_compute; reflexivity).
  assert (E3 : count_full (applications_ (snd (MakeAppFullScreen 1 two_apps))) = 1%nat)
    by (vm_compute; reflexivity).
  assert (E4 : count_full (applications_
                 (snd (MakeAppFullScreen 2 (snd (MakeAppFullScreen 1 two_apps))))) = 2%nat)
    by (vm_compute; reflexivity).
  rewrite E1, E2, E3, E4. lia.
Qed.

(** * Unregistration and the deny set *)

Lemma UnregisterApplication_forbidden env id reason resuming unexpected am :
  forbidden_applications (UnregisterApplication env id reason resuming unexpected am)
  = match reason, application id am with
    | Result.TOO_MANY_PENDING_REQUESTS, Some app =>
        {[ GetHashedAppID env id (mobile_app_id app) ]} ∪ forbidden_applications am
    | _, _ => forbidden_applications am
    end.
Proof.
  unfold UnregisterApplication.
  set (am1 := emit _ am).
  set (am2 := match reason with Result.TOO_MANY_PENDING_REQUESTS => _ | _ => am1 end).
  assert (H2 : forbidden_applications am2
               = match reason, application id am with
                 | Result.TOO_MANY_PENDING_REQUESTS, Some app =>
                     {[ GetHashedAppID env id (mobile_app_id app) ]}
                       ∪ forbidden_applications am
                 | _, _ => forbidden_applications am
                 end).
  { unfold am2. change (application id am1) with (application id am).
    destruct reason; try reflexivity.
    destruct (application id am); reflexivity. }
  rewrite <- H2. clearbody am2. clear H2.
  destruct (application id am2) as [app|]; [|reflexivity].
  cbn zeta.
  repeat match goal with
         | |- context [match ?x with _ => _ end] => destruct x
         end; reflexivity.
Qed.

Lemma events_emit e am : events (emit e am) = events am ++ [e].
Proof. reflexivity. Qed.

Lemma UnregisterApplication_events env id reason resuming unexpected am :
  exists rest,
    events (UnregisterApplication env id reason resuming unexpected am)
    = events am
      ++ SendOnAppInterfaceUnregisteredNotificationToMobile id (unregister_reason_ am)
      :: rest
    /\ (is_Some (application id am) ->
        In (SendOnAppUnregNotificationToHMI id unexpected) rest).
Proof.
  unfold UnregisterApplication.
  set (am1 := emit _ am).
  set (am2 := match reason with Result.TOO_MANY_PENDING_REQUESTS => _ | _ => am1 end).
  assert (H2 : events am2 = events am1 /\ application id am2 = application id am).
  { unfold am2. destruct reason; try (split; reflexivity).
    destruct (application id am1); split; reflexivity. }
  destruct H2 as [He Ha]. rewrite Ha. clearbody am2.
  assert (He' : events am2
                = events am
                  ++ [SendOnAppInterfaceUnregisteredNotificationToMobile id
                        (unregister_reason_ am)]) by (rewrite He; reflexivity).
  clear He. clearbody am1.
  destruct (application id am) as [app|].
  - cbn zeta.
    set (am3 := with_applications (Erase id (applications_ am2)) am2).
    assert (H3 : events am3 = events am2) by reflexivity. clearbody am3.
    set (am4 := match Find (AppV4DevicePredicate (device app)) (applications_ am3) with
                | Some _ => am3
                | None => emit SendUpdateAppList
                            (RemoveAppsWaitingForRegistration (device app) am3)
                end).
    assert (H4 : exists r4, events am4 = events am3 ++ r4).
    { unfold am4. destruct (Find _ _).
      - exists []. rewrite app_nil_r. reflexivity.
      - exists [SendUpdateAppList]. reflexivity. }
    clearbody am4. destruct H4 as [r4 H4].
    set (am5 := if resuming then emit (ResumeSaveApplication id) am4
                else emit (ResumeRemoveApplicationFromSaved (mobile_app_id app)) am4).
    assert (H5 : exists r5, events am5 = events am4 ++ r5).
    { unfold am5. destruct resuming; eexists; apply events_emit. }
    clearbody am5. destruct H5 as [r5 H5].
    set (am6 := if audio_pass_thru_active_ am5
                then emit (StopAudioPassThru id) (with_audio_pass_thru_active false am5)
                else am5).
    assert (H6 : exists r6, events am6 = events am5 ++ r6).
    { unfold am6. destruct (audio_pass_thru_active_ am5).
      - exists [StopAudioPassThru id]. reflexivity.
      - exists []. rewrite app_nil_r. reflexivity. }
    clearbody am6. destruct H6 as [r6 H6].
    rewrite !events_emit, H6, H5, H4, H3, He'.
    exists (r4 ++ r5 ++ r6 ++ [SendOnAppUnregNotificationToHMI id unexpected;
                               TerminateAppRequests id]).
    split.
    + rewrite <- !app_assoc. reflexivity.
    + intros _. rewrite !in_app_iff. right. right. right. left. reflexivity.
  - exists []. rewrite He'. split; [reflexivity|]. intros [x Hx]. discriminate.
Qed.

Lemma UnregisterApplication_gone env id reason resuming unexpected am :
  ordered am ->
  application id (UnregisterApplication env id reason resuming unexpected am) = None.
Proof.
  intros Hord. unfold application. rewrite UnregisterApplication_applications.
  apply Find_Erase. exact Hord.
Qed.

(** ** Operations that leave the deny set alone *)

Lemma forbidden_modify id f am :
  forbidden_applications (modify id f am) = forbidden_applications am.
Proof. reflexivity. Qed.

Lemma forbidden_notify id am :
  forbidden_applications (notify_hmi_status id am) = forbidden_applications am.
Proof. unfold notify_hmi_status. destruct (application id am); reflexivity. Qed.

Lemma forbidden_EndNaviServices am :
  forbidden_applications (EndNaviServices am) = forbidden_applications am.
Proof. unfold EndNaviServices. destruct (application _ am); reflexivity. Qed.

Lemma forbidden_OnHMILevelChanged id from to am :
  forbidden_applications (OnHMILevelChanged id from to am) = forbidden_applications am.
Proof.
  unfold OnHMILevelChanged, NaviAppChangeLevel.
  destruct (application id am) as [app|]; [|reflexivity].
  destruct (is_navi app); [|reflexivity].
  destruct (full_or_limited from).
  - destruct to; try reflexivity.
    change (forbidden_applications (EndNaviServices (with_navi_app_to_stop id am))
            = forbidden_applications (with_navi_app_to_stop id am)).
    apply forbidden_EndNaviServices.
  - destruct (full_or_limited to); reflexivity.
Qed.

Lemma forbidden_ChangeAppsHMILevel id x am :
  forbidden_applications (ChangeAppsHMILevel id x am) = forbidden_applications am.
Proof.
  unfold ChangeAppsHMILevel. destruct (application id am) as [app|]; [|reflexivity].
  destruct (bool_decide (hmi_level app = x)); [reflexivity|].
  rewrite forbidden_OnHMILevelChanged. reflexivity.
Qed.

Lemma forbidden_MakeAppNotAudible id am :
  forbidden_applications (MakeAppNotAudible id am) = forbidden_applications am.
Proof.
  unfold MakeAppNotAudible. destruct (application id am); [|reflexivity].
  rewrite forbidden_modify. apply forbidden_ChangeAppsHMILevel.
Qed.

Lemma forbidden_MakeAppFullScreen id am :
  forbidden_applications (snd (MakeAppFullScreen id am)) = forbidden_applications am.
Proof.
  unfold MakeAppFullScreen. destruct (application id am) as [app|]; [|reflexivity].
  cbn [snd]. destruct (negb (has_been_activated app));
    destruct (is_media_application app || is_navi app);
    rewrite ?forbidden_modify; apply forbidden_ChangeAppsHMILevel.
Qed.

Lemma forbidden_DeactivateApplication app am :
  forbidden_applications (DeactivateApplication app am) = forbidden_applications am.
Proof.
  unfold DeactivateApplication.
  destruct (IsAudioApplication app && negb (IsAppTypeExistsInFullOrLimited app am));
    rewrite forbidden_notify; apply forbidden_ChangeAppsHMILevel.
Qed.

Lemma forbidden_ActivateApplication id am :
  forbidden_applications (snd (ActivateApplication id am)) = forbidden_applications am.
Proof.
  unfold ActivateApplication.
  destruct (application id am) as [app|]; [|reflexivity].
  destruct (IsFullscreen app); [reflexivity|]. cbn zeta. cbn [snd].
  repeat match goal with
         | |- context [match ?x with _ => _ end] => destruct x
         end;
    repeat first [ rewrite forbidden_notify | rewrite forbidden_ChangeAppsHMILevel
                 | rewrite forbidden_MakeAppNotAudible | rewrite forbidden_modify
                 | rewrite forbidden_MakeAppFullScreen
                 | rewrite forbidden_DeactivateApplication ];
    reflexivity.
Qed.


Lemma forbidden_NaviAppStreamStatus b am :
  forbidden_applications (NaviAppStreamStatus b am) = forbidden_applications am.
Proof.
  unfold NaviAppStreamStatus. destruct (active_application am) as [a|]; [|reflexivity].
  destruct (is_media_application a); [|reflexivity].
  rewrite forbidden_notify. reflexivity.
Qed.

Lemma forbidden_ChangeStreamStatus id b am :
  forbidden_applications (ChangeStreamStatus id b am) = forbidden_applications am.
Proof.
  unfold ChangeStreamStatus. destruct (application id am) as [a|]; [|reflexivity].
  destruct (negb (Bool.eqb b (streaming a))); [|reflexivity].
  rewrite forbidden_modify. apply forbidden_NaviAppStreamStatus.
Qed.

Lemma forbidden_ForbidStreaming id am :
  forbidden_applications (ForbidStreaming id am) = forbidden_applications am.
Proof.
  unfold ForbidStreaming. destruct (application id am) as [a|]; [|reflexivity].
  destruct (is_navi a); [|reflexivity]. cbn zeta.
  rewrite forbidden_ChangeStreamStatus.
  destruct (connection_handler_ am); [|reflexivity].
  destruct (hmi_supports_navi_video_streaming a);
    destruct (hmi_supports_navi_audio_streaming a); reflexivity.
Qed.

Lemma forbidden_ProcessNaviService type key am :
  forbidden_applications (snd (ProcessNaviService type key am)) = forbidden_applications am.
Proof.
  unfold ProcessNaviService. destruct (negb (media_manager_ am)); [reflexivity|].
  destruct type; try reflexivity.
  - destruct (IsAudioStreamingAllowed key am); reflexivity.
  - destruct (IsVideoStreamingAllowed key am); reflexivity.
Qed.

Lemma forbidden_OnServiceStartedCallback key type am :
  forbidden_applications (snd (OnServiceStartedCallback key type am))
  = forbidden_applications am.
Proof.
  unfold OnServiceStartedCallback.
  destruct type; try reflexivity;
    (destruct (application key am) as [app|]; [|reflexivity]);
    (destruct (_ && is_navi app); [|reflexivity]);
    match goal with
    | |- context [ProcessNaviService ?t key am] =>
        pose proof (forbidden_ProcessNaviService t key am) as H;
        destruct (ProcessNaviService t key am) as [result am']
    end; exact H.
Qed.

Lemma forbidden_subseteq_Unregister env id reason resuming unexpected am :
  forbidden_applications am
  ⊆ forbidden_applications (UnregisterApplication env id reason resuming unexpected am).
Proof.
  rewrite UnregisterApplication_forbidden.
  destruct reason; try reflexivity.
  destruct (application id am); [set_solver | reflexivity].
Qed.

Lemma forbidden_subseteq_ManageMobileCommand env message am :
  forbidden_applications am
  ⊆ forbidden_applications (snd (ManageMobileCommand env message am)).
Proof.
  unfold ManageMobileCommand. destruct message as [message|]; [|reflexivity].
  destruct (is_low_voltage_ am); [reflexivity|].
  destruct (negb (CreateCommand env message)); [reflexivity|]. cbn zeta.
  match goal with |- context [if ?c then (false, emit ?e am) else _] => destruct c end;
    [reflexivity|].
  destruct (message_type message); try reflexivity.
  destruct (addMobileRequest env message _); try reflexivity; cbn [snd].
  - etransitivity; [|apply forbidden_subseteq_Unregister]. reflexivity.
  - etransitivity; [|apply forbidden_subseteq_Unregister].
    match goal with |- context [match ?x with _ => _ end] => destruct x end; reflexivity.
Qed.

Lemma forbidden_RegisterApplication env request am :
  forbidden_applications am
  ⊆ forbidden_applications (snd (RegisterApplication env request am)).
Proof.
  unfold RegisterApplication.
  destruct (negb (is_all_apps_allowed_ am)).
  { cbn [snd]. apply forbidden_subseteq_ManageMobileCommand. }
  destruct (if connection_handler_ am then _ else _) as [[id device_id]|].
  2: { cbn [snd]. apply forbidden_subseteq_ManageMobileCommand. }
  cbn zeta.
  repeat match goal with
         | |- context [if ?b then _ else _] => destruct b
         end;
    repeat match goal with
           | |- context [Find ?p ?l] => destruct (Find p l)
           end;
    cbn [fst snd];
    repeat match goal with
           | |- context [if ?b then _ else _] => destruct b
           end; reflexivity.
Qed.

Lemma forbidden_CloseNaviApp env am :
  forbidden_applications (CloseNaviApp env am) = forbidden_applications am.
Proof.
  unfold CloseNaviApp, AckReceived. cbn zeta.
  repeat match goal with
         | |- context [if ?b then _ else _] => destruct b
         end; cbn [fst snd negb];
    rewrite ?UnregisterApplication_forbidden; reflexivity.
Qed.

(** No operation of the manager takes an entry out of the deny set. *)
Lemma manager_step_forbidden am am' :
  manager_step am am' -> forbidden_applications am ⊆ forbidden_applications am'.
Proof.
  intros Hstep. destruct Hstep.
  - apply forbidden_RegisterApplication.
  - unfold RegisterAppInterface.
    destruct (IsApplicationForbidden _ _ _ _); [reflexivity|].
    pose proof (forbidden_RegisterApplication env request am) as H.
    destruct (RegisterApplication env request am) as [[app|] am']; exact H.
  - rewrite forbidden_ActivateApplication. reflexivity.
  - rewrite forbidden_DeactivateApplication. reflexivity.
  - rewrite forbidden_MakeAppFullScreen. reflexivity.
  - rewrite forbidden_ChangeAppsHMILevel. reflexivity.
  - apply forbidden_subseteq_Unregister.
  - apply forbidden_subseteq_ManageMobileCommand.
  - unfold OnApplicationFloodCallBack. cbn zeta.
    etransitivity; [|apply forbidden_subseteq_Unregister]. reflexivity.
  - rewrite forbidden_ForbidStreaming. reflexivity.
  - rewrite forbidden_OnServiceStartedCallback. reflexivity.
  - unfold OnServiceEndedCallback, OnServiceEndedCallback_media.
    destruct type; try apply forbidden_subseteq_Unregister;
      destruct (media_manager_ am); reflexivity.
  - unfold OnEndServicesTimer. destruct (end_services_timer am) as [[|]|];
      [rewrite forbidden_EndNaviServices | rewrite forbidden_CloseNaviApp | ]; reflexivity.
Qed.

Lemma manager_steps_forbidden am am' :
  manager_steps am am' -> forbidden_applications am ⊆ forbidden_applications am'.
Proof.
  induction 1 as [|am am' am'' _ IH Hstep]; [reflexivity|].
  etransitivity; [exact IH | apply manager_step_forbidden, Hstep].
Qed.




(** * Admission of requests *)

Lemma removals_RecordRemovalsForBadBehavior app am :
  removals (mobile_app_id app) (RecordRemovalsForBadBehavior app am)
  = removals (mobile_app_id app) am + 1.
Proof.
  unfold removals, RecordRemovalsForBadBehavior; simpl.
  rewrite lookup_insert_eq. reflexivity.
Qed.

Lemma UnregisterApplication_removals env id reason resuming unexpected am :
  removals_for_bad_behavior (UnregisterApplication env id reason resuming unexpected am)
  = match reason, application id am with
    | Result.TOO_MANY_PENDING_REQUESTS, Some app =>
        removals_for_bad_behavior (RecordRemovalsForBadBehavior app am)
    | _, _ => removals_for_bad_behavior am
    end.
Proof.
  unfold UnregisterApplication.
  set (am1 := emit _ am).
  set (am2 := match reason with Result.TOO_MANY_PENDING_REQUESTS => _ | _ => am1 end).
  assert (H2 : removals_for_bad_behavior am2
               = match reason, application id am with
                 | Result.TOO_MANY_PENDING_REQUESTS, Some app =>
                     removals_for_bad_behavior (RecordRemovalsForBadBehavior app am)
                 | _, _ => removals_for_bad_behavior am
                 end).
  { unfold am2. change (application id am1) with (application id am).
    destruct reason; try reflexivity.
    destruct (application id am); reflexivity. }
  rewrite <- H2. clearbody am2. clear H2.
  destruct (application id am2) as [app|]; [|reflexivity].
  cbn zeta.
  destruct (Find _ _); destruct resuming; destruct (audio_pass_thru_active_ _);
    reflexivity.
Qed.

(** C4.  A mobile request that reached the request controller and failed
    admission: over the per-application pending limit, the only effect is
    the negative response TOO_MANY_PENDING_REQUESTS and the application
    stays registered; over the global burst limit, mobile is notified and
    the application is unregistered; a burst in HMI level None, mobile is
    notified with reason REQUEST_WHILE_IN_NONE_HMI_LEVEL, the usage counter
    RemovalsForBadBehavior goes up by one and the application is
    unregistered. *)
Theorem C4_admission_failures (env : Collaborators) (message : MobileMessage)
    (app : Application) (am : ApplicationManagerImpl) :
  ordered am ->
  is_low_voltage_ am = false ->
  CreateCommand env message = true ->
  message_type message = messageType.request ->
  application (connection_key message) am = Some app ->
  let key := connection_key message in
  let r := ManageMobileCommand env (Some message) am in
  match addMobileRequest env message (request_hmi_level message am) with
  | RequestController.TOO_MANY_PENDING_REQUESTS =>
      r = (false, emit (SendNegativeResponse key (function_id message)
                          (default 0 (correlation_id message))
                          Result.TOO_MANY_PENDING_REQUESTS) am)
      /\ application key (snd r) = Some app
  | RequestController.TOO_MANY_REQUESTS =>
      fst r = false
      /\ In (SendOnAppInterfaceUnregisteredNotificationToMobile key
               AppInterfaceUnregisteredReason.TOO_MANY_REQUESTS) (events (snd r))
      /\ application key (snd r) = None
  | RequestController.NONE_HMI_LEVEL_MANY_REQUESTS =>
      fst r = false
      /\ In (SendOnAppInterfaceUnregisteredNotificationToMobile key
               AppInterfaceUnregisteredReason.REQUEST_WHILE_IN_NONE_HMI_LEVEL)
            (events (snd r))
      /\ removals (mobile_app_id app) (snd r) = removals (mobile_app_id app) am + 1
      /\ application key (snd r) = None
  | _ => True
  end.
Proof.
  intros Hord Hlow Hcmd Htype Happ key r.
  unfold r, ManageMobileCommand, request_hmi_level.
  rewrite Hlow, Hcmd, Htype. cbn [negb]. cbn zeta. fold key.
  set (needs_app := negb (bool_decide (function_id message = FunctionID.RegisterAppInterfaceID))
                    && (protocol_type message =? mobile_protocol_type_)
                    && negb (bool_decide (function_id message
                                          = FunctionID.UnregisterAppInterfaceID))).
  assert (Hguard : needs_app
                   && negb (bool_decide (is_Some (if needs_app then application key am
                                                  else None))) = false).
  { destruct needs_app; [|reflexivity]. unfold key. rewrite Happ. reflexivity. }
  rewrite Hguard.
  assert (Hlevel : match (if needs_app then application key am else None) with
                   | Some a => hmi_level a
                   | None => HMILevel.INVALID_ENUM
                   end
                   = if needs_app
                     then match application key am with
                          | Some a => hmi_level a
                          | None => HMILevel.INVALID_ENUM
                          end
                     else HMILevel.INVALID_ENUM)
    by (destruct needs_app; reflexivity).
  rewrite Hlevel.
  destruct (addMobileRequest env message _); try exact I; cbn [fst snd].
  - split; [reflexivity|]. split.
    + destruct (UnregisterApplication_events env key Result.TOO_MANY_PENDING_REQUESTS
                  false false
                  (emit (SendOnAppInterfaceUnregisteredNotificationToMobile key
                           AppInterfaceUnregisteredReason.TOO_MANY_REQUESTS) am))
        as (rest & -> & _).
      rewrite events_emit, !in_app_iff. left. right. left. reflexivity.
    + apply UnregisterApplication_gone. exact Hord.
  - split; [reflexivity|]. exact Happ.
  - split; [reflexivity|].
    replace (application key
               (emit (SendOnAppInterfaceUnregisteredNotificationToMobile key
                        AppInterfaceUnregisteredReason.REQUEST_WHILE_IN_NONE_HMI_LEVEL) am))
      with (Some app) by (symmetry; exact Happ).
    split; [|split].
    + match goal with
      | |- In _ (events (UnregisterApplication env key ?reason false false ?s)) =>
          destruct (UnregisterApplication_events env key reason false false s)
            as (rest & -> & _)
      end.
      change (events (RecordRemovalsForBadBehavior app ?s)) with (events s).
      rewrite events_emit, !in_app_iff. left. right. left. reflexivity.
    + unfold removals. rewrite UnregisterApplication_removals.
      apply removals_RecordRemovalsForBadBehavior.
    + apply UnregisterApplication_gone. exact Hord.
Qed.

(** The burst in level None, for application 1 of two. *)
Lemma C4_witness :
  let env := make_env "NONE" RequestController.NONE_HMI_LEVEL_MANY_REQUESTS in
  let r := ManageMobileCommand env (Some example_request) two_apps in
  removals "app1" (snd r) = removals "app1" two_apps + 1
  /\ application 1 (snd r) = None.
Proof.
  intros env r.
  pose proof (C4_admission_failures env example_request
                (configure 10 4711 3 0 0 HMILevel.HMI_NONE
                   (ApplicationImpl_new 1 "app1" "app1")) two_apps) as H.
  assert (Hord : ordered two_apps) by (vm_compute; split; [reflexivity | exact I]).
  specialize (H Hord eq_refl eq_refl eq_refl eq_refl).
  cbv zeta in H. change (addMobileRequest env example_request
                           (request_hmi_level example_request two_apps))
    with RequestController.NONE_HMI_LEVEL_MANY_REQUESTS in H.
  cbv iota in H. destruct H as (_ & _ & H3 & H4). split; [exact H3 | exact H4].
Defined.

(** * The streaming watchdog *)

Lemma AckReceived_spec type am :
  fst (AckReceived type am) = negb (flags_differ type am)
  /\ applications_ (snd (AckReceived type am)) = applications_ am
  /\ events (snd (AckReceived type am)) = events am
  /\ navi_app_to_stop_ (snd (AckReceived type am)) = navi_app_to_stop_ am
  /\ (forall t, t <> type ->
        service_status_ (snd (AckReceived type am)) !! t = service_status_ am !! t).
Proof.
  unfold AckReceived, flags_differ; simpl. rewrite negb_involutive.
  repeat split. intros t Ht. rewrite lookup_insert_ne by congruence. reflexivity.
Qed.

(** A service without an entry in the status map has both flags unset. *)
Lemma flags_differ_without_status type am :
  service_status_ am !! type = None -> flags_differ type am = false.
Proof. intros H. unfold flags_differ. rewrite H. reflexivity. Qed.




(** * Flood callback *)

Lemma OnApplicationFloodCallBack_spec env key am :
  ordered am ->
  In (SendOnAppInterfaceUnregisteredNotificationToMobile key
        AppInterfaceUnregisteredReason.TOO_MANY_REQUESTS)
     (events (OnApplicationFloodCallBack env key am))
  /\ application key (OnApplicationFloodCallBack env key am) = None.
Proof.
  intros Hord. unfold OnApplicationFloodCallBack. cbn zeta. split.
  - match goal with
    | |- In _ (events (UnregisterApplication env key ?reason ?r ?u ?s)) =>
        destruct (UnregisterApplication_events env key reason r u s) as (rest & -> & _)
    end.
    rewrite events_emit, !in_app_iff. left. right. left. reflexivity.
  - apply UnregisterApplication_gone. exact Hord.
Qed.



(** * Further properties of the protocol handler *)

(** ** Hash id written and read back *)

(** X1.  A hash id that is not one of the two sentinels and fits 32 bits,
    written by [set_hash_id] into a packet of protocol version 2 or higher,
    is what [get_hash_id] reads from that packet. *)
Theorem hash_id_round_trip (b : Build) (hash_id : Z) (packet : ProtocolPacket) :
  0 < hash_id < 2 ^ 32 ->
  hash_id <> HASH_ID_WRONG b ->
  PROTOCOL_VERSION_2 <= protocol_version packet ->
  get_hash_id b (set_hash_id b hash_id packet) = hash_id.
Proof.
  intros Hh Hw Hv. unfold set_hash_id, HASH_ID_NOT_SUPPORTED.
  replace (0 =? hash_id) with false by (symmetry; apply Z.eqb_neq; lia).
  replace (HASH_ID_WRONG b =? hash_id) with false
    by (symmetry; apply Z.eqb_neq; congruence).
  cbn [orb].
  replace (protocol_version packet <? PROTOCOL_VERSION_2) with false
    by (symmetry; apply Z.ltb_ge; lia).
  rewrite host_store32_bswap32.
  pose proof (be32_decode_be32 hash_id ltac:(lia)) as Hd.
  unfold get_hash_id, set_data, data_size. cbn [protocol_version data].
  replace (protocol_version packet <? PROTOCOL_VERSION_2) with false
    by (symmetry; apply Z.ltb_ge; lia).
  unfold be32 in *. cbn [length]. 
  replace (Z.of_nat 4 <? 4) with false by reflexivity.
  rewrite bswap32_host_load32, Hd.
  unfold HASH_ID_NOT_SUPPORTED.
  replace (hash_id =? 0) with false by (symmetry; apply Z.eqb_neq; lia).
  reflexivity.
Qed.

Lemma hash_id_round_trip_witness :
  get_hash_id example_build
    (set_hash_id example_build 305419896
       (control_packet SERVICE_TYPE_RPC FRAME_DATA_END_SERVICE false [])) = 305419896.
Proof.
  apply hash_id_round_trip.
  - lia.
  - vm_compute. discriminate.
  - vm_compute. discriminate.
Defined.

(** ** Heartbeat *)

(** X2.  A heartbeat request is answered only on a session that runs
    protocol version 3 or 4: the answer is one HeartbeatAck on the control
    service that mirrors the message id of the request.  On a session of
    another version the result is RESULT_HEARTBEAT_IS_NOT_SUPPORTED, for an
    unknown session RESULT_FAIL, and nothing is sent.  In no case is a
    message counter touched. *)
Theorem heartbeat_answer (so : SessionObserver) (packet : ProtocolPacket)
    (ph : ProtocolHandlerImpl) :
  session_observer_ ph = Some so ->
  frame_type packet = FRAME_TYPE_CONTROL ->
  frame_data packet = FRAME_DATA_HEART_BEAT ->
  let connection := connection_id packet in
  let r := HandleMessage connection packet ph in
  message_counters_ (snd r) = message_counters_ ph
  /\ match ProtocolVersionUsed so connection (session_id packet) with
     | Some version =>
         if (version =? 3) || (version =? 4) then
           fst r = RESULT_OK
           /\ posted_since ph (snd r) =
              [{| connection_id := connection; protocol_version := version;
                  protection_flag := false; frame_type := FRAME_TYPE_CONTROL;
                  service_type := SERVICE_TYPE_CONTROL;
                  frame_data := FRAME_DATA_HEART_BEAT_ACK;
                  session_id := session_id packet;
                  message_id := message_id packet; data := [] |}]
         else r = (RESULT_HEARTBEAT_IS_NOT_SUPPORTED, ph)
     | None => r = (RESULT_FAIL, ph)
     end.
Proof.
  intros Hso Hft Hfd connection r. unfold r, HandleMessage, HandleControlMessage.
  rewrite Hft, Hfd, Hso. cbn [Z.eqb FRAME_TYPE_CONTROL FRAME_DATA_HEART_BEAT
    FRAME_DATA_START_SERVICE FRAME_DATA_END_SERVICE Pos.eqb].
  unfold HandleControlMessageHeartBeat.
  destruct (ProtocolVersionUsed so connection (session_id packet)) as [version|] eqn:Ev;
    [|split; reflexivity].
  rewrite (Z.eqb_sym PROTOCOL_VERSION_3), (Z.eqb_sym PROTOCOL_VERSION_4).
  unfold PROTOCOL_VERSION_3, PROTOCOL_VERSION_4.
  destruct ((version =? 3) || (version =? 4)); [|split; reflexivity].
  unfold SendHeartBeatAck. rewrite Hso, Ev. cbn [fst snd].
  split; [reflexivity|]. split; [reflexivity|].
  apply posted_since_app. rewrite posted_PostMessage. reflexivity.
Qed.

Lemma heartbeat_answer_witness :
  map message_id
    (posted_since example_handler
       (snd (HandleMessage 7
               {| connection_id := 7; protocol_version := 3; protection_flag := false;
                  frame_type := FRAME_TYPE_CONTROL; service_type := SERVICE_TYPE_CONTROL;
                  frame_data := FRAME_DATA_HEART_BEAT; session_id := 1;
                  message_id := 42; data := [] |} example_handler))) = [42].
Proof.
  pose proof (heartbeat_answer example_observer
                {| connection_id := 7; protocol_version := 3; protection_flag := false;
                   frame_type := FRAME_TYPE_CONTROL; service_type := SERVICE_TYPE_CONTROL;
                   frame_data := FRAME_DATA_HEART_BEAT; session_id := 1;
                   message_id := 42; data := [] |} example_handler
                eq_refl eq_refl eq_refl) as H.
  cbv zeta in H. destruct H as [_ H].
  cbn [ProtocolVersionUsed example_observer connection_id session_id] in H.
  cbn [Z.eqb Pos.eqb orb] in H. destruct H as [_ H].
  cbn [connection_id] in *. rewrite H. reflexivity.
Defined.

(** ** End of a service *)

(** X5.  An EndService control frame is always answered with exactly one
    control frame on the connection it came from, for the session and
    with the protocol version of the packet, its message id drawn from
    the counter of the session: EndServiceAck when the registry accepts,
    and then the counter of the session is erased; EndServiceNAck when it
    refuses, and then the counter stays, moved on by one.  The counters
    of the other sessions are left alone. *)
Theorem end_service_answer (so : SessionObserver) (connection : Z)
    (packet : ProtocolPacket) (ph : ProtocolHandlerImpl) :
  0 <= session_id packet < 256 ->
  let s := session_id packet in
  let service := ServiceTypeFromByte (service_type packet) in
  let accepted :=
    negb (OnSessionEndedCallback so connection s (get_hash_id (build ph) packet) service
          =? 0) in
  let r := HandleControlMessageEndSession so connection packet ph in
  fst r = RESULT_OK
  /\ posted_since ph (snd r) =
     [{| connection_id := connection; protocol_version := protocol_version packet;
         protection_flag := false; frame_type := FRAME_TYPE_CONTROL;
         service_type := ServiceTypeToByte service;
         frame_data := if accepted then FRAME_DATA_END_SERVICE_ACK
                       else FRAME_DATA_END_SERVICE_NACK;
         session_id := s; message_id := counter_value s ph; data := [] |}]
  /\ message_counters_ (snd r) !! s =
     (if accepted then None else Some (u32 (counter_value s ph + 1)))
  /\ (forall s', s' <> s ->
        message_counters_ (snd r) !! s' = message_counters_ ph !! s').
Proof.
  intros Hs s service accepted r.
  unfold r, HandleControlMessageEndSession. fold s. fold service. fold accepted.
  destruct accepted.
  - cbn [fst snd]. split; [reflexivity|].
    unfold SendEndSessionAck, post_control, counter_next. cbn [fst snd].
    split; [|split].
    + apply posted_since_app.
      unfold posted, PostMessage, with_counters. cbn [raw_ford_messages_to_mobile_].
      rewrite map_app. reflexivity.
    + cbn. apply lookup_delete_eq.
    + intros s' Hne. cbn. rewrite lookup_delete_ne by congruence.
      rewrite lookup_insert_ne by congruence. reflexivity.
  - cbn [fst snd]. split; [reflexivity|].
    unfold SendEndSessionNAck, post_control, counter_next.
    rewrite (u8_small s Hs). cbn [fst snd].
    split; [|split].
    + apply posted_since_app.
      unfold posted, PostMessage, with_counters. cbn [raw_ford_messages_to_mobile_].
      rewrite map_app. reflexivity.
    + cbn. rewrite lookup_insert_eq. reflexivity.
    + intros s' Hne. cbn. rewrite lookup_insert_ne by congruence. reflexivity.
Qed.

(** The audio service of session 1 is ended by a packet that arrived on
    connection 7; the registry accepts. *)
Lemma end_service_answer_witness :
  let packet := control_packet SERVICE_TYPE_AUDIO FRAME_DATA_END_SERVICE false [] in
  map frame_data
    (posted_since example_handler
       (snd (HandleControlMessageEndSession example_observer 7 packet example_handler)))
  = [FRAME_DATA_END_SERVICE_ACK].
Proof.
  intros packet.
  destruct (end_service_answer example_observer 7 packet example_handler) as (_ & H & _).
  - cbn. lia.
  - rewrite H. reflexivity.
Defined.

(** ** Inbound frames *)

(** X6.  A frame of the audio or of the video service is never metered:
    whatever the settings of the frequency meter and however many frames
    came before, handling it leaves the meter as it is and makes no flood
    callback. *)
Theorem streaming_frames_bypass_meter (now : Z) (message : ProtocolPacket)
    (ph : ProtocolHandlerImpl) :
  service_type message = SERVICE_TYPE_AUDIO \/ service_type message = SERVICE_TYPE_NAVI ->
  let ph' := Handle_FromMobile now message ph in
  message_meter_ ph' = message_meter_ ph /\ flood_calls ph' = flood_calls ph.
Proof.
  intros Hs ph'. unfold ph', Handle_FromMobile.
  destruct (session_observer_ ph) as [so|]; [|split; reflexivity].
  assert (E : (service_type message =? SERVICE_TYPE_NAVI)
              || (service_type message =? SERVICE_TYPE_AUDIO) = true).
  { destruct Hs as [-> | ->]; reflexivity. }
  rewrite E.
  set (ph1 := if IsHeartBeatSupported so (u8 (connection_id message)) (session_id message)
              then call (CallKeepConnectionAlive (u8 (connection_id message))
                           (session_id message)) ph
              else ph).
  assert (H1 : message_meter_ ph1 = message_meter_ ph /\ flood_calls ph1 = flood_calls ph).
  { unfold ph1. destruct (IsHeartBeatSupported so _ _); [|split; reflexivity].
    split; [reflexivity|]. rewrite flood_calls_call. apply app_nil_r. }
  destruct H1 as [Hm Hf].
  destruct (negb (data_size message =? 0) || (FRAME_TYPE_CONTROL =? frame_type message)
            || (FRAME_TYPE_FIRST =? frame_type message)); [|split; assumption].
  destruct (HandleMessage_meter (connection_id message) message ph1) as [Hm2 Hf2].
  split; congruence.
Qed.

(** Eleven audio frames within 100 ms, with the limit at ten per second. *)
Lemma streaming_frames_bypass_meter_witness :
  let audio_frame :=
    {| connection_id := 0; protocol_version := 3; protection_flag := false;
       frame_type := FRAME_TYPE_SINGLE; service_type := SERVICE_TYPE_AUDIO;
       frame_data := FRAME_DATA_SINGLE; session_id := 1; message_id := 1;
       data := [x01] |} in
  let ph := receive_at [0; 10; 20; 30; 40; 50; 60; 70; 80; 90] audio_frame
              example_handler in
  flood_calls (Handle_FromMobile 100 audio_frame ph) = flood_calls ph.
Proof.
  intros audio_frame ph.
  apply (streaming_frames_bypass_meter 100 audio_frame ph). left. reflexivity.
Defined.

Lemma filter_subscriber_call c ph :
  List.filter is_subscriber_call (calls (call c ph))
  = List.filter is_subscriber_call (calls ph) ++ (if is_subscriber_call c then [c] else []).
Proof.
  unfold call; cbn [calls]. rewrite List.filter_app. cbn [List.filter].
  destruct (is_subscriber_call c); reflexivity.
Qed.

(** X7.  A frame without payload that is neither a Control frame nor a
    First frame is dropped: nothing is sent in answer, no message counter
    moves, and the frame reaches neither the subscribers nor the
    reassembly of multi-frame messages. *)
Theorem empty_data_frame_dropped (now : Z) (message : ProtocolPacket)
    (ph : ProtocolHandlerImpl) :
  data message = [] ->
  frame_type message <> FRAME_TYPE_CONTROL ->
  frame_type message <> FRAME_TYPE_FIRST ->
  let ph' := Handle_FromMobile now message ph in
  posted ph' = posted ph
  /\ message_counters_ ph' = message_counters_ ph
  /\ List.filter is_subscriber_call (calls ph')
     = List.filter is_subscriber_call (calls ph)
  /\ incomplete_multi_frame_messages_ ph' = incomplete_multi_frame_messages_ ph.
Proof.
  intros Hd Hc Hf ph'. unfold ph', Handle_FromMobile.
  destruct (session_observer_ ph) as [so|] eqn:Eso; [|repeat split; reflexivity].
  replace (negb (data_size message =? 0) || (FRAME_TYPE_CONTROL =? frame_type message)
           || (FRAME_TYPE_FIRST =? frame_type message)) with false.
  2:{ unfold data_size. rewrite Hd. cbn [length Z.of_nat Z.eqb negb orb].
      symmetry. apply orb_false_iff. split; apply Z.eqb_neq; congruence. }
  set (tracked := if (service_type message =? SERVICE_TYPE_NAVI)
                     || (service_type message =? SERVICE_TYPE_AUDIO)
                  then (false, ph)
                  else TrackMessage now
                         (KeyFromPair so (connection_id message) (session_id message)) ph).
  assert (Ht : posted (snd tracked) = posted ph
               /\ message_counters_ (snd tracked) = message_counters_ ph
               /\ List.filter is_subscriber_call (calls (snd tracked))
                  = List.filter is_subscriber_call (calls ph)
               /\ incomplete_multi_frame_messages_ (snd tracked)
                  = incomplete_multi_frame_messages_ ph).
  { unfold tracked.
    destruct ((service_type message =? SERVICE_TYPE_NAVI)
              || (service_type message =? SERVICE_TYPE_AUDIO)); [repeat split; reflexivity|].
    unfold TrackMessage.
    destruct ((0 <? message_frequency_time_ ph) && (0 <? message_max_frequency_ ph));
      [|repeat split; reflexivity].
    destruct (MessageMeter.TrackMessage now _ (message_meter_ ph)) as [freq meter].
    cbn [message_max_frequency_ with_meter].
    destruct (message_max_frequency_ ph <? freq); [|repeat split; reflexivity].
    cbn [session_observer_ with_meter]. rewrite Eso.
    split; [reflexivity|]. split; [reflexivity|]. split; [|reflexivity].
    cbn [snd calls with_meter call].
    rewrite List.filter_app. cbn [List.filter is_subscriber_call]. apply app_nil_r. }
  destruct tracked as [flood ph1]. cbn [snd] in Ht. destruct Ht as (H1 & H2 & H3 & H4).
  destruct flood; [repeat split; assumption|].
  destruct (IsHeartBeatSupported so _ _); [|repeat split; assumption].
  split; [exact H1|]. split; [exact H2|]. split; [|exact H4].
  rewrite filter_subscriber_call. cbn [is_subscriber_call]. rewrite app_nil_r. exact H3.
Qed.

Lemma empty_data_frame_dropped_witness :
  let empty_frame :=
    {| connection_id := 0; protocol_version := 3; protection_flag := false;
       frame_type := FRAME_TYPE_SINGLE; service_type := SERVICE_TYPE_RPC;
       frame_data := FRAME_DATA_SINGLE; session_id := 1; message_id := 1;
       data := [] |} in
  calls (Handle_FromMobile 0 empty_frame example_handler) = []
  /\ List.filter is_subscriber_call (calls (Handle_FromMobile 0 rpc_frame example_handler))
     <> [].
Proof.
  intros empty_frame. split; [|vm_compute; discriminate].
  destruct (empty_data_frame_dropped 0 empty_frame example_handler) as (_ & _ & H & _).
  - reflexivity.
  - discriminate.
  - discriminate.
  - vm_compute. reflexivity.
Defined.

(** ** End of a security handshake *)

(** X8.  The listener that waits for the handshake of a StartService
    ignores the end of a handshake with another connection key: it
    answers false and nothing happens.  For its own key it answers true.
    When the service has no SSL context yet, it sends one StartServiceAck
    for its session, marked protected exactly when the handshake
    succeeded, and exactly then it first sets the protection flag of the
    service.  When the service is protected already, a successful
    handshake is answered with one StartServiceNAck and a failed one with
    nothing. *)
Theorem handshake_done_answer (so : SessionObserver) (h : StartSessionHandler)
    (key : Z) (success : bool) (ph : ProtocolHandlerImpl) :
  let r := OnHandshakeDone so h key success ph in
  if key =? connection_key_ h then
    fst r = true
    /\ match GetSSLContext so (connection_key_ h) (service_type_ h) with
       | None =>
           (exists p,
              posted_since ph (snd r) = [p]
              /\ frame_data p = FRAME_DATA_START_SERVICE_ACK
              /\ protection_flag p = success
              /\ connection_id p = connection_id_ h
              /\ session_id p = u8 (session_id_ h)
              /\ service_type p = ServiceTypeToByte (service_type_ h))
           /\ calls_since ph (snd r) =
              (if success
               then [CallSetProtectionFlag (connection_key_ h) (service_type_ h)]
               else [])
       | Some _ =>
           calls_since ph (snd r) = []
           /\ map frame_data (posted_since ph (snd r)) =
              (if success then [FRAME_DATA_START_SERVICE_NACK] else [])
       end
  else r = (false, ph).
Proof.
  intros r. unfold r, OnHandshakeDone.
  destruct (key =? connection_key_ h); [|reflexivity]. cbn [negb].
  destruct (GetSSLContext so (connection_key_ h) (service_type_ h)) as [ctx|].
  - destruct success; cbn [fst snd].
    + split; [reflexivity|]. split; [apply calls_since_same; reflexivity|].
      rewrite (posted_since_app _ _ _ (SendStartSessionNAck_posted _ _ _ _ _)).
      reflexivity.
    + split; [reflexivity|]. split; [apply calls_since_same; reflexivity|].
      rewrite posted_since_refl. reflexivity.
  - cbn [fst snd]. split; [reflexivity|].
    destruct success.
    + split.
      * eexists. split.
        { apply posted_since_app.
          rewrite (SendStartSessionAck_posted _ _ _ _ _ _ (call _ ph)), posted_call.
          reflexivity. }
        cbn. repeat split.
      * apply calls_since_call. reflexivity.
    + split.
      * eexists. split.
        { apply posted_since_app. apply SendStartSessionAck_posted. }
        cbn. repeat split.
      * apply calls_since_same; reflexivity.
Qed.

(** ** Outbound messages *)

Lemma queued_since_app ph ph' l :
  raw_ford_messages_to_mobile_ ph' = raw_ford_messages_to_mobile_ ph ++ l ->
  queued_since ph ph' = l.
Proof. intros H. unfold queued_since. rewrite H. apply drop_app_length. Qed.

Lemma take_all_bytes (l : list byte) : take (Z.to_nat (Z.of_nat (length l))) l = l.
Proof. rewrite Nat2Z.id. apply firstn_all. Qed.



Lemma post_all_queue l ph :
  raw_ford_messages_to_mobile_ (post_all l ph) = raw_ford_messages_to_mobile_ ph ++ l.
Proof.
  revert ph. induction l as [|q l IH]; intros ph.
  - symmetry. apply app_nil_r.
  - unfold post_all in *. cbn [fold_left]. rewrite IH.
    unfold PostMessage; cbn [raw_ford_messages_to_mobile_].
    rewrite <- app_assoc. destruct q; reflexivity.
Qed.

(** The queue after [SendMultiFrameMessage]: the First frame and the
    Consecutive frames of the indices [0 .. frames_count - 1]. *)
Lemma SendMultiFrameMessage_queue c s v service N payload m final ph :
  0 <= frames_count N m <= 2 ^ 32 ->
  raw_ford_messages_to_mobile_
    (snd (SendMultiFrameMessage c s v service N payload m final ph))
  = raw_ford_messages_to_mobile_ ph ++
    {| frame := ProtocolPacket_new c v PROTECTION_OFF FRAME_TYPE_FIRST service
                  FRAME_DATA_FIRST s FIRST_FRAME_DATA_SIZE (u8 (counter_value s ph))
                  (first_frame_out_data N (frames_count N m));
       is_final := false |}
    :: map (fun k => consecutive_frame c s v service N payload m final
                       (u8 (counter_value s ph)) (Z.of_nat k))
         (seq 0 (Z.to_nat (frames_count N m))).
Proof.
  intros Hn. unfold SendMultiFrameMessage, counter_next. cbn [fst snd].
  rewrite post_all_queue. unfold PostMessage, with_counters.
  cbn [raw_ford_messages_to_mobile_]. fold (counter_value s ph).
  rewrite consecutive_frames_map by lia. rewrite <- app_assoc. reflexivity.
Qed.

Lemma frames_count_ge_2 (N m : Z) : 0 < m -> m < N -> 2 <= frames_count N m.
Proof.
  intros Hm HN. unfold frames_count, lastframe_remainder.
  pose proof (Z.mod_pos_bound N m Hm) as Hr.
  pose proof (Z.div_mod N m ltac:(lia)) as Hd.
  assert (1 <= N / m) by (apply Z.div_le_lower_bound; lia).
  destruct (0 <? N mod m) eqn:E.
  - lia.
  - apply Z.ltb_ge in E. assert (N mod m = 0) by lia. nia.
Qed.

(** X4.  A message whose payload does not fit the frame size goes out as
    one First frame followed by [frames_count] Consecutive frames, at
    least two.  The First frame announces the size of the payload and the
    number of frames.  Every Consecutive frame carries between one byte
    and a frame size of payload, their payloads in order are the payload
    of the message, and their frame data runs 1, 2, .. 0x7F, 1, .. with 0
    on the last.  Only the last frame is marked final, and only when the
    caller asked for it.  All frames go to the connection and the session
    of the connection key and carry the same message id; the counter of
    the session moves on by one. *)
Theorem message_that_does_not_fit_is_fragmented (so : SessionObserver)
    (message : RawMessage) (final : bool) (ph : ProtocolHandlerImpl) :
  session_observer_ ph = Some so ->
  0 < optimal_frame_size so message ph ->
  optimal_frame_size so message ph < raw_data_size message < 2 ^ 32 ->
  let m := optimal_frame_size so message ph in
  let N := raw_data_size message in
  let n := frames_count N m in
  let c := fst (PairFromKey so (raw_connection_key message)) in
  let s := snd (PairFromKey so (raw_connection_key message)) in
  let ph' := SendMessageToMobileApp message final ph in
  exists first rest,
    queued_since ph ph' = first :: rest
    /\ frame_type (frame first) = FRAME_TYPE_FIRST
    /\ data (frame first) = be32 N ++ be32 n
    /\ is_final first = false
    /\ Z.of_nat (length rest) = n
    /\ 2 <= n
    /\ (forall i q, rest !! i = Some q ->
          frame_type (frame q) = FRAME_TYPE_CONSECUTIVE
          /\ frame_data (frame q) = spec_frame_data n (Z.of_nat i)
          /\ 0 < Z.of_nat (length (data (frame q))) <= m
          /\ is_final q = (if Z.of_nat i =? n - 1 then final else false))
    /\ concat (map (fun q => data (frame q)) rest) = raw_data message
    /\ (forall q, In q (first :: rest) ->
          connection_id (frame q) = c
          /\ session_id (frame q) = s
          /\ message_id (frame q) = u8 (counter_value s ph)
          /\ service_type (frame q) = raw_service_type message)
    /\ counter_value s ph' = u32 (counter_value s ph + 1).
Proof.
  intros Hso Hm HN m N n c s ph'.
  assert (HN0 : 0 < N) by (unfold N; lia).
  destruct (frames_count_split N m Hm HN0) as (Hn1 & Hsplit & Hlast). fold n in Hn1, Hsplit.
  pose proof (frames_count_le N m Hm HN0) as Hnle. fold n in Hnle.
  pose proof (frames_count_ge_2 N m Hm (proj1 HN)) as Hn2. fold n in Hn2.
  set (mk := consecutive_frame c s (u8 (raw_protocol_version message))
               (raw_service_type message) N (raw_data message) m final
               (u8 (counter_value s ph))).
  assert (Hph : ph' = snd (SendMultiFrameMessage c s (u8 (raw_protocol_version message))
                             (raw_service_type message) N (raw_data message) m final ph)).
  { unfold ph', SendMessageToMobileApp. rewrite Hso.
    unfold c, s. destruct (PairFromKey so (raw_connection_key message)) as [c0 s0].
    cbn [fst snd]. fold (optimal_frame_size so message ph). fold m. fold N.
    replace (N <=? m) with false by (symmetry; apply Z.leb_gt; unfold N, m; lia).
    reflexivity. }
  assert (Hq : queued_since ph ph' =
               {| frame := ProtocolPacket_new c (u8 (raw_protocol_version message))
                             PROTECTION_OFF FRAME_TYPE_FIRST (raw_service_type message)
                             FRAME_DATA_FIRST s FIRST_FRAME_DATA_SIZE
                             (u8 (counter_value s ph)) (first_frame_out_data N n);
                  is_final := false |}
               :: map (fun k => mk (Z.of_nat k)) (seq 0 (Z.to_nat n))).
  { apply queued_since_app. rewrite Hph.
    apply SendMultiFrameMessage_queue. fold n. unfold N in *. lia. }
  assert (Hlen : Z.of_nat (length (raw_data message)) = N) by reflexivity.
  eexists _, _. split; [exact Hq|].
  split; [reflexivity|]. split; [reflexivity|]. split; [reflexivity|].
  split; [rewrite length_map, length_seq; lia|].
  split; [exact Hn2|].
  split; [|split; [|split]].
  - intros i q Hi. rewrite list_lookup_fmap in Hi.
    destruct (seq 0 (Z.to_nat n) !! i) as [k|] eqn:Ek; [|discriminate].
    apply lookup_seq in Ek. destruct Ek as [-> Hk]. cbn in Hi. injection Hi as <-.
    unfold mk, consecutive_frame. cbn [frame is_final ProtocolPacket_new frame_type
      frame_data data]. fold n.
    split; [reflexivity|]. unfold spec_frame_data.
    destruct (Z.of_nat i =? n - 1) eqn:Elast.
    + apply Z.eqb_eq in Elast. split; [reflexivity|]. split; [|reflexivity].
      rewrite length_take, length_drop. lia.
    + apply Z.eqb_neq in Elast. split; [|split; [|reflexivity]].
      * unfold u8, FRAME_DATA_MAX_CONSECUTIVE. apply Z.mod_small.
        pose proof (Z.mod_pos_bound (Z.of_nat i) 127 ltac:(lia)). lia.
      * rewrite length_take, length_drop. nia.
  - rewrite map_map.
    assert (Hk : Z.to_nat n = S (Z.to_nat (n - 1))) by lia.
    rewrite Hk, seq_S, map_app, concat_app. cbn [map concat]. rewrite app_nil_r.
    rewrite (map_ext_in _ (fun k => take (Z.to_nat m) (drop (Z.to_nat m * k)
                                                         (raw_data message)))).
    + rewrite chunks_take. unfold mk, consecutive_frame.
      cbn [frame ProtocolPacket_new data]. fold n.
      replace (Z.of_nat (0 + Z.to_nat (n - 1)) =? n - 1) with true
        by (symmetry; apply Z.eqb_eq; lia).
      replace (Z.to_nat (m * Z.of_nat (0 + Z.to_nat (n - 1))))
        with (Z.to_nat m * Z.to_nat (n - 1))%nat by nia.
      rewrite (take_ge (drop _ _)).
      * apply take_drop.
      * rewrite length_drop. rewrite <- Z2Nat.inj_mul by lia.
        set (L := lastframe_size _ _) in *. lia.
    + intros k Hk'. apply in_seq in Hk'.
      unfold mk, consecutive_frame. cbn [frame ProtocolPacket_new data]. fold n.
      replace (Z.of_nat k =? n - 1) with false by (symmetry; apply Z.eqb_neq; lia).
      f_equal. f_equal. nia.
  - intros q [<-|Hin]; [cbn; auto|].
    apply in_map_iff in Hin. destruct Hin as (k & <- & _).
    unfold mk, consecutive_frame; cbn; auto.
  - rewrite Hph. unfold SendMultiFrameMessage, counter_next. cbn [fst snd].
    unfold counter_value.
    rewrite (proj2 (post_all_spec _ _)). cbn. rewrite lookup_insert_eq. reflexivity.
Qed.

(** The message of 3000 bytes goes out as a First frame and three
    Consecutive frames, the last one final. *)
Lemma message_that_does_not_fit_is_fragmented_witness :
  map (fun q => (frame_type (frame q), Z.of_nat (length (data (frame q))), is_final q))
    (queued_since example_handler (SendMessageToMobileApp long_message true example_handler))
  = [(FRAME_TYPE_FIRST, 8, false); (FRAME_TYPE_CONSECUTIVE, 1488, false);
     (FRAME_TYPE_CONSECUTIVE, 1488, false); (FRAME_TYPE_CONSECUTIVE, 24, true)].
Proof.
  destruct (message_that_does_not_fit_is_fragmented example_observer long_message true
              example_handler) as (first & rest & _).
  - reflexivity.
  - vm_compute. reflexivity.
  - vm_compute. split; reflexivity.
  - vm_compute. reflexivity.
Defined.

(** ** Flow control of the video service *)

(** X9.  For a session the registry knows, [SendFramesNumber] sends exactly
    one control frame of the video service with frame data ServiceDataAck,
    whose message id is drawn from the counter of the session and whose
    payload is the 32-bit pattern of the number of frames in four bytes,
    most significant first: decoding the payload gives the number back.
    For a session the registry does not know nothing is sent and no
    counter moves. *)
Theorem frames_number_round_trip (so : SessionObserver) (connection_key number_of_frames : Z)
    (ph : ProtocolHandlerImpl) :
  0 <= number_of_frames < 2 ^ 31 ->
  let c := fst (PairFromKey so connection_key) in
  let s := snd (PairFromKey so connection_key) in
  let ph' := SendFramesNumber so connection_key number_of_frames ph in
  match ProtocolVersionUsed so c s with
  | Some version =>
      exists b0 b1 b2 b3,
        posted_since ph ph' =
          [{| connection_id := c; protocol_version := version; protection_flag := false;
              frame_type := FRAME_TYPE_CONTROL; service_type := SERVICE_TYPE_NAVI;
              frame_data := FRAME_DATA_SERVICE_DATA_ACK; session_id := s;
              message_id := counter_value s ph; data := [b0; b1; b2; b3] |}]
        /\ be32_decode b0 b1 b2 b3 = number_of_frames
        /\ counter_value s ph' = u32 (counter_value s ph + 1)
  | None => ph' = ph
  end.
Proof.
  intros Hn c s ph'. unfold ph', SendFramesNumber, c, s.
  destruct (PairFromKey so connection_key) as [c0 s0]. cbn [fst snd].
  destruct (ProtocolVersionUsed so c0 s0) as [version|]; [|reflexivity].
  unfold counter_next. cbn [fst snd].
  rewrite host_store32_bswap32.
  assert (Hu : u32 number_of_frames = number_of_frames)
    by (unfold u32; apply Z.mod_small; lia).
  rewrite Hu.
  pose proof (be32_decode_be32 number_of_frames ltac:(lia)) as Hd.
  unfold be32 in *.
  eexists _, _, _, _. split; [|split; [exact Hd|]].
  - apply posted_since_app. rewrite posted_PostMessage. reflexivity.
  - unfold counter_value. cbn. rewrite lookup_insert_eq. reflexivity.
Qed.

(** Three hundred frames acknowledged on session 1 of connection 7. *)
Lemma frames_number_round_trip_witness :
  exists b0 b1 b2 b3,
    map data (posted_since example_handler
                (SendFramesNumber example_observer 1793 300 example_handler))
    = [[b0; b1; b2; b3]]
    /\ be32_decode b0 b1 b2 b3 = 300.
Proof.
  pose proof (frames_number_round_trip example_observer 1793 300 example_handler) as H.
  assert (Hn : 0 <= 300 < 2 ^ 31) by lia.
  specialize (H Hn). cbv zeta in H.
  change (ProtocolVersionUsed example_observer
            (fst (PairFromKey example_observer 1793))
            (snd (PairFromKey example_observer 1793))) with (Some 3) in H.
  cbv iota in H. destruct H as (b0 & b1 & b2 & b3 & Hp & Hd & _).
  exists b0, b1, b2, b3. split; [rewrite Hp; reflexivity | exact Hd].
Defined.

(** ** Encryption of frames *)

(** X10.  [EncryptFrame] never fails on a frame it has to leave in clear
    and never hands on ciphertext unmarked: a Control frame and a frame
    of the control service come back untouched with RESULT_OK, and any
    other packet comes back either untouched or with the protection flag
    set and the output of the cipher as payload, all other fields as
    they were. *)
Theorem encrypted_frames_are_marked (cipher : Security.Cipher) (packet : ProtocolPacket)
    (ph : ProtocolHandlerImpl) :
  let '(result, packet', made) := Security.EncryptFrame cipher packet ph in
  ((service_type packet = SERVICE_TYPE_CONTROL \/ frame_type packet = FRAME_TYPE_CONTROL) ->
     result = Security.RESULT_OK /\ packet' = packet /\ made = [])
  /\ (packet' = packet
      \/ exists so context out_data,
           session_observer_ ph = Some so
           /\ GetSSLContext so (KeyFromPair so (connection_id packet) (session_id packet))
                (ServiceTypeFromByte (service_type packet)) = Some context
           /\ IsInitCompleted context = true
           /\ Security.Encrypt cipher context (data packet) = Some out_data
           /\ packet' = set_data out_data (set_protection_flag true packet)
           /\ result = Security.RESULT_OK).
Proof.
  unfold Security.EncryptFrame.
  destruct ((service_type packet =? ServiceTypeToByte kControl)
            || (frame_type packet =? FRAME_TYPE_CONTROL)) eqn:Ec.
  { split; [intros _; auto | left; reflexivity]. }
  apply orb_false_iff in Ec. destruct Ec as [E1 E2].
  apply Z.eqb_neq in E1. apply Z.eqb_neq in E2.
  assert (Hno : ~ (service_type packet = SERVICE_TYPE_CONTROL
                   \/ frame_type packet = FRAME_TYPE_CONTROL)).
  { intros [H|H]; [apply E1 | apply E2]; exact H. }
  destruct (session_observer_ ph) as [so|] eqn:Eso;
    [|split; [intros H; contradiction | left; reflexivity]].
  destruct (security_manager_ ph) as [sm|];
    [|split; [intros H; contradiction | left; reflexivity]].
  destruct (GetSSLContext so _ _) as [context|] eqn:Ectx;
    [|split; [intros H; contradiction | left; reflexivity]].
  destruct (IsInitCompleted context) eqn:Einit; cbn [negb];
    [|split; [intros H; contradiction | left; reflexivity]].
  destruct (Security.Encrypt cipher context (data packet)) as [out_data|] eqn:Eenc;
    [|split; [intros H; contradiction | left; reflexivity]].
  split; [intros H; contradiction|].
  right. exists so, context, out_data. auto 10.
Qed.

(** X11.  A frame that [EncryptFrame] encrypted is restored by
    [DecryptFrame] when the cipher of the context decrypts what it
    encrypted: the result is RESULT_OK, no call is made, and the packet
    has the payload and the fields of the original, its protection flag
    set. *)
Theorem decrypt_restores_encrypted_frame (cipher : Security.Cipher) (so : SessionObserver)
    (context : SSLContext) (packet : ProtocolPacket) (ph : ProtocolHandlerImpl) :
  session_observer_ ph = Some so ->
  is_Some (security_manager_ ph) ->
  service_type packet <> SERVICE_TYPE_CONTROL ->
  frame_type packet <> FRAME_TYPE_CONTROL ->
  GetSSLContext so (KeyFromPair so (connection_id packet) (session_id packet))
    (ServiceTypeFromByte (service_type packet)) = Some context ->
  IsInitCompleted context = true ->
  (forall clear out, Security.Encrypt cipher context clear = Some out ->
                     Security.Decrypt cipher context out = Some clear) ->
  is_Some (Security.Encrypt cipher context (data packet)) ->
  let '(_, encrypted, _) := Security.EncryptFrame cipher packet ph in
  protection_flag encrypted = true
  /\ Security.DecryptFrame cipher encrypted ph
     = (Security.RESULT_OK, set_protection_flag true packet, []).
Proof.
  intros Hso [sm Hsm] Hs Hf Hctx Hinit Hinv [out Henc].
  unfold Security.EncryptFrame.
  replace ((service_type packet =? ServiceTypeToByte kControl)
           || (frame_type packet =? FRAME_TYPE_CONTROL)) with false.
  2:{ symmetry. apply orb_false_iff. split; apply Z.eqb_neq; assumption. }
  rewrite Hso, Hsm, Hctx, Hinit, Henc. cbn [negb].
  split; [reflexivity|].
  unfold Security.DecryptFrame.
  cbn [protection_flag set_data set_protection_flag service_type frame_type
       connection_id session_id data negb orb].
  replace ((service_type packet =? ServiceTypeToByte kControl)
           || (frame_type packet =? FRAME_TYPE_CONTROL)) with false.
  2:{ symmetry. apply orb_false_iff. split; apply Z.eqb_neq; assumption. }
  rewrite Hso, Hsm, Hctx, Hinit. cbn [negb].
  rewrite (Hinv _ _ Henc). reflexivity.
Qed.

(** An RPC Single frame on a protected service, with the cipher that
    reverses the bytes. *)
Lemma decrypt_restores_encrypted_frame_witness :
  Security.DecryptFrame reversing_cipher
    (snd (fst (Security.EncryptFrame reversing_cipher last_frame protected_handler)))
    protected_handler
  = (Security.RESULT_OK, set_protection_flag true last_frame, []).
Proof.
  pose proof (decrypt_restores_encrypted_frame reversing_cipher protected_observer
                {| IsInitCompleted := true; IsHandshakePending := false;
                   get_max_block_size := fun n => n |}
                last_frame protected_handler) as H.
  assert (H1 : session_observer_ protected_handler = Some protected_observer)
    by reflexivity.
  assert (H2 : is_Some (security_manager_ protected_handler)) by (eexists; reflexivity).
  assert (H3 : service_type last_frame <> SERVICE_TYPE_CONTROL) by discriminate.
  assert (H4 : frame_type last_frame <> FRAME_TYPE_CONTROL) by discriminate.
  assert (H7 : forall clear out,
             Security.Encrypt reversing_cipher
               {| IsInitCompleted := true; IsHandshakePending := false;
                  get_max_block_size := fun n => n |} clear = Some out ->
             Security.Decrypt reversing_cipher
               {| IsInitCompleted := true; IsHandshakePending := false;
                  get_max_block_size := fun n => n |} out = Some clear).
  { intros clear out [= <-]. cbn. rewrite rev_involutive. reflexivity. }
  assert (H8 : is_Some (Security.Encrypt reversing_cipher
                          {| IsInitCompleted := true; IsHandshakePending := false;
                             get_max_block_size := fun n => n |} (data last_frame)))
    by (eexists; reflexivity).
  specialize (H H1 H2 H3 H4 eq_refl eq_refl H7 H8).
  destruct (Security.EncryptFrame reversing_cipher last_frame protected_handler)
    as [[result encrypted] made].
  exact (proj2 H).
Defined.

(** ** Final messages and the closing of connections *)

Lemma SendFrame_frame packet st :
  handler (snd (SendFrame packet st)) = handler st
  /\ sessions_last_message_id_ (snd (SendFrame packet st)) = sessions_last_message_id_ st
  /\ ready_to_close_connections_ (snd (SendFrame packet st))
     = ready_to_close_connections_ st.
Proof.
  unfold SendFrame.
  destruct (ENABLE_SECURITY (build (handler st))).
  - destruct (Security.EncryptFrame (cipher_ st) packet (handler st))
      as [[result packet'] made].
    destruct result; cbn [negb]; try (repeat split; reflexivity).
    cbn [transport_manager_ with_security_calls].
    destruct (transport_manager_ st) as [accepts|]; [|repeat split; reflexivity].
    destruct (accepts packet'); repeat split; reflexivity.
  - cbn [negb]. destruct (transport_manager_ st) as [accepts|]; [|repeat split; reflexivity].
    destruct (accepts packet); repeat split; reflexivity.
Qed.

Lemma erase_first_app_last (x : Z) (l : list Z) :
  x ∉ l -> erase_first x (l ++ [x]) = l.
Proof.
  induction l as [|y l IH]; intros Hx; cbn.
  - rewrite Z.eqb_refl. reflexivity.
  - destruct (y =? x) eqn:E.
    + apply Z.eqb_eq in E. subst. exfalso. apply Hx. left.
    + f_equal. apply IH. intros H. apply Hx. right. exact H.
Qed.

(** X12.  The last frame of a final message closes its connection in two
    steps.  When a Single frame marked final has been handed to the
    transport and its sending is confirmed, the handler sends EndService
    for the RPC service of the session, puts the connection on the list
    of connections ready to close and forgets the recorded message id.
    The next confirmation that arrives for that connection, whatever it
    confirms, disconnects the connection, takes it off the list and sends
    nothing. *)
Theorem final_frame_closes_connection (so : SessionObserver) (key other version : Z)
    (p sent : ProtocolPacket) (confirmed : option ProtocolPacket) (st : Sender) :
  session_observer_ (handler st) = Some so ->
  fst (PairFromKey so key) ∉ ready_to_close_connections_ st ->
  fst (PairFromKey so other) = fst (PairFromKey so key) ->
  sessions_last_message_id_ st !! session_id p = None ->
  frame_type p = FRAME_TYPE_SINGLE ->
  session_id sent = session_id p ->
  message_id sent = message_id p ->
  frame_type sent = frame_type p ->
  ProtocolVersionUsed so (fst (PairFromKey so key)) (session_id p) = Some version ->
  let c := fst (PairFromKey so key) in
  let s := session_id p in
  let st1 := Handle_ToMobile {| frame := p; is_final := true |} st in
  let st2 := OnTMMessageSend so key (Some sent) st1 in
  let st3 := OnTMMessageSend so other confirmed st2 in
  posted_since (handler st) (handler st2) =
    [{| connection_id := c; protocol_version := version; protection_flag := false;
        frame_type := FRAME_TYPE_CONTROL; service_type := SERVICE_TYPE_RPC;
        frame_data := FRAME_DATA_END_SERVICE; session_id := s;
        message_id := counter_value s (handler st); data := [] |}]
  /\ ready_to_close_connections_ st2 = ready_to_close_connections_ st ++ [c]
  /\ sessions_last_message_id_ st2 !! s = None
  /\ transport_calls st3 = transport_calls st2 ++ [Disconnect c]
  /\ ready_to_close_connections_ st3 = ready_to_close_connections_ st
  /\ handler st3 = handler st2.
Proof.
  intros Hso Hready Hother Hlast Hsingle Hs Hid Hft Hv c s st1 st2 st3.
  assert (H1 : handler st1 = handler st
               /\ sessions_last_message_id_ st1
                  = <[s := message_id p]> (sessions_last_message_id_ st)
               /\ ready_to_close_connections_ st1 = ready_to_close_connections_ st).
  { unfold st1, Handle_ToMobile. cbn [is_final frame]. rewrite Hlast.
    match goal with |- context [SendFrame p ?x] =>
      destruct (SendFrame_frame p x) as (E1 & E2 & E3) end.
    rewrite E1, E2, E3. repeat split. }
  destruct H1 as (Hh1 & Hl1 & Hr1).
  assert (H2 : handler st2 = SendEndSession c s (handler st)
               /\ sessions_last_message_id_ st2 = delete s (sessions_last_message_id_ st1)
               /\ ready_to_close_connections_ st2 = ready_to_close_connections_ st ++ [c]
               /\ transport_calls st2
                  = transport_calls st1 ++ [OnMobileMessageSent key]).
  { unfold st2, OnTMMessageSend. fold c.
    destruct (PairFromKey so key) as [c0 s0] eqn:Ep. cbn [fst] in c. subst c.
    rewrite Hr1. rewrite bool_decide_eq_false_2 by (cbn [fst] in Hready; exact Hready).
    rewrite Hs. fold s. rewrite Hl1, lookup_insert_eq.
    rewrite Hid, Z.eqb_refl, Hft, Hsingle. cbn [andb orb Z.eqb FRAME_TYPE_SINGLE Pos.eqb].
    cbn [handler with_handler with_ready_to_close_connections
         with_sessions_last_message_id transport_call sessions_last_message_id_
         ready_to_close_connections_ transport_calls].
    rewrite ?Hh1, ?Hr1, ?Hl1. repeat split. }
  destruct H2 as (Hh2 & Hl2 & Hr2 & Ht2).
  split; [|split; [exact Hr2|split]].
  - apply posted_since_app. rewrite Hh2.
    unfold SendEndSession, SendEndServicePrivate. rewrite Hso. fold c in Hv.
    unfold s. rewrite Hv.
    unfold post_control, counter_next. cbn [fst snd].
    rewrite posted_PostMessage. reflexivity.
  - rewrite Hl2. apply lookup_delete_eq.
  - unfold st3, OnTMMessageSend.
    destruct (PairFromKey so other) as [c1 s1] eqn:Ep. cbn [fst] in Hother.
    fold c in Hother. subst c1.
    rewrite Hr2.
    rewrite bool_decide_eq_true_2 by (apply elem_of_app; right; left).
    cbn [transport_calls transport_call with_ready_to_close_connections
         ready_to_close_connections_ handler].
    rewrite (erase_first_app_last c _ Hready). repeat split.
Qed.

(** The final frame of session 1 goes out through connection 7, its
    sending is confirmed, and so is that of the frame sent next. *)
Lemma final_frame_closes_connection_witness :
  let st2 := OnTMMessageSend example_observer 1793 (Some last_frame)
               (Handle_ToMobile {| frame := last_frame; is_final := true |}
                  example_sender) in
  map frame_data (posted_since example_handler (handler st2)) = [FRAME_DATA_END_SERVICE]
  /\ ready_to_close_connections_ st2 = [7]
  /\ transport_calls (OnTMMessageSend example_observer 1793 None st2)
     = transport_calls st2 ++ [Disconnect 7].
Proof.
  intros st2.
  destruct (final_frame_closes_connection example_observer 1793 1793 3 last_frame
              last_frame None example_sender)
    as (H1 & H2 & _ & H4 & _).
  - reflexivity.
  - cbn. apply not_elem_of_nil.
  - reflexivity.
  - reflexivity.
  - reflexivity.
  - reflexivity.
  - reflexivity.
  - reflexivity.
  - reflexivity.
  - split; [|split].
    + change (handler example_sender) with example_handler in H1.
      fold st2 in H1. rewrite H1. reflexivity.
    + exact H2.
    + exact H4.
Defined.


(** * Further properties of the application manager *)

(** ** Levels of single applications *)

Lemma level_of_levels id am :
  level_of id (levels am) = hmi_level <$> application id am.
Proof.
  unfold levels, application.
  induction (applications_ am) as [|a l IH]; [reflexivity|].
  cbn. destruct (app_id a =? id); [reflexivity | exact IH].
Qed.

Lemma level_of_relevel_other id id' x L :
  id' <> id -> level_of id (relevel id' x L) = level_of id L.
Proof.
  intros Hne. induction L as [|[i y] L IH]; [reflexivity|].
  cbn. destruct (i =? id') eqn:E.
  - apply Z.eqb_eq in E. subst i. cbn.
    replace (id' =? id) with false by (symmetry; apply Z.eqb_neq; exact Hne).
    reflexivity.
  - cbn. destruct (i =? id); [reflexivity | exact IH].
Qed.

Lemma level_of_relevel_same id x L :
  is_Some (level_of id L) -> level_of id (relevel id x L) = Some x.
Proof.
  induction L as [|[i y] L IH]; intros [z Hz]; [discriminate|].
  cbn in *. destruct (i =? id) eqn:E.
  - cbn. rewrite E. reflexivity.
  - cbn. rewrite E. apply IH. eexists. exact Hz.
Qed.

Lemma level_of_is_Some id L : In id (map fst L) -> is_Some (level_of id L).
Proof.
  induction L as [|[i y] L IH]; intros Hin; [destruct Hin|].
  cbn. destruct (i =? id) eqn:E; [eexists; reflexivity|].
  apply IH. destruct Hin as [H|H]; [|exact H].
  cbn in H. apply Z.eqb_neq in E. contradiction.
Qed.

Lemma level_of_same_ids id L L' :
  map fst L' = map fst L -> is_Some (level_of id L) -> is_Some (level_of id L').
Proof.
  revert L'. induction L as [|[i y] L IH]; intros [|[i' y'] L'] Hm Hs;
    try discriminate; [exact Hs|].
  cbn in *. injection Hm as -> Hm.
  destruct (i =? id); [eexists; reflexivity|]. apply IH; assumption.
Qed.

(** The only entry in Full is the first one in Full. *)
Lemma first_full_of_level id L :
  (nfull L <= 1)%nat -> level_of id L = Some HMILevel.HMI_FULL -> first_full L = Some id.
Proof.
  induction L as [|[i y] L IH]; intros Hn Hl; [discriminate|].
  cbn in *. destruct (i =? id) eqn:E.
  - injection Hl as ->. apply Z.eqb_eq in E. subst i. reflexivity.
  - destruct (bool_decide (y = HMILevel.HMI_FULL)) eqn:Ey.
    + exfalso. assert (nfull L = O) by lia.
      clear IH Hn. induction L as [|[j z] L IHL]; [discriminate|].
      cbn in *. destruct (j =? id).
      * injection Hl as ->. rewrite bool_decide_eq_true_2 in H by reflexivity. lia.
      * destruct (bool_decide (z = HMILevel.HMI_FULL)); [lia|]. apply IHL; assumption.
    + apply IH; [lia | exact Hl].
Qed.

Lemma Find_Some_pred (pred : Application -> bool) l a :
  Find pred l = Some a -> In a l /\ pred a = true.
Proof.
  induction l as [|b l IH]; [discriminate|]. cbn.
  destruct (pred b) eqn:E.
  - intros [= <-]. split; [left; reflexivity | exact E].
  - intros H. destruct (IH H) as [H1 H2]. split; [right; exact H1 | exact H2].
Qed.

(** In the set an id designates one application. *)
Lemma application_unique id am app a :
  ordered am -> application id am = Some app -> In a (applications_ am) ->
  app_id a = id -> a = app.
Proof.
  unfold ordered, application. induction (applications_ am) as [|b l IH];
    intros Hord Hf Hin Hid; [destruct Hin|].
  cbn in Hf. destruct (app_id b =? id) eqn:E.
  - injection Hf as <-. destruct Hin as [->|Hin]; [reflexivity|].
    exfalso. apply Z.eqb_eq in E. cbn in Hord.
    apply (in_map app_id) in Hin. rewrite Hid, <- E in Hin.
    pose proof (increasing_from_lt _ _ _ Hord Hin). lia.
  - destruct Hin as [->|Hin].
    + apply Z.eqb_neq in E. contradiction.
    + apply IH; try assumption. apply (increasing_tail _ _ Hord).
Qed.

(** An application found by a predicate on the level is not the
    application [id] when that one is at another level. *)
Lemma found_at_level_other (pred : Application -> bool) x id am app found :
  ordered am -> application id am = Some app ->
  Find pred (applications_ am) = Some found ->
  (forall a, pred a = true -> hmi_level a = x) ->
  hmi_level app <> x -> app_id found <> id.
Proof.
  intros Hord Ha Hf Hp Hx Hid. destruct (Find_Some_pred _ _ _ Hf) as [Hin Hpred].
  pose proof (application_unique id am app found Hord Ha Hin Hid). subst found.
  apply Hx, Hp, Hpred.
Qed.

Lemma LimitedAppPredicate_level a :
  LimitedAppPredicate a = true -> hmi_level a = HMILevel.HMI_LIMITED.
Proof.
  unfold LimitedAppPredicate, is_level. intros H. apply bool_decide_eq_true in H. exact H.
Qed.

Lemma LimitedNaviAppPredicate_level a :
  LimitedNaviAppPredicate a = true -> hmi_level a = HMILevel.HMI_LIMITED.
Proof.
  unfold LimitedNaviAppPredicate, is_level. intros H. apply andb_true_iff in H.
  destruct H as [_ H]. apply bool_decide_eq_true in H. exact H.
Qed.

Lemma LimitedVoiceAppPredicate_level a :
  LimitedVoiceAppPredicate a = true -> hmi_level a = HMILevel.HMI_LIMITED.
Proof.
  unfold LimitedVoiceAppPredicate, is_level. intros H. apply andb_true_iff in H.
  destruct H as [_ H]. apply bool_decide_eq_true in H. exact H.
Qed.

Lemma ActiveAppPredicate_level a :
  ActiveAppPredicate a = true -> hmi_level a = HMILevel.HMI_FULL.
Proof.
  unfold ActiveAppPredicate, IsFullscreen, is_level. intros H.
  apply bool_decide_eq_true in H. exact H.
Qed.

Lemma same_level_refl id am : same_level id am am.
Proof. split; reflexivity. Qed.

Lemma same_level_trans id am1 am2 am3 :
  same_level id am1 am2 -> same_level id am2 am3 -> same_level id am1 am3.
Proof. intros [H1 H2] [H3 H4]. split; congruence. Qed.

Lemma same_level_levels id am am' : levels am' = levels am -> same_level id am am'.
Proof. intros H. unfold same_level. rewrite H. split; reflexivity. Qed.

Lemma same_level_relevel id id' x am am' :
  id' <> id -> levels am' = relevel id' x (levels am) -> same_level id am am'.
Proof.
  intros Hne H. unfold same_level. rewrite H. split.
  - apply map_fst_relevel.
  - apply level_of_relevel_other. exact Hne.
Qed.

Lemma same_level_notify id id' am am' :
  same_level id am am' -> same_level id am (notify_hmi_status id' am').
Proof. unfold same_level. rewrite levels_notify_hmi_status. auto. Qed.

Lemma same_level_MakeAppNotAudible id id' am :
  id' <> id -> same_level id am (MakeAppNotAudible id' am).
Proof.
  intros H. apply (same_level_relevel id id' HMILevel.HMI_BACKGROUND); [exact H|].
  apply levels_MakeAppNotAudible.
Qed.

Lemma same_level_ChangeAppsHMILevel id id' x am :
  id' <> id -> same_level id am (ChangeAppsHMILevel id' x am).
Proof.
  intros H. apply (same_level_relevel id id' x); [exact H|].
  apply levels_ChangeAppsHMILevel.
Qed.

Lemma same_level_DeactivateApplication id app am :
  app_id app <> id -> same_level id am (DeactivateApplication app am).
Proof.
  intros H. destruct (levels_DeactivateApplication app am) as (x & _ & Hl).
  apply (same_level_relevel _ _ _ _ _ H Hl).
Qed.

(** ** Activation *)

(** The stages of [ActivateApplication] after the application in Full
    left it: what happens to the applications in Limited. *)
Lemma ActivateApplication_limited_stages id app limited_media limited_voice limited_navi
    am2 :
  (forall l, limited_media = Some l -> app_id l <> id) ->
  (forall l, limited_voice = Some l -> app_id l <> id) ->
  (forall l, limited_navi = Some l -> app_id l <> id) ->
  let am3 := if is_media_application app then
               match limited_media with
               | Some limited =>
                   if negb (is_navi limited)
                   then notify_hmi_status (app_id limited)
                          (MakeAppNotAudible (app_id limited) am2)
                   else notify_hmi_status id
                          (modify id (set_audio_streaming_state
                                        AudioStreamingState.ATTENUATED) am2)
               | None => am2
               end
             else am2 in
  let am4 := match limited_voice with
             | Some limited =>
                 if is_voice_communication_supported app then
                   notify_hmi_status (app_id limited)
                     (ChangeAppsHMILevel (app_id limited) HMILevel.HMI_BACKGROUND
                        (if is_media_application limited
                         then MakeAppNotAudible (app_id limited) am3 else am3))
                 else am3
             | None => am3
             end in
  let am5 := match limited_navi with
             | Some limited =>
                 if is_navi app then
                   notify_hmi_status (app_id limited)
                     (ChangeAppsHMILevel (app_id limited) HMILevel.HMI_BACKGROUND
                        (if is_media_application limited
                         then MakeAppNotAudible (app_id limited) am4 else am4))
                 else am4
             | None => am4
             end in
  same_level id am2 am5.
Proof.
  intros Hm Hv Hn am3 am4 am5.
  assert (H3 : same_level id am2 am3).
  { unfold am3. destruct (is_media_application app); [|apply same_level_refl].
    destruct limited_media as [limited|]; [|apply same_level_refl].
    destruct (negb (is_navi limited)).
    - apply same_level_notify, same_level_MakeAppNotAudible, (Hm limited eq_refl).
    - apply same_level_notify, same_level_levels. keep_level. }
  assert (H4 : same_level id am3 am4).
  { unfold am4. destruct limited_voice as [limited|]; [|apply same_level_refl].
    destruct (is_voice_communication_supported app); [|apply same_level_refl].
    pose proof (Hv limited eq_refl) as Hne.
    apply same_level_notify.
    apply (same_level_trans _ _ (if is_media_application limited
                                 then MakeAppNotAudible (app_id limited) am3 else am3)).
    - destruct (is_media_application limited);
        [apply same_level_MakeAppNotAudible, Hne | apply same_level_refl].
    - apply same_level_ChangeAppsHMILevel, Hne. }
  assert (H5 : same_level id am4 am5).
  { unfold am5. destruct limited_navi as [limited|]; [|apply same_level_refl].
    destruct (is_navi app); [|apply same_level_refl].
    pose proof (Hn limited eq_refl) as Hne.
    apply same_level_notify.
    apply (same_level_trans _ _ (if is_media_application limited
                                 then MakeAppNotAudible (app_id limited) am4 else am4)).
    - destruct (is_media_application limited);
        [apply same_level_MakeAppNotAudible, Hne | apply same_level_refl].
    - apply same_level_ChangeAppsHMILevel, Hne. }
  exact (same_level_trans _ _ _ _ (same_level_trans _ _ _ _ H3 H4) H5).
Qed.

(** X13.  Activating a registered application that is neither in Full nor
    in Limited succeeds and puts it in Full.  The same applications are
    registered as before, and there are no more applications in Full
    than before, or one when there was none: the application that was
    active leaves Full first.  So when at most one application was in
    Full before, the activated application is afterwards the only one in
    Full and the active application; when several were, which
    registration by policy default allows, all but the one that was
    active stay in Full beside it. *)
Theorem activation_makes_the_application_active (id : Z) (app : Application)
    (am : ApplicationManagerImpl) :
  ordered am ->
  application id am = Some app ->
  hmi_level app <> HMILevel.HMI_FULL ->
  hmi_level app <> HMILevel.HMI_LIMITED ->
  let r := ActivateApplication id am in
  fst r = true
  /\ (hmi_level <$> application id (snd r)) = Some HMILevel.HMI_FULL
  /\ map app_id (applications_ (snd r)) = map app_id (applications_ am)
  /\ (count_full (applications_ (snd r))
      <= Nat.max 1 (count_full (applications_ am)))%nat
  /\ (at_most_one_full am ->
      at_most_one_full (snd r)
      /\ exists app', active_application (snd r) = Some app' /\ app_id app' = id).
Proof.
  intros Hord Ha Hfull Hlim r.
  destruct (ActivateApplication_count id am Hord) as [Hids Hn].
  fold r in Hids, Hn.
  assert (Hr : fst r = true
               /\ level_of id (levels (snd r)) = Some HMILevel.HMI_FULL).
  { unfold r, ActivateApplication. rewrite Ha.
    unfold IsFullscreen, is_level.
    rewrite bool_decide_eq_false_2 by exact Hfull.
    rewrite bool_decide_eq_false_2 by exact Hlim.
    cbn [negb andb]. cbn zeta.
    set (am0 := if has_been_activated app then emit (SendAppDataToHMI id) am else am).
    assert (Happs : applications_ am0 = applications_ am)
      by (unfold am0; destruct (has_been_activated app); reflexivity).
    assert (Hord0 : ordered am0) by (unfold ordered; rewrite Happs; exact Hord).
    assert (Ha0 : application id am0 = Some app)
      by (unfold application; rewrite Happs; exact Ha).
    set (am1 := match active_application am0 with
                | Some current =>
                    if is_media_application app && is_media_application current
                    then notify_hmi_status (app_id current)
                           (MakeAppNotAudible (app_id current) am0)
                    else DeactivateApplication current am0
                | None => am0
                end).
    assert (H1 : same_level id am0 am1).
    { unfold am1. destruct (active_application am0) as [current|] eqn:Ec;
        [|apply same_level_refl].
      assert (Hne : app_id current <> id).
      { apply (found_at_level_other ActiveAppPredicate HMILevel.HMI_FULL id am0 app);
          try assumption. apply ActiveAppPredicate_level. }
      destruct (is_media_application app && is_media_application current).
      - apply same_level_notify, same_level_MakeAppNotAudible, Hne.
      - apply same_level_DeactivateApplication, Hne. }
    set (am2 := snd (MakeAppFullScreen id am1)).
    assert (H2 : level_of id (levels am2) = Some HMILevel.HMI_FULL).
    { unfold am2. rewrite levels_MakeAppFullScreen. apply level_of_relevel_same.
      destruct H1 as [_ H1]. rewrite H1, level_of_levels, Ha0. eexists; reflexivity. }
    split; [reflexivity|]. cbn [snd].
    match goal with
    | |- level_of id (levels ?x) = _ =>
        assert (H5 : same_level id am2 x)
    end.
    { apply (ActivateApplication_limited_stages id app).
      - intros l Hl. apply (found_at_level_other LimitedAppPredicate HMILevel.HMI_LIMITED
                              id am0 app l); try assumption.
        apply LimitedAppPredicate_level.
      - intros l Hl. apply (found_at_level_other LimitedVoiceAppPredicate
                              HMILevel.HMI_LIMITED id am0 app l); try assumption.
        apply LimitedVoiceAppPredicate_level.
      - intros l Hl. apply (found_at_level_other LimitedNaviAppPredicate
                              HMILevel.HMI_LIMITED id am0 app l); try assumption.
        apply LimitedNaviAppPredicate_level. }
    destruct H5 as [_ H5]. rewrite H5. exact H2. }
  destruct Hr as [Hr1 Hr2].
  split; [exact Hr1|]. split; [|split; [|split]].
  - rewrite <- level_of_levels. exact Hr2.
  - rewrite !map_app_id_levels. exact Hids.
  - rewrite !count_full_levels. exact Hn.
  - intros Hone. unfold at_most_one_full in *. rewrite count_full_levels in *.
    assert (Hn1 : (nfull (levels (snd r)) <= 1)%nat) by lia.
    split; [exact Hn1|].
    pose proof (first_full_of_level id _ Hn1 Hr2) as Hff.
    rewrite first_full_active in Hff.
    destruct (active_application (snd r)) as [app'|]; [|discriminate].
    injection Hff as Hid. exists app'. auto.
Qed.

(** Application 1 of two applications in None is activated; and of three
    applications, two of them in Full by the default of the policy, the
    third is activated. *)
Lemma activation_makes_the_application_active_witness :
  (exists app', active_application (snd (ActivateApplication 1 two_apps)) = Some app'
                /\ app_id app' = 1)
  /\ (hmi_level <$> application 3 (snd (ActivateApplication 3 two_full_and_one)))
     = Some HMILevel.HMI_FULL.
Proof.
  split.
  - destruct (activation_makes_the_application_active 1
                (configure 10 4711 3 0 0 HMILevel.HMI_NONE
                   (ApplicationImpl_new 1 "app1" "app1")) two_apps)
      as (_ & _ & _ & _ & H).
    + vm_compute. split; [reflexivity | exact I].
    + vm_compute. reflexivity.
    + discriminate.
    + discriminate.
    + apply H. unfold at_most_one_full. vm_compute. lia.
  - destruct (activation_makes_the_application_active 3
                (configure 20 4711 3 0 0 HMILevel.HMI_NONE
                   (ApplicationImpl_new 3 "app3" "app3")) two_full_and_one)
      as (_ & H & _).
    + vm_compute. repeat split; reflexivity.
    + vm_compute. reflexivity.
    + discriminate.
    + discriminate.
    + exact H.
Defined.

Lemma demotes_ids am am' : demotes am am' -> map fst (levels am') = map fst (levels am).
Proof. intros [H _]. exact H. Qed.

(** X14.  When the application to activate is itself the navigation
    application in Limited, [ActivateApplication] reports success and
    leaves it in Background: the step that moves the navigation
    application found in Limited to Background runs after the one that
    made the application Full, and finds the same application. *)
Theorem activation_of_the_limited_navigation_application (id : Z) (app : Application)
    (am : ApplicationManagerImpl) :
  ordered am ->
  application id am = Some app ->
  get_limited_navi_application am = Some app ->
  let r := ActivateApplication id am in
  fst r = true /\ level_of id (levels (snd r)) = Some HMILevel.HMI_BACKGROUND.
Proof.
  intros Hord Ha Hnavi r.
  destruct (Find_Some_pred _ _ _ Hnavi) as [Hin Hpred].
  destruct (Find_id_Some id _ _ Ha) as [Hid _].
  pose proof (LimitedNaviAppPredicate_level app Hpred) as Hlevel.
  assert (Hisnavi : is_navi app = true).
  { unfold LimitedNaviAppPredicate in Hpred. apply andb_true_iff in Hpred. apply Hpred. }
  unfold r, ActivateApplication. rewrite Ha.
  unfold IsFullscreen, is_level. rewrite Hlevel.
  rewrite bool_decide_eq_false_2 by discriminate.
  rewrite bool_decide_eq_true_2 by reflexivity.
  cbn [negb andb]. cbn zeta. rewrite Hnavi, Hisnavi.
  split; [reflexivity|]. cbn [snd].
  set (am1 := match active_application am with
              | Some current =>
                  if is_media_application app && is_media_application current
                  then notify_hmi_status (app_id current)
                         (MakeAppNotAudible (app_id current) am)
                  else DeactivateApplication current am
              | None => am
              end).
  assert (H1 : map fst (levels am1) = map fst (levels am)).
  { unfold am1. destruct (active_application am) as [current|]; [|reflexivity].
    destruct (is_media_application app && is_media_application current).
    - apply demotes_ids, demotes_notify, demotes_MakeAppNotAudible.
    - apply demotes_ids, demotes_DeactivateApplication. }
  set (am2 := snd (MakeAppFullScreen id am1)).
  assert (H2 : map fst (levels am2) = map fst (levels am)).
  { unfold am2. rewrite levels_MakeAppFullScreen, map_fst_relevel. exact H1. }
  clearbody am2. clear am1 H1.
  set (am3 := if is_media_application app then
                match get_limited_media_application am with
                | Some limited =>
                    if negb (is_navi limited)
                    then notify_hmi_status (app_id limited)
                           (MakeAppNotAudible (app_id limited) am2)
                    else notify_hmi_status id
                           (modify id (set_audio_streaming_state
                                         AudioStreamingState.ATTENUATED) am2)
                | None => am2
                end
              else am2).
  assert (H3 : map fst (levels am3) = map fst (levels am)).
  { rewrite <- H2. unfold am3. destruct (is_media_application app); [|reflexivity].
    destruct (get_limited_media_application am) as [limited|]; [|reflexivity].
    destruct (negb (is_navi limited)).
    - apply demotes_ids, demotes_notify, demotes_MakeAppNotAudible.
    - apply demotes_ids, demotes_notify, demotes_levels. keep_level. }
  clearbody am3. clear am2 H2.
  set (am4 := match get_limited_voice_application am with
              | Some limited =>
                  if is_voice_communication_supported app then
                    notify_hmi_status (app_id limited)
                      (ChangeAppsHMILevel (app_id limited) HMILevel.HMI_BACKGROUND
                         (if is_media_application limited
                          then MakeAppNotAudible (app_id limited) am3 else am3))
                  else am3
              | None => am3
              end).
  assert (H4 : map fst (levels am4) = map fst (levels am)).
  { rewrite <- H3. unfold am4.
    destruct (get_limited_voice_application am) as [limited|]; [|reflexivity].
    destruct (is_voice_communication_supported app); [|reflexivity].
    apply demotes_ids, demotes_notify.
    apply (demotes_trans _ (if is_media_application limited
                            then MakeAppNotAudible (app_id limited) am3 else am3)).
    - destruct (is_media_application limited);
        [apply demotes_MakeAppNotAudible | apply demotes_refl].
    - apply demotes_to_background. }
  clearbody am4. clear am3 H3.
  rewrite levels_notify_hmi_status, levels_ChangeAppsHMILevel, Hid.
  apply level_of_relevel_same.
  assert (Hpresent : is_Some (level_of id (levels am)))
    by (rewrite level_of_levels, Ha; eexists; reflexivity).
  destruct (is_media_application app).
  - rewrite levels_MakeAppNotAudible.
    apply (level_of_same_ids id (levels am)); [|exact Hpresent].
    rewrite map_fst_relevel. exact H4.
  - apply (level_of_same_ids id (levels am)); [exact H4 | exact Hpresent].
Qed.

Lemma activation_of_the_limited_navigation_application_witness :
  fst (ActivateApplication 5 limited_navi_manager) = true
  /\ level_of 5 (levels (snd (ActivateApplication 5 limited_navi_manager)))
     = Some HMILevel.HMI_BACKGROUND.
Proof.
  apply (activation_of_the_limited_navigation_application 5
           (set_hmi_level HMILevel.HMI_LIMITED navi_app) limited_navi_manager).
  - exact I.
  - reflexivity.
  - reflexivity.
Defined.

(** ** Unregistration *)

Lemma Find_id_Erase_other id id' l :
  id' <> id ->
  Find (fun a => app_id a =? id') (Erase id l) = Find (fun a => app_id a =? id') l.
Proof.
  intros Hne. induction l as [|b l IH]; [reflexivity|].
  cbn. destruct (app_id b =? id) eqn:E.
  - apply Z.eqb_eq in E.
    replace (app_id b =? id') with false by (symmetry; apply Z.eqb_neq; congruence).
    reflexivity.
  - cbn. destruct (app_id b =? id'); [reflexivity | exact IH].
Qed.

(** X15.  [UnregisterApplication] removes the application it is called
    for and no other: afterwards that application is not found, and every
    other id finds what it found before.  Mobile is notified in any case;
    when no application has the id, nothing else happens. *)
Theorem unregistration_removes_that_application_only (env : Collaborators) (id : Z)
    (reason : Result.eType) (resuming unexpected : bool) (am : ApplicationManagerImpl) :
  ordered am ->
  let am' := UnregisterApplication env id reason resuming unexpected am in
  application id am' = None
  /\ (forall id', id' <> id -> application id' am' = application id' am)
  /\ (application id am = None ->
      am' = emit (SendOnAppInterfaceUnregisteredNotificationToMobile id
                    (unregister_reason_ am)) am).
Proof.
  intros Hord am'. split; [|split].
  - apply UnregisterApplication_gone. exact Hord.
  - intros id' Hne. unfold am', application.
    rewrite UnregisterApplication_applications. apply Find_id_Erase_other. exact Hne.
  - intros Hnone. unfold am', UnregisterApplication.
    assert (He : forall e, application id (emit e am) = application id am)
      by reflexivity.
    destruct reason; cbn zeta; rewrite ?He, ?Hnone; cbn iota; rewrite ?He, ?Hnone;
      reflexivity.
Qed.

Lemma unregistration_removes_that_application_only_witness :
  application 1 (UnregisterApplication example_env 1 Result.SUCCESS false false two_apps)
  = None
  /\ application 2 (UnregisterApplication example_env 1 Result.SUCCESS false false two_apps)
     = application 2 two_apps.
Proof.
  destruct (unregistration_removes_that_application_only example_env 1 Result.SUCCESS
              false false two_apps) as (H1 & H2 & _).
  - vm_compute. split; [reflexivity | exact I].
  - split; [exact H1 | apply H2; discriminate].
Defined.

(** ** Commands from mobile *)

(** X16.  [ManageMobileCommand] refuses without any effect while the
    voltage is low.  A command that is neither the registration nor the
    unregistration of an application and comes from a connection key
    without a registered application is refused with the negative
    response APPLICATION_NOT_REGISTERED and is not shown to the request
    controller.  When the answer is true, the only effect was to run the
    command or to hand the request on. *)
Theorem command_admission (env : Collaborators) (message : MobileMessage)
    (am : ApplicationManagerImpl) :
  let r := ManageMobileCommand env (Some message) am in
  (is_low_voltage_ am = true -> r = (false, am))
  /\ (is_low_voltage_ am = false ->
      CreateCommand env message = true ->
      function_id message <> FunctionID.RegisterAppInterfaceID ->
      function_id message <> FunctionID.UnregisterAppInterfaceID ->
      protocol_type message = mobile_protocol_type_ ->
      application (connection_key message) am = None ->
      r = (false, emit (SendNegativeResponse (connection_key message)
                          (function_id message) (default 0 (correlation_id message))
                          Result.APPLICATION_NOT_REGISTERED) am))
  /\ (fst r = true ->
      snd r = emit (RunCommand message) am \/ snd r = emit (PerformRequest message) am).
Proof.
  intros r. unfold r, ManageMobileCommand. split; [|split].
  - intros ->. reflexivity.
  - intros -> -> Hreg Hunreg -> Hnone. cbn [negb].
    rewrite (bool_decide_eq_false_2 _ Hreg), (bool_decide_eq_false_2 _ Hunreg).
    rewrite Z.eqb_refl. cbn [negb andb]. rewrite Hnone. reflexivity.
  - destruct (is_low_voltage_ am); [discriminate|].
    destruct (negb (CreateCommand env message)); [discriminate|].
    match goal with |- context [if ?b && negb ?c then _ else _] => destruct (b && negb c) end;
      [discriminate|].
    destruct (message_type message); cbn [fst snd]; try discriminate; auto.
    destruct (addMobileRequest env message _); cbn [fst snd]; try discriminate; auto.
Qed.

(** A request of the connection key 9, which has no application. *)
Lemma command_admission_witness :
  let message :=
    {| function_id := FunctionID.OtherFunctionID 12; correlation_id := Some 5;
       connection_key := 9; protocol_type := mobile_protocol_type_;
       message_type := messageType.request; result_code := None |} in
  ManageMobileCommand example_env (Some message) two_apps
  = (false, emit (SendNegativeResponse 9 (FunctionID.OtherFunctionID 12) 5
                    Result.APPLICATION_NOT_REGISTERED) two_apps).
Proof.
  intros message.
  destruct (command_admission example_env message two_apps) as (_ & H & _).
  apply H; try reflexivity; discriminate.
Defined.

(** ** Registration *)

Lemma Find_id_Insert_other a l id' :
  id' <> app_id a ->
  Find (fun b => app_id b =? id') (Insert a l) = Find (fun b => app_id b =? id') l.
Proof.
  intros Hne. induction l as [|b l IH]; cbn.
  - replace (app_id a =? id') with false by (symmetry; apply Z.eqb_neq; congruence).
    reflexivity.
  - destruct (app_id a <? app_id b); cbn.
    + replace (app_id a =? id') with false by (symmetry; apply Z.eqb_neq; congruence).
      reflexivity.
    + destruct (app_id b <? app_id a); cbn; [|reflexivity].
      destruct (app_id b =? id'); [reflexivity | exact IH].
Qed.

(** [std::set::insert]: the element goes in when no element has its key,
    else the set stays as it is. *)
Lemma Find_id_Insert_same a l :
  increasing (map app_id l) ->
  Find (fun b => app_id b =? app_id a) (Insert a l)
  = match Find (fun b => app_id b =? app_id a) l with
    | Some old => Some old
    | None => Some a
    end.
Proof.
  induction l as [|b l IH]; intros Hord; cbn.
  - rewrite Z.eqb_refl. reflexivity.
  - destruct (app_id a <? app_id b) eqn:E1; cbn.
    + rewrite Z.eqb_refl. apply Z.ltb_lt in E1.
      replace (app_id b =? app_id a) with false by (symmetry; apply Z.eqb_neq; lia).
      rewrite Find_id_absent; [reflexivity|].
      intros Hin. cbn in Hord.
      pose proof (increasing_from_lt _ _ _ Hord Hin). lia.
    + destruct (app_id b <? app_id a) eqn:E2; cbn.
      * apply Z.ltb_lt in E2.
        replace (app_id b =? app_id a) with false by (symmetry; apply Z.eqb_neq; lia).
        apply IH. apply (increasing_tail _ _ Hord).
      * apply Z.ltb_ge in E1. apply Z.ltb_ge in E2.
        replace (app_id b =? app_id a) with true by (symmetry; apply Z.eqb_eq; lia).
        reflexivity.
Qed.

(** What [RegisterApplication] returns: nothing when applications are
    not allowed or the connection handler has no data on the session,
    else the new application with the data of the session and of the
    request. *)
Lemma RegisterApplication_result env request am :
  match fst (RegisterApplication env request am) with
  | None =>
      is_all_apps_allowed_ am = false
      \/ (connection_handler_ am = true
          /\ GetDataOnSessionKey env (rq_connection_key request) = None)
  | Some app =>
      is_all_apps_allowed_ am = true
      /\ (exists id device_id hmi_id,
            (if connection_handler_ am
             then GetDataOnSessionKey env (rq_connection_key request)
             else Some (0, 0)) = Some (id, device_id)
            /\ app = configure device_id hmi_id (rq_protocol_version request)
                       (rq_language_desired request)
                       (rq_hmi_display_language_desired request)
                       (GetDefaultHmiLevel env
                          (ApplicationImpl_new id (rq_app_id request)
                             (rq_app_name request)))
                       (ApplicationImpl_new id (rq_app_id request) (rq_app_name request)))
  end.
Proof.
  unfold RegisterApplication.
  destruct (is_all_apps_allowed_ am); cbn [negb]; [|left; reflexivity].
  destruct (connection_handler_ am).
  - destruct (GetDataOnSessionKey env (rq_connection_key request)) as [[id device_id]|];
      [|right; auto].
    cbn zeta.
    match goal with
    | |- context [Find ?p ?l] => destruct (Find p l)
    end; cbn [fst snd]; (split; [reflexivity|]); eexists _, _, _; split; reflexivity.
  - cbn zeta.
    match goal with
    | |- context [Find ?p ?l] => destruct (Find p l)
    end; cbn [fst snd]; (split; [reflexivity|]); eexists _, _, _; split; reflexivity.
Qed.

(** X17.  [RegisterApplication] returns no application, and leaves the
    set of applications as it is, exactly when applications are not
    allowed or the connection handler has no data on the session.
    Otherwise it returns an application with the id and the device of
    the session, the policy id and the name of the request, at the
    default level of the policy, and leaves the other applications as
    they are; the application is then found under its id unless another
    one was registered under that id, which stays in its place. *)
Theorem registration_outcome (env : Collaborators) (request : RegisterRequest)
    (am : ApplicationManagerImpl) :
  ordered am ->
  let r := RegisterApplication env request am in
  match fst r with
  | None =>
      applications_ (snd r) = applications_ am
      /\ (is_all_apps_allowed_ am = false
          \/ (connection_handler_ am = true
              /\ GetDataOnSessionKey env (rq_connection_key request) = None))
  | Some app =>
      is_all_apps_allowed_ am = true
      /\ mobile_app_id app = rq_app_id request
      /\ name app = rq_app_name request
      /\ hmi_level app = GetDefaultHmiLevel env app
      /\ application (app_id app) (snd r)
         = match application (app_id app) am with
           | Some old => Some old
           | None => Some app
           end
      /\ (forall id', id' <> app_id app -> application id' (snd r) = application id' am)
      /\ ordered (snd r)
      /\ (connection_handler_ am = true ->
          GetDataOnSessionKey env (rq_connection_key request)
          = Some (app_id app, device app))
  end.
Proof.
  intros Hord r.
  pose proof (RegisterApplication_result env request am) as Hres.
  pose proof (RegisterApplication_applications env request am) as Happs.
  fold r in Hres, Happs.
  destruct (fst r) as [app|].
  - destruct Hres as (Hallowed & id & device_id & hmi_id & Hsession & Happ).
    split; [exact Hallowed|].
    split; [rewrite Happ; reflexivity|].
    split; [rewrite Happ; reflexivity|].
    split; [rewrite Happ; reflexivity|].
    unfold application, ordered. rewrite Happs.
    split; [apply Find_id_Insert_same, Hord|].
    split; [intros id' Hne; apply Find_id_Insert_other, Hne|].
    split; [apply increasing_Insert, Hord|].
    intros Hch. rewrite Hch in Hsession. rewrite Hsession, Happ. reflexivity.
  - split; [exact Happs | exact Hres].
Qed.

(** The first registration, under session key 1. *)
Lemma registration_outcome_witness :
  exists app,
    fst (RegisterApplication example_env (registration 1 "app1") initial_manager) = Some app
    /\ application 1
         (snd (RegisterApplication example_env (registration 1 "app1") initial_manager))
       = Some app.
Proof.
  pose proof (registration_outcome example_env (registration 1 "app1") initial_manager I)
    as H.
  cbv zeta in H.
  destruct (fst (RegisterApplication example_env (registration 1 "app1") initial_manager))
    as [app|] eqn:E; [|discriminate E].
  exists app. split; [reflexivity|].
  destruct H as (_ & _ & _ & _ & H & _).
  assert (Hid : app_id app = 1) by (vm_compute in E; injection E as <-; reflexivity).
  rewrite Hid in H. exact H.
Defined.

(** ** Streaming of navigation applications *)

Lemma application_modify id f am :
  (forall a, app_id (f a) = app_id a) ->
  application id (modify id f am) = f <$> application id am.
Proof.
  intros Hf. unfold application, modify. cbn [applications_ with_applications].
  induction (applications_ am) as [|b l IH]; [reflexivity|].
  cbn. destruct (app_id b =? id) eqn:E.
  - cbn. rewrite Hf, E. reflexivity.
  - cbn. rewrite E. exact IH.
Qed.

Lemma application_modify_other id id' f am :
  id' <> id -> (forall a, app_id (f a) = app_id a) ->
  application id' (modify id f am) = application id' am.
Proof.
  intros Hne Hf. unfold application, modify. cbn [applications_ with_applications].
  induction (applications_ am) as [|b l IH]; [reflexivity|].
  cbn. destruct (app_id b =? id) eqn:E.
  - cbn. rewrite Hf. replace (app_id b =? id') with false by lia. reflexivity.
  - cbn. destruct (app_id b =? id'); [reflexivity | exact IH].
Qed.

(** X18.  The start of the audio or of the video service is accepted
    exactly when the media manager is there and the session key belongs
    to a registered navigation application in Full or in Limited.  The
    answer is also what the application may do from then on: a
    navigation application may stream after the call exactly when the
    start was accepted.  An accepted start marks the service in the
    status map as one whose end has not been acknowledged. *)
Theorem streaming_service_start (key : Z) (type : ServiceType)
    (am : ApplicationManagerImpl) :
  type = kAudio \/ type = kMobileNav ->
  let r := OnServiceStartedCallback key type am in
  (fst r = true <->
     media_manager_ am = true
     /\ exists app, application key am = Some app /\ is_navi app = true
                    /\ full_or_limited (hmi_level app) = true)
  /\ (forall app, application key am = Some app -> is_navi app = true ->
        CanAppStream key (snd r) = fst r)
  /\ (fst r = true -> service_status_ (snd r) !! type = Some (true, false)).
Proof.
  intros Htype r.
  assert (Hr : r = match application key am with
                   | None => (false, am)
                   | Some app =>
                       if is_navi app then
                         let '(result, am1) := ProcessNaviService type key am in
                         (result, modify key (set_streaming_allowed result) am1)
                       else (false, am)
                   end).
  { unfold r, OnServiceStartedCallback. destruct Htype as [-> | ->];
      destruct (application key am) as [app|]; reflexivity. }
  assert (Hp : ProcessNaviService type key am =
               if negb (media_manager_ am) then (false, am)
               else
                 let allowed := match application key am with
                                | Some app => full_or_limited (hmi_level app)
                                | None => false
                                end in
                 (allowed,
                  with_service_status (<[type := (allowed, false)]> (service_status_ am))
                    (if allowed
                     then emit (match type with
                                | kMobileNav => StartVideoStreaming key
                                | _ => StartAudioStreaming key
                                end) am
                     else am))).
  { unfold ProcessNaviService, IsAudioStreamingAllowed, IsVideoStreamingAllowed.
    destruct (media_manager_ am); cbn [negb]; [|reflexivity].
    destruct Htype as [-> | ->]; destruct (application key am) as [app|];
      try reflexivity; destruct (full_or_limited (hmi_level app)); reflexivity. }
  rewrite Hr. clear Hr.
  destruct (application key am) as [app|] eqn:Ea.
  2:{ cbn [fst snd]. split; [|split].
      - split; [discriminate|]. intros (_ & app & Habs & _). discriminate.
      - intros app Habs. discriminate.
      - discriminate. }
  destruct (is_navi app) eqn:En.
  2:{ cbn [fst snd]. split; [|split].
      - split; [discriminate|]. intros (_ & app' & [= <-] & Hn & _). congruence.
      - intros app' [= <-] Hn. congruence.
      - discriminate. }
  rewrite Hp. clear Hp.
  destruct (media_manager_ am); cbn [negb].
  - cbn zeta. cbn [fst snd]. split; [|split].
    + split.
      * intros H. split; [reflexivity|]. exists app. auto.
      * intros (_ & app' & [= <-] & _ & H). exact H.
    + intros app' [= <-] _. unfold CanAppStream.
      rewrite application_modify by reflexivity.
      destruct (full_or_limited (hmi_level app));
        match goal with |- context [application key ?x] =>
          change (application key x) with (application key am) end;
        rewrite Ea; cbn; rewrite En; reflexivity.
    + intros ->. cbn. rewrite lookup_insert_eq. reflexivity.
  - cbn [fst snd]. split; [|split].
    + split; [discriminate|]. intros [Habs _]. discriminate.
    + intros app' [= <-] _. unfold CanAppStream.
      rewrite application_modify by reflexivity. rewrite Ea. cbn. rewrite En. reflexivity.
    + discriminate.
Qed.

(** The navigation application in Full starts its audio service. *)
Lemma streaming_service_start_witness :
  fst (OnServiceStartedCallback 5 kAudio navi_manager) = true
  /\ CanAppStream 5 (snd (OnServiceStartedCallback 5 kAudio navi_manager)) = true.
Proof.
  destruct (streaming_service_start 5 kAudio navi_manager) as (H1 & H2 & _).
  - left. reflexivity.
  - assert (Hr : fst (OnServiceStartedCallback 5 kAudio navi_manager) = true).
    { apply H1. split; [reflexivity|]. exists navi_app. repeat split. }
    split; [exact Hr|]. rewrite (H2 navi_app eq_refl eq_refl). exact Hr.
Defined.

(** ** The end of streaming *)

Lemma NaviAppStreamStatus_frame b am :
  let am' := NaviAppStreamStatus b am in
  service_status_ am' = service_status_ am
  /\ media_manager_ am' = media_manager_ am
  /\ end_services_timer am' = end_services_timer am
  /\ navi_app_to_stop_ am' = navi_app_to_stop_ am
  /\ levels am' = levels am
  /\ exists rest, events am' = events am ++ rest.
Proof.
  unfold NaviAppStreamStatus. destruct (active_application am) as [a|].
  2:{ cbn zeta. repeat split. exists []. rewrite app_nil_r. reflexivity. }
  destruct (is_media_application a).
  2:{ cbn zeta. repeat split. exists []. rewrite app_nil_r. reflexivity. }
  cbn zeta. unfold notify_hmi_status.
  match goal with |- context [match ?x with Some _ => _ | None => _ end] =>
    destruct x end.
  - repeat split; try (cbn; reflexivity).
    + rewrite levels_emit. keep_level.
    + eexists. rewrite events_emit. reflexivity.
  - repeat split; try (cbn; reflexivity).
    + keep_level.
    + exists []. rewrite app_nil_r. reflexivity.
Qed.

Lemma ChangeStreamStatus_frame id b am :
  let am' := ChangeStreamStatus id b am in
  service_status_ am' = service_status_ am
  /\ media_manager_ am' = media_manager_ am
  /\ end_services_timer am' = end_services_timer am
  /\ navi_app_to_stop_ am' = navi_app_to_stop_ am
  /\ levels am' = levels am
  /\ exists rest, events am' = events am ++ rest.
Proof.
  unfold ChangeStreamStatus. destruct (application id am) as [a|].
  2:{ cbn zeta. repeat split. exists []. rewrite app_nil_r. reflexivity. }
  destruct (negb (Bool.eqb b (streaming a))).
  2:{ cbn zeta. repeat split. exists []. rewrite app_nil_r. reflexivity. }
  destruct (NaviAppStreamStatus_frame b am) as (H1 & H2 & H3 & H4 & H5 & H6).
  cbn zeta. repeat split; try assumption.
  rewrite <- H5. keep_level.
Qed.

Lemma OnServiceEndedCallback_media_spec key type am :
  media_manager_ am = true ->
  let am' := OnServiceEndedCallback_media key type am in
  service_status_ am'
  = <[type := (fst (default (false, false) (service_status_ am !! type)), true)]>
      (service_status_ am)
  /\ applications_ am' = applications_ am
  /\ media_manager_ am' = true
  /\ end_services_timer am' = end_services_timer am
  /\ navi_app_to_stop_ am' = navi_app_to_stop_ am.
Proof.
  intros Hm. unfold OnServiceEndedCallback_media. rewrite Hm.
  destruct type; repeat split; assumption.
Qed.

Lemma CloseNaviApp_cases env am :
  exists am1,
    applications_ am1 = applications_ am
    /\ CloseNaviApp env am
       = if flags_differ kAudio am || flags_differ kMobileNav am
         then UnregisterApplication env (navi_app_to_stop_ am) Result.ABORTED
                false false am1
         else am1.
Proof.
  unfold CloseNaviApp.
  destruct (AckReceived_spec kAudio am) as (Ha1 & Ha2 & _ & Ha4 & Ha5).
  destruct (AckReceived kAudio am) as [audio_ack am1]. cbn [fst snd] in *.
  destruct (AckReceived_spec kMobileNav am1) as (Hv1 & Hv2 & _ & Hv4 & _).
  assert (Hflag : flags_differ kMobileNav am1 = flags_differ kMobileNav am).
  { unfold flags_differ. rewrite Ha5 by discriminate. reflexivity. }
  rewrite Hflag in Hv1. subst audio_ack.
  destruct (flags_differ kAudio am); cbn [negb orb].
  - eexists. split; [|cbn [navi_app_to_stop_ with_unregister_reason]; rewrite Ha4; reflexivity].
    exact Ha2.
  - destruct (AckReceived kMobileNav am1) as [ack am2]. cbn [fst snd] in *. subst ack.
    destruct (flags_differ kMobileNav am); cbn [negb].
    + eexists. split; [|cbn [navi_app_to_stop_ with_unregister_reason];
                         rewrite Hv4, Ha4; reflexivity].
      cbn. congruence.
    + exists am2. split; [congruence | reflexivity].
Qed.

(** X19.  [ForbidStreaming] on a navigation application that supports
    both streaming services asks mobile to end the video and the audio
    service of the application in [navi_app_to_stop_] and arms the
    watchdog.  When both ends are acknowledged before the watchdog expires
    nothing is unregistered, whatever session the acknowledgements name;
    when the video acknowledgement or both are missing, the application
    in [navi_app_to_stop_] is unregistered. *)
Theorem streaming_teardown_handshake (env : Collaborators) (id : Z) (app : Application)
    (am : ApplicationManagerImpl) :
  ordered am ->
  application id am = Some app ->
  is_navi app = true ->
  hmi_supports_navi_video_streaming app = true ->
  hmi_supports_navi_audio_streaming app = true ->
  connection_handler_ am = true ->
  media_manager_ am = true ->
  let stop := navi_app_to_stop_ am in
  let am1 := ForbidStreaming id am in
  (exists rest,
     events am1 = events am ++ [SendEndServiceToMobile stop kMobileNav;
                                SendEndServiceToMobile stop kAudio] ++ rest)
  /\ end_services_timer am1 = Some cbCloseNaviApp
  /\ (forall k1 k2,
        applications_
          (OnEndServicesTimer env
             (OnServiceEndedCallback env k2 kMobileNav
                (OnServiceEndedCallback env k1 kAudio am1)))
        = applications_ am1)
  /\ (forall k1,
        application stop
          (OnEndServicesTimer env (OnServiceEndedCallback env k1 kAudio am1)) = None)
  /\ application stop (OnEndServicesTimer env am1) = None.
Proof.
  intros Hord Happ Hnavi Hvideo Haudio Hch Hmm stop am1.
  set (am0 := with_end_services_timer (Some cbCloseNaviApp)
                (with_service_status
                   (<[kAudio := (true, false)]>
                      (<[kMobileNav := (true, false)]> (service_status_ am)))
                   (emit (SendEndServiceToMobile stop kAudio)
                      (emit (SendEndServiceToMobile stop kMobileNav) am)))).
  assert (E1 : am1 = ChangeStreamStatus id false am0).
  { unfold am1, ForbidStreaming. rewrite Happ, Hnavi, Hch, Hvideo, Haudio. reflexivity. }
  destruct (ChangeStreamStatus_frame id false am0) as (Hs & Hm & Ht & Hn & Hl & rest & He).
  rewrite <- E1 in Hs, Hm, Ht, Hn, Hl, He.
  change (service_status_ am0)
    with (<[kAudio := (true, false)]>
            (<[kMobileNav := (true, false)]> (service_status_ am))) in Hs.
  change (media_manager_ am0) with (media_manager_ am) in Hm. rewrite Hmm in Hm.
  change (end_services_timer am0) with (Some cbCloseNaviApp) in Ht.
  change (navi_app_to_stop_ am0) with stop in Hn.
  change (levels am0) with (levels am) in Hl.
  assert (Hord1 : ordered am1).
  { unfold ordered. rewrite map_app_id_levels, Hl, <- map_app_id_levels. exact Hord. }
  assert (Htimer : forall x, end_services_timer x = Some cbCloseNaviApp ->
            OnEndServicesTimer env x = CloseNaviApp env (with_end_services_timer None x)).
  { intros x Hx. unfold OnEndServicesTimer. rewrite Hx. reflexivity. }
  assert (Hgone : forall x, applications_ x = applications_ am1 ->
            navi_app_to_stop_ x = stop ->
            (flags_differ kAudio x || flags_differ kMobileNav x) = true ->
            application stop (CloseNaviApp env x) = None).
  { intros x Hx Hnx Hf. destruct (CloseNaviApp_cases env x) as (x1 & Hx1 & ->).
    rewrite Hf, Hnx. apply UnregisterApplication_gone.
    unfold ordered. rewrite Hx1, Hx. exact Hord1. }
  split; [|split; [exact Ht|split; [|split]]].
  - exists rest. rewrite He. unfold am0. cbn [events with_end_services_timer
      with_service_status]. rewrite !events_emit, <- !app_assoc. reflexivity.
  - intros k1 k2.
    change (OnServiceEndedCallback env k1 kAudio am1)
      with (OnServiceEndedCallback_media k1 kAudio am1).
    destruct (OnServiceEndedCallback_media_spec k1 kAudio am1 Hm)
      as (Hs2 & Ha2 & Hm2 & Ht2 & Hn2).
    set (am2 := OnServiceEndedCallback_media k1 kAudio am1) in *.
    change (OnServiceEndedCallback env k2 kMobileNav am2)
      with (OnServiceEndedCallback_media k2 kMobileNav am2).
    destruct (OnServiceEndedCallback_media_spec k2 kMobileNav am2 Hm2)
      as (Hs3 & Ha3 & Hm3 & Ht3 & Hn3).
    set (am3 := OnServiceEndedCallback_media k2 kMobileNav am2) in *.
    rewrite Htimer by congruence.
    destruct (CloseNaviApp_cases env (with_end_services_timer None am3))
      as (x1 & Hx1 & ->).
    assert (Hf : flags_differ kAudio (with_end_services_timer None am3)
                 || flags_differ kMobileNav (with_end_services_timer None am3) = false).
    { unfold flags_differ. cbn [service_status_ with_end_services_timer].
      rewrite Hs3, Hs2, Hs.
      repeat (rewrite lookup_insert_eq || rewrite lookup_insert_ne by discriminate).
      reflexivity. }
    rewrite Hf, Hx1. cbn [applications_ with_end_services_timer]. congruence.
  - intros k1.
    change (OnServiceEndedCallback env k1 kAudio am1)
      with (OnServiceEndedCallback_media k1 kAudio am1).
    destruct (OnServiceEndedCallback_media_spec k1 kAudio am1 Hm)
      as (Hs2 & Ha2 & Hm2 & Ht2 & Hn2).
    set (am2 := OnServiceEndedCallback_media k1 kAudio am1) in *.
    rewrite Htimer by congruence.
    apply Hgone.
    + cbn [applications_ with_end_services_timer]. exact Ha2.
    + cbn [navi_app_to_stop_ with_end_services_timer]. congruence.
    + unfold flags_differ. cbn [service_status_ with_end_services_timer].
      rewrite Hs2, Hs.
      repeat (rewrite lookup_insert_eq || rewrite lookup_insert_ne by discriminate).
      reflexivity.
  - rewrite Htimer by exact Ht.
    apply Hgone.
    + reflexivity.
    + exact Hn.
    + unfold flags_differ. cbn [service_status_ with_end_services_timer].
      rewrite Hs. rewrite lookup_insert_eq. reflexivity.
Qed.

(** The navigation application is itself the one in [navi_app_to_stop_]. *)
Lemma streaming_teardown_handshake_witness :
  let am1 := ForbidStreaming 5 (with_navi_app_to_stop 5 navi_manager) in
  end_services_timer am1 = Some cbCloseNaviApp
  /\ application 5 (OnEndServicesTimer example_env am1) = None.
Proof.
  intros am1.
  destruct (streaming_teardown_handshake example_env 5 navi_app
              (with_navi_app_to_stop 5 navi_manager)
              I eq_refl eq_refl eq_refl eq_refl eq_refl eq_refl)
    as (_ & H2 & _ & _ & H5).
  split; [exact H2 | exact H5].
Defined.

(** X20.  The permission to stream follows the HMI level of a navigation
    application.  Moved from Full or Limited to Background it keeps the
    permission it had until the timer started by the move expires, then
    loses it, and stays registered in Background.  Moved from Full or
    Limited to None it loses the permission at once and the watchdog is
    armed.  Moved from Background or None to Full or Limited it gets the
    permission. *)
Theorem streaming_permission_follows_level (env : Collaborators) (id : Z)
    (app : Application) (am : ApplicationManagerImpl) :
  application id am = Some app ->
  is_navi app = true ->
  (full_or_limited (hmi_level app) = true ->
     let am1 := ChangeAppsHMILevel id HMILevel.HMI_BACKGROUND am in
     let am2 := OnEndServicesTimer env am1 in
     CanAppStream id am1 = is_streaming_allowed app
     /\ end_services_timer am1 = Some cbEndNaviServices
     /\ CanAppStream id am2 = false
     /\ (hmi_level <$> application id am2) = Some HMILevel.HMI_BACKGROUND)
  /\ (full_or_limited (hmi_level app) = true ->
        let am1 := ChangeAppsHMILevel id HMILevel.HMI_NONE am in
        CanAppStream id am1 = false
        /\ end_services_timer am1 = Some cbCloseNaviApp
        /\ navi_app_to_stop_ am1 = id)
  /\ (full_or_limited (hmi_level app) = false ->
        forall level, full_or_limited level = true ->
          CanAppStream id (ChangeAppsHMILevel id level am) = true).
Proof.
  intros Happ Hnavi.
  assert (Hset : forall level, application id (modify id (set_hmi_level level) am)
                               = Some (set_hmi_level level app)).
  { intros level. rewrite application_modify by reflexivity. rewrite Happ. reflexivity. }
  assert (Hchange : forall level, hmi_level app <> level ->
            ChangeAppsHMILevel id level am
            = if full_or_limited (hmi_level app)
              then NaviAppChangeLevel level
                     (with_navi_app_to_stop id (modify id (set_hmi_level level) am))
              else if full_or_limited level
                   then modify id (set_streaming_allowed true)
                          (modify id (set_hmi_level level) am)
                   else modify id (set_hmi_level level) am).
  { intros level Hne. unfold ChangeAppsHMILevel. rewrite Happ. cbn zeta.
    rewrite bool_decide_eq_false_2 by exact Hne.
    unfold OnHMILevelChanged. rewrite Hset.
    change (is_navi (set_hmi_level level app)) with (is_navi app). rewrite Hnavi.
    reflexivity. }
  split; [|split].
  - intros Hfl am1 am2.
    assert (E1 : am1 = with_end_services_timer (Some cbEndNaviServices)
                         (with_navi_app_to_stop id
                            (modify id (set_hmi_level HMILevel.HMI_BACKGROUND) am))).
    { unfold am1. rewrite Hchange, Hfl; [reflexivity|].
      intros E. rewrite E in Hfl. discriminate. }
    assert (Ha1 : application id am1 = Some (set_hmi_level HMILevel.HMI_BACKGROUND app)).
    { rewrite E1. exact (Hset HMILevel.HMI_BACKGROUND). }
    assert (E2 : am2 = modify id (set_streaming_allowed false)
                         (with_end_services_timer None am1)).
    { unfold am2, OnEndServicesTimer. rewrite E1 at 1.
      cbn [end_services_timer with_end_services_timer]. unfold EndNaviServices.
      replace (navi_app_to_stop_ (with_end_services_timer None am1)) with id
        by (rewrite E1; reflexivity).
      change (application id (with_end_services_timer None am1))
        with (application id am1).
      rewrite Ha1. reflexivity. }
    assert (Ha2 : application id am2
                  = Some (set_streaming_allowed false
                            (set_hmi_level HMILevel.HMI_BACKGROUND app))).
    { rewrite E2, application_modify by reflexivity.
      change (application id (with_end_services_timer None am1))
        with (application id am1).
      rewrite Ha1. reflexivity. }
    split; [|split; [|split]].
    + unfold CanAppStream. rewrite Ha1. cbn. rewrite Hnavi. reflexivity.
    + rewrite E1. reflexivity.
    + unfold CanAppStream. rewrite Ha2. cbn. rewrite Hnavi. reflexivity.
    + rewrite Ha2. reflexivity.
  - intros Hfl am1.
    assert (E1 : am1 = with_end_services_timer (Some cbCloseNaviApp)
                         (modify id (set_streaming_allowed false)
                            (with_navi_app_to_stop id
                               (modify id (set_hmi_level HMILevel.HMI_NONE) am)))).
    { unfold am1. rewrite Hchange, Hfl.
      - unfold NaviAppChangeLevel, EndNaviServices.
        cbn [navi_app_to_stop_ with_navi_app_to_stop].
        change (application id (with_navi_app_to_stop id ?x)) with (application id x).
        rewrite Hset. reflexivity.
      - intros E. rewrite E in Hfl. discriminate. }
    split; [|split].
    + unfold CanAppStream. rewrite E1.
      change (application id (with_end_services_timer ?t ?x)) with (application id x).
      rewrite application_modify by reflexivity.
      change (application id (with_navi_app_to_stop id ?x)) with (application id x).
      rewrite Hset. cbn. rewrite Hnavi. reflexivity.
    + rewrite E1. reflexivity.
    + rewrite E1. reflexivity.
  - intros Hfl level Hlevel.
    rewrite Hchange, Hfl, Hlevel.
    + unfold CanAppStream. rewrite application_modify by reflexivity.
      rewrite Hset. cbn. rewrite Hnavi. reflexivity.
    + intros E. rewrite E, Hlevel in Hfl. discriminate.
Qed.

(** The navigation application in Full is moved to Background. *)
Lemma streaming_permission_follows_level_witness :
  CanAppStream 5 (ChangeAppsHMILevel 5 HMILevel.HMI_BACKGROUND navi_manager) = true
  /\ CanAppStream 5
       (OnEndServicesTimer example_env
          (ChangeAppsHMILevel 5 HMILevel.HMI_BACKGROUND navi_manager)) = false.
Proof.
  destruct (streaming_permission_follows_level example_env 5 navi_app navi_manager
              eq_refl eq_refl) as (H1 & _ & _).
  destruct (H1 eq_refl) as (Ha & _ & Hb & _).
  split; [exact Ha | exact Hb].
Defined.

(** ** Unregistration of all applications *)

Lemma UnregisterAllApplications_loop_spec env b1 b2 (fuel : nat) :
  forall st : Shutdown,
    (length (applications_ (manager st)) <= fuel)%nat ->
    let st' := UnregisterAllApplications_loop fuel env b1 b2 st in
    applications_ (manager st') = []
    /\ hmi_cooperating_ st' = hmi_cooperating_ st
    /\ shutdown_calls st'
       = shutdown_calls st
         ++ map (fun a => CloseSession (app_id a)) (applications_ (manager st)).
Proof.
  induction fuel as [|fuel IH]; intros st Hlen.
  - destruct (applications_ (manager st)) eqn:E; [|cbn in Hlen; lia].
    cbn. rewrite E. cbn. rewrite app_nil_r. auto.
  - cbn [UnregisterAllApplications_loop].
    destruct (applications_ (manager st)) as [|a l] eqn:E.
    + cbn. rewrite E, app_nil_r. auto.
    + set (st1 := {| manager := _; hmi_cooperating_ := _; shutdown_calls := _ |}).
      assert (E1 : applications_ (manager st1) = l).
      { unfold st1. cbn [manager]. rewrite UnregisterApplication_applications, E.
        cbn. rewrite Z.eqb_refl. reflexivity. }
      destruct (IH st1) as (H1 & H2 & H3).
      { rewrite E1. cbn in Hlen. lia. }
      cbn zeta. split; [exact H1|]. split; [rewrite H2; reflexivity|].
      rewrite H3, E1. unfold st1. cbn [shutdown_calls map].
      rewrite <- app_assoc. reflexivity.
Qed.

(** X21.  [UnregisterAllApplications] needs as many turns of its loop as
    there are applications: then no application is left, the session of
    every application has been closed once, in the order of the set,
    resumption is suspended exactly for the reasons IGNITION_OFF and
    INVALID_ENUM, and the requests to HMI are terminated last. *)
Theorem unregister_all_applications (fuel : nat) (env : Collaborators) (st : Shutdown) :
  (length (applications_ (manager st)) <= fuel)%nat ->
  let st' := UnregisterAllApplications fuel env st in
  let reason := unregister_reason_ (manager st) in
  applications_ (manager st') = []
  /\ hmi_cooperating_ st' = false
  /\ shutdown_calls st'
     = shutdown_calls st
       ++ map (fun a => CloseSession (app_id a)) (applications_ (manager st))
       ++ (if bool_decide (reason = AppInterfaceUnregisteredReason.IGNITION_OFF
                           \/ reason = AppInterfaceUnregisteredReason.INVALID_ENUM)
           then [ResumeSuspend] else [])
       ++ [TerminateAllHMIRequests].
Proof.
  intros Hlen st' reason. unfold st', UnregisterAllApplications. cbn zeta.
  cbn [manager shutdown_calls].
  set (b1 := bool_decide _ || bool_decide _).
  set (b2 := _ && _).
  set (st0 := {| manager := manager st; hmi_cooperating_ := false;
                 shutdown_calls := shutdown_calls st |}).
  destruct (UnregisterAllApplications_loop_spec env b1 b2 fuel st0 Hlen)
    as (H1 & H2 & H3).
  assert (Hb : b1 = bool_decide (reason = AppInterfaceUnregisteredReason.IGNITION_OFF
                                 \/ reason = AppInterfaceUnregisteredReason.INVALID_ENUM)).
  { unfold b1. fold reason. destruct reason; reflexivity. }
  rewrite <- Hb.
  destruct b1; cbn [manager hmi_cooperating_ shutdown_calls].
  - rewrite H1, H2, H3. cbn [st0 manager hmi_cooperating_ shutdown_calls].
    rewrite <- !app_assoc. auto.
  - rewrite H1, H2, H3. cbn [st0 manager hmi_cooperating_ shutdown_calls].
    rewrite <- !app_assoc. auto.
Qed.

(** Two applications and two turns. *)
Lemma unregister_all_applications_witness :
  applications_
    (manager (UnregisterAllApplications 2 example_env
                {| manager := two_apps; hmi_cooperating_ := true;
                   shutdown_calls := [] |})) = [].
Proof.
  refine (proj1 (unregister_all_applications 2 example_env
                   {| manager := two_apps; hmi_cooperating_ := true;
                      shutdown_calls := [] |} _)).
  vm_compute. lia.
Defined.

(** ** Protocol version, application types, correlation ids, disk space *)

(** X22.  The application manager and the protocol handler answer the
    same protocol version for every profile: 4 when protocol 4 is
    enabled, else 3 when a heart beat timeout is set, else 2. *)
Theorem managers_agree_on_protocol_version (pr : Profile) :
  SupportedSDLVersion pr = SupportedSDLProtocolVersion pr
  /\ SupportedSDLVersion pr
     = (if enable_protocol_4 pr then 4
        else if heart_beat_timeout pr =? 0 then 2 else 3)
  /\ (SupportedSDLVersion pr = kV4 <-> enable_protocol_4 pr = true)
  /\ (SupportedSDLVersion pr = kV3 <->
        enable_protocol_4 pr = false /\ heart_beat_timeout pr <> 0)
  /\ (SupportedSDLVersion pr = kV2 <->
        enable_protocol_4 pr = false /\ heart_beat_timeout pr = 0).
Proof.
  unfold SupportedSDLVersion, SupportedSDLProtocolVersion, kV4, kV3, kV2,
    PROTOCOL_VERSION_4, PROTOCOL_VERSION_3, PROTOCOL_VERSION_2.
  rewrite (Z.eqb_sym 0 (heart_beat_timeout pr)).
  destruct (enable_protocol_4 pr); cbn zeta.
  - split; [reflexivity|]. split; [reflexivity|]. split; [|split].
    + split; reflexivity.
    + split; [discriminate | intros [H _]; discriminate].
    + split; [discriminate | intros [H _]; discriminate].
  - destruct (heart_beat_timeout pr =? 0) eqn:E; cbn [negb].
    + apply Z.eqb_eq in E. split; [reflexivity|]. split; [reflexivity|].
      split; [|split].
      * split; discriminate.
      * split; [discriminate | intros [_ H]; contradiction].
      * split; auto.
    + apply Z.eqb_neq in E. split; [reflexivity|]. split; [reflexivity|].
      split; [|split].
      * split; discriminate.
      * split; auto.
      * split; [discriminate | intros [_ H]; contradiction].
Qed.

Lemma CompareAppHMIType_inner_In x from_policy :
  CompareAppHMIType_inner x from_policy = true <-> In x from_policy.
Proof.
  induction from_policy as [|y rest IH]; cbn.
  - split; [discriminate | contradiction].
  - destruct (x =? y) eqn:E.
    + apply Z.eqb_eq in E. split; auto.
    + apply Z.eqb_neq in E. rewrite IH. split; [auto|].
      intros [H|H]; [congruence | exact H].
Qed.

(** X23.  [CompareAppHMIType] answers whether every type the application
    names is among the types of the policy: order and repetition do not
    matter, and types that only the policy names do not count. *)
Theorem application_types_within_policy (from_policy from_application : list Z) :
  CompareAppHMIType from_policy from_application = true
  <-> forall x, In x from_application -> In x from_policy.
Proof.
  induction from_application as [|x rest IH]; cbn.
  - split; [intros _ y [] | reflexivity].
  - destruct (CompareAppHMIType_inner x from_policy) eqn:E.
    + apply CompareAppHMIType_inner_In in E. rewrite IH. split.
      * intros H y [<-|Hy]; auto.
      * intros H y Hy. apply H. right. exact Hy.
    + split; [discriminate|]. intros H.
      assert (Hx : In x from_policy) by (apply H; left; reflexivity).
      apply CompareAppHMIType_inner_In in Hx. congruence.
Qed.

(** X24.  An application id kept under a correlation id is given out
    once: the first [application_id] returns the id that was kept first
    under that correlation id (a later [set_application_id] does not
    replace it) and forgets it, a second one returns 0; other correlation
    ids are not touched. *)
Theorem application_id_is_given_out_once (correlation_id app_id : Z) (m : gmap Z Z) :
  let m1 := set_application_id correlation_id app_id m in
  let r := application_id correlation_id m1 in
  fst r = default app_id (m !! correlation_id)
  /\ snd r = delete correlation_id m
  /\ application_id correlation_id (snd r) = (0, snd r)
  /\ (forall other, other <> correlation_id -> snd r !! other = m !! other).
Proof.
  intros m1 r.
  assert (Hr : r = (default app_id (m !! correlation_id), delete correlation_id m)).
  { unfold r, m1, set_application_id, application_id.
    destruct (m !! correlation_id) as [old|] eqn:E.
    - rewrite E. reflexivity.
    - rewrite lookup_insert_eq. cbn. f_equal. apply delete_insert_eq. }
  rewrite Hr. cbn [fst snd]. repeat split.
  - unfold application_id. rewrite lookup_delete_eq. reflexivity.
  - intros other Hne. apply lookup_delete_ne. congruence.
Qed.

(** X25.  The space granted to an application is never more than its
    quota; when its folder exists it is never more than what the folder
    leaves of the quota, and it is nothing once the folder is larger than
    the quota; it is never more than a free disk space below 2^32. *)
Theorem available_space_bounds (app_quota size_of_directory available : Z) :
  0 <= app_quota < 2 ^ 32 ->
  0 <= size_of_directory ->
  let r := GetAvailableSpaceForApp app_quota (Some (size_of_directory, available)) in
  0 <= r <= app_quota
  /\ (size_of_directory <= app_quota -> r + size_of_directory <= app_quota)
  /\ (app_quota < size_of_directory -> r = 0)
  /\ (0 <= available < 2 ^ 32 -> r <= available)
  /\ GetAvailableSpaceForApp app_quota None = app_quota.
Proof.
  intros Hq Hs r. unfold r, GetAvailableSpaceForApp.
  destruct (app_quota <? size_of_directory) eqn:E.
  - apply Z.ltb_lt in E. repeat split; lia.
  - apply Z.ltb_ge in E.
    assert (Hc : u32 (app_quota - size_of_directory) = app_quota - size_of_directory).
    { unfold u32. apply Z.mod_small. lia. }
    pose proof (u32_range available) as Ha.
    rewrite Hc. cbn zeta.
    destruct (u32 available <? app_quota - size_of_directory) eqn:E2.
    + apply Z.ltb_lt in E2. repeat split; try lia.
      intros Hav. unfold u32. rewrite Z.mod_small by lia. lia.
    + apply Z.ltb_ge in E2. repeat split; try lia.
      intros Hav. unfold u32 in E2. rewrite Z.mod_small in E2 by lia. lia.
Qed.

Lemma available_space_bounds_witness :
  GetAvailableSpaceForApp 1000 (Some (400, 5000)) + 400 <= 1000.
Proof.
  refine (proj1 (proj2 (available_space_bounds 1000 400 5000 _ _)) _); lia.
Defined.

(** ** HMI level an application may take *)

(** X26.  [IsHmiLevelFullAllowed] offers Full to an application only
    when no application is active or when Full is the default level of
    the policy; with no application active and no other audio
    application of the same type in Full or Limited it offers Full. *)
Theorem full_is_offered_when_no_application_is_active (env : Collaborators)
    (app : Application) (am : ApplicationManagerImpl) :
  (IsHmiLevelFullAllowed env app am = HMILevel.HMI_FULL ->
     active_application am = None
     \/ GetDefaultHmiLevel env app = HMILevel.HMI_FULL)
  /\ (active_application am = None ->
      IsAppTypeExistsInFullOrLimited app am = false ->
      IsHmiLevelFullAllowed env app am = HMILevel.HMI_FULL)
  /\ (IsAudioApplication app = false ->
      IsHmiLevelFullAllowed env app am
      = if bool_decide (is_Some (active_application am))
        then GetDefaultHmiLevel env app else HMILevel.HMI_FULL).
Proof.
  unfold IsHmiLevelFullAllowed. cbn zeta. split; [|split].
  - destruct (IsAudioApplication app && IsAppTypeExistsInFullOrLimited app am);
      [auto|].
    destruct (active_application am) as [a|]; [|auto].
    rewrite bool_decide_eq_true_2 by (eexists; reflexivity). cbn [andb].
    destruct (IsAudioApplication app); cbn [negb]; [discriminate | auto].
  - intros -> ->. rewrite andb_false_r.
    rewrite bool_decide_eq_false_2 by (intros [x Hx]; discriminate). reflexivity.
  - intros ->. cbn [andb negb]. rewrite !andb_false_r, andb_true_r. reflexivity.
Qed.

Lemma full_is_offered_when_no_application_is_active_witness :
  IsHmiLevelFullAllowed example_env navi_app initial_manager = HMILevel.HMI_FULL.
Proof.
  refine (proj1 (proj2 (full_is_offered_when_no_application_is_active example_env
                          navi_app initial_manager)) _ _); reflexivity.
Defined.

(** ** What else an unregistration releases *)

Lemma UnregisterApplication_found env id reason resuming unexpected am app :
  application id am = Some app ->
  let am' := UnregisterApplication env id reason resuming unexpected am in
  let last_v4 :=
    bool_decide (Find (AppV4DevicePredicate (device app))
                   (Erase id (applications_ am)) = None) in
  audio_pass_thru_active_ am' = false
  /\ apps_to_register_ am'
     = (if last_v4
        then List.filter (fun a => negb (device a =? device app)) (apps_to_register_ am)
        else apps_to_register_ am)
  /\ (audio_pass_thru_active_ am = true -> In (StopAudioPassThru id) (events am'))
  /\ (audio_pass_thru_active_ am = false -> ~ In (StopAudioPassThru id) (events am) ->
      ~ In (StopAudioPassThru id) (events am'))
  /\ (last_v4 = true -> In SendUpdateAppList (events am')).
Proof.
  intros Happ. unfold UnregisterApplication.
  set (am1 := emit _ am).
  set (am2 := match reason with Result.TOO_MANY_PENDING_REQUESTS => _ | _ => am1 end).
  assert (H2 : application id am2 = Some app
               /\ applications_ am2 = applications_ am
               /\ apps_to_register_ am2 = apps_to_register_ am
               /\ audio_pass_thru_active_ am2 = audio_pass_thru_active_ am
               /\ events am2 = events am1).
  { unfold am2. destruct reason; try (repeat split; exact Happ).
    change (application id am1) with (application id am). rewrite Happ.
    repeat split. exact Happ. }
  destruct H2 as (Ha & Hs & Hw & Hp & He). rewrite Ha. clearbody am2.
  assert (He1 : events am2
                = events am ++ [SendOnAppInterfaceUnregisteredNotificationToMobile id
                                  (unregister_reason_ am)])
    by (rewrite He; reflexivity).
  clear He. clearbody am1. cbn zeta.
  set (am3 := with_applications (Erase id (applications_ am2)) am2).
  assert (H3 : applications_ am3 = Erase id (applications_ am)
               /\ apps_to_register_ am3 = apps_to_register_ am
               /\ audio_pass_thru_active_ am3 = audio_pass_thru_active_ am
               /\ events am3 = events am2).
  { unfold am3. cbn. rewrite Hs. auto. }
  clearbody am3. destruct H3 as (H3s & H3w & H3p & H3e). rewrite H3s.
  set (am4 := match Find (AppV4DevicePredicate (device app))
                      (Erase id (applications_ am)) with
              | Some _ => am3
              | None => emit SendUpdateAppList
                          (RemoveAppsWaitingForRegistration (device app) am3)
              end).
  set (last_v4 := bool_decide _).
  assert (H4 : apps_to_register_ am4
               = (if last_v4
                  then List.filter (fun a => negb (device a =? device app))
                         (apps_to_register_ am)
                  else apps_to_register_ am)
               /\ audio_pass_thru_active_ am4 = audio_pass_thru_active_ am
               /\ events am4 = events am3 ++ (if last_v4 then [SendUpdateAppList] else [])).
  { unfold am4, last_v4.
    destruct (Find (AppV4DevicePredicate (device app)) (Erase id (applications_ am))).
    - rewrite bool_decide_eq_false_2 by discriminate. rewrite app_nil_r. auto.
    - rewrite bool_decide_eq_true_2 by reflexivity. cbn. rewrite H3w. auto. }
  clearbody am4. destruct H4 as (H4w & H4p & H4e).
  set (am5 := if resuming then emit (ResumeSaveApplication id) am4
              else emit (ResumeRemoveApplicationFromSaved (mobile_app_id app)) am4).
  assert (H5 : apps_to_register_ am5 = apps_to_register_ am4
               /\ audio_pass_thru_active_ am5 = audio_pass_thru_active_ am4
               /\ exists e5, events am5 = events am4 ++ [e5]
                             /\ e5 <> StopAudioPassThru id).
  { unfold am5. destruct resuming; repeat split; eexists; split;
      try apply events_emit; discriminate. }
  clearbody am5. destruct H5 as (H5w & H5p & e5 & H5e & Hne5).
  rewrite H4p in H5p. rewrite H4w in H5w.
  split; [|split; [|split; [|split]]].
  - destruct (audio_pass_thru_active_ am5) eqn:E; [reflexivity|]. cbn. exact E.
  - destruct (audio_pass_thru_active_ am5); cbn; exact H5w.
  - intros Hact. rewrite H5p, Hact. rewrite !events_emit, !in_app_iff.
    left. left. right. left. reflexivity.
  - intros Hact Hnot. rewrite H5p, Hact. rewrite !events_emit, H5e, H4e, H3e, He1.
    rewrite !in_app_iff. intros Hin.
    destruct Hin as [[[[[Hin|Hin]|Hin]|Hin]|Hin]|Hin].
    + contradiction.
    + destruct Hin as [Hin|[]]. discriminate.
    + destruct last_v4; [destruct Hin as [Hin|[]]; discriminate | destruct Hin].
    + destruct Hin as [Hin|[]]. congruence.
    + destruct Hin as [Hin|[]]. discriminate.
    + destruct Hin as [Hin|[]]. discriminate.
  - intros Hlast.
    assert (Hin : In SendUpdateAppList (events am5)).
    { rewrite H5e, H4e, Hlast, !in_app_iff. left. right. left. reflexivity. }
    destruct (audio_pass_thru_active_ am5); rewrite !events_emit, !in_app_iff; auto.
Qed.

(** X27.  One audio pass-through at a time: [begin_audio_pass_thru]
    succeeds exactly when none is active and then a second one fails
    until [end_audio_pass_thru]; and the unregistration of a registered
    application, whichever it is, stops an active pass-through, so that
    the next [begin_audio_pass_thru] succeeds. *)
Theorem audio_pass_thru_is_exclusive (env : Collaborators) (id : Z)
    (reason : Result.eType) (resuming unexpected : bool) (app : Application)
    (am : ApplicationManagerImpl) :
  application id am = Some app ->
  fst (begin_audio_pass_thru am) = negb (audio_pass_thru_active_ am)
  /\ fst (begin_audio_pass_thru (snd (begin_audio_pass_thru am))) = false
  /\ fst (end_audio_pass_thru (snd (begin_audio_pass_thru am))) = true
  /\ fst (begin_audio_pass_thru
            (snd (end_audio_pass_thru (snd (begin_audio_pass_thru am))))) = true
  /\ let am' := UnregisterApplication env id reason resuming unexpected am in
     fst (begin_audio_pass_thru am') = true
     /\ (audio_pass_thru_active_ am = true -> In (StopAudioPassThru id) (events am'))
     /\ (audio_pass_thru_active_ am = false -> ~ In (StopAudioPassThru id) (events am) ->
         ~ In (StopAudioPassThru id) (events am')).
Proof.
  intros Happ.
  destruct (UnregisterApplication_found env id reason resuming unexpected am app Happ)
    as (H1 & _ & H3 & H4 & _).
  unfold begin_audio_pass_thru, end_audio_pass_thru.
  split; [destruct (audio_pass_thru_active_ am); reflexivity|].
  split; [destruct (audio_pass_thru_active_ am) eqn:E; cbn; rewrite ?E; reflexivity|].
  split; [destruct (audio_pass_thru_active_ am) eqn:E; cbn; rewrite ?E; reflexivity|].
  split; [destruct (audio_pass_thru_active_ am) eqn:E; cbn; rewrite ?E; reflexivity|].
  cbn zeta. rewrite H1. split; [reflexivity|]. split; assumption.
Qed.

(** The navigation application is unregistered while a pass-through is
    active. *)
Lemma audio_pass_thru_is_exclusive_witness :
  fst (begin_audio_pass_thru
         (UnregisterApplication example_env 5 Result.SUCCESS false false
            (with_audio_pass_thru_active true navi_manager))) = true.
Proof.
  destruct (audio_pass_thru_is_exclusive example_env 5 Result.SUCCESS false false
              navi_app (with_audio_pass_thru_active true navi_manager) eq_refl)
    as (_ & _ & _ & _ & H & _).
  exact H.
Defined.

Lemma IsAppsQueriedFrom_loop_In handle l :
  IsAppsQueriedFrom_loop handle l = true <-> In handle (map device l).
Proof.
  induction l as [|a l IH]; cbn.
  - split; [discriminate | contradiction].
  - destruct (handle =? device a) eqn:E.
    + apply Z.eqb_eq in E. split; auto.
    + apply Z.eqb_neq in E. rewrite IH. split; [auto|].
      intros [H|H]; [congruence | exact H].
Qed.

Lemma IsAppsQueriedFrom_loop_filter_other handle d l :
  handle <> d ->
  IsAppsQueriedFrom_loop handle (List.filter (fun a => negb (device a =? d)) l)
  = IsAppsQueriedFrom_loop handle l.
Proof.
  intros Hne. induction l as [|a l IH]; [reflexivity|].
  cbn [List.filter IsAppsQueriedFrom_loop].
  destruct (device a =? d) eqn:E; cbn [negb IsAppsQueriedFrom_loop].
  - apply Z.eqb_eq in E. rewrite IH.
    replace (handle =? device a) with false by lia. reflexivity.
  - rewrite IH. reflexivity.
Qed.

(** X28.  When the last application of protocol version 4 of a device is
    unregistered, exactly the applications of that device are taken off
    the list of those that wait for registration, the others staying in
    their order, so that none of that device is queried any more and
    every other device is queried as before; and the application list is
    sent again.  While another application of version 4 of the device is
    registered the waiting applications stay as they are. *)
Theorem waiting_applications_follow_the_last_v4_application (env : Collaborators)
    (id : Z) (reason : Result.eType) (resuming unexpected : bool) (app : Application)
    (am : ApplicationManagerImpl) :
  application id am = Some app ->
  let am' := UnregisterApplication env id reason resuming unexpected am in
  match Find (AppV4DevicePredicate (device app)) (Erase id (applications_ am)) with
  | None =>
      apps_to_register_ am'
      = List.filter (fun a => negb (device a =? device app)) (apps_to_register_ am)
      /\ IsAppsQueriedFrom (device app) am' = false
      /\ (forall handle, handle <> device app ->
            IsAppsQueriedFrom handle am' = IsAppsQueriedFrom handle am)
      /\ In SendUpdateAppList (events am')
  | Some _ => apps_to_register_ am' = apps_to_register_ am
  end.
Proof.
  intros Happ am'.
  destruct (UnregisterApplication_found env id reason resuming unexpected am app Happ)
    as (_ & H2 & _ & _ & H5).
  fold am' in H2, H5.
  destruct (Find (AppV4DevicePredicate (device app)) (Erase id (applications_ am))).
  - rewrite bool_decide_eq_false_2 in H2 by discriminate. exact H2.
  - rewrite bool_decide_eq_true_2 in H2, H5 by reflexivity.
    split; [exact H2|].
    unfold IsAppsQueriedFrom. rewrite H2. split; [|split].
    + destruct (IsAppsQueriedFrom_loop (device app) _) eqn:E; [|reflexivity].
      apply IsAppsQueriedFrom_loop_In in E. apply in_map_iff in E.
      destruct E as (a & Ha & Hin). apply filter_In in Hin. destruct Hin as [_ Hin].
      rewrite Ha, Z.eqb_refl in Hin. discriminate.
    + intros handle Hne. apply IsAppsQueriedFrom_loop_filter_other. exact Hne.
    + apply H5. reflexivity.
Qed.

(** The only application of its device is unregistered while another
    application of the device waits for registration. *)
Lemma waiting_applications_follow_the_last_v4_application_witness :
  IsAppsQueriedFrom 10
    (UnregisterApplication example_env 5 Result.SUCCESS false false
       (with_apps_to_register [navi_app] navi_manager)) = false.
Proof.
  pose proof (waiting_applications_follow_the_last_v4_application example_env 5
                Result.SUCCESS false false navi_app
                (with_apps_to_register [navi_app] navi_manager) eq_refl) as H.
  exact (proj1 (proj2 H)).
Defined.

(** ** Phone calls *)

Lemma increasing_has_bound ids : increasing ids -> exists lo, increasing_from lo ids.
Proof.
  destruct ids as [|i ids]; intros H.
  - exists 0. exact I.
  - exists (i - 1). split; [lia | exact H].
Qed.

Lemma update_app_middle id f pre a suf :
  app_id a = id -> ~ In id (map app_id pre) ->
  update_app id f (pre ++ a :: suf) = pre ++ f a :: suf.
Proof.
  intros Ha Hpre. induction pre as [|b pre IH]; cbn.
  - rewrite Ha, Z.eqb_refl. reflexivity.
  - destruct (app_id b =? id) eqn:E.
    + apply Z.eqb_eq in E. exfalso. apply Hpre. left. exact E.
    + rewrite IH; [reflexivity|]. intros Hin. apply Hpre. right. exact Hin.
Qed.

Lemma Find_middle id pre a suf :
  app_id a = id -> ~ In id (map app_id pre) ->
  Find (fun x => app_id x =? id) (pre ++ a :: suf) = Some a.
Proof.
  intros Ha Hpre. induction pre as [|b pre IH]; cbn.
  - rewrite Ha, Z.eqb_refl. reflexivity.
  - destruct (app_id b =? id) eqn:E.
    + apply Z.eqb_eq in E. exfalso. apply Hpre. left. exact E.
    + apply IH. intros Hin. apply Hpre. right. exact Hin.
Qed.

Lemma update_app_fixed id f l app :
  Find (fun x => app_id x =? id) l = Some app -> f app = app -> update_app id f l = l.
Proof.
  intros Hfind Hf. induction l as [|b l IH]; [reflexivity|]. cbn in *.
  destruct (app_id b =? id).
  - injection Hfind as ->. rewrite Hf. reflexivity.
  - rewrite IH by exact Hfind. reflexivity.
Qed.

Lemma set_hmi_level_same a : set_hmi_level (hmi_level a) a = a.
Proof. destruct a. reflexivity. Qed.

Lemma applications_notify_hmi_status id am :
  applications_ (notify_hmi_status id am) = applications_ am.
Proof. unfold notify_hmi_status. destruct (application id am); reflexivity. Qed.

(** A change of level that neither ends at None nor restores the
    permission to stream writes the level and nothing else. *)
Lemma ChangeAppsHMILevel_applications id level am app :
  application id am = Some app ->
  level <> HMILevel.HMI_NONE ->
  (is_navi app = true -> full_or_limited (hmi_level app) = true) ->
  applications_ (ChangeAppsHMILevel id level am)
  = update_app id (set_hmi_level level) (applications_ am).
Proof.
  intros Happ Hlevel Hnavi. unfold ChangeAppsHMILevel. rewrite Happ. cbn zeta.
  destruct (bool_decide (hmi_level app = level)) eqn:E.
  - apply bool_decide_eq_true in E. symmetry.
    apply (update_app_fixed id _ _ app Happ). rewrite <- E. apply set_hmi_level_same.
  - unfold OnHMILevelChanged. rewrite application_modify by reflexivity.
    rewrite Happ. cbn [fmap option_fmap option_map].
    change (is_navi (set_hmi_level level app)) with (is_navi app).
    destruct (is_navi app); [|reflexivity].
    rewrite Hnavi by reflexivity.
    destruct level; try reflexivity. congruence.
Qed.

Lemma count_full_on_phone_call l : count_full (map on_phone_call l) = O.
Proof.
  induction l as [|a l IH]; [reflexivity|]. cbn [map count_full]. rewrite IH.
  replace (IsFullscreen (on_phone_call a)) with false; [reflexivity|].
  unfold on_phone_call. destruct (full_or_limited (hmi_level a)) eqn:Efl.
  - destruct (is_navi a); reflexivity.
  - unfold IsFullscreen, is_level. unfold full_or_limited in Efl.
    destruct (hmi_level a); try reflexivity. compute in Efl. discriminate.
Qed.

(** The entry [CreatePhoneCallAppList] keeps of an application. *)
Lemma AppStateMap_insert_last key value m :
  (forall k, In k (map fst m) -> k < key) ->
  AppStateMap_insert key value m = m ++ [(key, value)].
Proof.
  induction m as [|[k v] m IH]; intros H; [reflexivity|]. cbn.
  assert (Hk : k < key) by (apply H; left; reflexivity).
  replace (key <? k) with false by lia. replace (k <? key) with true by lia.
  rewrite IH; [reflexivity|]. intros k' Hin. apply H. right. exact Hin.
Qed.

Lemma CreatePhoneCallAppList_loop suf :
  forall pre lo st,
    (forall x, In x (map app_id pre) -> x <= lo) ->
    (forall k, In k (map fst (on_phone_call_app_list_ st)) -> k <= lo) ->
    increasing_from lo (map app_id suf) ->
    applications_ (call_manager st) = pre ++ suf ->
    let st' := fold_left (fun st id => CreatePhoneCallAppList_step id st)
                 (map app_id suf) st in
    applications_ (call_manager st') = pre ++ map on_phone_call suf
    /\ on_phone_call_app_list_ st'
       = on_phone_call_app_list_ st
         ++ map (fun a => (app_id a,
                           {| state_hmi_level := hmi_level a;
                              state_audio_streaming_state := audio_streaming_state a;
                              state_system_context := system_context a |}))
              (List.filter (fun a => full_or_limited (hmi_level a)) suf).
Proof.
  induction suf as [|a suf IH]; intros pre lo st Hpre Hkeys Hinc Happs.
  - cbn. rewrite !app_nil_r in *. auto.
  - destruct Hinc as [Hlo Hinc]. cbn [map fold_left].
    assert (Hnot : ~ In (app_id a) (map app_id pre)).
    { intros Hin. apply Hpre in Hin. lia. }
    assert (Hfind : application (app_id a) (call_manager st) = Some a).
    { unfold application. rewrite Happs. apply Find_middle; [reflexivity | exact Hnot]. }
    set (st1 := CreatePhoneCallAppList_step (app_id a) st).
    assert (H1 : applications_ (call_manager st1) = (pre ++ [on_phone_call a]) ++ suf
                 /\ on_phone_call_app_list_ st1
                    = on_phone_call_app_list_ st
                      ++ (if full_or_limited (hmi_level a)
                          then [(app_id a,
                                 {| state_hmi_level := hmi_level a;
                                    state_audio_streaming_state := audio_streaming_state a;
                                    state_system_context := system_context a |})]
                          else [])).
    { unfold st1, CreatePhoneCallAppList_step, on_phone_call. rewrite Hfind.
      destruct (full_or_limited (hmi_level a)) eqn:Efl.
      - cbn zeta. cbn [call_manager on_phone_call_app_list_]. split.
        + rewrite applications_notify_hmi_status.
          cbn [applications_ modify with_applications].
          rewrite (ChangeAppsHMILevel_applications _ _ _ a Hfind);
            [| destruct (is_navi a); discriminate | intros _; exact Efl].
          rewrite Happs, update_app_middle by (reflexivity || exact Hnot).
          rewrite update_app_middle by (reflexivity || exact Hnot).
          rewrite update_app_middle by (reflexivity || exact Hnot).
          rewrite <- app_assoc. reflexivity.
        + apply AppStateMap_insert_last. intros k Hk. apply Hkeys in Hk. lia.
      - rewrite app_nil_r, <- app_assoc. auto. }
    destruct H1 as [H1a H1b].
    destruct (IH (pre ++ [on_phone_call a]) (app_id a) st1) as [H2a H2b].
    + intros x Hx. rewrite map_app, in_app_iff in Hx. destruct Hx as [Hx|Hx].
      * apply Hpre in Hx. lia.
      * cbn in Hx. destruct Hx as [<-|[]].
        unfold on_phone_call. destruct (full_or_limited (hmi_level a)); cbn; lia.
    + intros k Hk. rewrite H1b, map_app, in_app_iff in Hk. destruct Hk as [Hk|Hk].
      * apply Hkeys in Hk. lia.
      * destruct (full_or_limited (hmi_level a)); cbn in Hk; [|destruct Hk].
        destruct Hk as [<-|[]]. lia.
    + exact Hinc.
    + exact H1a.
    + cbn zeta. split.
      * rewrite H2a, <- app_assoc. reflexivity.
      * rewrite H2b, H1b. cbn [List.filter].
        destruct (full_or_limited (hmi_level a)); cbn [map app].
        -- rewrite <- app_assoc. reflexivity.
        -- rewrite app_nil_r. reflexivity.
Qed.

Lemma ResetPhoneCallAppList_loop suf :
  forall pre lo am,
    (forall x, In x (map app_id pre) -> x <= lo) ->
    increasing_from lo (map app_id suf) ->
    applications_ am = pre ++ map on_phone_call suf ->
    applications_
      (fold_left (fun am entry => ResetPhoneCallAppList_step entry am)
         (map (fun a => (app_id a,
                         {| state_hmi_level := hmi_level a;
                            state_audio_streaming_state := audio_streaming_state a;
                            state_system_context := system_context a |}))
            (List.filter (fun a => full_or_limited (hmi_level a)) suf)) am)
    = pre ++ suf.
Proof.
  induction suf as [|a suf IH]; intros pre lo am Hpre Hinc Happs.
  - cbn in *. rewrite app_nil_r in *. exact Happs.
  - destruct Hinc as [Hlo Hinc].
    assert (Hnot : ~ In (app_id a) (map app_id pre)).
    { intros Hin. apply Hpre in Hin. lia. }
    assert (Hpre' : forall x, In x (map app_id (pre ++ [a])) -> x <= app_id a).
    { intros x Hx. rewrite map_app, in_app_iff in Hx. destruct Hx as [Hx|Hx].
      - apply Hpre in Hx. lia.
      - cbn in Hx. destruct Hx as [<-|[]]. lia. }
    cbn [List.filter map] in *.
    destruct (full_or_limited (hmi_level a)) eqn:Efl.
    + cbn [map fold_left].
      set (a' := on_phone_call a) in *.
      assert (Hid : app_id a' = app_id a).
      { unfold a', on_phone_call. rewrite Efl. reflexivity. }
      assert (Hfind : application (app_id a) am = Some a').
      { unfold application. rewrite Happs. apply Find_middle; [exact Hid | exact Hnot]. }
      set (am1 := ResetPhoneCallAppList_step _ am).
      assert (H1 : applications_ am1 = (pre ++ [a]) ++ map on_phone_call suf).
      { unfold am1, ResetPhoneCallAppList_step. cbn [fst snd]. rewrite Hfind.
        cbn zeta. rewrite Hid. rewrite applications_notify_hmi_status.
        cbn [applications_ modify with_applications state_hmi_level
               state_audio_streaming_state state_system_context].
        rewrite (ChangeAppsHMILevel_applications _ _ _ a' Hfind).
        - rewrite Happs, update_app_middle by (exact Hid || exact Hnot).
          rewrite update_app_middle by (exact Hid || exact Hnot).
          rewrite update_app_middle by (exact Hid || exact Hnot).
          rewrite <- app_assoc. cbn [app]. f_equal. f_equal.
          unfold a', on_phone_call. rewrite Efl. destruct a. reflexivity.
        - intros E. rewrite E in Efl. discriminate.
        - unfold a', on_phone_call. rewrite Efl. cbn.
          intros ->. reflexivity. }
      rewrite (IH (pre ++ [a]) (app_id a) am1 Hpre' Hinc H1).
      rewrite <- app_assoc. reflexivity.
    + assert (Ha : on_phone_call a = a) by (unfold on_phone_call; rewrite Efl; reflexivity).
      rewrite (IH (pre ++ [a]) (app_id a) am Hpre' Hinc).
      * rewrite <- app_assoc. reflexivity.
      * rewrite Happs, Ha, <- app_assoc. reflexivity.
Qed.

(** X29.  A phone call and its end are a round trip for the
    applications: [CreatePhoneCallAppList] moves every application in
    Full or Limited to Limited if it is a navigation application and to
    Background otherwise, not audible, so that no application is in Full
    during the call, and [ResetPhoneCallAppList] gives every application
    the level, the audio state and the system context it had and empties
    the list of the states kept. *)
Theorem phone_call_round_trip (st : PhoneCall) :
  ordered (call_manager st) ->
  on_phone_call_app_list_ st = [] ->
  let st1 := CreatePhoneCallAppList st in
  let st2 := ResetPhoneCallAppList st1 in
  applications_ (call_manager st1)
  = map on_phone_call (applications_ (call_manager st))
  /\ count_full (applications_ (call_manager st1)) = O
  /\ applications_ (call_manager st2) = applications_ (call_manager st)
  /\ on_phone_call_app_list_ st2 = [].
Proof.
  intros Hord Hempty st1 st2.
  destruct (increasing_has_bound _ Hord) as [lo Hlo].
  destruct (CreatePhoneCallAppList_loop (applications_ (call_manager st)) [] lo st)
    as [H1 H2]; try assumption; try reflexivity.
  { intros x []. }
  { rewrite Hempty. intros k []. }
  fold (CreatePhoneCallAppList st) in H1, H2. fold st1 in H1, H2.
  cbn [app] in H1. rewrite Hempty in H2. cbn [app] in H2.
  split; [exact H1|]. split; [rewrite H1; apply count_full_on_phone_call|].
  split; [|reflexivity].
  unfold st2, ResetPhoneCallAppList. cbn [call_manager]. rewrite H2.
  apply (ResetPhoneCallAppList_loop _ [] lo).
  - intros x [].
  - exact Hlo.
  - exact H1.
Qed.

(** The navigation application in Full during a call and after it. *)
Lemma phone_call_round_trip_witness :
  let st := {| call_manager := navi_manager; on_phone_call_app_list_ := [] |} in
  count_full (applications_ (call_manager (CreatePhoneCallAppList st))) = O
  /\ applications_ (call_manager (ResetPhoneCallAppList (CreatePhoneCallAppList st)))
     = [navi_app].
Proof.
  intros st.
  destruct (phone_call_round_trip st I eq_refl) as (_ & H2 & H3 & _).
  split; [exact H2 | exact H3].
Defined.

(** ** Reassembly of inbound multi-frame messages *)

Lemma MultiFramePacket_new_total (p : ProtocolPacket) (N : Z) (tail : list byte) :
  0 <= N < 2 ^ 32 -> data p = be32 N ++ tail ->
  MultiFramePacket_new p = {| first_frame := set_data [] p; total_data_bytes := N |}.
Proof.
  intros HN Hd. unfold MultiFramePacket_new. rewrite Hd.
  pose proof (be32_decode_be32 N HN) as H. unfold be32 in *. cbn [app].
  rewrite H. reflexivity.
Qed.

(** The Consecutive frames before the last are appended to the packet
    kept for the message. *)
Lemma receive_inner_frames so connection first N chunks :
  forall acc ph,
    session_observer_ ph = Some so ->
    incomplete_multi_frame_messages_ ph !! KeyFromPair so connection (session_id first)
    = Some {| first_frame := set_data acc first; total_data_bytes := N |} ->
    Forall (inner_frame (session_id first)) chunks ->
    Z.of_nat (length acc + length (concat (map data chunks))) <= N ->
    let ph' := receive_frames connection chunks ph in
    incomplete_multi_frame_messages_ ph' !! KeyFromPair so connection (session_id first)
    = Some {| first_frame := set_data (acc ++ concat (map data chunks)) first;
              total_data_bytes := N |}
    /\ calls ph' = calls ph
    /\ posted ph' = posted ph
    /\ session_observer_ ph' = Some so
    /\ protocol_observers_ ph' = protocol_observers_ ph.
Proof.
  induction chunks as [|p chunks IH]; intros acc ph Hso Hin Hall Hlen.
  - cbn. rewrite app_nil_r. auto.
  - apply Forall_cons_iff in Hall. destruct Hall as [(Ht & Hd & Hs) Hall].
    cbn [map concat] in *. rewrite length_app in Hlen.
    change (receive_frames connection (p :: chunks) ph)
      with (receive_frames connection chunks (snd (HandleMessage connection p ph))).
    set (ph1 := snd (HandleMessage connection p ph)).
    assert (E1 : ph1 = with_incomplete_multi_frame_messages
                         (<[KeyFromPair so connection (session_id first) :=
                              {| first_frame := set_data (acc ++ data p) first;
                                 total_data_bytes := N |}]>
                            (incomplete_multi_frame_messages_ ph)) ph).
    { unfold ph1, HandleMessage. rewrite Ht. cbn [Z.eqb orb FRAME_TYPE_CONSECUTIVE
        FRAME_TYPE_CONTROL FRAME_TYPE_SINGLE FRAME_TYPE_FIRST Pos.eqb].
      unfold HandleMultiFrameMessage. rewrite Hso, Ht, Hs.
      cbn [Z.eqb FRAME_TYPE_CONSECUTIVE FRAME_TYPE_FIRST Pos.eqb].
      rewrite Hin. unfold appendData, data_size.
      cbn [first_frame total_data_bytes data set_data].
      replace (Z.of_nat (length acc) + Z.of_nat (length (data p)) <=? N) with true
        by (symmetry; apply Z.leb_le; lia).
      replace (frame_data p =? FRAME_DATA_LAST_CONSECUTIVE) with false
        by (symmetry; apply Z.eqb_neq; exact Hd).
      reflexivity. }
    destruct (IH (acc ++ data p) ph1) as (H1 & H2 & H3 & H4 & H5).
    + rewrite E1. exact Hso.
    + rewrite E1. cbn [incomplete_multi_frame_messages_
        with_incomplete_multi_frame_messages]. apply lookup_insert_eq.
    + exact Hall.
    + rewrite length_app. lia.
    + cbn zeta. rewrite <- app_assoc in H1.
      split; [exact H1|].
      split; [rewrite H2, E1; reflexivity|].
      split; [rewrite H3, E1; reflexivity|].
      split; [exact H4|]. rewrite H5, E1. reflexivity.
Qed.

(** X30.  Reassembly, with [appendData] as the design document has it.
    A First frame that announces the size of the payload, followed by the
    Consecutive frames of its session on the same connection, the last of
    them and only the last with frame data 0, reaches the subscribers
    once, when the last frame arrives: with the connection key, the
    protocol version and the service of the First frame and the payloads
    of the Consecutive frames in their order; nothing is posted and the
    message is no longer kept.  A Consecutive frame for a key without a
    First frame is refused with RESULT_FAIL and changes nothing; the last
    frame of a message that arrives while no observer is subscribed is
    refused as well, and the message stays. *)
Theorem reassembly_round_trip (so : SessionObserver) (connection : Z)
    (first last : ProtocolPacket) (chunks : list ProtocolPacket) (tail : list byte)
    (ph : ProtocolHandlerImpl) :
  session_observer_ ph = Some so ->
  frame_type first = FRAME_TYPE_FIRST ->
  Forall (inner_frame (session_id first)) chunks ->
  frame_type last = FRAME_TYPE_CONSECUTIVE ->
  frame_data last = FRAME_DATA_LAST_CONSECUTIVE ->
  session_id last = session_id first ->
  let payload := concat (map data chunks) ++ data last in
  let key := KeyFromPair so connection (session_id first) in
  Z.of_nat (length payload) < 2 ^ 32 ->
  data first = be32 (Z.of_nat (length payload)) ++ tail ->
  let ph1 := receive_frames connection (first :: chunks) ph in
  let r := HandleMessage connection last ph1 in
  (if bool_decide (protocol_observers_ ph = ∅)
   then fst r = RESULT_FAIL
        /\ calls (snd r) = calls ph
        /\ is_Some (incomplete_multi_frame_messages_ (snd r) !! key)
   else fst r = RESULT_OK
        /\ calls (snd r)
           = calls ph ++ [CallNotifySubscribers key (protocol_version first)
                            (service_type first) payload]
        /\ incomplete_multi_frame_messages_ (snd r) !! key = None)
  /\ posted (snd r) = posted ph
  /\ (incomplete_multi_frame_messages_ ph !! key = None ->
      HandleMessage connection last ph = (RESULT_FAIL, ph)).
Proof.
  intros Hso Hfirst Hchunks Hlt Hld Hls payload key Hsize Hdata ph1 r.
  assert (Hdispatch : forall x,
            HandleMessage connection last x = HandleMultiFrameMessage connection last x).
  { intros x. unfold HandleMessage. rewrite Hlt. reflexivity. }
  set (N := Z.of_nat (length payload)) in *.
  set (ph0 := snd (HandleMessage connection first ph)).
  assert (E0 : ph0 = with_incomplete_multi_frame_messages
                       (<[key := {| first_frame := set_data [] first;
                                    total_data_bytes := N |}]>
                          (incomplete_multi_frame_messages_ ph)) ph).
  { unfold ph0, HandleMessage. rewrite Hfirst.
    cbn [Z.eqb orb FRAME_TYPE_CONTROL FRAME_TYPE_SINGLE FRAME_TYPE_FIRST Pos.eqb].
    unfold HandleMultiFrameMessage. rewrite Hso, Hfirst.
    cbn [Z.eqb FRAME_TYPE_FIRST Pos.eqb snd]. fold key.
    rewrite (MultiFramePacket_new_total first N tail) by (unfold N; lia || exact Hdata).
    reflexivity. }
  destruct (receive_inner_frames so connection first N chunks [] ph0)
    as (H1 & H2 & H3 & H4 & H5).
  { rewrite E0. exact Hso. }
  { rewrite E0. cbn [incomplete_multi_frame_messages_
      with_incomplete_multi_frame_messages]. apply lookup_insert_eq. }
  { exact Hchunks. }
  { unfold N, payload. rewrite length_app. cbn [length]. lia. }
  change (receive_frames connection chunks ph0) with ph1 in H1, H2, H3, H4, H5.
  fold key in H1. cbn [app] in H1.
  assert (Hc0 : calls ph0 = calls ph) by (rewrite E0; reflexivity).
  assert (Hp0 : posted ph0 = posted ph) by (rewrite E0; reflexivity).
  assert (Ho0 : protocol_observers_ ph0 = protocol_observers_ ph)
    by (rewrite E0; reflexivity).
  assert (Happend : appendData (data last)
                      {| first_frame := set_data (concat (map data chunks)) first;
                         total_data_bytes := N |}
                    = Some {| first_frame := set_data payload first;
                              total_data_bytes := N |}).
  { unfold appendData, data_size. cbn [first_frame total_data_bytes data set_data].
    replace (_ <=? N) with true; [reflexivity|].
    symmetry. apply Z.leb_le. unfold N, payload. rewrite length_app. lia. }
  split; [|split].
  - unfold r. rewrite Hdispatch. unfold HandleMultiFrameMessage.
    rewrite H4, Hlt, Hls. cbn [Z.eqb FRAME_TYPE_CONSECUTIVE FRAME_TYPE_FIRST Pos.eqb].
    fold key. rewrite H1, Happend, Hld. cbn [Z.eqb FRAME_DATA_LAST_CONSECUTIVE].
    cbn [protocol_observers_ with_incomplete_multi_frame_messages].
    rewrite H5, Ho0.
    destruct (bool_decide (protocol_observers_ ph = ∅)); cbn [fst snd].
    + split; [reflexivity|]. split; [change (calls ph1 = calls ph); congruence|].
      cbn [incomplete_multi_frame_messages_ with_incomplete_multi_frame_messages].
      rewrite lookup_insert_eq. eexists. reflexivity.
    + split; [reflexivity|]. split.
      * cbn [calls call with_incomplete_multi_frame_messages first_frame
               session_id protocol_version service_type data set_data].
        fold key. change (calls ph1 ++ [CallNotifySubscribers key (protocol_version first)
                                          (service_type first) payload]
                          = calls ph ++ [CallNotifySubscribers key
                                           (protocol_version first)
                                           (service_type first) payload]).
        rewrite H2, Hc0. reflexivity.
      * cbn [incomplete_multi_frame_messages_ with_incomplete_multi_frame_messages
               call]. apply lookup_delete_eq.
  - unfold r. rewrite Hdispatch. unfold HandleMultiFrameMessage.
    rewrite H4, Hlt, Hls. cbn [Z.eqb FRAME_TYPE_CONSECUTIVE FRAME_TYPE_FIRST Pos.eqb].
    fold key. rewrite H1, Happend, Hld. cbn [Z.eqb FRAME_DATA_LAST_CONSECUTIVE].
    cbn [protocol_observers_ with_incomplete_multi_frame_messages].
    destruct (bool_decide _); cbn [snd]; change (posted ph1 = posted ph); congruence.
  - intros Hnone. rewrite Hdispatch. unfold HandleMultiFrameMessage.
    rewrite Hso, Hlt, Hls. cbn [Z.eqb FRAME_TYPE_CONSECUTIVE FRAME_TYPE_FIRST Pos.eqb].
    fold key. rewrite Hnone. reflexivity.
Qed.

(** A message of three bytes in a First frame and two Consecutive
    frames. *)
Lemma reassembly_round_trip_witness :
  calls (snd (HandleMessage 7 (inbound_frame FRAME_TYPE_CONSECUTIVE 0 [x03])
                (receive_frames 7
                   [inbound_frame FRAME_TYPE_FIRST 0 (be32 3 ++ be32 2);
                    inbound_frame FRAME_TYPE_CONSECUTIVE 1 [x01; x02]]
                   example_handler)))
  = [CallNotifySubscribers 1793 3 SERVICE_TYPE_RPC [x01; x02; x03]].
Proof.
  assert (HA : Forall (inner_frame 1)
                 [inbound_frame FRAME_TYPE_CONSECUTIVE 1 [x01; x02]])
    by (repeat constructor; discriminate).
  destruct (reassembly_round_trip example_observer 7
              (inbound_frame FRAME_TYPE_FIRST 0 (be32 3 ++ be32 2))
              (inbound_frame FRAME_TYPE_CONSECUTIVE 0 [x03])
              [inbound_frame FRAME_TYPE_CONSECUTIVE 1 [x01; x02]]
              (be32 2) example_handler eq_refl eq_refl HA eq_refl eq_refl eq_refl)
    as (H & _ & _).
  - vm_compute. reflexivity.
  - reflexivity.
  - rewrite bool_decide_eq_false_2 in H by (vm_compute; discriminate).
    destruct H as (_ & H & _). exact H.
Defined.
